(** * rANS_static.c: a shallow embedding of the order-0 / order-1 rANS codec

    The development follows [src/io_lib/rANS_static.c]: first the byte-aligned
    rANS engine ([rans_byte.h], included at the top of the file), then the
    memory-to-memory order-0 and order-1 compressors and decompressors, then
    the two entry points [rans_compress] and [rans_uncompress].

    Conventions of the embedding.
    - [uint32_t], [uint64_t], [uint16_t] and [unsigned char] values are
      integers of [Z] with the wrap-around written out ([u32], [u64], [u16],
      [u8]); [int] values are integers of [Z].
    - A C function that can return [NULL], fail an [assert] or run into
      undefined behaviour returns a [result].
    - The encoder writes its output backwards ([*--ptr = b]): the bytes
      between [ptr] and [out_end] are a list and a write is a cons.  The
      decoder reads forwards ([*ptr++]): the bytes from [ptr] to the end of
      the frame are a list and a read takes its head; a read past the end of
      the frame is undefined behaviour.
    - Arrays indexed by byte values ([F[256]], [syms[256]], [D.R]) are
      functions on [Z]; an array that C leaves uninitialised is a function
      into [option].
    - The capacity of the output buffer ([malloc(1.05*in_size + 257*257*3 + 9)])
      is not modelled: allocation succeeds and the buffer is large enough.
      The conversion [(int)(1.05*in_size)] that places [out_end] is
      modelled: it is undefined behaviour when the value does not fit an
      [int]. *)

From Stdlib Require Import ZArith List Lia Bool Arith.
From Stdlib Require Import Floats.SpecFloat.
Import ListNotations.
Open Scope Z_scope.

(* ===================================================================== *)
(** * Results of C calls                                                   *)
(* ===================================================================== *)

Inductive result (A : Type) : Type :=
| Ok (a : A)     (* normal return *)
| Null           (* the function returns NULL *)
| Abort          (* an assert() fails *)
| Undefined.     (* undefined behaviour: division by zero, a read outside a
                    buffer or of an uninitialised object, signed overflow *)
Arguments Ok {A} a.
Arguments Null {A}.
Arguments Abort {A}.
Arguments Undefined {A}.

Definition bind {A B : Type} (r : result A) (k : A -> result B) : result B :=
  match r with
  | Ok a => k a
  | Null => Null
  | Abort => Abort
  | Undefined => Undefined
  end.

Notation "x <- c ;; k" := (bind c (fun x => k))
  (at level 61, c at next level, right associativity).
Notation "' p <- c ;; k" := (bind c (fun x => match x with p => k end))
  (at level 61, p pattern, c at next level, right associativity).

Definition of_option {A : Type} (o : option A) : result A :=
  match o with Some a => Ok a | None => Undefined end.

(* ===================================================================== *)
(** * Machine integers and arrays                                          *)
(* ===================================================================== *)

Definition u8  (z : Z) : Z := z mod 2^8.
Definition u16 (z : Z) : Z := z mod 2^16.
Definition u32 (z : Z) : Z := z mod 2^32.
Definition u64 (z : Z) : Z := z mod 2^64.
(* conversion of a 32-bit pattern to [int] *)
Definition s32 (z : Z) : Z := (z + 2^31) mod 2^32 - 2^31.

Definition bytes := list Z.

(* a[i] := v *)
Definition upd {A : Type} (a : Z -> A) (i : Z) (v : A) : Z -> A :=
  fun k => if k =? i then v else a k.

(* in[i], undefined outside the buffer *)
Definition rd (buf : bytes) (i : Z) : result Z :=
  if i <? 0 then Undefined else of_option (nth_error buf (Z.to_nat i)).

(* the indices lo, lo+1, ..., lo+n-1 of a [for] loop *)
Definition zrange (lo : Z) (n : nat) : list Z :=
  map (fun k => lo + Z.of_nat k) (seq 0 n).

(* ===================================================================== *)
(** * rans_byte.h                                                          *)
(* ===================================================================== *)

(* #define RANS_BYTE_L (1u << 23) *)
Definition RANS_BYTE_L : Z := Z.shiftl 1 23.

(* typedef uint32_t RansState; *)
Definition RansState := Z.

(* RansEncInit *)
Definition RansEncInit : RansState := RANS_BYTE_L.

(* do { *--ptr = (uint8_t) (x & 0xff); x >>= 8; } while (x >= x_max);
   entered under [if (x >= x_max)].  For a 32-bit [x] the loop ends within
   four rounds unless [x_max] is 0, in which case it never ends. *)
Fixpoint enc_renorm_loop (fuel : nat) (x x_max : Z) (out : bytes)
  : result (Z * bytes) :=
  if x <? x_max then Ok (x, out)
  else match fuel with
       | O => Undefined
       | S fuel' =>
           enc_renorm_loop fuel' (Z.shiftr x 8) x_max (Z.land x 255 :: out)
       end.

(* RansEncRenorm *)
Definition RansEncRenorm (x : RansState) (out : bytes) (freq scale_bits : Z)
  : result (RansState * bytes) :=
  let x_max := u32 (Z.shiftl (Z.shiftr RANS_BYTE_L scale_bits) 8 * freq) in
  enc_renorm_loop 4 x x_max out.

(* RansEncPut: the textbook step x = C(s,x) *)
Definition RansEncPut (r : RansState) (out : bytes) (start freq scale_bits : Z)
  : result (RansState * bytes) :=
  '(x, out') <- RansEncRenorm r out freq scale_bits ;;
  if freq =? 0 then Undefined
  else Ok (u32 (Z.shiftl (x / freq) scale_bits + x mod freq + start), out').

(* RansEncFlush: ptr -= 4; ptr[0..3] = x >> 0, 8, 16, 24 *)
Definition RansEncFlush (r : RansState) (out : bytes) : bytes :=
  u8 (Z.shiftr r 0) :: u8 (Z.shiftr r 8) :: u8 (Z.shiftr r 16)
    :: u8 (Z.shiftr r 24) :: out.

(* RansDecInit *)
Definition RansDecInit (ptr : bytes) : result (RansState * bytes) :=
  match ptr with
  | b0 :: b1 :: b2 :: b3 :: ptr' =>
      Ok (u32 (Z.lor (Z.lor (Z.lor (Z.shiftl b0 0) (Z.shiftl b1 8))
                        (Z.shiftl b2 16)) (Z.shiftl b3 24)), ptr')
  | _ => Undefined
  end.

(* RansDecGet *)
Definition RansDecGet (r : RansState) (scale_bits : Z) : Z :=
  Z.land r (Z.shiftl 1 scale_bits - 1).

(* RansDecRenorm: if (x < L) do x = (x << 8) | *ptr++; while (x < L); *)
Fixpoint RansDecRenorm (x : RansState) (ptr : bytes)
  : result (RansState * bytes) :=
  if x <? RANS_BYTE_L then
    match ptr with
    | [] => Undefined
    | b :: ptr' => RansDecRenorm (u32 (Z.lor (Z.shiftl x 8) b)) ptr'
    end
  else Ok (x, ptr).

(* RansDecAdvanceStep *)
Definition RansDecAdvanceStep (r : RansState) (start freq scale_bits : Z)
  : RansState :=
  let mask := Z.shiftl 1 scale_bits - 1 in
  u32 (freq * Z.shiftr r scale_bits + Z.land r mask - start).

(* RansDecAdvance *)
Definition RansDecAdvance (r : RansState) (ptr : bytes)
  (start freq scale_bits : Z) : result (RansState * bytes) :=
  RansDecRenorm (RansDecAdvanceStep r start freq scale_bits) ptr.

(* typedef struct { uint32_t x_max, rcp_freq, bias;
                    uint16_t cmpl_freq, rcp_shift; } RansEncSymbol; *)
Record RansEncSymbol : Type := mkEncSymbol {
  x_max : Z;
  rcp_freq : Z;
  bias : Z;
  cmpl_freq : Z;
  rcp_shift : Z
}.

(* typedef struct { uint16_t start, freq; } RansDecSymbol; *)
Record RansDecSymbol : Type := mkDecSymbol {
  start : Z;
  freq : Z
}.

(* while (freq > (1u << shift)) shift++;
   [1u << shift] is undefined once shift reaches 32. *)
Fixpoint shift_loop (fuel : nat) (freq shift : Z) : option Z :=
  match fuel with
  | O => None
  | S fuel' =>
      if freq >? Z.shiftl 1 shift then shift_loop fuel' freq (shift + 1)
      else Some shift
  end.

(* RansEncSymbolInit(s, start, freq, scale_bits); the RansAssert lines expand
   to nothing here, [assert.h] being included only after this header. *)
Definition RansEncSymbolInit (start freq scale_bits : Z)
  : result RansEncSymbol :=
  let xm := u32 (Z.shiftl (Z.shiftr RANS_BYTE_L scale_bits) 8 * freq) in
  let cf := u16 (Z.shiftl 1 scale_bits - freq) in
  if freq <? 2 then
    Ok (mkEncSymbol xm (u32 (-1)) (u32 (start + Z.shiftl 1 scale_bits - 1))
          cf (u16 (0 + 32)))
  else
    shift <- of_option (shift_loop 32 freq 0) ;;
    Ok (mkEncSymbol xm
          (u32 (u64 (Z.shiftl 1 (shift + 31) + freq - 1) / freq))
          start cf (u16 (u16 (shift - 1) + 32))).

(* RansDecSymbolInit *)
Definition RansDecSymbolInit (start freq : Z) : RansDecSymbol :=
  mkDecSymbol (u16 start) (u16 freq).

(* RansEncPutSymbol *)
Definition RansEncPutSymbol (r : RansState) (out : bytes) (sym : RansEncSymbol)
  : result (RansState * bytes) :=
  '(x, out') <- enc_renorm_loop 4 r (x_max sym) out ;;
  let q := u32 (Z.shiftr (u64 (x * rcp_freq sym)) (rcp_shift sym)) in
  Ok (u32 (x + bias sym + q * cmpl_freq sym), out').

(* RansDecAdvanceSymbol *)
Definition RansDecAdvanceSymbol (r : RansState) (ptr : bytes)
  (sym : RansDecSymbol) (scale_bits : Z) : result (RansState * bytes) :=
  RansDecAdvance r ptr (start sym) (freq sym) scale_bits.

(* #define TF_SHIFT 12
   #define TOTFREQ (1<<TF_SHIFT) *)
Definition TF_SHIFT : Z := 12.
Definition TOTFREQ : Z := Z.shiftl 1 TF_SHIFT.

(* ===================================================================== *)
(** * Loops, lanes and tables shared by the four codec functions           *)
(* ===================================================================== *)

(* for (i = i0; cond(i); i = next(i)) body;  the body may stop the program.
   Every loop below is bounded, and is given more fuel than it has rounds. *)
Fixpoint for_loop {St : Type} (fuel : nat) (cond : Z -> bool) (next : Z -> Z)
  (body : Z -> St -> result St) (i : Z) (st : St) : result St :=
  match fuel with
  | O => Undefined
  | S fuel' =>
      if cond i then st' <- body i st ;; for_loop fuel' cond next body (next i) st'
      else Ok st
  end.

(* The four interleaved coder states and the byte pointer they share.  The
   compressors call them rans0..rans3 and ptr, the decompressors R[0..3]
   and ptr. *)
Record lanes : Type := mkLanes {
  rans0 : RansState;
  rans1 : RansState;
  rans2 : RansState;
  rans3 : RansState;
  ptr : bytes
}.

Inductive lane : Type := L0 | L1 | L2 | L3.

Definition get_lane (k : lane) (st : lanes) : RansState :=
  match k with
  | L0 => rans0 st | L1 => rans1 st | L2 => rans2 st | L3 => rans3 st
  end.

Definition set_lane (k : lane) (x : RansState) (p : bytes) (st : lanes) : lanes :=
  match k with
  | L0 => mkLanes x (rans1 st) (rans2 st) (rans3 st) p
  | L1 => mkLanes (rans0 st) x (rans2 st) (rans3 st) p
  | L2 => mkLanes (rans0 st) (rans1 st) x (rans3 st) p
  | L3 => mkLanes (rans0 st) (rans1 st) (rans2 st) x p
  end.

(* RansEncPutSymbol(&rans_k, &ptr, &syms[c]) *)
Definition enc_put (syms : Z -> option RansEncSymbol) (k : lane) (c : Z)
  (st : lanes) : result lanes :=
  sym <- of_option (syms c) ;;
  '(x, p) <- RansEncPutSymbol (get_lane k st) (ptr st) sym ;;
  Ok (set_lane k x p st).

(* RansEncFlush(&rans3), (&rans2), (&rans1), (&rans0) *)
Definition enc_flush (st : lanes) : bytes :=
  RansEncFlush (rans0 st) (RansEncFlush (rans1 st)
    (RansEncFlush (rans2 st) (RansEncFlush (rans3 st) (ptr st)))).

(* RansDecInit(&rans0), (&rans1), (&rans2), (&rans3) *)
Definition dec_init (cp : bytes) : result lanes :=
  '(r0, p) <- RansDecInit cp ;;
  '(r1, p) <- RansDecInit p ;;
  '(r2, p) <- RansDecInit p ;;
  '(r3, p) <- RansDecInit p ;;
  Ok (mkLanes r0 r1 r2 r3 p).

(* for(rle=j+1; rle<256 && F[rle]; rle++) ; *)
Fixpoint run_end (fuel : nat) (F : Z -> Z) (rle : Z) : Z :=
  match fuel with
  | O => rle
  | S fuel' =>
      if (rle <? 256) && negb (F rle =? 0) then run_end fuel' F (rle + 1)
      else rle
  end.

(* State of the loop that stores one frequency row and fills [syms]:
   the table bytes written so far, the run counter, the cumulative
   frequency and the encoder symbols. *)
Record row_writer : Type := mkRowWriter {
  rw_cp : bytes;
  rw_rle : Z;
  rw_x : Z;
  rw_syms : Z -> option RansEncSymbol
}.

(* Body of [for (x = rle = j = 0; j < 256; j++) if (F[j]) { ... }]
   (rans_compress_O0, and with F_i_ for F in rans_compress_O1). *)
Definition write_row_step (F : Z -> Z) (j : Z) (st : row_writer)
  : result row_writer :=
  if F j =? 0 then Ok st
  else
    let '(cp, rle) :=
      if negb (rw_rle st =? 0) then (rw_cp st, rw_rle st - 1)
      else
        let cp := rw_cp st ++ [u8 j] in
        if negb (j =? 0) && negb (F (j - 1) =? 0) then
          let rle := run_end 256 F (j + 1) - (j + 1) in
          (cp ++ [u8 rle], rle)
        else (cp, rw_rle st) in
    let cp :=
      if F j <? 128 then cp ++ [u8 (F j)]
      else cp ++ [u8 (Z.lor 128 (Z.shiftr (F j) 8)); u8 (Z.land (F j) 255)] in
    sym <- RansEncSymbolInit (u32 (rw_x st)) (u32 (F j)) TF_SHIFT ;;
    Ok (mkRowWriter cp rle (rw_x st + F j) (upd (rw_syms st) j (Some sym))).

(* The whole loop followed by the terminating [*cp++ = 0]; returns the
   bytes appended to [cp] and the encoder symbols of the row. *)
Definition write_row (F : Z -> Z) (cp : bytes)
  : result (bytes * (Z -> option RansEncSymbol)) :=
  st <- for_loop 257 (fun j => j <? 256) Z.succ (write_row_step F) 0
          (mkRowWriter cp 0 0 (fun _ => None)) ;;
  Ok (rw_cp st ++ [0], rw_syms st).

(* *cp++ = (v>>0)&0xff; ... (v>>24)&0xff *)
Definition le32 (v : Z) : bytes :=
  [Z.land (Z.shiftr v 0) 255; Z.land (Z.shiftr v 8) 255;
   Z.land (Z.shiftr v 16) 255; Z.land (Z.shiftr v 24) 255].

(* The finished frame: the 9 header bytes, the table ([tab] is what was
   written from out_buf+9 on, so tab_size = 9 + length tab), and the
   payload moved down behind the table. *)
Definition make_frame (order : Z) (in_size : Z) (tab : bytes) (payload : bytes)
  : bytes :=
  let tab_size := 9 + Z.of_nat (length tab) in
  let out_size := u32 (Z.of_nat (length payload) + tab_size) in
  order :: le32 (u32 (out_size - 9)) ++ le32 in_size ++ tab ++ payload.

(* typedef struct { struct { int F; int C; } fc[256]; unsigned char *R; }
   ari_decoder;  [R] is NULL or points to TOTFREQ bytes that malloc left
   uninitialised: a slot holds a byte only once memset has written it. *)
Record ari_decoder : Type := mkAriDecoder {
  fc_F : Z -> Z;
  fc_C : Z -> Z;
  R : Z -> option Z
}.

(* memset(&D, 0, sizeof(D)) *)
Definition ari_decoder_zero : ari_decoder :=
  mkAriDecoder (fun _ => 0) (fun _ => 0) (fun _ => None).

(* memset(&D.R[x], j, n) *)
Definition memset (r : Z -> option Z) (x c n : Z) : Z -> option Z :=
  fun s => if (x <=? s) && (s <? x + n) then Some (u8 c) else r s.

(* if ((F = *cp++) >= 128) { F &= ~128; F = ((F & 127) << 8) | *cp++; } *)
Definition read_freq (cp : bytes) : result (Z * bytes) :=
  match cp with
  | [] => Undefined
  | b :: cp1 =>
      if b >=? 128 then
        match cp1 with
        | [] => Undefined
        | b2 :: cp2 =>
            Ok (Z.lor (Z.shiftl (Z.land (Z.land b (Z.lnot 128)) 127) 8) b2, cp2)
        end
      else Ok (b, cp1)
  end.

(* State of the do-while loop that parses one frequency row. *)
Record row_parser : Type := mkRowParser {
  rp_D : ari_decoder;
  rp_syms : Z -> option RansDecSymbol;
  rp_j : Z;
  rp_x : Z;
  rp_rle : Z;
  rp_cp : bytes
}.

(* One round of the do-while loop of rans_uncompress_O0; with [o1] set, of
   the inner loop of rans_uncompress_O1, which differs by the lines
   [if (!D[i].fc[j].F) D[i].fc[j].F = TOTFREQ;].  Index j is within
   fc[256] and syms[256] for every frame the compressors write; an entry
   outside the arrays is undefined behaviour. *)
Definition parse_entry (o1 : bool) (st : row_parser) : result row_parser :=
  let j := rp_j st in
  let x := rp_x st in
  if (j <? 0) || (256 <=? j) then Undefined
  else
    '(F0, cp) <- read_freq (rp_cp st) ;;
    let F := if o1 && (F0 =? 0) then TOTFREQ else F0 in
    if x + F >? TOTFREQ then Null
    else
      let D := mkAriDecoder (upd (fc_F (rp_D st)) j F) (upd (fc_C (rp_D st)) j x)
                 (memset (R (rp_D st)) x j F) in
      let syms := upd (rp_syms st) j (Some (RansDecSymbolInit x F)) in
      let x := x + F in
      if rp_rle st =? 0 then
        match cp with
        | [] => Undefined
        | b :: cp1 =>
            if j + 1 =? b then
              match cp1 with
              | [] => Undefined
              | r :: cp2 => Ok (mkRowParser D syms b x r cp2)
              end
            else Ok (mkRowParser D syms b x 0 cp1)
        end
      else Ok (mkRowParser D syms (j + 1) x (rp_rle st - 1) cp).

(* do { ... } while (j);  every round reads at least one byte, so the loop
   cannot make more rounds than there are bytes left *)
Fixpoint parse_row_loop (fuel : nat) (o1 : bool) (st : row_parser)
  : result row_parser :=
  match fuel with
  | O => Undefined
  | S fuel' =>
      st' <- parse_entry o1 st ;;
      if rp_j st' =? 0 then Ok st' else parse_row_loop fuel' o1 st'
  end.

(* rle = x = 0; j = *cp++; do { ... } while (j); *)
Definition parse_row (o1 : bool) (D : ari_decoder)
  (syms : Z -> option RansDecSymbol) (cp : bytes) : result row_parser :=
  match cp with
  | [] => Undefined
  | j :: cp1 =>
      parse_row_loop (S (length cp1)) o1 (mkRowParser D syms j 0 0 cp1)
  end.

(* c = D.R[RansDecGet(&rans_k, TF_SHIFT)];
   RansDecAdvanceSymbol(&rans_k, &ptr, &syms[c], TF_SHIFT); *)
Definition dec_get (D : ari_decoder) (syms : Z -> option RansDecSymbol)
  (k : lane) (st : lanes) : result (Z * lanes) :=
  c <- of_option (R D (RansDecGet (get_lane k st) TF_SHIFT)) ;;
  sym <- of_option (syms c) ;;
  '(x, p) <- RansDecAdvanceSymbol (get_lane k st) (ptr st) sym TF_SHIFT ;;
  Ok (c, set_lane k x p st).

(* The body of the unrolled decoding loops: four lookups, the four
   multiply and add steps written out in place of RansDecAdvanceSymbolStep,
   then the four RansDecRenorm calls.  Lane k looks its symbol up in
   decoder D_k with decoder symbols syms_k. *)
Definition dec_block (D0 D1 D2 D3 : ari_decoder)
  (s0 s1 s2 s3 : Z -> option RansDecSymbol) (st : lanes)
  : result (Z * Z * Z * Z * lanes) :=
  let mask := Z.shiftl 1 TF_SHIFT - 1 in
  let m0 := Z.land (rans0 st) mask in
  let m1 := Z.land (rans1 st) mask in
  let m2 := Z.land (rans2 st) mask in
  let m3 := Z.land (rans3 st) mask in
  c0 <- of_option (R D0 m0) ;;
  c1 <- of_option (R D1 m1) ;;
  c2 <- of_option (R D2 m2) ;;
  c3 <- of_option (R D3 m3) ;;
  y0 <- of_option (s0 c0) ;;
  y1 <- of_option (s1 c1) ;;
  y2 <- of_option (s2 c2) ;;
  y3 <- of_option (s3 c3) ;;
  let r0 := u32 (freq y0 * Z.shiftr (rans0 st) TF_SHIFT) in
  let r1 := u32 (freq y1 * Z.shiftr (rans1 st) TF_SHIFT) in
  let r2 := u32 (freq y2 * Z.shiftr (rans2 st) TF_SHIFT) in
  let r3 := u32 (freq y3 * Z.shiftr (rans3 st) TF_SHIFT) in
  let r0 := u32 (r0 + (m0 - start y0)) in
  let r1 := u32 (r1 + (m1 - start y1)) in
  let r2 := u32 (r2 + (m2 - start y2)) in
  let r3 := u32 (r3 + (m3 - start y3)) in
  '(r0, p) <- RansDecRenorm r0 (ptr st) ;;
  '(r1, p) <- RansDecRenorm r1 p ;;
  '(r2, p) <- RansDecRenorm r2 p ;;
  '(r3, p) <- RansDecRenorm r3 p ;;
  Ok (c0, c1, c2, c3, mkLanes r0 r1 r2 r3 p).

(* in_sz and out_sz of both decompressors:
   ((in[0])<<0) | ((in[1])<<8) | ((in[2])<<16) | ((in[3])<<24), an int *)
Definition read_int (inp : bytes) (i : Z) : result Z :=
  b0 <- rd inp i ;;
  b1 <- rd inp (i + 1) ;;
  b2 <- rd inp (i + 2) ;;
  b3 <- rd inp (i + 3) ;;
  Ok (s32 (Z.lor (Z.lor (Z.lor (Z.shiftl b0 0) (Z.shiftl b1 8))
                    (Z.shiftl b2 16)) (Z.shiftl b3 24))).

(* The header checks of both decompressors, for order byte [order]:
   returns out_sz.  malloc(out_sz) with a negative out_sz asks for more
   than the address space and returns NULL. *)
Definition read_header (order : Z) (inp : bytes) : result Z :=
  let in_size := u32 (Z.of_nat (length inp)) in
  b0 <- rd inp 0 ;;
  if negb (b0 =? order) then Null
  else
    in_sz <- read_int inp 1 ;;
    out_sz <- read_int inp 5 ;;
    if negb (u32 in_sz =? u32 (in_size - 9)) then Null
    else if out_sz <? 0 then Null
    else Ok out_sz.

(* the returned buffer: out_buf[0 .. out_sz-1] *)
Definition read_out (out_buf : Z -> Z) (out_sz : Z) : bytes :=
  map out_buf (zrange 0 (Z.to_nat out_sz)).

(* ===================================================================== *)
(** * rans_compress_O0                                                     *)
(* ===================================================================== *)

(* C doubles are IEEE 754 binary64 values, as specified by the Standard
   Library: 53 bits of precision, round to nearest even. *)
Definition double : Type := spec_float.
Definition double_of_int (z : Z) : double := binary_normalize 53 1024 z 0 false.
Definition double_div : double -> double -> double := SFdiv 53 1024.
Definition double_mul : double -> double -> double := SFmul 53 1024.

(* (int) d: truncation towards zero, undefined when the integral part does
   not fit an int *)
Definition int_of_double (d : double) : option Z :=
  match d with
  | S754_zero _ => Some 0
  | S754_finite s m e =>
      let a := Z.shiftl (Z.pos m) e in
      let v := if s then - a else a in
      if (- 2^31 <=? v) && (v <? 2^31) then Some v else None
  | _ => None
  end.

(* the constant 1.05: the double nearest to it, 0x1.0cccccccccccdp+0 *)
Definition double_1_05 : double := S754_finite false 4728779608739021 (-52).

(* (int)(1.05*in_size), the offset in
   [out_end = out_buf + (int)(1.05*in_size) + 257*257*3 + 9] *)
Definition out_end_offset (in_size : Z) : result Z :=
  of_option (int_of_double (double_mul double_1_05 (double_of_int in_size))).

(* for (i = 0; i < in_size; i++) F[in[i]]++; *)
Definition count_O0 (inp : bytes) : Z -> Z :=
  fold_left (fun F c => upd F c (F c + 1)) inp (fun _ => 0).

(* tr = ((uint64_t)TOTFREQ<<31)/in_size + (1<<30)/in_size; *)
Definition scale_factor (in_size : Z) : result Z :=
  if in_size =? 0 then Undefined
  else Ok (u64 (u64 (Z.shiftl TOTFREQ 31) / in_size + Z.shiftl 1 30 / in_size)).

(* State of the normalisation loop: F, m, M and the running sum
   (fsum in rans_compress_O0, t2 in rans_compress_O1). *)
Record normaliser : Type := mkNormaliser {
  nm_F : Z -> Z;
  nm_m : Z;
  nm_M : Z;
  nm_sum : Z
}.

(* Body of [for (m = M = j = 0; j < 256; j++)] in rans_compress_O0. *)
Definition norm_step_O0 (tr : Z) (j : Z) (st : normaliser) : result normaliser :=
  let F := nm_F st in
  if F j =? 0 then Ok st
  else
    let '(m, M) := if nm_m st <? F j then (F j, j) else (nm_m st, nm_M st) in
    let f := s32 (Z.shiftr (u64 (F j * tr)) 31) in
    let f := if f =? 0 then 1 else f in
    Ok (mkNormaliser (upd F j f) m M (nm_sum st + f)).

(* fsum++; if (fsum < TOTFREQ) F[M] += TOTFREQ-fsum; else F[M] -= fsum-TOTFREQ; *)
Definition adjust (st : normaliser) (fsum : Z) : Z -> Z :=
  let F := nm_F st in
  let M := nm_M st in
  if fsum <? TOTFREQ then upd F M (F M + (TOTFREQ - fsum))
  else upd F M (F M - (fsum - TOTFREQ)).

(* The normalisation of rans_compress_O0 up to the assert: the adjusted
   table and M. *)
Definition normalise_O0 (F : Z -> Z) (tr : Z) : result ((Z -> Z) * Z) :=
  st <- for_loop 257 (fun j => j <? 256) Z.succ (norm_step_O0 tr) 0
          (mkNormaliser F 0 0 0) ;;
  Ok (adjust st (nm_sum st + 1), nm_M st).

(* The order in which rans_compress_O0 calls RansEncPutSymbol:
   [put k i] stands for RansEncPutSymbol(&rans_k, &ptr, &syms[in[i]]). *)
Section EncodeOrderO0.
Context {St : Type} (put : lane -> Z -> St -> result St).

(* switch (i=(in_size&3)) { case 3: ... case 2: ... case 1: ... case 0: break; } *)
Definition enc_tail_O0 (in_size : Z) (st : St) : result St :=
  let i := Z.land in_size 3 in
  st <- (if i =? 3 then put L2 (in_size - (i - 2)) st else Ok st) ;;
  st <- (if (i =? 3) || (i =? 2) then put L1 (in_size - (i - 1)) st
         else Ok st) ;;
  if (i =? 3) || (i =? 2) || (i =? 1) then put L0 (in_size - (i - 0)) st
  else Ok st.

(* body of for (i=(in_size &~3); i>0; i-=4) *)
Definition enc_block_O0 (i : Z) (st : St) : result St :=
  st <- put L3 (i - 1) st ;;
  st <- put L2 (i - 2) st ;;
  st <- put L1 (i - 3) st ;;
  put L0 (i - 4) st.

Definition enc_order_O0 (in_size : Z) (st : St) : result St :=
  st <- enc_tail_O0 in_size st ;;
  for_loop (S (Z.to_nat in_size)) (fun i => i >? 0) (fun i => i - 4)
    enc_block_O0 (Z.land in_size (Z.lnot 3)) st.
End EncodeOrderO0.

Definition rans_compress_O0 (inp : bytes) : result bytes :=
  let in_size := Z.of_nat (length inp) in
  _ <- out_end_offset in_size ;;
  let F := count_O0 inp in
  tr <- scale_factor in_size ;;
  '(F, M) <- normalise_O0 F tr ;;
  if negb (F M >? 0) then Abort                      (* assert(F[M]>0) *)
  else
    '(tab, syms) <- write_row F [] ;;
    st <- enc_order_O0
            (fun k i st => c <- rd inp i ;; enc_put syms k c st) in_size
            (mkLanes RansEncInit RansEncInit RansEncInit RansEncInit []) ;;
    Ok (make_frame 0 in_size tab (enc_flush st)).

(* ===================================================================== *)
(** * rans_uncompress_O0                                                   *)
(* ===================================================================== *)

(* The order in which rans_uncompress_O0 produces its output: [blk i] is
   one round of the unrolled loop, which writes out_buf[i..i+3], and
   [one k i] is a single step c = D.R[RansDecGet(&rans_k)]; ...;
   out_buf[i] = c of the final switch. *)
Section DecodeOrderO0.
Context {St : Type} (blk : Z -> St -> result St)
  (one : lane -> Z -> St -> result St).

Definition dec_order_O0 (out_sz : Z) (st : St) : result St :=
  let out_end := Z.land out_sz (Z.lnot 3) in
  st <- for_loop (S (Z.to_nat out_sz)) (fun i => i <? out_end)
          (fun i => i + 4) blk 0 st ;;
  let sw := Z.land out_sz 3 in
  if sw =? 1 then one L0 out_end st
  else if sw =? 2 then
    st <- one L0 out_end st ;; one L1 (out_end + 1) st
  else if sw =? 3 then
    st <- one L0 out_end st ;;
    st <- one L1 (out_end + 1) st ;;
    one L2 (out_end + 2) st
  else Ok st.
End DecodeOrderO0.

Definition dec_blk_O0 (D : ari_decoder) (syms : Z -> option RansDecSymbol)
  (i : Z) (st : lanes * (Z -> Z)) : result (lanes * (Z -> Z)) :=
  '(c0, c1, c2, c3, ls) <- dec_block D D D D syms syms syms syms (fst st) ;;
  Ok (ls, upd (upd (upd (upd (snd st) i c0) (i + 1) c1) (i + 2) c2) (i + 3) c3).

Definition dec_one (D : ari_decoder) (syms : Z -> option RansDecSymbol)
  (k : lane) (i : Z) (st : lanes * (Z -> Z)) : result (lanes * (Z -> Z)) :=
  '(c, ls) <- dec_get D syms k (fst st) ;;
  Ok (ls, upd (snd st) i c).

(* Returns the parsed table next to the output; out_buf comes from malloc
   and each of its out_sz bytes is written once before it is returned. *)
Definition uncompress_O0 (inp : bytes) : result (row_parser * bytes) :=
  out_sz <- read_header 0 inp ;;
  row <- parse_row false ari_decoder_zero (fun _ => None) (skipn 9 inp) ;;
  if negb (rp_x row <? TOTFREQ) then Abort           (* assert(x < TOTFREQ) *)
  else
    ls <- dec_init (rp_cp row) ;;
    st <- dec_order_O0 (dec_blk_O0 (rp_D row) (rp_syms row))
            (dec_one (rp_D row) (rp_syms row)) out_sz (ls, fun _ => 0) ;;
    Ok (row, read_out (snd st) out_sz).

Definition rans_uncompress_O0 (inp : bytes) : result bytes :=
  '(_, out) <- uncompress_O0 inp ;; Ok out.

(* ===================================================================== *)
(** * rans_compress_O1                                                     *)
(* ===================================================================== *)

(* F[i][j] := v *)
Definition upd2 {A : Type} (a : Z -> Z -> A) (i j : Z) (v : A) : Z -> Z -> A :=
  upd a i (upd (a i) j v).

(* a + b on int, undefined on overflow *)
Definition int_add (a b : Z) : result Z :=
  let v := a + b in
  if (- 2^31 <=? v) && (v <? 2^31) then Ok v else Undefined.

(* for (last_i=i=0; i<in_size; i++) { F[last_i][c = in[i]]++; T[last_i]++; last_i = c; } *)
Record counter_O1 : Type := mkCounterO1 {
  co_F : Z -> Z -> Z;
  co_T : Z -> Z;
  co_last : Z
}.

Definition count_step_O1 (st : counter_O1) (c : Z) : counter_O1 :=
  let l := co_last st in
  mkCounterO1 (upd2 (co_F st) l c (co_F st l c + 1))
    (upd (co_T st) l (co_T st l + 1)) c.

(* ... followed by F[0][in[k*(in_size>>2)]]++ for k = 1, 2, 3 and T[0]+=3 *)
Definition count_O1 (inp : bytes) : result ((Z -> Z -> Z) * (Z -> Z)) :=
  let in_size := Z.of_nat (length inp) in
  let st := fold_left count_step_O1 inp
              (mkCounterO1 (fun _ _ => 0) (fun _ => 0) 0) in
  let F := co_F st in
  c1 <- rd inp (1 * Z.shiftr in_size 2) ;;
  let F := upd2 F 0 c1 (F 0 c1 + 1) in
  c2 <- rd inp (2 * Z.shiftr in_size 2) ;;
  let F := upd2 F 0 c2 (F 0 c2 + 1) in
  c3 <- rd inp (3 * Z.shiftr in_size 2) ;;
  let F := upd2 F 0 c3 (F 0 c3 + 1) in
  Ok (F, upd (co_T st) 0 (co_T st 0 + 3)).

(* Body of [for (t2 = m = M = j = 0; j < 256; j++)]:
   if ((F[i][j] *= p) == 0) F[i][j] = 1;  t2 += F[i][j]; *)
Definition norm_step_O1 (p : double) (j : Z) (st : normaliser)
  : result normaliser :=
  let F := nm_F st in
  if F j =? 0 then Ok st
  else
    let '(m, M) := if nm_m st <? F j then (F j, j) else (nm_m st, nm_M st) in
    f <- of_option (int_of_double (double_mul (double_of_int (F j)) p)) ;;
    let f := if f =? 0 then 1 else f in
    t2 <- int_add (nm_sum st) f ;;
    Ok (mkNormaliser (upd F j f) m M t2).

(* The normalisation of row i, for T[i] = t, up to
   [t2++; if (t2 < TOTFREQ) F[i][M] += TOTFREQ-t2; else F[i][M] -= t2-TOTFREQ;] *)
Definition normalise_O1 (Fi : Z -> Z) (t : Z) : result (Z -> Z) :=
  let p := double_div (double_of_int TOTFREQ) (double_of_int t) in
  st <- for_loop 257 (fun j => j <? 256) Z.succ (norm_step_O1 p) 0
          (mkNormaliser Fi 0 0 0) ;;
  t2 <- int_add (nm_sum st) 1 ;;
  Ok (adjust st t2).

(* State of the loop over the contexts i. *)
Record table_writer : Type := mkTableWriter {
  tw_F : Z -> Z -> Z;
  tw_cp : bytes;
  tw_rle : Z;
  tw_syms : Z -> Z -> option RansEncSymbol
}.

(* Body of [for (rle_i = i = 0; i < 256; i++)]: normalise row i, store the
   context index (run-length coded), store the row. *)
Definition write_table_step (T : Z -> Z) (i : Z) (st : table_writer)
  : result table_writer :=
  if T i =? 0 then Ok st
  else
    Fi <- normalise_O1 (tw_F st i) (T i) ;;
    let '(cp, rle) :=
      if negb (tw_rle st =? 0) then (tw_cp st, tw_rle st - 1)
      else
        let cp := tw_cp st ++ [u8 i] in
        if negb (i =? 0) && negb (T (i - 1) =? 0) then
          let rle := run_end 256 T (i + 1) - (i + 1) in
          (cp ++ [u8 rle], rle)
        else (cp, tw_rle st) in
    '(cp, syms_i) <- write_row Fi cp ;;
    Ok (mkTableWriter (upd (tw_F st) i Fi) cp rle (upd (tw_syms st) i syms_i)).

(* The table of rans_compress_O1: the bytes written from out_buf+9 on,
   the terminating [*cp++ = 0] included, and the encoder symbols. *)
Definition write_table (F : Z -> Z -> Z) (T : Z -> Z)
  : result (table_writer * bytes) :=
  st <- for_loop 257 (fun i => i <? 256) Z.succ (write_table_step T) 0
          (mkTableWriter F [] 0 (fun _ _ => None)) ;;
  Ok (st, tw_cp st ++ [0]).

(* The coder states with the last symbols l0..l3 of the four lanes. *)
Record lanes_O1 : Type := mkLanesO1 {
  ls : lanes;
  l0 : Z;
  l1 : Z;
  l2 : Z;
  l3 : Z
}.

(* for (i3 = in_size-2; i3 > 4*isz4-2; i3--) {
     c3 = in[i3]; RansEncPutSymbol(&rans3, &ptr, &syms[c3][l3]); l3 = c3; } *)
Definition enc_rem_O1 (syms : Z -> Z -> option RansEncSymbol) (inp : bytes)
  (i3 : Z) (st : lanes_O1) : result lanes_O1 :=
  c3 <- rd inp i3 ;;
  s <- enc_put (syms c3) L3 (l3 st) (ls st) ;;
  Ok (mkLanesO1 s (l0 st) (l1 st) (l2 st) c3).

(* Body of [for (; i0 >= 0; i0--, i1--, i2--, i3--)]; the four indices
   start isz4 apart and move together: i_k = i0 + k*isz4. *)
Definition enc_block_O1 (syms : Z -> Z -> option RansEncSymbol) (inp : bytes)
  (isz4 : Z) (i0 : Z) (st : lanes_O1) : result lanes_O1 :=
  c3 <- rd inp (i0 + 3 * isz4) ;;
  c2 <- rd inp (i0 + 2 * isz4) ;;
  c1 <- rd inp (i0 + 1 * isz4) ;;
  c0 <- rd inp i0 ;;
  s <- enc_put (syms c3) L3 (l3 st) (ls st) ;;
  s <- enc_put (syms c2) L2 (l2 st) s ;;
  s <- enc_put (syms c1) L1 (l1 st) s ;;
  s <- enc_put (syms c0) L0 (l0 st) s ;;
  Ok (mkLanesO1 s c0 c1 c2 c3).

Definition rans_compress_O1 (inp : bytes) : result bytes :=
  let in_size := Z.of_nat (length inp) in
  if in_size <? 4 then rans_compress_O0 inp
  else
    _ <- out_end_offset in_size ;;
    '(F, T) <- count_O1 inp ;;
    '(tw, tab) <- write_table F T ;;
    let syms := tw_syms tw in
    if negb (9 + Z.of_nat (length tab) <? 257 * 257 * 3) then Abort
                                          (* assert(tab_size < 257*257*3) *)
    else
      let isz4 := Z.shiftr in_size 2 in
      let i0 := 1 * isz4 - 2 in
      let i1 := 2 * isz4 - 2 in
      let i2 := 3 * isz4 - 2 in
      let i3 := 4 * isz4 - 2 in
      a0 <- rd inp (i0 + 1) ;;
      a1 <- rd inp (i1 + 1) ;;
      a2 <- rd inp (i2 + 1) ;;
      _ <- rd inp (i3 + 1) ;;
      a3 <- rd inp (in_size - 1) ;;
      st <- for_loop (S (Z.to_nat in_size)) (fun i3 => i3 >? 4 * isz4 - 2)
              Z.pred (enc_rem_O1 syms inp) (in_size - 2)
              (mkLanesO1
                 (mkLanes RansEncInit RansEncInit RansEncInit RansEncInit [])
                 a0 a1 a2 a3) ;;
      st <- for_loop (S (Z.to_nat in_size)) (fun i0 => i0 >=? 0) Z.pred
              (enc_block_O1 syms inp isz4) i0 st ;;
      s <- enc_put (syms 0) L3 (l3 st) (ls st) ;;
      s <- enc_put (syms 0) L2 (l2 st) s ;;
      s <- enc_put (syms 0) L1 (l1 st) s ;;
      s <- enc_put (syms 0) L0 (l0 st) s ;;
      Ok (make_frame 1 in_size tab (enc_flush s)).

(* ===================================================================== *)
(** * rans_uncompress_O1                                                   *)
(* ===================================================================== *)

(* State of the do-while loop over the contexts. *)
Record table_parser : Type := mkTableParser {
  tp_D : Z -> ari_decoder;
  tp_syms : Z -> Z -> option RansDecSymbol;
  tp_i : Z;
  tp_rle : Z;
  tp_cp : bytes
}.

(* One round of [do { rle_j = x = 0; j = *cp++; do {...} while(j); ... }
   while (i)]: parse row i, then find the next context. *)
Definition parse_ctx (st : table_parser) : result table_parser :=
  let i := tp_i st in
  if (i <? 0) || (256 <=? i) then Undefined
  else
    row <- parse_row true (tp_D st i) (tp_syms st i) (tp_cp st) ;;
    let D := upd (tp_D st) i (rp_D row) in
    let syms := upd (tp_syms st) i (rp_syms row) in
    let cp := rp_cp row in
    if tp_rle st =? 0 then
      match cp with
      | [] => Undefined
      | b :: cp1 =>
          if i + 1 =? b then
            match cp1 with
            | [] => Undefined
            | r :: cp2 => Ok (mkTableParser D syms b r cp2)
            end
          else Ok (mkTableParser D syms b 0 cp1)
      end
    else Ok (mkTableParser D syms (i + 1) (tp_rle st - 1) cp).

Fixpoint parse_table_loop (fuel : nat) (st : table_parser)
  : result table_parser :=
  match fuel with
  | O => Undefined
  | S fuel' =>
      st' <- parse_ctx st ;;
      if tp_i st' =? 0 then Ok st' else parse_table_loop fuel' st'
  end.

(* rle_i = 0; i = *cp++; do { ... } while (i); *)
Definition parse_table (cp : bytes) : result table_parser :=
  match cp with
  | [] => Undefined
  | i :: cp1 =>
      parse_table_loop (S (length cp1))
        (mkTableParser (fun _ => ari_decoder_zero) (fun _ _ => None) i 0 cp1)
  end.

(* Body of [for (; i4[0] < isz4; i4[0]++, i4[1]++, i4[2]++, i4[3]++)];
   i4[k] = k*isz4 + i. *)
Definition dec_block_O1 (D : Z -> ari_decoder)
  (syms : Z -> Z -> option RansDecSymbol) (isz4 : Z) (i : Z)
  (st : lanes_O1 * (Z -> Z)) : result (lanes_O1 * (Z -> Z)) :=
  let a := fst st in
  '(c0, c1, c2, c3, s) <-
     dec_block (D (l0 a)) (D (l1 a)) (D (l2 a)) (D (l3 a))
       (syms (l0 a)) (syms (l1 a)) (syms (l2 a)) (syms (l3 a)) (ls a) ;;
  Ok (mkLanesO1 s c0 c1 c2 c3,
      upd (upd (upd (upd (snd st) (0 * isz4 + i) c0) (1 * isz4 + i) c1)
             (2 * isz4 + i) c2) (3 * isz4 + i) c3).

(* Body of [for (; i4[3] < out_sz; i4[3]++)] *)
Definition dec_rem_O1 (D : Z -> ari_decoder)
  (syms : Z -> Z -> option RansDecSymbol) (i : Z)
  (st : lanes_O1 * (Z -> Z)) : result (lanes_O1 * (Z -> Z)) :=
  let a := fst st in
  '(c3, s) <- dec_get (D (l3 a)) (syms (l3 a)) L3 (ls a) ;;
  Ok (mkLanesO1 s (l0 a) (l1 a) (l2 a) c3, upd (snd st) i c3).

Definition uncompress_O1 (inp : bytes) : result (table_parser * bytes) :=
  out_sz <- read_header 1 inp ;;
  tp <- parse_table (skipn 9 inp) ;;
  s <- dec_init (tp_cp tp) ;;
  let isz4 := Z.shiftr out_sz 2 in
  st <- for_loop (S (Z.to_nat out_sz)) (fun i => i <? isz4) Z.succ
          (dec_block_O1 (tp_D tp) (tp_syms tp) isz4) 0
          (mkLanesO1 s 0 0 0 0, fun _ => 0) ;;
  st <- for_loop (S (Z.to_nat out_sz)) (fun i => i <? out_sz) Z.succ
          (dec_rem_O1 (tp_D tp) (tp_syms tp)) (4 * isz4) st ;;
  Ok (tp, read_out (snd st) out_sz).

Definition rans_uncompress_O1 (inp : bytes) : result bytes :=
  '(_, out) <- uncompress_O1 inp ;; Ok out.

(* ===================================================================== *)
(** * rans_compress and rans_uncompress                                    *)
(* ===================================================================== *)

Definition rans_compress (inp : bytes) (order : Z) : result bytes :=
  if negb (order =? 0) then rans_compress_O1 inp else rans_compress_O0 inp.

Definition rans_uncompress (inp : bytes) : result bytes :=
  let in_size := Z.of_nat (length inp) in
  if in_size <? 9 then Null
  else
    b0 <- rd inp 0 ;;
    if negb (b0 =? 0) then rans_uncompress_O1 inp else rans_uncompress_O0 inp.

(* ===================================================================== *)
(** * cram_io.h: the ITF8 macros                                            *)
(* ===================================================================== *)

(* The buffers are lists of the values of their bytes as unsigned char, so
   that the cast (uc)(c)[i] is the element itself and a store to a char is
   a store of the value modulo 256.  v is an int32_t; >> on a negative int
   is the arithmetic shift, and a left shift into the sign bit gives the
   two's complement value, as in read_int. *)

(* #define itf8_put(c,v): the bytes stored at c[0], c[1], ... and the value
   of the macro, their number *)
Definition itf8_put (v : Z) : bytes * Z :=
  if Z.land v (Z.lnot 0x7f) =? 0 then ([u8 v], 1)
  else if Z.land v (Z.lnot 0x3fff) =? 0 then
    ([u8 (Z.lor (Z.shiftr v 8) 0x80); u8 (Z.land v 0xff)], 2)
  else if Z.land v (Z.lnot 0x1fffff) =? 0 then
    ([u8 (Z.lor (Z.shiftr v 16) 0xc0); u8 (Z.land (Z.shiftr v 8) 0xff);
      u8 (Z.land v 0xff)], 3)
  else if Z.land v (Z.lnot 0xfffffff) =? 0 then
    ([u8 (Z.lor (Z.shiftr v 24) 0xe0); u8 (Z.land (Z.shiftr v 16) 0xff);
      u8 (Z.land (Z.shiftr v 8) 0xff); u8 (Z.land v 0xff)], 4)
  else
    ([u8 (Z.lor 0xf0 (Z.land (Z.shiftr v 28) 0xff));
      u8 (Z.land (Z.shiftr v 20) 0xff); u8 (Z.land (Z.shiftr v 12) 0xff);
      u8 (Z.land (Z.shiftr v 4) 0xff); u8 (Z.land v 0xf)], 5).

(* #define itf8_get(c,v): the value stored in *v and the value of the
   macro, the number of bytes read; a byte past the end of the buffer is an
   undefined read *)
Definition itf8_get (c : bytes) : result (Z * Z) :=
  c0 <- rd c 0 ;;
  if c0 <? 0x80 then Ok (s32 c0, 1)
  else if c0 <? 0xc0 then
    c1 <- rd c 1 ;;
    Ok (s32 (Z.land (s32 (Z.lor (Z.shiftl c0 8) c1)) 0x3fff), 2)
  else if c0 <? 0xe0 then
    c1 <- rd c 1 ;;
    c2 <- rd c 2 ;;
    Ok (s32 (Z.land (s32 (Z.lor (Z.lor (Z.shiftl c0 16) (Z.shiftl c1 8)) c2))
               0x1fffff), 3)
  else if c0 <? 0xf0 then
    c1 <- rd c 1 ;;
    c2 <- rd c 2 ;;
    c3 <- rd c 3 ;;
    Ok (s32 (Z.land
               (s32 (Z.lor (Z.lor (Z.lor (Z.shiftl c0 24) (Z.shiftl c1 16))
                              (Z.shiftl c2 8)) c3))
               0x0fffffff), 4)
  else
    c1 <- rd c 1 ;;
    c2 <- rd c 2 ;;
    c3 <- rd c 3 ;;
    c4 <- rd c 4 ;;
    Ok (s32 (Z.lor (Z.lor (Z.lor (Z.lor (Z.shiftl (Z.land c0 0x0f) 28)
                                     (Z.shiftl c1 20))
                              (Z.shiftl c2 12))
                       (Z.shiftl c3 4))
               (Z.land c4 0x0f)), 5).

(* ===================================================================== *)
(** * Definitions used to state and prove the properties                   *)
(* ===================================================================== *)

(* the coder state is in the normalised interval [L, L * 2^8) *)
Definition normalised (x : Z) : Prop := 2 ^ 23 <= x < 2 ^ 23 * 2 ^ 8.

Definition lanes_normalised (st : lanes) : Prop :=
  normalised (rans0 st) /\ normalised (rans1 st) /\
  normalised (rans2 st) /\ normalised (rans3 st).

(* the input is a sequence of bytes *)
Definition is_bytes (inp : bytes) : Prop := Forall (fun b => 0 <= b < 256) inp.

(* a loop over an explicit list of indices *)
Fixpoint for_each {St : Type} (body : Z -> St -> result St) (js : list Z)
  (st : St) : result St :=
  match js with
  | [] => Ok st
  | j :: js' => st' <- body j st ;; for_each body js' st'
  end.

(* i, next i, next (next i), ... (n values) *)
Fixpoint iterates (next : Z -> Z) (i : Z) (n : nat) : list Z :=
  match n with
  | O => []
  | S n' => i :: iterates next (next i) n'
  end.

(* hi, hi - d, ..., hi - (n-1) d *)
Definition zdown (hi d : Z) (n : nat) : list Z :=
  map (fun k => hi - d * Z.of_nat k) (seq 0 n).

(* lo, lo + d, ..., lo + (n-1) d *)
Definition zup (lo d : Z) (n : nat) : list Z :=
  map (fun k => lo + d * Z.of_nat k) (seq 0 n).

(* f lo + f (lo+1) + ... + f (lo+n-1) *)
Definition sumZ (f : Z -> Z) (lo : Z) (n : nat) : Z :=
  fold_right Z.add 0 (map f (zrange lo n)).

(* the cumulative frequency of symbol j in row F *)
Definition cum (F : Z -> Z) (j : Z) : Z := sumZ F 0 (Z.to_nat j).

(* a frequency row as the table writer and parser expect it *)
Definition valid_row (F : Z -> Z) : Prop :=
  (forall j, 0 <= j < 256 -> 0 <= F j) /\
  (exists j, 0 <= j < 256 /\ F j <> 0) /\
  cum F 256 <= TOTFREQ.

(* the one or two bytes that store a frequency *)
Definition freq_bytes (f : Z) : bytes :=
  if f <? 128 then [u8 f]
  else [u8 (Z.lor 128 (Z.shiftr f 8)); u8 (Z.land f 255)].

(* the bytes stored in front of the frequency of a present symbol j, and
   the run counter after them *)
Definition entry_head (F : Z -> Z) (j rle : Z) : bytes * Z :=
  if negb (rle =? 0) then ([], rle - 1)
  else if negb (j =? 0) && negb (F (j - 1) =? 0) then
    let r := run_end 256 F (j + 1) - (j + 1) in ([u8 j; u8 r], r)
  else ([u8 j], rle).

(* the bytes of a row from index j on, for n = 256 - j, terminator included *)
Fixpoint row_from (n : nat) (F : Z -> Z) (j rle : Z) : bytes :=
  match n with
  | O => [0]
  | S n' =>
      if F j =? 0 then row_from n' F (j + 1) rle
      else fst (entry_head F j rle) ++ freq_bytes (F j)
             ++ row_from n' F (j + 1) (snd (entry_head F j rle))
  end.

(* the symbols j, j+1, ..., j+rle-1 are present *)
Definition run_present (F : Z -> Z) (j rle : Z) : Prop :=
  0 <= rle /\ j + rle <= 256 /\ forall k, j <= k < j + rle -> F k <> 0.

(* an encoder symbol table and a decoder table describe the same row *)
Definition coherent (esyms : Z -> option RansEncSymbol) (D : ari_decoder)
  (dsyms : Z -> option RansDecSymbol) : Prop :=
  forall c sym, esyms c = Some sym ->
    exists st fr,
      0 <= st /\ 1 <= fr /\ st + fr <= 4096 /\
      RansEncSymbolInit st fr 12 = Ok sym /\
      dsyms c = Some (mkDecSymbol st fr) /\
      forall s, st <= s < st + fr -> R D s = Some c.

(* the decoder tables hold row F for the symbols below j *)
Definition row_parsed (F : Z -> Z) (j : Z) (D : ari_decoder)
  (dsyms : Z -> option RansDecSymbol) : Prop :=
  forall k, 0 <= k < j -> F k <> 0 ->
    fc_F D k = F k /\ fc_C D k = cum F k /\
    dsyms k = Some (mkDecSymbol (cum F k) (F k)) /\
    forall s, cum F k <= s < cum F k + F k -> R D s = Some k.

(* the encoder symbols hold row F for the symbols below j *)
Definition row_written (F : Z -> Z) (j : Z)
  (esyms : Z -> option RansEncSymbol) : Prop :=
  (forall k, 0 <= k < j -> F k <> 0 ->
     exists sym, esyms k = Some sym /\
                 RansEncSymbolInit (cum F k) (F k) 12 = Ok sym) /\
  (forall k, k < 0 \/ j <= k \/ F k = 0 -> esyms k = None).

(* RansEncPutSymbol(&rans_k, &ptr, &syms[in[i]]), the step of
   rans_compress_O0 *)
Definition put_O0 (esyms : Z -> option RansEncSymbol) (inp : bytes)
  (k : lane) (i : Z) (st : lanes) : result lanes :=
  c <- rd inp i ;; enc_put esyms k c st.

(* the output buffer out' is out with inp[lo..hi) written over it *)
Definition written (inp : bytes) (out out' : Z -> Z) (lo hi : Z) : Prop :=
  (forall p, lo <= p < hi -> rd inp p = Ok (out' p)) /\
  (forall p, ~ (lo <= p < hi) -> out' p = out p).

(* the normalised frequency of a raw count c in rans_compress_O0 *)
Definition norm_O0 (tr c : Z) : Z :=
  if c =? 0 then 0
  else
    let f := s32 (Z.shiftr (u64 (c * tr)) 31) in
    if f =? 0 then 1 else f.

(* the sign bit of a double is clear (NaN has none) *)
Definition sign_clear (d : double) : Prop :=
  match d with
  | S754_nan => True
  | S754_zero s | S754_infinity s | S754_finite s _ _ => s = false
  end.

(* the bytes of the order-1 table from context i on, for n = 256 - i,
   terminator included; Fn i is the stored row of context i *)
Fixpoint tab_from (n : nat) (T : Z -> Z) (Fn : Z -> Z -> Z) (i rle : Z) : bytes :=
  match n with
  | O => [0]
  | S n' =>
      if T i =? 0 then tab_from n' T Fn (i + 1) rle
      else fst (entry_head T i rle) ++ row_from 256 (Fn i) 0 0
             ++ tab_from n' T Fn (i + 1) (snd (entry_head T i rle))
  end.

(* the decoder tables hold the rows Fn of the present contexts below i *)
Definition table_parsed (T : Z -> Z) (Fn : Z -> Z -> Z) (i : Z)
  (D : Z -> ari_decoder) (dsyms : Z -> Z -> option RansDecSymbol) : Prop :=
  forall k, 0 <= k < i -> T k <> 0 ->
    row_parsed (Fn k) 256 (D k) (dsyms k) /\
    (forall j, Fn k j = 0 -> fc_F (D k) j = 0).

(* the output buffer holds the input at the positions that satisfy P *)
Definition decoded (inp : bytes) (out : Z -> Z) (P : Z -> Prop) : Prop :=
  forall p, P p -> rd inp p = Ok (out p).

(* the four symbols the lanes of rans_compress_O1 hold are the input at
   distance i from the start of each quarter *)
Definition pending (inp : bytes) (isz4 i : Z) (st : lanes_O1) : Prop :=
  rd inp (0 * isz4 + i) = Ok (l0 st) /\ rd inp (1 * isz4 + i) = Ok (l1 st) /\
  rd inp (2 * isz4 + i) = Ok (l2 st) /\ rd inp (3 * isz4 + i) = Ok (l3 st).

(* the positions k * isz4 + i, for 0 <= k < 4 and lo <= i < hi *)
Definition quarters (isz4 lo hi : Z) (p : Z) : Prop :=
  exists k i, 0 <= k < 4 /\ lo <= i < hi /\ p = k * isz4 + i.

(* the four RansEncPutSymbol calls of a round of the order-1 encoder, the
   lanes coding their symbols in the contexts c0..c3 *)
Definition enc_put4 (syms : Z -> Z -> option RansEncSymbol) (c0 c1 c2 c3 : Z)
  (st : lanes_O1) : result lanes :=
  s <- enc_put (syms c3) L3 (l3 st) (ls st) ;;
  s <- enc_put (syms c2) L2 (l2 st) s ;;
  s <- enc_put (syms c1) L1 (l1 st) s ;;
  enc_put (syms c0) L0 (l0 st) s.

(* 256 to the number of bytes written *)
Definition bw (out : bytes) : Z := 256 ^ Z.of_nat (length out).

(* the information the four lanes and the bytes written hold together *)
Definition weight (st : lanes) : Z :=
  bw (ptr st) * (rans0 st * rans1 st * rans2 st * rans3 st).

(* 5416 bytes: 41 of each value below 129, one of each value from 129 on *)
Definition sparse_input : bytes :=
  flat_map (fun j => repeat j (if j <? 129 then 41 else 1)) (zrange 0 256).

(* the rounds the row parser makes before it stops: st' is st, or is
   reached from st by rounds that return and go on (j <> 0) *)
Inductive row_reaches (o1 : bool) : row_parser -> row_parser -> Prop :=
| rr_here : forall st, row_reaches o1 st st
| rr_next : forall st st1 st2,
    parse_entry o1 st = Ok st1 -> rp_j st1 <> 0 ->
    row_reaches o1 st1 st2 -> row_reaches o1 st st2.

(* the cumulative-frequency check fails in the round that starts at st *)
Definition check_fails (o1 : bool) (st : row_parser) : Prop :=
  0 <= rp_j st < 256 /\
  exists F0 cp, read_freq (rp_cp st) = Ok (F0, cp) /\
    rp_x st + (if o1 && (F0 =? 0) then TOTFREQ else F0) > TOTFREQ.

(* a cumulative-frequency check fails while the row stored at cp is parsed *)
Definition row_overflows (o1 : bool) (D : ari_decoder)
  (syms : Z -> option RansDecSymbol) (cp : bytes) : Prop :=
  exists j cp1 st, cp = j :: cp1 /\
    row_reaches o1 (mkRowParser D syms j 0 0 cp1) st /\ check_fails o1 st.

(* the rounds the order-1 table parser makes before it stops *)
Inductive table_reaches : table_parser -> table_parser -> Prop :=
| tr_here : forall st, table_reaches st st
| tr_next : forall st st1 st2,
    parse_ctx st = Ok st1 -> tp_i st1 <> 0 ->
    table_reaches st1 st2 -> table_reaches st st2.

(* a cumulative-frequency check fails while the order-1 table stored at
   cp is parsed *)
Definition table_overflows (cp : bytes) : Prop :=
  exists i cp1 st, cp = i :: cp1 /\
    table_reaches
      (mkTableParser (fun _ => ari_decoder_zero) (fun _ _ => None) i 0 cp1) st /\
    0 <= tp_i st < 256 /\
    row_overflows true (tp_D st (tp_i st)) (tp_syms st (tp_i st)) (tp_cp st).

(* the frames rans_uncompress has to reject *)
Definition malformed (inp : bytes) : Prop :=
  Z.of_nat (length inp) < 9 \/
  (exists in_sz, read_int inp 1 = Ok in_sz /\
                 u32 in_sz <> u32 (u32 (Z.of_nat (length inp)) - 9)) \/
  (exists b0, rd inp 0 = Ok b0 /\ b0 <> 0 /\ b0 <> 1) \/
  (rd inp 0 = Ok 0 /\
   row_overflows false ari_decoder_zero (fun _ => None) (skipn 9 inp)) \/
  (rd inp 0 = Ok 1 /\ table_overflows (skipn 9 inp)).

(* an order-0 frame whose table stores F = 4095 for symbol 65 and F = 2
   for symbol 67 *)
Definition overflowing_frame : bytes :=
  [0; 6; 0; 0; 0; 1; 0; 0; 0; 65; 143; 255; 67; 2; 0].

(* the normalised frequency of a raw count c in rans_compress_O1, for the
   double p = (double)TOTFREQ / T[i]: (int)(c * p), or 1 when that is 0 *)
Definition norm_entry_O1 (p : double) (c : Z) : option Z :=
  if c =? 0 then Some 0
  else
    match int_of_double (double_mul (double_of_int c) p) with
    | Some f => Some (if f =? 0 then 1 else f)
    | None => None
    end.

(* 22 bytes in which 1 is followed five times by 2 and six times by 3 *)
Definition ctx_input : bytes :=
  [1; 2; 1; 2; 1; 2; 1; 2; 1; 2; 1; 3; 1; 3; 1; 3; 1; 3; 1; 3; 1; 3].

(* the little-endian uint32 at buf[i..i+4) *)
Definition uint32_at (buf : bytes) (i : Z) : result Z :=
  b0 <- rd buf i ;;
  b1 <- rd buf (i + 1) ;;
  b2 <- rd buf (i + 2) ;;
  b3 <- rd buf (i + 3) ;;
  Ok (b0 + 2 ^ 8 * b1 + 2 ^ 16 * b2 + 2 ^ 24 * b3).

(* a sequence of coding steps: (k, i) is the step on lane k for position i
   of the input (encoder) or of the output (decoder) *)
Fixpoint run_ops {St : Type} (step : lane -> Z -> St -> result St)
  (ops : list (lane * Z)) (st : St) : result St :=
  match ops with
  | [] => Ok st
  | (k, i) :: ops' => st' <- step k i st ;; run_ops step ops' st'
  end.

(* the steps for the last N mod 4 positions: lane k takes position
   N - N mod 4 + k, the highest position first *)
Definition tail_ops (N : Z) : list (lane * Z) :=
  let r := N mod 4 in
  (if r =? 3 then [(L2, N - r + 2)] else [])
    ++ (if 2 <=? r then [(L1, N - r + 1)] else [])
    ++ (if 1 <=? r then [(L0, N - r)] else []).

(* the steps of the main loop of the encoder: rounds i = 4 (N / 4), ..., 8, 4,
   each on lanes 3, 2, 1, 0 for positions i - 1, ..., i - 4 *)
Definition main_ops (N : Z) : list (lane * Z) :=
  flat_map (fun i => [(L3, i - 1); (L2, i - 2); (L1, i - 3); (L0, i - 4)])
    (zdown (4 * (N / 4)) 4 (Z.to_nat (N / 4))).

(* a step that only records itself *)
Definition log_step (k : lane) (i : Z) (st : list (lane * Z))
  : result (list (lane * Z)) :=
  Ok (st ++ [(k, i)]).

(* uint32_t q = (uint32_t) (((uint64_t)x * sym->rcp_freq) >> sym->rcp_shift),
   the quotient RansEncPutSymbol computes by a multiplication *)
Definition enc_quotient (sym : RansEncSymbol) (x : Z) : Z :=
  u32 (Z.shiftr (u64 (x * rcp_freq sym)) (rcp_shift sym)).

(* the state of the row parser between two rounds: R holds a symbol with an
   initialised syms entry in each slot below x, and nothing from x on *)
Definition lookup_filled (st : row_parser) : Prop :=
  0 <= rp_x st /\
  (forall s, 0 <= s < rp_x st ->
     exists c sym, R (rp_D st) s = Some c /\ 0 <= c < 256 /\
                   rp_syms st c = Some sym) /\
  (forall s, ~ (0 <= s < rp_x st) -> R (rp_D st) s = None).

(* the number of byte values that occur in the input *)
Definition present (inp : bytes) : Z :=
  sumZ (fun j => if count_O0 inp j =? 0 then 0 else 1) 0 256.

(* a call that neither returns NULL nor fails an assertion *)
Definition returns_or_undefined {A : Type} (r : result A) : Prop :=
  (exists a, r = Ok a) \/ r = Undefined.

(* an input on which the order-1 normalisation of context 0 overshoots:
   0 x 0 x ... with 125 pairs for each x from 1 to 56 and one pair for
   each x from 57 to 255 *)
Definition crowded_input : bytes :=
  flat_map (fun x => flat_map (fun _ => [0; x])
                       (seq 0 (if x <? 57 then 125 else 1)))
    (zrange 1 255).

(* 1 for a symbol that the row F holds, 0 for one it does not *)
Definition occurs (F : Z -> Z) (k : Z) : Z := if F k =? 0 then 0 else 1.

(* 1 for a frequency that is stored in two bytes, 0 for one stored in one *)
Definition two_bytes (F : Z -> Z) (k : Z) : Z := if F k <? 128 then 0 else 1.

(* 1 when the entry of symbol j is the second of a run of present symbols,
   which is stored with its index and the length of the rest of the run *)
Definition opens_run (F : Z -> Z) (j rle : Z) : Z :=
  if (rle =? 0) && negb (j =? 0) && negb (F (j - 1) =? 0) && negb (F j =? 0)
     && (j <? 256)
  then 1 else 0.

(* a check of the rows rans_compress_O1 normalises: no frequency is
   negative, and no symbol counted in a context is left without one *)
Definition rows_stay_positive (F : Z -> Z -> Z) (T : Z -> Z) : bool :=
  forallb (fun i =>
             (T i =? 0) ||
             match normalise_O1 (F i) (T i) with
             | Ok Fi =>
                 forallb (fun j => (0 <=? Fi j) &&
                                   ((F i j =? 0) || (0 <? Fi j)))
                   (zrange 0 256)
             | _ => false
             end)
    (zrange 0 256).

(* an input on which the order-1 normalisation of context 0 leaves the
   most frequent symbol without a frequency: 0 x 0 x ... with 125 pairs
   for each x from 1 to 56 and one pair for each x from 57 to 244 *)
Definition tight_input : bytes :=
  flat_map (fun x => flat_map (fun _ => [0; x])
                       (seq 0 (if x <? 57 then 125 else 1)))
    (zrange 1 244).

(* ===================================================================== *)
(** * Machine arithmetic                                                   *)
(* ===================================================================== *)

Lemma u32_small : forall z, 0 <= z < 2^32 -> u32 z = z.
Proof. intros; unfold u32; apply Z.mod_small; lia. Qed.

Lemma u64_small : forall z, 0 <= z < 2^64 -> u64 z = z.
Proof. intros; unfold u64; apply Z.mod_small; lia. Qed.

Lemma u16_small : forall z, 0 <= z < 2^16 -> u16 z = z.
Proof. intros; unfold u16; apply Z.mod_small; lia. Qed.

Lemma u8_small : forall z, 0 <= z < 2^8 -> u8 z = z.
Proof. intros; unfold u8; apply Z.mod_small; lia. Qed.

Lemma s32_small : forall z, - 2^31 <= z < 2^31 -> s32 z = z.
Proof. intros; unfold s32; rewrite Z.mod_small; lia. Qed.

Lemma u32_range : forall z, 0 <= u32 z < 2^32.
Proof. intros; unfold u32; apply Z.mod_pos_bound; lia. Qed.

Lemma u8_range : forall z, 0 <= u8 z < 256.
Proof. intros; unfold u8; apply Z.mod_pos_bound; lia. Qed.

Lemma land_255 : forall x, Z.land x 255 = x mod 256.
Proof. intros; change 255 with (Z.ones 8); rewrite Z.land_ones by lia; reflexivity. Qed.

Lemma land_4095 : forall x, Z.land x 4095 = x mod 4096.
Proof. intros; change 4095 with (Z.ones 12); rewrite Z.land_ones by lia; reflexivity. Qed.

Lemma shiftr_8 : forall x, Z.shiftr x 8 = x / 256.
Proof. intros; rewrite Z.shiftr_div_pow2 by lia; reflexivity. Qed.

Lemma shiftr_12 : forall x, Z.shiftr x 12 = x / 4096.
Proof. intros; rewrite Z.shiftr_div_pow2 by lia; reflexivity. Qed.

Lemma shiftl_12 : forall x, Z.shiftl x 12 = x * 4096.
Proof. intros; rewrite Z.shiftl_mul_pow2 by lia; reflexivity. Qed.

Lemma shiftl_8 : forall x, Z.shiftl x 8 = x * 256.
Proof. intros; rewrite Z.shiftl_mul_pow2 by lia; reflexivity. Qed.

(* ===================================================================== *)
(** * The renormalisation loop of the encoder                              *)
(* ===================================================================== *)

Lemma enc_renorm_loop_S : forall fuel x xm out,
  enc_renorm_loop (S fuel) x xm out =
  if x <? xm then Ok (x, out)
  else enc_renorm_loop fuel (Z.shiftr x 8) xm (Z.land x 255 :: out).
Proof. reflexivity. Qed.

Lemma enc_renorm_loop_ok : forall fuel x xm out,
  0 < xm -> 0 <= x < 2 ^ (8 * Z.of_nat fuel) ->
  exists x1 out1, enc_renorm_loop fuel x xm out = Ok (x1, out1).
Proof.
  induction fuel as [|fuel IH]; intros x xm out Hxm Hx; simpl.
  - change (2 ^ (8 * Z.of_nat 0)) with 1 in Hx.
    destruct (Z.ltb_spec x xm); [eauto | lia].
  - destruct (Z.ltb_spec x xm); [eauto|].
    apply IH; [lia|]. rewrite shiftr_8.
    replace (8 * Z.of_nat (S fuel)) with (8 + 8 * Z.of_nat fuel) in Hx by lia.
    rewrite Z.pow_add_r in Hx by lia. change (2 ^ 8) with 256 in Hx.
    split; [apply Z.div_pos; lia|].
    apply Z.div_lt_upper_bound; lia.
Qed.

(* what the loop returns: a state below x_max, no smaller than both the
   start state and x_max / 256, and the bytes it pushed *)
Lemma enc_renorm_loop_bounds : forall fuel x xm out x1 out1,
  enc_renorm_loop fuel x xm out = Ok (x1, out1) ->
  0 <= x ->
  0 <= x1 < xm /\ (x1 = x \/ xm / 256 <= x1).
Proof.
  induction fuel as [|fuel IH]; intros x xm out x1 out1 H Hx; simpl in H.
  - destruct (Z.ltb_spec x xm); [|discriminate].
    inversion H; subst. split; [lia | now left].
  - destruct (Z.ltb_spec x xm).
    + inversion H; subst. split; [lia | now left].
    + apply IH in H; [|rewrite shiftr_8; apply Z.div_pos; lia].
      destruct H as [Hb Hor]. split; [lia|]. right.
      destruct Hor as [He | Hl]; [|exact Hl].
      subst x1. rewrite shiftr_8. apply Z.div_le_mono; lia.
Qed.

(* ===================================================================== *)
(** * RansEncSymbolInit: the shift loop and the reciprocal                 *)
(* ===================================================================== *)

Lemma shift_loop_spec : forall fuel freq shift,
  0 <= shift -> 0 < freq <= 2 ^ (shift + Z.of_nat fuel - 1) ->
  (shift = 0 \/ 2 ^ (shift - 1) < freq) ->
  exists s, shift_loop fuel freq shift = Some s /\
            shift <= s < shift + Z.of_nat fuel /\
            freq <= 2 ^ s /\ (s = 0 \/ 2 ^ (s - 1) < freq).
Proof.
  induction fuel as [|fuel IH]; intros freq shift Hs Hf Hlow; simpl.
  - replace (shift + Z.of_nat 0 - 1) with (shift - 1) in Hf by lia.
    destruct Hlow as [-> | Hlow]; [|lia].
    simpl in Hf. change (2 ^ (-1)) with 0 in Hf. lia.
  - rewrite Z.shiftl_mul_pow2, Z.mul_1_l by lia.
    destruct (Z.gtb_spec freq (2 ^ shift)).
    + destruct (IH freq (shift + 1)) as (s & E & Hr & Hle & Hlo).
      * lia.
      * replace (shift + 1 + Z.of_nat fuel - 1) with (shift + Z.of_nat (S fuel) - 1) by lia.
        exact Hf.
      * right. replace (shift + 1 - 1) with shift by lia. lia.
      * exists s. repeat split; try lia; assumption.
    + exists shift. repeat split; try lia; assumption.
Qed.

(* Alverson's reciprocal: for x below 2^19 * freq the multiply-high is the
   quotient *)
Lemma reciprocal_quotient : forall s freq x,
  0 <= s <= 12 -> 0 < freq <= 2 ^ s -> 0 <= x < 2 ^ 19 * freq ->
  (x * ((2 ^ (s + 31) + freq - 1) / freq)) / 2 ^ (s + 31) = x / freq.
Proof.
  intros s freq x Hs Hf Hx.
  set (P := 2 ^ (s + 31)).
  set (rcp := (P + freq - 1) / freq).
  assert (HP : P = 2 ^ 31 * 2 ^ s).
  { unfold P. rewrite Z.add_comm, Z.pow_add_r by lia. reflexivity. }
  assert (Hs12 : 2 ^ s <= 2 ^ 12) by (apply Z.pow_le_mono_r; lia).
  assert (Hspos : 0 < 2 ^ s) by (apply Z.pow_pos_nonneg; lia).
  assert (HPpos : 0 < P) by (rewrite HP; lia).
  pose proof (Z.div_mod (P + freq - 1) freq ltac:(lia)) as Hdm.
  pose proof (Z.mod_pos_bound (P + freq - 1) freq ltac:(lia)) as Hmb.
  fold rcp in Hdm.
  set (t := (P + freq - 1) mod freq) in *.
  set (e := freq - 1 - t).
  assert (He : 0 <= e < freq) by (unfold e; lia).
  assert (Hrcp : rcp * freq = P + e) by (unfold e; lia).
  pose proof (Z.div_mod x freq ltac:(lia)) as Hxdm.
  pose proof (Z.mod_pos_bound x freq ltac:(lia)) as Hxmb.
  set (q := x / freq) in *. set (r := x mod freq) in *.
  assert (Hq : 0 <= q) by (unfold q; apply Z.div_pos; lia).
  assert (Hxe : x * e < P).
  { rewrite HP.
    assert (x * e <= x * 2 ^ 12) by (apply Z.mul_le_mono_nonneg_l; lia).
    assert (x < 2 ^ 19 * 2 ^ s) by nia.
    change (2 ^ 12) with 4096 in *. change (2 ^ 19) with 524288 in *.
    change (2 ^ 31) with 2147483648. nia. }
  symmetry. apply Z.div_unique with (r := x * rcp - q * P); [|lia].
  left.
  assert (Hkey : (x * rcp) * freq = x * P + x * e) by nia.
  split.
  - assert (q * P * freq <= x * rcp * freq) by nia.
    assert (0 <= (x * rcp - q * P) * freq) by nia.
    nia.
  - assert (x * rcp * freq < (q + 1) * P * freq).
    { rewrite Hkey. assert (x + 1 <= (q + 1) * freq) by lia.
      assert (x * P + P <= (q + 1) * freq * P) by nia. nia. }
    nia.
Qed.

(* the record RansEncSymbolInit builds at scale 12 *)
Lemma RansEncSymbolInit_12 : forall start freq,
  0 <= start -> 1 <= freq -> start + freq <= 4096 ->
  exists sym, RansEncSymbolInit start freq 12 = Ok sym /\
    x_max sym = 2 ^ 19 * freq /\
    cmpl_freq sym = 4096 - freq /\
    (freq = 1 ->
       rcp_freq sym = 4294967295 /\ rcp_shift sym = 0 + 32 /\
       bias sym = start + 2 ^ 12 - 1) /\
    (2 <= freq ->
       exists s, 0 <= s <= 12 /\ freq <= 2 ^ s /\
         rcp_freq sym = (2 ^ (s + 31) + freq - 1) / freq /\
         0 <= rcp_freq sym < 2 ^ 32 /\
         rcp_shift sym = s + 31 /\ bias sym = start).
Proof.
  intros start freq Hs Hf Hsum.
  unfold RansEncSymbolInit.
  assert (Hxm : u32 (Z.shiftl (Z.shiftr RANS_BYTE_L 12) 8 * freq) = 2 ^ 19 * freq).
  { change (Z.shiftl (Z.shiftr RANS_BYTE_L 12) 8) with (2 ^ 19).
    apply u32_small. change (2 ^ 19) with 524288. change (2 ^ 32) with 4294967296. lia. }
  assert (Hcf : u16 (Z.shiftl 1 12 - freq) = 4096 - freq).
  { change (Z.shiftl 1 12) with 4096. apply u16_small. change (2 ^ 16) with 65536. lia. }
  rewrite Hxm, Hcf.
  destruct (Z.ltb_spec freq 2) as [Hlt | Hge].
  - eexists; split; [reflexivity|]. simpl.
    split; [reflexivity|]. split; [reflexivity|]. split; [|intros; lia].
    intros _. split; [reflexivity|]. split; [reflexivity|].
    change (Z.shiftl 1 12) with 4096. rewrite u32_small; [reflexivity|].
    change (2 ^ 32) with 4294967296. lia.
  - destruct (shift_loop_spec 32 freq 0) as (s & E & Hr & Hle & Hlo); try lia.
    rewrite E. simpl of_option. cbn [bind].
    assert (Hs12 : s <= 12).
    { destruct Hlo as [-> | Hlo]; [lia|].
      destruct (Z.le_gt_cases s 12); [assumption|exfalso].
      assert (2 ^ 12 <= 2 ^ (s - 1)) by (apply Z.pow_le_mono_r; lia).
      change (2 ^ 12) with 4096 in *. lia. }
    assert (Hs1 : 1 <= s).
    { destruct (Z.le_gt_cases 1 s); [assumption|exfalso].
      assert (s = 0) by lia. subst s. simpl in Hle. lia. }
    eexists; split; [reflexivity|]. simpl.
    split; [reflexivity|]. split; [reflexivity|]. split; [intros; lia|].
    intros _. exists s.
    assert (Hp : 2 ^ (s + 31) <= 2 ^ 43) by (apply Z.pow_le_mono_r; lia).
    assert (Hp0 : 0 < 2 ^ (s + 31)) by (apply Z.pow_pos_nonneg; lia).
    change (2 ^ 43) with 8796093022208 in Hp.
    assert (Hrb : 0 <= (2 ^ (s + 31) + freq - 1) / freq < 2 ^ 32).
    { split; [apply Z.div_pos; lia|].
      apply Z.div_lt_upper_bound; [lia|].
      destruct Hlo as [-> | Hlo]; [lia|].
      assert (E2 : 2 ^ (s + 31) = 2 ^ 32 * 2 ^ (s - 1)).
      { rewrite <- Z.pow_add_r by lia. f_equal; lia. }
      rewrite E2. change (2 ^ 32) with 4294967296 in *.
      assert (0 < 2 ^ (s - 1)) by (apply Z.pow_pos_nonneg; lia).
      nia. }
    assert (Hrcp : u32 (u64 (Z.shiftl 1 (s + 31) + freq - 1) / freq)
                   = (2 ^ (s + 31) + freq - 1) / freq).
    { rewrite Z.shiftl_mul_pow2, Z.mul_1_l by lia.
      rewrite (u64_small (2 ^ (s + 31) + freq - 1)).
      2:{ change (2 ^ 64) with 18446744073709551616. lia. }
      apply u32_small. exact Hrb. }
    rewrite Hrcp.
    split; [lia|]. split; [exact Hle|]. split; [reflexivity|].
    split; [exact Hrb|]. split; [|reflexivity].
    rewrite (u16_small (s - 1)) by (change (2 ^ 16) with 65536; lia).
    rewrite u16_small by (change (2 ^ 16) with 65536; lia). lia.
Qed.

(* the arithmetic of RansEncPutSymbol after renormalisation *)
Lemma put_symbol_arith : forall start freq sym x,
  0 <= start -> 1 <= freq -> start + freq <= 4096 ->
  RansEncSymbolInit start freq 12 = Ok sym ->
  2 ^ 11 * freq <= x < 2 ^ 19 * freq ->
  u32 (x + bias sym
       + u32 (Z.shiftr (u64 (x * rcp_freq sym)) (rcp_shift sym)) * cmpl_freq sym)
  = (x / freq) * 4096 + x mod freq + start.
Proof.
  intros start freq sym x Hs Hf Hsum Hinit Hx.
  destruct (RansEncSymbolInit_12 start freq Hs Hf Hsum)
    as (sym' & E & Hxm & Hcf & H1 & H2).
  rewrite Hinit in E. inversion E; subst sym'; clear E.
  change (2 ^ 11) with 2048 in Hx. change (2 ^ 19) with 524288 in Hx.
  pose proof (Z.div_mod x freq ltac:(lia)) as Hdm.
  pose proof (Z.mod_pos_bound x freq ltac:(lia)) as Hmb.
  assert (Hq : 2048 <= x / freq < 524288).
  { split; [apply Z.div_le_lower_bound; lia | apply Z.div_lt_upper_bound; lia]. }
  rewrite Hcf.
  destruct (Z.eq_dec freq 1) as [-> | Hne].
  - destruct (H1 eq_refl) as (Hr & Hsh & Hb). rewrite Hr, Hsh, Hb.
    rewrite Z.div_1_r, Z.mod_1_r in *.
    rewrite u64_small by (change (2 ^ 64) with 18446744073709551616; lia).
    rewrite Z.shiftr_div_pow2 by lia. change (2 ^ (0 + 32)) with 4294967296.
    assert (Eq : x * 4294967295 / 4294967296 = x - 1).
    { symmetry. apply Z.div_unique with (r := 4294967296 - x); lia. }
    rewrite Eq. rewrite (u32_small (x - 1)) by (change (2 ^ 32) with 4294967296; lia).
    change (2 ^ 12) with 4096.
    rewrite u32_small by (change (2 ^ 32) with 4294967296; lia). lia.
  - destruct (H2 ltac:(lia)) as (s & Hs12 & Hle & Hr & Hrb & Hsh & Hb).
    rewrite Hr, Hsh, Hb.
    assert (Hp0 : 0 < 2 ^ (s + 31)) by (apply Z.pow_pos_nonneg; lia).
    pose proof (reciprocal_quotient s freq x Hs12 ltac:(lia)
                  ltac:(change (2 ^ 19) with 524288; lia)) as Hrq.
    assert (Hprod : 0 <= x * ((2 ^ (s + 31) + freq - 1) / freq) < 2 ^ 64).
    { rewrite Hr in Hrb. change (2 ^ 64) with 18446744073709551616.
      change (2 ^ 32) with 4294967296 in Hrb. nia. }
    rewrite u64_small by exact Hprod.
    rewrite Z.shiftr_div_pow2 by lia. rewrite Hrq.
    rewrite (u32_small (x / freq)) by (change (2 ^ 32) with 4294967296; lia).
    rewrite u32_small by (change (2 ^ 32) with 4294967296; nia). nia.
Qed.

(* ===================================================================== *)
(** * One encoding step and its inverse                                    *)
(* ===================================================================== *)

Lemma lor_shiftl_add : forall a b k,
  0 <= k -> 0 <= a < 2 ^ k -> Z.lor a (Z.shiftl b k) = a + b * 2 ^ k.
Proof.
  intros a b k Hk Ha.
  rewrite Z.shiftl_mul_pow2 by lia.
  rewrite <- (Z.add_lor_land a (b * 2 ^ k)).
  assert (E : Z.land a (b * 2 ^ k) = 0); [|rewrite E; lia].
  apply Z.bits_inj'. intros n Hn.
  rewrite Z.land_spec, Z.bits_0.
  destruct (Z.lt_ge_cases n k) as [Hlt | Hge].
  - rewrite Z.mul_pow2_bits_low by lia. apply andb_false_r.
  - rewrite <- (Z.mod_small a (2 ^ k)) by lia.
    rewrite Z.mod_pow2_bits_high by lia. reflexivity.
Qed.

Lemma lor_byte : forall a b, 0 <= b < 256 -> Z.lor (Z.shiftl a 8) b = a * 256 + b.
Proof.
  intros a b Hb. rewrite Z.lor_comm.
  rewrite lor_shiftl_add by (change (2 ^ 8) with 256; lia).
  change (2 ^ 8) with 256. lia.
Qed.

(* the decoder's renormalisation reads back what the encoder's pushed *)
Lemma dec_renorm_below : forall fuel y xm out x1 out1,
  0 <= y < 2 ^ 23 ->
  enc_renorm_loop fuel y xm out = Ok (x1, out1) ->
  RansDecRenorm x1 out1 = RansDecRenorm y out.
Proof.
  induction fuel as [|fuel IH]; intros y xm out x1 out1 Hy H; simpl in H.
  - destruct (y <? xm); [|discriminate]. inversion H; reflexivity.
  - destruct (y <? xm); [inversion H; reflexivity|].
    apply IH in H.
    2:{ rewrite shiftr_8. split; [apply Z.div_pos; lia|].
        apply Z.div_lt_upper_bound; lia. }
    rewrite H. cbn [RansDecRenorm].
    assert (Hlt : (Z.shiftr y 8 <? RANS_BYTE_L) = true).
    { apply Z.ltb_lt. rewrite shiftr_8. change RANS_BYTE_L with (2 ^ 23).
      apply Z.div_lt_upper_bound; lia. }
    rewrite Hlt. f_equal.
    rewrite land_255, shiftr_8.
    rewrite lor_byte by (apply Z.mod_pos_bound; lia).
    rewrite u32_small.
    + pose proof (Z.div_mod y 256 ltac:(lia)). lia.
    + pose proof (Z.div_mod y 256 ltac:(lia)).
      change (2 ^ 23) with 8388608 in Hy. change (2 ^ 32) with 4294967296. lia.
Qed.

Lemma dec_renorm_inverse : forall x xm out x1 out1,
  normalised x ->
  enc_renorm_loop 4 x xm out = Ok (x1, out1) ->
  RansDecRenorm x1 out1 = Ok (x, out).
Proof.
  intros x xm out x1 out1 [Hlo Hhi] H.
  assert (Hstop : RansDecRenorm x out = Ok (x, out)).
  { destruct out; simpl; change RANS_BYTE_L with (2 ^ 23);
      destruct (Z.ltb_spec x (2 ^ 23)); try lia; reflexivity. }
  rewrite enc_renorm_loop_S in H.
  destruct (x <? xm); [inversion H; subst; exact Hstop|].
  apply dec_renorm_below in H.
  2:{ rewrite shiftr_8. split; [apply Z.div_pos; lia|].
      apply Z.div_lt_upper_bound; [lia|].
      change (2 ^ 23 * 2 ^ 8) with (256 * 2 ^ 23) in Hhi. lia. }
  rewrite H. cbn [RansDecRenorm].
  assert (Hlt : (Z.shiftr x 8 <? RANS_BYTE_L) = true).
  { apply Z.ltb_lt. rewrite shiftr_8. change RANS_BYTE_L with (2 ^ 23).
    apply Z.div_lt_upper_bound; [lia|].
    change (2 ^ 23 * 2 ^ 8) with (256 * 2 ^ 23) in Hhi. lia. }
  rewrite Hlt.
  rewrite land_255, shiftr_8.
  rewrite lor_byte by (apply Z.mod_pos_bound; lia).
  rewrite u32_small.
  - replace (x / 256 * 256 + x mod 256) with x
      by (pose proof (Z.div_mod x 256 ltac:(lia)); lia).
    exact Hstop.
  - pose proof (Z.div_mod x 256 ltac:(lia)).
    change (2 ^ 23 * 2 ^ 8) with 2147483648 in Hhi.
    change (2 ^ 32) with 4294967296. lia.
Qed.

(* at most two bytes are pushed for a normalised state *)
Lemma enc_renorm_loop_length : forall x xm out x1 out1,
  normalised x -> 2 ^ 19 <= xm ->
  enc_renorm_loop 4 x xm out = Ok (x1, out1) ->
  (length out1 <= length out + 2)%nat.
Proof.
  intros x xm out x1 out1 [Hlo Hhi] Hxm H.
  change (2 ^ 23 * 2 ^ 8) with 2147483648 in Hhi.
  change (2 ^ 19) with 524288 in Hxm.
  rewrite enc_renorm_loop_S in H.
  destruct (x <? xm); [inversion H; subst; lia|].
  rewrite enc_renorm_loop_S in H.
  destruct (Z.shiftr x 8 <? xm); [inversion H; subst; simpl; lia|].
  rewrite enc_renorm_loop_S in H.
  destruct (Z.ltb_spec (Z.shiftr (Z.shiftr x 8) 8) xm) as [Hc | Hc].
  - inversion H; subst; simpl; lia.
  - exfalso. rewrite !shiftr_8 in Hc.
    assert (x / 256 / 256 < 524288).
    { apply Z.div_lt_upper_bound; [lia|]. apply Z.div_lt_upper_bound; lia. }
    lia.
Qed.

(* RansEncPutSymbol on a symbol built by RansEncSymbolInit *)
Lemma put_symbol_spec : forall start freq sym x out,
  0 <= start -> 1 <= freq -> start + freq <= 4096 ->
  RansEncSymbolInit start freq 12 = Ok sym ->
  normalised x ->
  exists x1 out1,
    enc_renorm_loop 4 x (2 ^ 19 * freq) out = Ok (x1, out1) /\
    2 ^ 11 * freq <= x1 < 2 ^ 19 * freq /\
    RansEncPutSymbol x out sym
      = Ok ((x1 / freq) * 4096 + x1 mod freq + start, out1).
Proof.
  intros start freq sym x out Hs Hf Hsum Hinit Hx.
  destruct (RansEncSymbolInit_12 start freq Hs Hf Hsum)
    as (sym' & E & Hxm & _).
  rewrite Hinit in E. inversion E; subst sym'; clear E.
  destruct Hx as [Hlo Hhi].
  change (2 ^ 23 * 2 ^ 8) with 2147483648 in Hhi.
  change (2 ^ 23) with 8388608 in Hlo.
  destruct (enc_renorm_loop_ok 4 x (2 ^ 19 * freq) out) as (x1 & out1 & Hloop).
  { change (2 ^ 19) with 524288. lia. }
  { change (2 ^ (8 * Z.of_nat 4)) with 4294967296. lia. }
  exists x1, out1. split; [exact Hloop|].
  pose proof (enc_renorm_loop_bounds _ _ _ _ _ _ Hloop ltac:(lia)) as [Hb Hor].
  assert (Hx1 : 2 ^ 11 * freq <= x1 < 2 ^ 19 * freq).
  { split; [|lia]. change (2 ^ 11) with 2048.
    destruct Hor as [-> | Hge]; [lia|].
    replace (2 ^ 19 * freq / 256) with (2048 * freq) in Hge; [lia|].
    change (2 ^ 19) with (2048 * 256).
    rewrite <- Z.mul_assoc, (Z.mul_comm 256), Z.mul_assoc.
    rewrite Z.div_mul by lia. reflexivity. }
  split; [exact Hx1|].
  unfold RansEncPutSymbol. rewrite Hxm, Hloop. cbn [bind].
  rewrite (put_symbol_arith start freq sym x1 Hs Hf Hsum Hinit Hx1).
  reflexivity.
Qed.

(* the state after an encoding step: normalised again, its low 12 bits
   name a slot of the symbol, and the decoding step undoes it *)
Lemma put_symbol_inverse : forall start freq sym x out x' out',
  0 <= start -> 1 <= freq -> start + freq <= 4096 ->
  RansEncSymbolInit start freq 12 = Ok sym ->
  normalised x ->
  RansEncPutSymbol x out sym = Ok (x', out') ->
  normalised x' /\
  start <= RansDecGet x' TF_SHIFT < start + freq /\
  RansDecAdvance x' out' start freq TF_SHIFT = Ok (x, out) /\
  (length out' <= length out + 2)%nat.
Proof.
  intros start freq sym x out x' out' Hs Hf Hsum Hinit Hx Hput.
  destruct (put_symbol_spec start freq sym x out Hs Hf Hsum Hinit Hx)
    as (x1 & out1 & Hloop & Hx1 & Hput').
  rewrite Hput in Hput'. inversion Hput'; subst x' out'; clear Hput'.
  change (2 ^ 11) with 2048 in Hx1. change (2 ^ 19) with 524288 in Hx1.
  pose proof (Z.div_mod x1 freq ltac:(lia)) as Hdm.
  pose proof (Z.mod_pos_bound x1 freq ltac:(lia)) as Hmb.
  assert (Hq : 2048 <= x1 / freq < 524288).
  { split; [apply Z.div_le_lower_bound; lia | apply Z.div_lt_upper_bound; lia]. }
  set (q := x1 / freq) in *. set (r := x1 mod freq) in *.
  assert (Hmod : (q * 4096 + r + start) mod 4096 = r + start).
  { replace (q * 4096 + r + start) with (r + start + q * 4096) by lia.
    rewrite Z.mod_add by lia. apply Z.mod_small. lia. }
  assert (Hdiv : (q * 4096 + r + start) / 4096 = q).
  { replace (q * 4096 + r + start) with (r + start + q * 4096) by lia.
    rewrite Z.div_add by lia. rewrite Z.div_small by lia. lia. }
  split; [|split; [|split]].
  - unfold normalised. change (2 ^ 23 * 2 ^ 8) with 2147483648.
    change (2 ^ 23) with 8388608. lia.
  - unfold RansDecGet, TF_SHIFT. change (Z.shiftl 1 12 - 1) with 4095.
    rewrite land_4095, Hmod. lia.
  - unfold RansDecAdvance, RansDecAdvanceStep, TF_SHIFT.
    change (Z.shiftl 1 12 - 1) with 4095.
    rewrite land_4095, shiftr_12, Hmod, Hdiv.
    replace (freq * q + (r + start) - start) with x1 by lia.
    rewrite u32_small by (change (2 ^ 32) with 4294967296; lia).
    apply (dec_renorm_inverse x (2 ^ 19 * freq)); assumption.
  - apply (enc_renorm_loop_length x (2 ^ 19 * freq) out x1); try assumption.
    change (2 ^ 19) with 524288. lia.
Qed.

(* four little-endian bytes and their value *)
Lemma le32_value : forall x, 0 <= x < 2 ^ 32 ->
  Z.lor (Z.lor (Z.lor (Z.shiftl (x mod 256) 0) (Z.shiftl (x / 2 ^ 8 mod 256) 8))
           (Z.shiftl (x / 2 ^ 16 mod 256) 16)) (Z.shiftl (x / 2 ^ 24 mod 256) 24)
  = x.
Proof.
  intros x Hx. rewrite Z.shiftl_0_r.
  change (2 ^ 8) with 256. change (2 ^ 16) with 65536. change (2 ^ 24) with 16777216.
  change (2 ^ 32) with 4294967296 in Hx.
  pose proof (Z.mod_pos_bound x 256 ltac:(lia)).
  pose proof (Z.mod_pos_bound (x / 256) 256 ltac:(lia)).
  pose proof (Z.mod_pos_bound (x / 65536) 256 ltac:(lia)).
  pose proof (Z.mod_pos_bound (x / 16777216) 256 ltac:(lia)).
  rewrite (lor_shiftl_add (x mod 256)) by (change (2 ^ 8) with 256; lia).
  rewrite (lor_shiftl_add _ _ 16) by (change (2 ^ 16) with 65536; change (2 ^ 8) with 256; lia).
  rewrite (lor_shiftl_add _ _ 24).
  2: lia.
  2:{ change (2 ^ 24) with 16777216; change (2 ^ 16) with 65536; change (2 ^ 8) with 256; lia. }
  change (2 ^ 8) with 256. change (2 ^ 16) with 65536. change (2 ^ 24) with 16777216.
  assert (E1 : x / 65536 = x / 256 / 256) by (rewrite Z.div_div by lia; reflexivity).
  assert (E2 : x / 16777216 = x / 256 / 256 / 256)
    by (rewrite !Z.div_div by lia; reflexivity).
  rewrite E1, E2 in *.
  pose proof (Z.div_mod x 256 ltac:(lia)).
  pose proof (Z.div_mod (x / 256) 256 ltac:(lia)).
  pose proof (Z.div_mod (x / 256 / 256) 256 ltac:(lia)).
  assert (x / 256 / 256 / 256 < 256).
  { repeat (apply Z.div_lt_upper_bound; [lia|]). lia. }
  assert (0 <= x / 256 / 256 / 256) by (repeat apply Z.div_pos; lia).
  rewrite (Z.mod_small (x / 256 / 256 / 256)) by lia.
  lia.
Qed.

(* RansEncFlush followed by RansDecInit *)
Lemma dec_init_flush : forall x out,
  0 <= x < 2 ^ 32 -> RansDecInit (RansEncFlush x out) = Ok (x, out).
Proof.
  intros x out Hx. unfold RansEncFlush, RansDecInit. do 2 f_equal.
  unfold u8. rewrite !Z.shiftr_div_pow2 by lia.
  change (2 ^ 0) with 1. rewrite Z.div_1_r.
  rewrite le32_value by exact Hx. apply u32_small. exact Hx.
Qed.

(* ===================================================================== *)
(** * Loops                                                                *)
(* ===================================================================== *)

Lemma bind_ok : forall {A B : Type} (r : result A) (k : A -> result B) (b : B),
  bind r k = Ok b -> exists a, r = Ok a /\ k a = Ok b.
Proof. intros A B [a| | |] k b H; try discriminate. exists a; auto. Qed.

Lemma of_option_ok : forall {A : Type} (o : option A) (a : A),
  of_option o = Ok a -> o = Some a.
Proof. intros A [x|] a H; simpl in H; [inversion H; reflexivity | discriminate]. Qed.

Lemma for_each_app : forall {St : Type} (body : Z -> St -> result St) l1 l2 st,
  for_each body (l1 ++ l2) st = (st' <- for_each body l1 st ;; for_each body l2 st').
Proof.
  intros St body l1. induction l1 as [|j l1 IH]; intros l2 st; simpl; [reflexivity|].
  destruct (body j st); simpl; auto.
Qed.

Lemma iter_shift : forall (f : Z -> Z) n i, Nat.iter n f (f i) = f (Nat.iter n f i).
Proof. induction n; intros; simpl; [reflexivity|]. rewrite IHn. reflexivity. Qed.

(* a loop with enough fuel is the loop over the values its index takes *)
Lemma for_loop_iterates : forall {St : Type} n fuel cond next
  (body : Z -> St -> result St) i st,
  (n < fuel)%nat ->
  Forall (fun j => cond j = true) (iterates next i n) ->
  cond (Nat.iter n next i) = false ->
  for_loop fuel cond next body i st = for_each body (iterates next i n) st.
Proof.
  intros St n. induction n as [|n IH]; intros fuel cond next body i st Hf Hall Hend.
  - destruct fuel; [lia|]. simpl in *. rewrite Hend. reflexivity.
  - destruct fuel; [lia|]. simpl in *. inversion Hall as [|? ? Hi Hrest]; subst.
    rewrite Hi. destruct (body i st); simpl; try reflexivity.
    apply IH; [lia|assumption|].
    rewrite iter_shift. exact Hend.
Qed.

Lemma zrange_S : forall lo n, zrange lo (S n) = lo :: zrange (lo + 1) n.
Proof.
  intros. unfold zrange. simpl. f_equal; [f_equal; lia|].
  rewrite <- seq_shift, map_map. apply map_ext. intros; lia.
Qed.

Lemma zrange_snoc : forall lo n, zrange lo (S n) = zrange lo n ++ [lo + Z.of_nat n].
Proof.
  intros. unfold zrange. rewrite seq_S, map_app. reflexivity.
Qed.

Lemma zrange_length : forall lo n, length (zrange lo n) = n.
Proof. intros. unfold zrange. rewrite length_map, length_seq. reflexivity. Qed.

Lemma in_zrange : forall lo n k, In k (zrange lo n) <-> lo <= k < lo + Z.of_nat n.
Proof.
  intros. unfold zrange. rewrite in_map_iff. split.
  - intros (x & <- & Hin). apply in_seq in Hin. lia.
  - intros H. exists (Z.to_nat (k - lo)). split; [lia|]. apply in_seq. lia.
Qed.

Lemma iterates_succ : forall n i, iterates Z.succ i n = zrange i n.
Proof.
  induction n as [|n IH]; intros; [reflexivity|].
  rewrite zrange_S. simpl. f_equal. rewrite IH. f_equal.
Qed.

Lemma iter_succ : forall n i, Nat.iter n Z.succ i = i + Z.of_nat n.
Proof. induction n; intros; simpl; [lia|]. rewrite IHn. lia. Qed.

(* for (j = lo; j < hi; j++) *)
Lemma for_loop_up : forall {St : Type} (body : Z -> St -> result St) fuel lo n st,
  (n < fuel)%nat ->
  for_loop fuel (fun j => j <? lo + Z.of_nat n) Z.succ body lo st
  = for_each body (zrange lo n) st.
Proof.
  intros. rewrite <- iterates_succ. apply for_loop_iterates; [assumption| |].
  - rewrite iterates_succ. apply Forall_forall. intros k Hk.
    apply in_zrange in Hk. apply Z.ltb_lt. lia.
  - rewrite iter_succ. apply Z.ltb_ge. lia.
Qed.

Lemma zdown_S : forall hi d n, zdown hi d (S n) = hi :: zdown (hi - d) d n.
Proof.
  intros. unfold zdown. simpl. f_equal; [lia|].
  rewrite <- seq_shift, map_map. apply map_ext. intros; lia.
Qed.

Lemma iterates_down : forall d n i, iterates (fun i => i - d) i n = zdown i d n.
Proof.
  induction n as [|n IH]; intros; [reflexivity|].
  rewrite zdown_S. simpl. f_equal. apply IH.
Qed.

Lemma iter_down : forall d n i, Nat.iter n (fun i => i - d) i = i - d * Z.of_nat n.
Proof. induction n; intros; simpl; [lia|]. rewrite IHn. lia. Qed.

Lemma in_zdown : forall hi d n k,
  In k (zdown hi d n) -> exists m, (m < n)%nat /\ k = hi - d * Z.of_nat m.
Proof.
  intros. unfold zdown in H. apply in_map_iff in H. destruct H as (m & <- & Hin).
  apply in_seq in Hin. exists m. split; [lia|reflexivity].
Qed.

(* for (i = hi; i > lo; i -= d) with hi = lo' + d * n, lo' in (lo - d, lo].. *)
Lemma for_loop_down : forall {St : Type} (body : Z -> St -> result St)
  fuel d lo hi n st,
  (n < fuel)%nat -> 0 < d ->
  hi - d * Z.of_nat n <= lo < hi - d * (Z.of_nat n - 1) ->
  for_loop fuel (fun i => i >? lo) (fun i => i - d) body hi st
  = for_each body (zdown hi d n) st.
Proof.
  intros. rewrite <- iterates_down. apply for_loop_iterates; [assumption| |].
  - rewrite iterates_down. apply Forall_forall. intros k Hk.
    apply in_zdown in Hk. destruct Hk as (m & Hm & ->). apply Z.gtb_lt. nia.
  - rewrite iter_down. rewrite Z.gtb_ltb. apply Z.ltb_ge. lia.
Qed.

(* sums *)
Lemma sumZ_S : forall f lo n, sumZ f lo (S n) = sumZ f lo n + f (lo + Z.of_nat n).
Proof.
  intros. unfold sumZ. rewrite zrange_snoc, map_app, fold_right_app. simpl.
  generalize (map f (zrange lo n)). intros l.
  induction l as [|a l IH]; simpl; [lia|]. rewrite IH. lia.
Qed.

Lemma cum_succ : forall F j, 0 <= j -> cum F (j + 1) = cum F j + F j.
Proof.
  intros. unfold cum. replace (Z.to_nat (j + 1)) with (S (Z.to_nat j)) by lia.
  rewrite sumZ_S. f_equal. f_equal. lia.
Qed.

Lemma cum_0 : forall F, cum F 0 = 0.
Proof. reflexivity. Qed.

Lemma cum_mono : forall F j k,
  (forall i, 0 <= i < 256 -> 0 <= F i) -> 0 <= j <= k -> k <= 256 ->
  cum F j <= cum F k.
Proof.
  intros F j k Hpos Hjk Hk.
  assert (G : forall n, j + Z.of_nat n <= 256 -> cum F j <= cum F (j + Z.of_nat n)).
  { induction n as [|n IH]; intros Hn.
    - replace (j + Z.of_nat 0) with j by lia. lia.
    - replace (j + Z.of_nat (S n)) with (j + Z.of_nat n + 1) by lia.
      rewrite cum_succ by lia. specialize (Hpos (j + Z.of_nat n)).
      assert (cum F j <= cum F (j + Z.of_nat n)) by (apply IH; lia). lia. }
  replace k with (j + Z.of_nat (Z.to_nat (k - j))) by lia.
  apply G. lia.
Qed.

(* ===================================================================== *)
(** * The bytes of a frequency row                                         *)
(* ===================================================================== *)

(* a property checked on 0 .. n-1 holds there *)
Lemma small_forall : forall (P : Z -> bool) n,
  forallb P (zrange 0 n) = true ->
  forall z, 0 <= z < Z.of_nat n -> P z = true.
Proof.
  intros P n H z Hz. rewrite forallb_forall in H. apply H.
  apply in_zrange. lia.
Qed.

Lemma high_freq_byte : forall h, 0 <= h < 128 ->
  Z.lor 128 h = 128 + h /\
  Z.land (Z.land (128 + h) (Z.lnot 128)) 127 = h.
Proof.
  intros h Hh.
  pose proof (small_forall
    (fun h => (Z.lor 128 h =? 128 + h) &&
              (Z.land (Z.land (128 + h) (Z.lnot 128)) 127 =? h)) 128
    ltac:(vm_compute; reflexivity) h ltac:(lia)) as H.
  apply andb_true_iff in H. destruct H as [H1 H2].
  apply Z.eqb_eq in H1, H2. auto.
Qed.

Lemma read_freq_bytes : forall f rest,
  0 <= f < 2 ^ 15 -> read_freq (freq_bytes f ++ rest) = Ok (f, rest).
Proof.
  intros f rest Hf. change (2 ^ 15) with 32768 in Hf.
  unfold freq_bytes. destruct (Z.ltb_spec f 128) as [Hlt | Hge].
  - rewrite u8_small by (change (2 ^ 8) with 256; lia).
    unfold read_freq. cbn [app].
    destruct (Z.geb_spec f 128); [lia | reflexivity].
  - rewrite shiftr_8, land_255.
    assert (Hh : 0 <= f / 256 < 128).
    { split; [apply Z.div_pos; lia | apply Z.div_lt_upper_bound; lia]. }
    destruct (high_freq_byte (f / 256) Hh) as [E1 E2].
    rewrite E1.
    rewrite (u8_small (128 + f / 256)) by (change (2 ^ 8) with 256; lia).
    pose proof (Z.mod_pos_bound f 256 ltac:(lia)) as Hm.
    rewrite (u8_small (f mod 256)) by (change (2 ^ 8) with 256; lia).
    unfold read_freq. cbn [app].
    destruct (Z.geb_spec (128 + f / 256) 128); [|lia].
    rewrite E2. rewrite lor_byte by lia.
    do 2 f_equal. pose proof (Z.div_mod f 256 ltac:(lia)). lia.
Qed.

Lemma freq_bytes_length : forall f, (1 <= length (freq_bytes f) <= 2)%nat.
Proof. intros. unfold freq_bytes. destruct (f <? 128); simpl; lia. Qed.

Lemma run_end_spec : forall fuel F r,
  0 <= r <= 256 -> (Z.to_nat (256 - r) <= fuel)%nat ->
  r <= run_end fuel F r <= 256 /\
  (forall k, r <= k < run_end fuel F r -> F k <> 0) /\
  (run_end fuel F r = 256 \/ F (run_end fuel F r) = 0).
Proof.
  induction fuel as [|fuel IH]; intros F r Hr Hf; simpl.
  - assert (r = 256) by lia. subst.
    split; [lia|]. split; [intros; lia | now left].
  - destruct (Z.ltb_spec r 256) as [Hlt | Hge]; cbn [andb negb].
    + destruct (Z.eqb_spec (F r) 0) as [E | E]; cbn [andb negb].
      * split; [lia|]. split; [intros; lia | now right].
      * destruct (IH F (r + 1)) as (H1 & H2 & H3); [lia | lia |].
        split; [lia|]. split; [|exact H3].
        intros k Hk. destruct (Z.eq_dec k r) as [-> | Hne]; [exact E|].
        apply H2. lia.
    + assert (r = 256) by lia. subst.
      split; [lia|]. split; [intros; lia | now left].
Qed.

Lemma entry_head_run : forall F j rle,
  0 <= j < 256 -> run_present F j rle -> F j <> 0 ->
  run_present F (j + 1) (snd (entry_head F j rle)).
Proof.
  intros F j rle Hj (H0 & H1 & H2) HFj. unfold entry_head.
  destruct (Z.eqb_spec rle 0) as [-> | Hne]; cbn [negb fst snd].
  - destruct (negb (j =? 0) && negb (F (j - 1) =? 0)); cbn [fst snd].
    + destruct (run_end_spec 256 F (j + 1)) as (Ha & Hb & _); [lia | lia |].
      split; [lia|]. split; [lia|]. intros k Hk. apply Hb. lia.
    + split; [lia|]. split; [lia|]. intros; lia.
  - split; [lia|]. split; [lia|]. intros k Hk. apply H2. lia.
Qed.

Lemma entry_head_first : forall F j,
  j = 0 \/ F (j - 1) = 0 -> entry_head F j 0 = ([u8 j], 0).
Proof.
  intros F j H. unfold entry_head. rewrite Z.eqb_refl. cbn [negb].
  destruct (Z.eqb_spec j 0); cbn [negb andb]; [reflexivity|].
  destruct H as [H | H]; [contradiction|]. rewrite H. reflexivity.
Qed.

Lemma entry_head_next : forall F j,
  j <> 0 -> F (j - 1) <> 0 ->
  entry_head F j 0
  = ([u8 j; u8 (run_end 256 F (j + 1) - (j + 1))], run_end 256 F (j + 1) - (j + 1)).
Proof.
  intros F j H1 H2. unfold entry_head. rewrite Z.eqb_refl. cbn [negb].
  destruct (Z.eqb_spec j 0); [contradiction|].
  destruct (Z.eqb_spec (F (j - 1)) 0); [contradiction|]. reflexivity.
Qed.

Lemma entry_head_in_run : forall F j rle,
  rle <> 0 -> entry_head F j rle = ([], rle - 1).
Proof.
  intros F j rle H. unfold entry_head.
  destruct (Z.eqb_spec rle 0); [contradiction | reflexivity].
Qed.

(* the writer's loop body in terms of entry_head and freq_bytes *)
Lemma write_row_step_eq : forall F j st,
  write_row_step F j st =
  if F j =? 0 then Ok st
  else
    sym <- RansEncSymbolInit (u32 (rw_x st)) (u32 (F j)) TF_SHIFT ;;
    Ok (mkRowWriter
          (rw_cp st ++ fst (entry_head F j (rw_rle st)) ++ freq_bytes (F j))
          (snd (entry_head F j (rw_rle st))) (rw_x st + F j)
          (upd (rw_syms st) j (Some sym))).
Proof.
  intros F j st. unfold write_row_step, entry_head, freq_bytes.
  destruct (F j =? 0); [reflexivity|].
  destruct (negb (rw_rle st =? 0)); cbn [fst snd app].
  - destruct (F j <? 128); reflexivity.
  - destruct (negb (j =? 0) && negb (F (j - 1) =? 0)); cbn [fst snd app];
      destruct (F j <? 128); cbn [fst snd app]; rewrite <- ?app_assoc;
      reflexivity.
Qed.

(* skipping the absent symbols from index i on *)
Lemma row_from_skip : forall F n i,
  Z.of_nat n = 256 - i -> 0 <= i ->
  (row_from n F i 0 = [0] /\ forall k, i <= k < 256 -> F k = 0) \/
  (exists j m, i <= j < 256 /\ F j <> 0 /\ (forall k, i <= k < j -> F k = 0) /\
     Z.of_nat m = 255 - j /\
     row_from n F i 0
     = fst (entry_head F j 0) ++ freq_bytes (F j)
         ++ row_from m F (j + 1) (snd (entry_head F j 0))).
Proof.
  intros F n. induction n as [|n IH]; intros i Hn Hi.
  - left. split; [reflexivity|]. intros; lia.
  - cbn [row_from]. destruct (Z.eqb_spec (F i) 0) as [E | E].
    + destruct (IH (i + 1)) as [[H1 H2] | (j & m & Hj & HFj & Habs & Hm & Hrow)]; try lia.
      * left. split; [exact H1|]. intros k Hk.
        destruct (Z.eq_dec k i) as [-> | Hne]; [exact E | apply H2; lia].
      * right. exists j, m.
        split; [lia|]. split; [exact HFj|]. split; [|split; [exact Hm | exact Hrow]].
        intros k Hk. destruct (Z.eq_dec k i) as [-> | Hne]; [exact E | apply Habs; lia].
    + right. exists i, n.
      split; [lia|]. split; [exact E|]. split; [intros; lia|].
      split; [lia | reflexivity].
Qed.

Lemma cum_absent : forall F a b,
  0 <= a <= b -> (forall k, a <= k < b -> F k = 0) -> cum F b = cum F a.
Proof.
  intros F a b Hab Habs.
  replace b with (a + Z.of_nat (Z.to_nat (b - a))) in * by lia.
  generalize dependent (Z.to_nat (b - a)). intros n.
  induction n as [|n IH]; intros Hab Habs.
  - f_equal. lia.
  - replace (a + Z.of_nat (S n)) with (a + Z.of_nat n + 1) by lia.
    rewrite cum_succ by lia. rewrite IH; [|lia|intros; apply Habs; lia].
    rewrite Habs; lia.
Qed.

(* ===================================================================== *)
(** * Writing a row and parsing it back                                    *)
(* ===================================================================== *)

Ltac norm_length H :=
  repeat (progress (cbn [length app] in H; rewrite ?length_app in H));
  repeat (progress (cbn [length app]; rewrite ?length_app)).

Section Row.
Variable F : Z -> Z.
Hypothesis Hpos : forall j, 0 <= j < 256 -> 0 <= F j.
Hypothesis Hcum : cum F 256 <= 4096.

Lemma row_bound : forall j, 0 <= j < 256 ->
  0 <= cum F j /\ cum F j + F j <= 4096 /\ 0 <= F j <= 4096.
Proof.
  intros j Hj.
  pose proof (cum_mono F 0 j Hpos ltac:(lia) ltac:(lia)) as H0.
  pose proof (cum_mono F (j + 1) 256 Hpos ltac:(lia) ltac:(lia)) as H1.
  rewrite cum_succ in H1 by lia. rewrite cum_0 in H0.
  specialize (Hpos j Hj). lia.
Qed.

Lemma write_loop : forall n j st st' m,
  0 <= j -> j + Z.of_nat n <= 256 ->
  for_each (write_row_step F) (zrange j n) st = Ok st' ->
  rw_x st = cum F j -> row_written F j (rw_syms st) ->
  rw_cp st ++ row_from (n + m) F j (rw_rle st)
    = rw_cp st' ++ row_from m F (j + Z.of_nat n) (rw_rle st') /\
  rw_x st' = cum F (j + Z.of_nat n) /\
  row_written F (j + Z.of_nat n) (rw_syms st').
Proof.
  induction n as [|n IH]; intros j st st' m Hj Hn Hloop Hx Hsyms.
  - simpl in Hloop. inversion Hloop; subst st'.
    replace (j + Z.of_nat 0) with j by lia. auto.
  - rewrite zrange_S in Hloop. cbn [for_each] in Hloop.
    apply bind_ok in Hloop. destruct Hloop as (st1 & Hstep & Hloop).
    replace (j + Z.of_nat (S n)) with (j + 1 + Z.of_nat n) by lia.
    rewrite write_row_step_eq in Hstep.
    cbn [Nat.add row_from].
    destruct (row_bound j ltac:(lia)) as (Hc0 & Hc1 & HF).
    destruct (Z.eqb_spec (F j) 0) as [E | E].
    + inversion Hstep; subst st1.
      apply IH; try lia; try assumption.
      * rewrite cum_succ, E by lia. lia.
      * destruct Hsyms as [Hs1 Hs2]. split.
        -- intros k Hk HFk. apply Hs1; [|assumption].
           destruct (Z.eq_dec k j); [subst; contradiction | lia].
        -- intros k Hk. apply Hs2. lia.
    + apply bind_ok in Hstep. destruct Hstep as (sym & Hinit & Hst1).
      inversion Hst1; subst st1; clear Hst1.
      rewrite Hx in Hinit.
      rewrite (u32_small (cum F j)) in Hinit
        by (change (2 ^ 32) with 4294967296; lia).
      rewrite (u32_small (F j)) in Hinit
        by (change (2 ^ 32) with 4294967296; lia).
      specialize (IH (j + 1)
        (mkRowWriter
           (rw_cp st ++ fst (entry_head F j (rw_rle st)) ++ freq_bytes (F j))
           (snd (entry_head F j (rw_rle st))) (rw_x st + F j)
           (upd (rw_syms st) j (Some sym))) st' m ltac:(lia) ltac:(lia) Hloop).
      cbn [rw_cp rw_rle rw_x rw_syms] in IH.
      destruct IH as (IH1 & IH2 & IH3).
      * rewrite cum_succ by lia. lia.
      * destruct Hsyms as [Hs1 Hs2]. split.
        -- intros k Hk HFk. unfold upd.
           destruct (Z.eqb_spec k j) as [-> | Hne].
           ++ exists sym. split; [reflexivity | exact Hinit].
           ++ apply Hs1; [lia | assumption].
        -- intros k Hk. unfold upd.
           destruct (Z.eqb_spec k j) as [-> | Hne]; [lia|].
           apply Hs2. lia.
      * split; [|split; assumption].
        rewrite <- IH1. rewrite <- !app_assoc. reflexivity.
Qed.

Lemma write_row_spec : forall cp tab syms,
  write_row F cp = Ok (tab, syms) ->
  tab = cp ++ row_from 256 F 0 0 /\ row_written F 256 syms.
Proof.
  intros cp tab syms H. unfold write_row in H.
  change (fun j => j <? 256) with (fun j => j <? 0 + Z.of_nat 256) in H.
  rewrite for_loop_up in H by lia.
  apply bind_ok in H. destruct H as (st & Hloop & Hres).
  inversion Hres; subst tab syms; clear Hres.
  destruct (write_loop 256 0 _ st 0%nat ltac:(lia) ltac:(lia) Hloop)
    as (H1 & _ & H3).
  - reflexivity.
  - split; [intros; lia | intros; reflexivity].
  - cbn [rw_cp rw_rle Nat.add] in H1. split; [|exact H3].
    rewrite H1. reflexivity.
Qed.

(* the decoder's loop from a present symbol j on *)
Lemma parse_loop_row : forall n j rle D dsyms fuel rest o1,
  Z.of_nat n = 255 - j -> 0 <= j -> F j <> 0 ->
  run_present F (j + 1) rle ->
  row_parsed F j D dsyms ->
  (length (freq_bytes (F j) ++ row_from n F (j + 1) rle ++ rest) < fuel)%nat ->
  exists st,
    parse_row_loop fuel o1
      (mkRowParser D dsyms j (cum F j) rle
         (freq_bytes (F j) ++ row_from n F (j + 1) rle ++ rest)) = Ok st /\
    rp_cp st = rest /\ rp_x st = cum F 256 /\
    row_parsed F 256 (rp_D st) (rp_syms st) /\
    (forall k, F k = 0 -> fc_F (rp_D st) k = fc_F D k).
Proof.
  induction n as [n IH] using lt_wf_ind.
  intros j rle D dsyms fuel rest o1 Hn Hj HFj Hrun Hparsed Hfuel.
  destruct fuel as [|fuel]; [lia|].
  destruct (row_bound j ltac:(lia)) as (Hc0 & Hc1 & HF).
  cbn [parse_row_loop]. unfold parse_entry at 1.
  cbn [rp_j rp_x rp_cp rp_rle rp_D rp_syms].
  destruct (Z.ltb_spec j 0); [lia|]. destruct (Z.leb_spec 256 j); [lia|].
  cbn [orb].
  rewrite read_freq_bytes by (change (2 ^ 15) with 32768; lia).
  cbn [bind].
  assert (Eo1 : (if o1 && (F j =? 0) then TOTFREQ else F j) = F j).
  { destruct (Z.eqb_spec (F j) 0); [contradiction|].
    rewrite andb_false_r. reflexivity. }
  rewrite Eo1.
  change TOTFREQ with 4096.
  destruct (Z.gtb_spec (cum F j + F j) 4096); [lia|].
  (* the tables after this round *)
  set (D' := mkAriDecoder (upd (fc_F D) j (F j)) (upd (fc_C D) j (cum F j))
               (memset (R D) (cum F j) j (F j))).
  set (dsyms' := upd dsyms j (Some (RansDecSymbolInit (cum F j) (F j)))).
  assert (Hparsed' : row_parsed F (j + 1) D' dsyms').
  { intros k Hk HFk. unfold D', dsyms'. cbn [fc_F fc_C R]. unfold upd, memset.
    destruct (Z.eqb_spec k j) as [-> | Hne].
    - split; [reflexivity|]. split; [reflexivity|]. split.
      + unfold RansDecSymbolInit.
        rewrite !u16_small by (change (2 ^ 16) with 65536; lia). reflexivity.
      + intros s Hs. destruct (Z.leb_spec (cum F j) s); [|lia].
        destruct (Z.ltb_spec s (cum F j + F j)); [|lia].
        cbn [andb]. rewrite u8_small by (change (2 ^ 8) with 256; lia).
        reflexivity.
    - destruct (Hparsed k ltac:(lia) HFk) as (P1 & P2 & P3 & P4).
      split; [exact P1|]. split; [exact P2|]. split; [exact P3|].
      intros s Hs.
      pose proof (cum_mono F (k + 1) j Hpos ltac:(lia) ltac:(lia)) as Hm.
      rewrite cum_succ in Hm by lia.
      destruct (Z.leb_spec (cum F j) s); [lia|]. cbn [andb].
      apply P4. exact Hs. }
  assert (Hcumj : cum F (j + 1) = cum F j + F j) by (apply cum_succ; lia).
  assert (Hkeep : forall k, F k = 0 -> fc_F D' k = fc_F D k).
  { intros k Hk. unfold D'. cbn [fc_F]. unfold upd.
    destruct (Z.eqb_spec k j); [subst; contradiction | reflexivity]. }
  assert (Hclose : forall st : row_parser,
    (forall k, F k = 0 -> fc_F (rp_D st) k = fc_F D' k) ->
    (forall k, F k = 0 -> fc_F (rp_D st) k = fc_F D k)).
  { intros st Hst k Hk. rewrite Hst by exact Hk. apply Hkeep. exact Hk. }
  destruct (Z.eqb_spec rle 0) as [-> | Hrle].
  - (* no run: the next byte is a symbol or the terminator *)
    destruct (row_from_skip F n (j + 1) ltac:(lia) ltac:(lia))
      as [[Hrow Habs] | (j' & m & Hj' & HFj' & Habs & Hm & Hrow)].
    + rewrite Hrow in *. cbn [app].
      destruct (Z.eqb_spec (j + 1) 0); [lia|].
      cbn [bind rp_j Z.eqb].
      eexists. split; [reflexivity|].
      cbn [rp_cp rp_x rp_D rp_syms].
      split; [reflexivity|]. split; [|split; [|exact Hkeep]].
      * rewrite <- Hcumj. symmetry. apply cum_absent; [lia | exact Habs].
      * intros k Hk HFk. apply Hparsed'; [|exact HFk].
        destruct (Z.lt_ge_cases k (j + 1)); [lia|].
        exfalso. apply HFk. apply Habs. lia.
    + rewrite Hrow in *.
      assert (Hu8 : u8 j' = j') by (apply u8_small; change (2 ^ 8) with 256; lia).
      assert (Hcj' : cum F j' = cum F j + F j).
      { rewrite <- Hcumj. apply cum_absent; [lia | exact Habs]. }
      assert (Hparsed'' : row_parsed F j' D' dsyms').
      { intros k Hk HFk. apply Hparsed'; [|exact HFk].
        destruct (Z.lt_ge_cases k (j + 1)); [lia|].
        exfalso. apply HFk. apply Habs. lia. }
      destruct (Z.eq_dec j' (j + 1)) as [Ej | Ej].
      * (* the successor: a run length follows *)
        subst j'. rewrite entry_head_next in *;
          try lia; try (replace (j + 1 - 1) with j by lia; exact HFj).
        cbn [fst snd app] in *. rewrite Hu8 in *.
        rewrite Z.eqb_refl.
        destruct (run_end_spec 256 F (j + 1 + 1) ltac:(lia) ltac:(lia))
          as (Hr1 & Hr2 & Hr3).
        set (r := run_end 256 F (j + 1 + 1) - (j + 1 + 1)) in *.
        rewrite (u8_small r) in * by (change (2 ^ 8) with 256; lia).
        cbn [bind rp_j].
        destruct (Z.eqb_spec (j + 1) 0); [lia|].
        rewrite <- Hcj'. rewrite <- ?app_assoc.
        destruct (IH m ltac:(lia) (j + 1) r D' dsyms' fuel rest o1)
          as (st0 & A1 & A2 & A3 & A4 & A5); try lia; try assumption;
          [ | | exists st0; repeat (split; [assumption|]); apply Hclose; exact A5].
        -- unfold run_present. split; [lia|]. split; [lia|].
           intros k Hk. apply Hr2. lia.
        -- norm_length Hfuel. pose proof (freq_bytes_length (F j)). lia.
      * (* a later symbol: no run length *)
        rewrite entry_head_first in * by (right; apply Habs; lia).
        cbn [fst snd app] in *. rewrite Hu8 in *.
        destruct (Z.eqb_spec (j + 1) j'); [lia|].
        cbn [bind rp_j].
        destruct (Z.eqb_spec j' 0); [lia|].
        rewrite <- Hcj'. rewrite <- ?app_assoc.
        destruct (IH m ltac:(lia) j' 0 D' dsyms' fuel rest o1)
          as (st0 & A1 & A2 & A3 & A4 & A5); try lia; try assumption;
          [ | | exists st0; repeat (split; [assumption|]); apply Hclose; exact A5].
        -- unfold run_present. split; [lia|]. split; [lia|]. intros; lia.
        -- norm_length Hfuel. pose proof (freq_bytes_length (F j)). lia.
  - (* inside a run: the next symbol is j + 1 *)
    destruct Hrun as (Hr0 & Hr1 & Hr2).
    assert (HFj1 : F (j + 1) <> 0) by (apply Hr2; lia).
    destruct n as [|n]; [lia|].
    cbn [row_from] in *.
    destruct (Z.eqb_spec (F (j + 1)) 0); [contradiction|].
    rewrite entry_head_in_run in * by assumption.
    cbn [fst snd app bind rp_j] in *.
    destruct (Z.eqb_spec (j + 1) 0); [lia|].
    rewrite <- Hcumj. rewrite <- ?app_assoc.
    destruct (IH n ltac:(lia) (j + 1) (rle - 1) D' dsyms' fuel rest o1)
      as (st0 & A1 & A2 & A3 & A4 & A5); try lia; try assumption;
      [ | | exists st0; repeat (split; [assumption|]); apply Hclose; exact A5].
    + unfold run_present. split; [lia|]. split; [lia|].
      intros k Hk. apply Hr2. lia.
    + norm_length Hfuel. pose proof (freq_bytes_length (F j)). lia.
Qed.

(* parse_row on the bytes of write_row *)
Lemma parse_row_written : forall o1 D dsyms rest,
  (exists j, 0 <= j < 256 /\ F j <> 0) ->
  exists st,
    parse_row o1 D dsyms (row_from 256 F 0 0 ++ rest) = Ok st /\
    rp_cp st = rest /\ rp_x st = cum F 256 /\
    row_parsed F 256 (rp_D st) (rp_syms st) /\
    (forall k, F k = 0 -> fc_F (rp_D st) k = fc_F D k).
Proof.
  intros o1 D dsyms rest (j0 & Hj0 & HFj0).
  destruct (row_from_skip F 256 0 ltac:(lia) ltac:(lia))
    as [[Hrow Habs] | (j & m & Hj & HFj & Habs & Hm & Hrow)].
  - exfalso. apply HFj0. apply Habs. lia.
  - rewrite Hrow.
    rewrite entry_head_first.
    2:{ destruct (Z.eq_dec j 0); [now left | right; apply Habs; lia]. }
    cbn [fst snd app]. unfold parse_row.
    rewrite u8_small by (change (2 ^ 8) with 256; lia).
    assert (E : cum F j = 0).
    { rewrite (cum_absent F 0 j); [reflexivity | lia | exact Habs]. }
    rewrite <- !app_assoc.
    pose proof (parse_loop_row m j 0 D dsyms
                  (S (length (freq_bytes (F j) ++ row_from m F (j + 1) 0 ++ rest)))
                  rest o1 Hm ltac:(lia) HFj) as H.
    rewrite E in H. apply H.
    + unfold run_present. split; [lia|]. split; [lia|]. intros; lia.
    + intros k Hk HFk. exfalso. apply HFk. apply Habs. lia.
    + lia.
Qed.
End Row.

(* ===================================================================== *)
(** * Four lanes on one byte stream                                        *)
(* ===================================================================== *)

Lemma get_set_lane : forall k x p st, get_lane k (set_lane k x p st) = x.
Proof. intros [] x p st; reflexivity. Qed.

Lemma ptr_set_lane : forall k x p st, ptr (set_lane k x p st) = p.
Proof. intros [] x p st; reflexivity. Qed.

Lemma set_lane_undo : forall k x p st,
  set_lane k (get_lane k st) (ptr st) (set_lane k x p st) = st.
Proof. intros [] x p []; reflexivity. Qed.

Lemma lanes_normalised_get : forall k st,
  lanes_normalised st -> normalised (get_lane k st).
Proof. intros [] st (H0 & H1 & H2 & H3); assumption. Qed.

Lemma lanes_normalised_set : forall k x p st,
  lanes_normalised st -> normalised x -> lanes_normalised (set_lane k x p st).
Proof.
  intros [] x p st (H0 & H1 & H2 & H3) Hx; unfold lanes_normalised; cbn; auto.
Qed.

Lemma RansEncInit_normalised : normalised RansEncInit.
Proof. unfold normalised, RansEncInit, RANS_BYTE_L. cbn. lia. Qed.

(* the tables a row writer and a row parser build from the same row agree *)
Lemma coherent_row : forall F esyms D dsyms,
  (forall j, 0 <= j < 256 -> 0 <= F j) -> cum F 256 <= 4096 ->
  row_written F 256 esyms -> row_parsed F 256 D dsyms ->
  coherent esyms D dsyms.
Proof.
  intros F esyms D dsyms Hpos Hcum [Hw1 Hw2] Hp c sym Hc.
  assert (Hrange : 0 <= c < 256 /\ F c <> 0).
  { destruct (Z.lt_ge_cases c 0) as [H|H].
    { rewrite Hw2 in Hc by lia. discriminate. }
    destruct (Z.lt_ge_cases c 256) as [H'|H'].
    2:{ rewrite Hw2 in Hc by lia. discriminate. }
    split; [lia|]. intros E. rewrite Hw2 in Hc by lia. discriminate. }
  destruct Hrange as [Hr HF].
  destruct (Hw1 c Hr HF) as (sym' & E & Hinit).
  rewrite Hc in E. inversion E; subst sym'; clear E.
  destruct (Hp c Hr HF) as (_ & _ & P3 & P4).
  destruct (row_bound F Hpos Hcum c Hr) as (B0 & B1 & B2).
  exists (cum F c), (F c). repeat split; try lia; assumption.
Qed.

(* an encoding step on lane k is undone by the decoding step on lane k *)
Lemma enc_put_inverse : forall esyms D dsyms k c st st',
  coherent esyms D dsyms -> lanes_normalised st ->
  enc_put esyms k c st = Ok st' ->
  lanes_normalised st' /\
  dec_get D dsyms k st' = Ok (c, st) /\
  (length (ptr st') <= length (ptr st) + 2)%nat.
Proof.
  intros esyms D dsyms k c st st' Hco Hn Hput.
  unfold enc_put in Hput.
  apply bind_ok in Hput. destruct Hput as (sym & Hsym & Hput).
  apply of_option_ok in Hsym.
  apply bind_ok in Hput. destruct Hput as ([x p] & Hps & Hst').
  inversion Hst'; subst st'; clear Hst'.
  destruct (Hco c sym Hsym) as (s & fr & Hs & Hfr & Hsum & Hinit & Hd & HR).
  destruct (put_symbol_inverse s fr sym _ _ _ _ Hs Hfr Hsum Hinit
              (lanes_normalised_get k st Hn) Hps) as (Hx & Hslot & Hadv & Hlen).
  split; [apply lanes_normalised_set; assumption|].
  split.
  - unfold dec_get. rewrite get_set_lane, ptr_set_lane.
    rewrite (HR _ Hslot). cbn [of_option bind]. rewrite Hd. cbn [of_option bind].
    unfold RansDecAdvanceSymbol. cbn [start freq]. rewrite Hadv. cbn [bind].
    rewrite set_lane_undo. reflexivity.
  - rewrite ptr_set_lane. exact Hlen.
Qed.

(* the unrolled block is four decoding steps, lanes 0 to 3 *)
Lemma dec_block_gets : forall D0 D1 D2 D3 s0 s1 s2 s3 st st1 st2 st3 st4 c0 c1 c2 c3,
  dec_get D0 s0 L0 st = Ok (c0, st1) ->
  dec_get D1 s1 L1 st1 = Ok (c1, st2) ->
  dec_get D2 s2 L2 st2 = Ok (c2, st3) ->
  dec_get D3 s3 L3 st3 = Ok (c3, st4) ->
  dec_block D0 D1 D2 D3 s0 s1 s2 s3 st = Ok (c0, c1, c2, c3, st4).
Proof.
  intros D0 D1 D2 D3 s0 s1 s2 s3 st st1 st2 st3 st4 c0 c1 c2 c3 H0 H1 H2 H3.
  unfold dec_get in *.
  apply bind_ok in H0. destruct H0 as (c0' & Hc0 & H0).
  apply bind_ok in H0. destruct H0 as (y0 & Hy0 & H0).
  apply bind_ok in H0. destruct H0 as ([x0 p0] & Ha0 & H0).
  inversion H0; subst c0' st1; clear H0.
  apply bind_ok in H1. destruct H1 as (c1' & Hc1 & H1).
  apply bind_ok in H1. destruct H1 as (y1 & Hy1 & H1).
  apply bind_ok in H1. destruct H1 as ([x1 p1] & Ha1 & H1).
  inversion H1; subst c1' st2; clear H1.
  apply bind_ok in H2. destruct H2 as (c2' & Hc2 & H2).
  apply bind_ok in H2. destruct H2 as (y2 & Hy2 & H2).
  apply bind_ok in H2. destruct H2 as ([x2 p2] & Ha2 & H2).
  inversion H2; subst c2' st3; clear H2.
  apply bind_ok in H3. destruct H3 as (c3' & Hc3 & H3).
  apply bind_ok in H3. destruct H3 as (y3 & Hy3 & H3).
  apply bind_ok in H3. destruct H3 as ([x3 p3] & Ha3 & H3).
  inversion H3; subst c3' st4; clear H3.
  destruct st as [r0 r1 r2 r3 p].
  cbn [get_lane set_lane ptr rans0 rans1 rans2 rans3] in *.
  unfold dec_block. cbn [rans0 rans1 rans2 rans3 ptr].
  unfold RansDecGet, TF_SHIFT in *.
  rewrite Hc0, Hc1, Hc2, Hc3. cbn [bind].
  rewrite Hy0, Hy1, Hy2, Hy3. cbn [bind].
  unfold RansDecAdvanceSymbol, RansDecAdvance, RansDecAdvanceStep in *.
  assert (E : forall a m s, u32 (u32 a + (m - s)) = u32 (a + m - s)).
  { intros. unfold u32. rewrite Z.add_mod_idemp_l by lia. f_equal. lia. }
  rewrite !E. rewrite Ha0. cbn [bind]. rewrite Ha1. cbn [bind].
  rewrite Ha2. cbn [bind]. rewrite Ha3. cbn [bind]. reflexivity.
Qed.

(* ===================================================================== *)
(** * The order-0 payload                                                  *)
(* ===================================================================== *)

Lemma land_3 : forall x, Z.land x 3 = x mod 4.
Proof. intros. change 3 with (Z.ones 2). rewrite Z.land_ones by lia. reflexivity. Qed.

Lemma land_not3 : forall x, Z.land x (Z.lnot 3) = 4 * (x / 4).
Proof.
  intros. rewrite <- Z.ldiff_land. change 3 with (Z.ones 2).
  rewrite Z.ldiff_ones_r by lia.
  rewrite Z.shiftr_div_pow2, Z.shiftl_mul_pow2 by lia.
  change (2 ^ 2) with 4. lia.
Qed.

Lemma zup_S : forall lo d n, zup lo d (S n) = lo :: zup (lo + d) d n.
Proof.
  intros. unfold zup. simpl. f_equal; [lia|].
  rewrite <- seq_shift, map_map. apply map_ext. intros; lia.
Qed.

Lemma zup_snoc : forall lo d n, zup lo d (S n) = zup lo d n ++ [lo + d * Z.of_nat n].
Proof. intros. unfold zup. rewrite seq_S, map_app. reflexivity. Qed.

Lemma iterates_up : forall d n i, iterates (fun i => i + d) i n = zup i d n.
Proof.
  induction n as [|n IH]; intros; [reflexivity|].
  rewrite zup_S. simpl. f_equal. apply IH.
Qed.

Lemma iter_up : forall d n i, Nat.iter n (fun i => i + d) i = i + d * Z.of_nat n.
Proof. induction n; intros; simpl; [lia|]. rewrite IHn. lia. Qed.

(* for (i = lo; i < hi; i += d) *)
Lemma for_loop_up_by : forall {St : Type} (body : Z -> St -> result St)
  fuel d lo hi n st,
  (n < fuel)%nat -> 0 < d ->
  lo + d * (Z.of_nat n - 1) < hi <= lo + d * Z.of_nat n ->
  for_loop fuel (fun i => i <? hi) (fun i => i + d) body lo st
  = for_each body (zup lo d n) st.
Proof.
  intros. rewrite <- iterates_up. apply for_loop_iterates; [assumption| |].
  - rewrite iterates_up. apply Forall_forall. intros k Hk.
    unfold zup in Hk. apply in_map_iff in Hk. destruct Hk as (m & <- & Hin).
    apply in_seq in Hin. apply Z.ltb_lt. nia.
  - rewrite iter_up. apply Z.ltb_ge. lia.
Qed.

Section PayloadO0.
Variable esyms : Z -> option RansEncSymbol.
Variable D : ari_decoder.
Variable dsyms : Z -> option RansDecSymbol.
Variable inp : bytes.
Hypothesis Hco : coherent esyms D dsyms.

Local Abbreviation put_O0 := (put_O0 esyms inp).
Local Abbreviation written := (written inp).

Lemma put_O0_inverse : forall k i st st',
  lanes_normalised st -> put_O0 k i st = Ok st' ->
  exists c, rd inp i = Ok c /\ lanes_normalised st' /\
    dec_get D dsyms k st' = Ok (c, st) /\
    (length (ptr st') <= length (ptr st) + 2)%nat.
Proof.
  intros k i st st' Hn H. unfold put_O0 in H.
  apply bind_ok in H. destruct H as (c & Hc & H).
  exists c. split; [exact Hc|].
  apply (enc_put_inverse esyms D dsyms); assumption.
Qed.

Lemma dec_one_inverse : forall k i st st' out,
  lanes_normalised st -> put_O0 k i st = Ok st' ->
  lanes_normalised st' /\
  (length (ptr st') <= length (ptr st) + 2)%nat /\
  exists out', dec_one D dsyms k i (st', out) = Ok (st, out') /\
               written out out' i (i + 1).
Proof.
  intros k i st st' out Hn H.
  destruct (put_O0_inverse k i st st' Hn H) as (c & Hc & Hn' & Hd & Hl).
  split; [exact Hn'|]. split; [exact Hl|].
  exists (upd out i c). split.
  - unfold dec_one. cbn [fst snd]. rewrite Hd. reflexivity.
  - split; intros p Hp; unfold upd.
    + assert (p = i) by lia. subst p. rewrite Z.eqb_refl. exact Hc.
    + destruct (Z.eqb_spec p i); [lia | reflexivity].
Qed.

Lemma block_inverse : forall i st st' out,
  lanes_normalised st -> enc_block_O0 put_O0 i st = Ok st' ->
  lanes_normalised st' /\
  (length (ptr st') <= length (ptr st) + 8)%nat /\
  exists out', dec_blk_O0 D dsyms (i - 4) (st', out) = Ok (st, out') /\
               written out out' (i - 4) i.
Proof.
  intros i st st' out Hn H. unfold enc_block_O0 in H.
  apply bind_ok in H. destruct H as (sa & H3 & H).
  apply bind_ok in H. destruct H as (sb & H2 & H).
  apply bind_ok in H. destruct H as (sc & H1 & H0).
  destruct (put_O0_inverse _ _ _ _ Hn H3) as (c3 & Hc3 & Hna & Hd3 & Hl3).
  destruct (put_O0_inverse _ _ _ _ Hna H2) as (c2 & Hc2 & Hnb & Hd2 & Hl2).
  destruct (put_O0_inverse _ _ _ _ Hnb H1) as (c1 & Hc1 & Hnc & Hd1 & Hl1).
  destruct (put_O0_inverse _ _ _ _ Hnc H0) as (c0 & Hc0 & Hnd & Hd0 & Hl0).
  split; [exact Hnd|]. split; [lia|].
  eexists. split.
  - unfold dec_blk_O0. cbn [fst snd].
    rewrite (dec_block_gets _ _ _ _ _ _ _ _ _ _ _ _ _ _ _ _ _ Hd0 Hd1 Hd2 Hd3).
    cbn [bind]. reflexivity.
  - split; intros p Hp; unfold upd.
    + destruct (Z.eqb_spec p (i - 4 + 3)) as [-> | E3].
      { replace (i - 4 + 3) with (i - 1) by lia. exact Hc3. }
      destruct (Z.eqb_spec p (i - 4 + 2)) as [-> | E2].
      { replace (i - 4 + 2) with (i - 2) by lia. exact Hc2. }
      destruct (Z.eqb_spec p (i - 4 + 1)) as [-> | E1].
      { replace (i - 4 + 1) with (i - 3) by lia. exact Hc1. }
      destruct (Z.eqb_spec p (i - 4)) as [-> | E0]; [exact Hc0 | lia].
    + destruct (Z.eqb_spec p (i - 4 + 3)); [lia|].
      destruct (Z.eqb_spec p (i - 4 + 2)); [lia|].
      destruct (Z.eqb_spec p (i - 4 + 1)); [lia|].
      destruct (Z.eqb_spec p (i - 4)); [lia | reflexivity].
Qed.

Lemma written_trans : forall out out1 out2 a b c,
  a <= b <= c ->
  written out out1 a b -> written out1 out2 b c -> written out out2 a c.
Proof.
  intros out out1 out2 a b c Habc [W1 W2] [W3 W4]. split; intros p Hp.
  - destruct (Z.lt_ge_cases p b).
    + rewrite W4 by lia. apply W1. lia.
    + apply W3. lia.
  - rewrite W4 by lia. apply W2. lia.
Qed.

(* the main loops: n rounds of four symbols *)
Lemma main_loop_inverse : forall n st st',
  lanes_normalised st ->
  for_each (enc_block_O0 put_O0) (zdown (4 * Z.of_nat n) 4 n) st = Ok st' ->
  lanes_normalised st' /\
  (length (ptr st') <= length (ptr st) + 8 * n)%nat /\
  forall out, exists out',
    for_each (dec_blk_O0 D dsyms) (zup 0 4 n) (st', out) = Ok (st, out') /\
    written out out' 0 (4 * Z.of_nat n).
Proof.
  induction n as [|n IH]; intros st st' Hn H.
  - cbn in H. inversion H; subst st'. split; [exact Hn|]. split; [lia|].
    intros out. exists out. split; [reflexivity|].
    split; intros p Hp; [lia | reflexivity].
  - rewrite zdown_S in H. cbn [for_each] in H.
    apply bind_ok in H. destruct H as (sa & Hblk & Hrest).
    replace (4 * Z.of_nat (S n) - 4) with (4 * Z.of_nat n) in Hrest by lia.
    destruct (IH sa st') as (Hn' & Hlen & Hdec).
    + apply (block_inverse _ _ _ (fun _ => 0) Hn Hblk).
    + exact Hrest.
    + split; [exact Hn'|].
      split.
      { destruct (block_inverse _ _ _ (fun _ => 0) Hn Hblk) as (_ & Hl & _). lia. }
      intros out. destruct (Hdec out) as (out1 & Hd1 & W1).
      destruct (block_inverse _ _ _ out1 Hn Hblk) as (_ & _ & out2 & Hd2 & W2).
      exists out2. split.
      * rewrite zup_snoc, for_each_app, Hd1. cbn [bind for_each].
        replace (0 + 4 * Z.of_nat n) with (4 * Z.of_nat (S n) - 4) by lia.
        rewrite Hd2. reflexivity.
      * apply (written_trans out out1 out2 0 (4 * Z.of_nat (S n) - 4)); try lia.
        -- replace (4 * Z.of_nat (S n) - 4) with (4 * Z.of_nat n) by lia. exact W1.
        -- exact W2.
Qed.

(* the whole payload: what rans_compress_O0 pushes, rans_uncompress_O0
   pops in the opposite order *)
Lemma payload_O0_inverse : forall st st',
  let N := Z.of_nat (length inp) in
  lanes_normalised st ->
  enc_order_O0 put_O0 N st = Ok st' ->
  lanes_normalised st' /\
  (length (ptr st') <= length (ptr st) + 2 * length inp)%nat /\
  forall out, exists out',
    dec_order_O0 (dec_blk_O0 D dsyms) (dec_one D dsyms) N (st', out)
      = Ok (st, out') /\
    written out out' 0 N.
Proof.
  intros st st' N Hn H. unfold enc_order_O0 in H.
  apply bind_ok in H. destruct H as (st_t & Htail & Hmain).
  rewrite land_not3 in Hmain.
  pose proof (Z.div_mod N 4 ltac:(lia)) as Hdm.
  pose proof (Z.mod_pos_bound N 4 ltac:(lia)) as Hmb.
  assert (HN0 : 0 <= N) by (unfold N; lia).
  assert (Hq0 : 0 <= N / 4) by (apply Z.div_pos; lia).
  set (n := Z.to_nat (N / 4)).
  assert (Hn4 : 4 * (N / 4) = 4 * Z.of_nat n) by (unfold n; lia).
  rewrite (for_loop_down _ _ 4 0 _ n) in Hmain by (unfold n in *; lia).
  rewrite Hn4 in Hmain.
  assert (Htail_inv :
    lanes_normalised st_t /\
    (length (ptr st_t) <= length (ptr st) + 2 * Z.to_nat (N mod 4))%nat /\
    forall out, exists out',
      (let out_end := 4 * Z.of_nat n in
       let sw := N mod 4 in
       if sw =? 1 then dec_one D dsyms L0 out_end (st_t, out)
       else if sw =? 2 then
         s <- dec_one D dsyms L0 out_end (st_t, out) ;;
         dec_one D dsyms L1 (out_end + 1) s
       else if sw =? 3 then
         s <- dec_one D dsyms L0 out_end (st_t, out) ;;
         s <- dec_one D dsyms L1 (out_end + 1) s ;;
         dec_one D dsyms L2 (out_end + 2) s
       else Ok (st_t, out)) = Ok (st, out') /\
      written out out' (4 * Z.of_nat n) N).
  { unfold enc_tail_O0 in Htail. rewrite land_3 in Htail.
    fold N in Htail. cbv zeta.
    assert (Hcases : N mod 4 = 0 \/ N mod 4 = 1 \/ N mod 4 = 2 \/ N mod 4 = 3) by lia.
    destruct Hcases as [E | [E | [E | E]]]; rewrite E in *; cbn [Z.eqb Pos.eqb orb] in Htail |- *.
    - cbn [bind] in Htail. inversion Htail; subst st_t.
      split; [exact Hn|]. split; [lia|].
      intros out. exists out. split; [reflexivity|].
      split; intros p Hp; [lia | reflexivity].
    - cbn [bind] in Htail.
      destruct (dec_one_inverse _ _ _ _ (fun _ => 0) Hn Htail) as (Hn1 & Hl1 & _).
      split; [exact Hn1|]. split; [simpl; lia|].
      intros out.
      destruct (dec_one_inverse _ _ _ _ out Hn Htail) as (_ & _ & o1 & Hd1 & W1).
      exists o1. replace (4 * Z.of_nat n) with (N - (1 - 0)) by lia.
      split; [exact Hd1|].
      replace N with (N - (1 - 0) + 1) at 2 by lia. exact W1.
    - cbn [bind] in Htail.
      apply bind_ok in Htail. destruct Htail as (s1 & Hp1 & Hp0).
      destruct (dec_one_inverse _ _ _ _ (fun _ => 0) Hn Hp1) as (Hn1 & Hl1 & _).
      destruct (dec_one_inverse _ _ _ _ (fun _ => 0) Hn1 Hp0) as (Hn0 & Hl0 & _).
      split; [exact Hn0|]. split; [simpl; lia|].
      intros out.
      destruct (dec_one_inverse _ _ _ _ out Hn1 Hp0) as (_ & _ & o0 & Hd0 & W0).
      destruct (dec_one_inverse _ _ _ _ o0 Hn Hp1) as (_ & _ & o1 & Hd1 & W1).
      exists o1.
      replace (4 * Z.of_nat n) with (N - (2 - 0)) by lia.
      rewrite Hd0. cbn [bind].
      replace (N - (2 - 0) + 1) with (N - (2 - 1)) by lia.
      split; [exact Hd1|].
      apply (written_trans out o0 o1 _ (N - (2 - 0) + 1)); try lia; [exact W0|].
      replace (N - (2 - 0) + 1) with (N - (2 - 1)) by lia.
      replace N with (N - (2 - 1) + 1) at 2 by lia. exact W1.
    - apply bind_ok in Htail. destruct Htail as (s2 & Hp2 & Htail).
      apply bind_ok in Htail. destruct Htail as (s1 & Hp1 & Hp0).
      destruct (dec_one_inverse _ _ _ _ (fun _ => 0) Hn Hp2) as (Hn2 & Hl2 & _).
      destruct (dec_one_inverse _ _ _ _ (fun _ => 0) Hn2 Hp1) as (Hn1 & Hl1 & _).
      destruct (dec_one_inverse _ _ _ _ (fun _ => 0) Hn1 Hp0) as (Hn0 & Hl0 & _).
      split; [exact Hn0|]. split; [simpl; lia|].
      intros out.
      destruct (dec_one_inverse _ _ _ _ out Hn1 Hp0) as (_ & _ & o0 & Hd0 & W0).
      destruct (dec_one_inverse _ _ _ _ o0 Hn2 Hp1) as (_ & _ & o1 & Hd1 & W1).
      destruct (dec_one_inverse _ _ _ _ o1 Hn Hp2) as (_ & _ & o2 & Hd2 & W2).
      exists o2.
      replace (4 * Z.of_nat n) with (N - (3 - 0)) by lia.
      rewrite Hd0. cbn [bind].
      replace (N - (3 - 0) + 1) with (N - (3 - 1)) by lia.
      rewrite Hd1. cbn [bind].
      replace (N - (3 - 0) + 2) with (N - (3 - 2)) by lia.
      split; [exact Hd2|].
      apply (written_trans out o1 o2 _ (N - (3 - 2))); try lia.
      + apply (written_trans out o0 o1 _ (N - (3 - 1))); try lia.
        * replace (N - (3 - 1)) with (N - (3 - 0) + 1) by lia. exact W0.
        * replace (N - (3 - 2)) with (N - (3 - 1) + 1) by lia. exact W1.
      + replace N with (N - (3 - 2) + 1) at 2 by lia. exact W2. }
  destruct Htail_inv as (Hnt & Hlt & Hdt).
  destruct (main_loop_inverse n st_t st' Hnt Hmain) as (Hn' & Hl' & Hdm').
  split; [exact Hn'|].
  split.
  { assert (Z.of_nat (length (ptr st')) <= Z.of_nat (length (ptr st)) + 2 * N); [|lia].
    assert (Z.of_nat (Z.to_nat (N mod 4)) = N mod 4) by lia. lia. }
  intros out. destruct (Hdm' out) as (o1 & Hd1 & W1).
  destruct (Hdt o1) as (o2 & Hd2 & W2).
  exists o2. split.
  - unfold dec_order_O0. rewrite land_not3, land_3. rewrite Hn4.
    rewrite (for_loop_up_by _ _ 4 0 _ n) by (unfold n in *; lia).
    rewrite Hd1. cbn [bind]. exact Hd2.
  - apply (written_trans out o1 o2 0 (4 * Z.of_nat n)); try lia; assumption.
Qed.
End PayloadO0.

(* ===================================================================== *)
(** * Counting and normalising (order 0)                                   *)
(* ===================================================================== *)

Lemma count_fold_bounds : forall inp F0 j,
  F0 j <= fold_left (fun F c => upd F c (F c + 1)) inp F0 j
       <= F0 j + Z.of_nat (length inp).
Proof.
  induction inp as [|c inp IH]; intros F0 j; cbn [fold_left length].
  - lia.
  - specialize (IH (upd F0 c (F0 c + 1)) j).
    assert (E : upd F0 c (F0 c + 1) j = if j =? c then F0 c + 1 else F0 j)
      by reflexivity.
    rewrite E in IH. destruct (Z.eqb_spec j c); subst; lia.
Qed.

Lemma count_fold_absent : forall inp F0 j,
  ~ In j inp -> fold_left (fun F c => upd F c (F c + 1)) inp F0 j = F0 j.
Proof.
  induction inp as [|c inp IH]; intros F0 j Hin; cbn [fold_left]; [reflexivity|].
  rewrite IH by (intros H; apply Hin; now right).
  unfold upd. destruct (Z.eqb_spec j c); [|reflexivity].
  exfalso. apply Hin. left. congruence.
Qed.

Lemma count_O0_bounds : forall inp j, 0 <= count_O0 inp j <= Z.of_nat (length inp).
Proof.
  intros. unfold count_O0.
  pose proof (count_fold_bounds inp (fun _ => 0) j). cbn beta in H. lia.
Qed.

Lemma count_O0_outside : forall inp j,
  is_bytes inp -> ~ (0 <= j < 256) -> count_O0 inp j = 0.
Proof.
  intros inp j Hb Hj. unfold count_O0. rewrite count_fold_absent; [reflexivity|].
  intros Hin. unfold is_bytes in Hb. rewrite Forall_forall in Hb.
  apply Hb in Hin. lia.
Qed.

(* sums and array updates *)
Lemma sumZ_ext : forall f g lo n,
  (forall k, lo <= k < lo + Z.of_nat n -> f k = g k) -> sumZ f lo n = sumZ g lo n.
Proof.
  intros f g lo n. induction n as [|n IH]; intros H; [reflexivity|].
  rewrite !sumZ_S. rewrite IH by (intros; apply H; lia).
  rewrite H by lia. reflexivity.
Qed.

Lemma sumZ_upd : forall f M v lo n,
  lo <= M < lo + Z.of_nat n -> sumZ (upd f M v) lo n = sumZ f lo n + v - f M.
Proof.
  intros f M v lo n. induction n as [|n IH]; intros HM; [lia|].
  rewrite !sumZ_S.
  destruct (Z.eq_dec M (lo + Z.of_nat n)) as [E | E].
  - rewrite (sumZ_ext (upd f M v) f).
    + unfold upd. rewrite <- E, Z.eqb_refl. lia.
    + intros k Hk. unfold upd. destruct (Z.eqb_spec k M); [lia | reflexivity].
  - rewrite IH by lia. unfold upd.
    destruct (Z.eqb_spec (lo + Z.of_nat n) M); [lia|]. lia.
Qed.

(* the normalisation loop never stops the program *)
Lemma norm_loop_O0 : forall tr n j st,
  exists st',
    for_each (norm_step_O0 tr) (zrange j n) st = Ok st' /\
    (forall k, nm_F st' k =
               if (j <=? k) && (k <? j + Z.of_nat n) then norm_O0 tr (nm_F st k)
               else nm_F st k) /\
    nm_sum st' = nm_sum st + sumZ (fun k => norm_O0 tr (nm_F st k)) j n /\
    (nm_M st' = nm_M st \/ j <= nm_M st' < j + Z.of_nat n).
Proof.
  intros tr n. induction n as [|n IH]; intros j st.
  - exists st. split; [reflexivity|]. split; [|split].
    + intros k. destruct (Z.leb_spec j k); destruct (Z.ltb_spec k (j + Z.of_nat 0));
        try reflexivity; lia.
    + cbn. lia.
    + now left.
  - rewrite zrange_snoc, for_each_app.
    destruct (IH j st) as (st1 & H1 & HF & Hs & HM). rewrite H1. cbn [bind for_each].
    set (i := j + Z.of_nat n) in *.
    assert (HFi : nm_F st1 i = nm_F st i).
    { rewrite HF. destruct (Z.leb_spec j i); destruct (Z.ltb_spec i i);
        try reflexivity; lia. }
    unfold norm_step_O0. rewrite HFi.
    assert (Hshape : forall k : Z,
      (if (j <=? k) && (k <? j + Z.of_nat (S n)) then norm_O0 tr (nm_F st k)
       else nm_F st k)
      = if k =? i then norm_O0 tr (nm_F st i)
        else if (j <=? k) && (k <? i) then norm_O0 tr (nm_F st k) else nm_F st k).
    { intros k. unfold i.
      destruct (Z.eqb_spec k (j + Z.of_nat n)) as [He | Hne];
        destruct (Z.leb_spec j k); destruct (Z.ltb_spec k (j + Z.of_nat (S n)));
        destruct (Z.ltb_spec k (j + Z.of_nat n)); cbn [andb];
        try reflexivity; try lia; rewrite He; reflexivity. }
    destruct (Z.eqb_spec (nm_F st i) 0) as [E | E].
    + exists st1. split; [reflexivity|]. split; [|split].
      * intros k. rewrite Hshape, HF. unfold norm_O0 at 1. rewrite E. cbn [Z.eqb].
        destruct (Z.eqb_spec k i) as [-> | Hne]; [|reflexivity].
        destruct (Z.leb_spec j i); destruct (Z.ltb_spec i i); cbn [andb]; try lia;
          exact E.
      * rewrite sumZ_S, Hs. cbn beta. fold i.
        replace (norm_O0 tr (nm_F st i)) with 0; [lia|].
        unfold norm_O0. rewrite E. reflexivity.
      * destruct HM as [HM | HM]; [now left | right; lia].
    + assert (HMnew : forall b : bool,
        nm_M st1 = nm_M st \/ j <= nm_M st1 < i ->
        let M' := snd (if b then (nm_F st i, i) else (nm_m st1, nm_M st1)) in
        M' = nm_M st \/ j <= M' < j + Z.of_nat (S n)).
      { intros [] HM'; cbn [snd]; [right; unfold i; lia|].
        destruct HM' as [HM' | HM']; [now left | right; unfold i in *; lia]. }
      specialize (HMnew (nm_m st1 <? nm_F st i) HM). cbv zeta in HMnew.
      destruct (nm_m st1 <? nm_F st i); cbn [snd] in HMnew.
      all: eexists; (split; [reflexivity|]); cbn [nm_F nm_sum nm_M];
        (split; [|split; [|exact HMnew]]).

      * intros k. rewrite Hshape. unfold upd.
        destruct (Z.eqb_spec k i) as [-> | Hne].
        -- unfold norm_O0. destruct (Z.eqb_spec (nm_F st i) 0); [contradiction|].
           reflexivity.
        -- apply HF.
      * rewrite sumZ_S, Hs. cbn beta. fold i.
        assert (En : norm_O0 tr (nm_F st i) =
                     (if s32 (Z.shiftr (u64 (nm_F st i * tr)) 31) =? 0 then 1
                      else s32 (Z.shiftr (u64 (nm_F st i * tr)) 31))).
        { unfold norm_O0. destruct (Z.eqb_spec (nm_F st i) 0); [contradiction|].
          reflexivity. }
        rewrite En. lia.
      * intros k. rewrite Hshape. unfold upd.
        destruct (Z.eqb_spec k i) as [-> | Hne].
        -- unfold norm_O0. destruct (Z.eqb_spec (nm_F st i) 0); [contradiction|].
           reflexivity.
        -- apply HF.
      * rewrite sumZ_S, Hs. cbn beta. fold i.
        assert (En : norm_O0 tr (nm_F st i) =
                     (if s32 (Z.shiftr (u64 (nm_F st i * tr)) 31) =? 0 then 1
                      else s32 (Z.shiftr (u64 (nm_F st i * tr)) 31))).
        { unfold norm_O0. destruct (Z.eqb_spec (nm_F st i) 0); [contradiction|].
          reflexivity. }
        rewrite En. lia.
Qed.

Lemma adjust_eq : forall st fsum,
  adjust st fsum = upd (nm_F st) (nm_M st) (nm_F st (nm_M st) + TOTFREQ - fsum).
Proof.
  intros. unfold adjust. destruct (fsum <? TOTFREQ); f_equal; lia.
Qed.

Lemma cum_256 : forall F, cum F 256 = sumZ F 0 256.
Proof. reflexivity. Qed.

(* what the normalisation of rans_compress_O0 computes: every count is
   scaled, and F[M] takes up the difference to TOTFREQ - 1 *)
Lemma normalise_O0_spec : forall F0 tr,
  exists F M,
    normalise_O0 F0 tr = Ok (F, M) /\ 0 <= M < 256 /\
    (forall k, k <> M ->
       F k = if (0 <=? k) && (k <? 256) then norm_O0 tr (F0 k) else F0 k) /\
    F M = norm_O0 tr (F0 M)
          + (TOTFREQ - 1 - sumZ (fun k => norm_O0 tr (F0 k)) 0 256) /\
    cum F 256 = TOTFREQ - 1.
Proof.
  intros F0 tr. unfold normalise_O0.
  change (fun j => j <? 256) with (fun j => j <? 0 + Z.of_nat 256).
  rewrite for_loop_up by lia.
  destruct (norm_loop_O0 tr 256 0 (mkNormaliser F0 0 0 0)) as (st & Hloop & HF & Hs & HM).
  rewrite Hloop. cbn [bind nm_F nm_sum nm_M] in *.
  exists (adjust st (nm_sum st + 1)), (nm_M st).
  split; [reflexivity|].
  assert (HMr : 0 <= nm_M st < 256) by lia.
  split; [exact HMr|].
  rewrite adjust_eq.
  assert (HFM : nm_F st (nm_M st) = norm_O0 tr (F0 (nm_M st))).
  { rewrite HF. destruct (Z.leb_spec 0 (nm_M st));
      destruct (Z.ltb_spec (nm_M st) (0 + Z.of_nat 256)); cbn [andb];
      try reflexivity; lia. }
  split; [|split].
  - intros k Hk. unfold upd. destruct (Z.eqb_spec k (nm_M st)); [contradiction|].
    apply HF.
  - unfold upd. rewrite Z.eqb_refl. rewrite HFM, Hs. lia.
  - rewrite cum_256, sumZ_upd by lia.
    rewrite (sumZ_ext (nm_F st) (fun k => norm_O0 tr (F0 k))).
    + rewrite Hs. lia.
    + intros k Hk. rewrite HF.
      destruct (Z.leb_spec 0 k); destruct (Z.ltb_spec k (0 + Z.of_nat 256));
        cbn [andb]; try reflexivity; lia.
Qed.

Lemma scale_factor_spec : forall N tr,
  scale_factor N = Ok tr -> 0 < N -> tr = 2 ^ 43 / N + 2 ^ 30 / N.
Proof.
  intros N tr H HN. unfold scale_factor in H.
  destruct (Z.eqb_spec N 0); [lia|]. injection H as <-.
  change (Z.shiftl TOTFREQ 31) with 8796093022208.
  change (Z.shiftl 1 30) with 1073741824.
  change (2 ^ 43) with 8796093022208. change (2 ^ 30) with 1073741824.
  rewrite (u64_small 8796093022208)
    by (change (2 ^ 64) with 18446744073709551616; lia).
  apply u64_small.
  assert (0 <= 8796093022208 / N <= 8796093022208).
  { split; [apply Z.div_pos; lia|]. apply Z.div_le_upper_bound; [lia|]. nia. }
  assert (0 <= 1073741824 / N <= 1073741824).
  { split; [apply Z.div_pos; lia|]. apply Z.div_le_upper_bound; [lia|]. nia. }
  change (2 ^ 64) with 18446744073709551616. lia.
Qed.

(* a count between 1 and N is scaled to a frequency between 1 and 2^12 *)
Lemma norm_O0_bounds : forall N c,
  0 < N -> 0 <= c <= N ->
  let tr := 2 ^ 43 / N + 2 ^ 30 / N in
  (c = 0 -> norm_O0 tr c = 0) /\ (1 <= c -> 1 <= norm_O0 tr c <= 4096).
Proof.
  intros N c HN Hc tr. split.
  - intros ->. reflexivity.
  - intros Hc1. unfold norm_O0. destruct (Z.eqb_spec c 0); [lia|]. cbv zeta.
    assert (Ha : 0 <= 2 ^ 43 / N) by (apply Z.div_pos; lia).
    assert (Hb : 0 <= 2 ^ 30 / N) by (apply Z.div_pos; lia).
    pose proof (Z.mul_div_le (2 ^ 43) N ltac:(lia)) as Ha'.
    pose proof (Z.mul_div_le (2 ^ 30) N ltac:(lia)) as Hb'.
    assert (Hprod : 0 <= c * tr <= 2 ^ 43 + 2 ^ 30).
    { unfold tr. split; [nia|].
      assert (c * (2 ^ 43 / N) <= N * (2 ^ 43 / N)) by nia.
      assert (c * (2 ^ 30 / N) <= N * (2 ^ 30 / N)) by nia. lia. }
    change (2 ^ 43 + 2 ^ 30) with 8797166764032 in Hprod.
    rewrite u64_small by (change (2 ^ 64) with 18446744073709551616; lia).
    rewrite Z.shiftr_div_pow2 by lia. change (2 ^ 31) with 2147483648.
    assert (Hq : 0 <= c * tr / 2147483648 <= 4096).
    { split; [apply Z.div_pos; lia|].
      assert (c * tr / 2147483648 < 4097); [|lia].
      apply Z.div_lt_upper_bound; lia. }
    rewrite s32_small by (change (2 ^ 31) with 2147483648; lia).
    destruct (Z.eqb_spec (c * tr / 2147483648) 0); lia.
Qed.

(* ===================================================================== *)
(** * Frames                                                               *)
(* ===================================================================== *)

Lemma u32_s32 : forall z, u32 (s32 z) = u32 z.
Proof.
  intros. unfold u32, s32.
  rewrite <- Zminus_mod_idemp_l. rewrite Z.mod_mod by lia.
  rewrite Zminus_mod_idemp_l. f_equal. lia.
Qed.

Lemma u32_u32 : forall z, u32 (u32 z) = u32 z.
Proof. intros. unfold u32. apply Z.mod_mod. lia. Qed.

Lemma rd_cons : forall b l i, 0 < i -> rd (b :: l) i = rd l (i - 1).
Proof.
  intros b l i Hi. unfold rd.
  destruct (Z.ltb_spec i 0); [lia|]. destruct (Z.ltb_spec (i - 1) 0); [lia|].
  replace (Z.to_nat i) with (S (Z.to_nat (i - 1))) by lia. reflexivity.
Qed.

Lemma rd_0 : forall b l, rd (b :: l) 0 = Ok b.
Proof. reflexivity. Qed.

Lemma read_int_le32 : forall v pre l,
  0 <= v < 2 ^ 32 ->
  read_int (pre ++ le32 v ++ l) (Z.of_nat (length pre)) = Ok (s32 v).
Proof.
  intros v pre l Hv.
  assert (Hrd : forall k b0 b1 b2 b3 : Z, 0 <= k ->
    rd (pre ++ b0 :: b1 :: b2 :: b3 :: l) (Z.of_nat (length pre) + k) =
    rd (b0 :: b1 :: b2 :: b3 :: l) k).
  { intros k b0 b1 b2 b3 Hk. induction pre as [|p pre IH]; cbn [length app].
    - f_equal; lia.
    - rewrite rd_cons by lia. rewrite <- IH. f_equal; lia. }
  unfold read_int, le32. cbn [app].
  rewrite <- (Z.add_0_r (Z.of_nat (length pre))) at 1.
  rewrite !Hrd by lia. rewrite rd_0. cbn [bind].
  rewrite rd_cons, rd_0 by lia. cbn [bind].
  rewrite rd_cons, rd_cons, rd_0 by lia. cbn [bind].
  rewrite rd_cons, rd_cons, rd_cons, rd_0 by lia. cbn [bind].
  rewrite !land_255, !Z.shiftr_div_pow2 by lia.
  change (2 ^ 0) with 1. rewrite Z.div_1_r.
  rewrite le32_value by exact Hv. reflexivity.
Qed.

Lemma le32_length : forall v, length (le32 v) = 4%nat.
Proof. reflexivity. Qed.

Lemma make_frame_length : forall order N tab payload,
  length (make_frame order N tab payload)
  = (9 + length tab + length payload)%nat.
Proof.
  intros. unfold make_frame. cbn [length]. rewrite !length_app, !le32_length. lia.
Qed.

Lemma skipn_make_frame : forall order N tab payload,
  skipn 9 (make_frame order N tab payload) = tab ++ payload.
Proof. reflexivity. Qed.

(* the header a compressor writes passes the checks of the decompressor *)
Lemma read_header_frame : forall order N tab payload,
  0 <= N < 2 ^ 31 ->
  read_header order (make_frame order N tab payload) = Ok N.
Proof.
  intros order N tab payload HN.
  unfold read_header. rewrite make_frame_length.
  unfold make_frame.
  set (v := u32 (u32 (Z.of_nat (length payload) + (9 + Z.of_nat (length tab))) - 9)).
  assert (Hv : 0 <= v < 2 ^ 32) by apply u32_range.
  rewrite rd_0. cbn [bind]. rewrite Z.eqb_refl. cbn [negb].
  change 1 with (Z.of_nat (length [order])) at 1.
  change (order :: le32 v ++ le32 N ++ tab ++ payload)
    with ([order] ++ le32 v ++ (le32 N ++ tab ++ payload)).
  rewrite read_int_le32 by exact Hv. cbn [bind].
  change ([order] ++ le32 v ++ (le32 N ++ tab ++ payload))
    with ((order :: le32 v) ++ le32 N ++ (tab ++ payload)).
  change 5 with (Z.of_nat (length (order :: le32 v))).
  rewrite read_int_le32 by (change (2 ^ 31) with 2147483648 in HN;
                            change (2 ^ 32) with 4294967296; lia).
  cbn [bind].
  rewrite u32_s32, (u32_small v) by exact Hv.
  assert (E : v = u32 (u32 (Z.of_nat (9 + length tab + length payload)) - 9)).
  { unfold v. do 3 f_equal. lia. }
  rewrite <- E, Z.eqb_refl. cbn [negb].
  rewrite s32_small by lia.
  destruct (Z.ltb_spec N 0); [lia | reflexivity].
Qed.

Lemma entry_head_length : forall F j rle,
  (length (fst (entry_head F j rle)) <= 2)%nat.
Proof.
  intros. unfold entry_head.
  destruct (negb (rle =? 0)); cbn [fst length]; [lia|].
  destruct (negb (j =? 0) && negb (F (j - 1) =? 0)); cbn [fst length]; lia.
Qed.

Lemma row_from_length : forall n F j rle,
  (length (row_from n F j rle) <= 4 * n + 1)%nat.
Proof.
  induction n as [|n IH]; intros F j rle; cbn [row_from].
  - cbn [length]. lia.
  - destruct (F j =? 0).
    + specialize (IH F (j + 1) rle). lia.
    + rewrite !length_app.
      pose proof (entry_head_length F j rle).
      pose proof (freq_bytes_length (F j)).
      specialize (IH F (j + 1) (snd (entry_head F j rle))). lia.
Qed.

Lemma map_read_out : forall inp out,
  (forall p, 0 <= p < Z.of_nat (length inp) -> rd inp p = Ok (out p)) ->
  read_out out (Z.of_nat (length inp)) = inp.
Proof.
  intros inp out H. unfold read_out. rewrite Nat2Z.id.
  revert out H. induction inp as [|b inp IH]; intros out H; [reflexivity|].
  cbn [length]. rewrite zrange_S. cbn [map]. f_equal.
  - specialize (H 0 ltac:(cbn [length]; lia)). rewrite rd_0 in H. congruence.
  - specialize (IH (fun p => out (p + 1))).
    unfold zrange in *. rewrite map_map in *.
    rewrite <- IH at 2.
    + apply map_ext. intros k. f_equal. lia.
    + intros p Hp. specialize (H (p + 1) ltac:(cbn [length]; lia)).
      rewrite rd_cons in H by lia. replace (p + 1 - 1) with p in H by lia. exact H.
Qed.

(* ===================================================================== *)
(** * rans_uncompress_O0 after rans_compress_O0                            *)
(* ===================================================================== *)

Lemma enc_flush_length : forall st, length (enc_flush st) = (length (ptr st) + 16)%nat.
Proof. intros. unfold enc_flush, RansEncFlush. cbn [length]. lia. Qed.

Lemma normalised_u32 : forall x, normalised x -> 0 <= x < 2 ^ 32.
Proof.
  unfold normalised. intros x H. change (2 ^ 23 * 2 ^ 8) with 2147483648 in H.
  change (2 ^ 23) with 8388608 in H. change (2 ^ 32) with 4294967296. lia.
Qed.

Lemma dec_init_enc_flush : forall st,
  lanes_normalised st -> dec_init (enc_flush st) = Ok st.
Proof.
  intros [r0 r1 r2 r3 p] (H0 & H1 & H2 & H3). cbn [rans0 rans1 rans2 rans3] in *.
  unfold dec_init, enc_flush. cbn [rans0 rans1 rans2 rans3 ptr].
  rewrite dec_init_flush by (apply normalised_u32; assumption). cbn [bind].
  rewrite dec_init_flush by (apply normalised_u32; assumption). cbn [bind].
  rewrite dec_init_flush by (apply normalised_u32; assumption). cbn [bind].
  rewrite dec_init_flush by (apply normalised_u32; assumption). cbn [bind].
  reflexivity.
Qed.

(* ===================================================================== *)
(** * Doubles: signs                                                       *)
(* ===================================================================== *)

Lemma binary_round_aux_sign : forall prec emax mx ex lx,
  sign_clear (binary_round_aux prec emax false mx ex lx).
Proof.
  intros. unfold binary_round_aux.
  destruct (shr_fexp prec emax mx ex lx) as [mrs' e'].
  destruct (shr_fexp prec emax _ e' loc_Exact) as [mrs'' e''].
  destruct (shr_m mrs''); cbn; auto.
  destruct (e'' <=? emax - prec); cbn; auto.
Qed.

Lemma double_of_int_sign : forall z, 0 <= z -> sign_clear (double_of_int z).
Proof.
  intros z Hz. unfold double_of_int, binary_normalize.
  destruct z as [|p|p]; [reflexivity| |lia].
  unfold binary_round.
  destruct (shl_align p 0 _) as [mz ez]. apply binary_round_aux_sign.
Qed.

Lemma double_mul_sign : forall x y,
  sign_clear x -> sign_clear y -> sign_clear (double_mul x y).
Proof.
  intros x y Hx Hy. unfold double_mul, SFmul.
  destruct x as [sx|sx| |sx mx ex]; destruct y as [sy|sy| |sy my ey];
    cbn in Hx, Hy; subst; cbn; auto.
  apply binary_round_aux_sign.
Qed.

Lemma double_div_sign : forall x y,
  sign_clear x -> sign_clear y -> sign_clear (double_div x y).
Proof.
  intros x y Hx Hy. unfold double_div, SFdiv.
  destruct x as [sx|sx| |sx mx ex]; destruct y as [sy|sy| |sy my ey];
    cbn in Hx, Hy; subst; cbn [xorb sign_clear]; auto.
  destruct (SFdiv_core_binary 53 1024 (Z.pos mx) ex (Z.pos my) ey) as [[mz ez] lz].
  apply binary_round_aux_sign.
Qed.

Lemma int_of_double_nonneg : forall d v,
  sign_clear d -> int_of_double d = Some v -> 0 <= v < 2 ^ 31.
Proof.
  intros d v Hd H.
  destruct d as [s|s| |s m e]; cbn [sign_clear int_of_double] in Hd, H;
    try discriminate.
  - injection H as <-. change (2 ^ 31) with 2147483648. lia.
  - subst s. cbv zeta in H.
    destruct (Z.leb_spec (- 2 ^ 31) (Z.shiftl (Z.pos m) e));
      destruct (Z.ltb_spec (Z.shiftl (Z.pos m) e) (2 ^ 31));
      cbn [andb] in H; try discriminate.
    injection H as <-. split; [|assumption].
    apply Z.shiftl_nonneg. lia.
Qed.

(* ===================================================================== *)
(** * Normalising a row (order 1)                                          *)
(* ===================================================================== *)

Lemma sumZ_first : forall f lo n, sumZ f lo (S n) = f lo + sumZ f (lo + 1) n.
Proof. intros. unfold sumZ. rewrite zrange_S. reflexivity. Qed.

Lemma int_add_ok : forall a b v, int_add a b = Ok v -> v = a + b /\ v < 2 ^ 31.
Proof.
  intros a b v H. unfold int_add in H. cbv zeta in H.
  destruct (Z.leb_spec (- 2 ^ 31) (a + b)); destruct (Z.ltb_spec (a + b) (2 ^ 31));
    cbn [andb] in H; try discriminate.
  injection H as <-. split; [reflexivity | assumption].
Qed.

Lemma norm_loop_O1 : forall p n j st st',
  sign_clear p ->
  (forall k, 0 <= nm_F st k) ->
  for_each (norm_step_O1 p) (zrange j n) st = Ok st' ->
  (forall k, ~ (j <= k < j + Z.of_nat n) -> nm_F st' k = nm_F st k) /\
  (forall k, j <= k < j + Z.of_nat n -> 0 <= nm_F st' k) /\
  nm_sum st' = nm_sum st + sumZ (nm_F st') j n /\
  (nm_sum st < 2 ^ 31 -> nm_sum st' < 2 ^ 31) /\
  (nm_M st' = nm_M st \/ j <= nm_M st' < j + Z.of_nat n).
Proof.
  intros p n. induction n as [|n IH]; intros j st st' Hp Hpos H.
  - cbn in H. injection H as <-.
    split; [reflexivity|]. split; [intros; lia|].
    split; [cbn; lia|]. split; [auto | now left].
  - rewrite zrange_S in H. cbn [for_each] in H.
    apply bind_ok in H. destruct H as (st1 & Hstep & Hloop).
    unfold norm_step_O1 in Hstep.
    destruct (Z.eqb_spec (nm_F st j) 0) as [E | E].
    + injection Hstep as <-.
      destruct (IH (j + 1) st st' Hp Hpos Hloop) as (H1 & H2 & H3 & H4 & H5).
      assert (Ej : nm_F st' j = 0) by (rewrite H1 by lia; exact E).
      split; [intros; apply H1; lia|].
      split.
      { intros k Hk. destruct (Z.eq_dec k j) as [-> | Hne]; [lia | apply H2; lia]. }
      split; [rewrite sumZ_first, Ej; lia|].
      split; [exact H4|].
      destruct H5 as [H5 | H5]; [now left | right; lia].
    + set (mM := if nm_m st <? nm_F st j then (nm_F st j, j)
                 else (nm_m st, nm_M st)) in Hstep.
      assert (HmM : snd mM = nm_M st \/ snd mM = j).
      { unfold mM. destruct (nm_m st <? nm_F st j); cbn [snd]; auto. }
      destruct mM as [m M]. cbn [snd] in HmM.
      apply bind_ok in Hstep. destruct Hstep as (f & Hf & Hstep).
      apply of_option_ok in Hf.
      apply int_of_double_nonneg in Hf.
      2:{ apply double_mul_sign; [|exact Hp]. apply double_of_int_sign. apply Hpos. }
      apply bind_ok in Hstep. destruct Hstep as (t2 & Ht2 & Hstep).
      apply int_add_ok in Ht2. destruct Ht2 as [Et2 Ht2].
      injection Hstep as <-.
      set (f' := if f =? 0 then 1 else f) in *.
      assert (Hf' : 1 <= f') by (unfold f'; destruct (Z.eqb_spec f 0); lia).
      assert (Hpos1 : forall k, 0 <= upd (nm_F st) j f' k).
      { intros k. unfold upd. destruct (k =? j); [lia | apply Hpos]. }
      destruct (IH (j + 1) (mkNormaliser (upd (nm_F st) j f') m M t2) st' Hp
                  Hpos1 Hloop) as (H1 & H2 & H3 & H4 & H5).
      cbn [nm_F nm_sum nm_M] in *.
      assert (Ej : nm_F st' j = f').
      { rewrite H1 by lia. unfold upd. rewrite Z.eqb_refl. reflexivity. }
      split.
      { intros k Hk. rewrite H1 by lia. unfold upd.
        destruct (Z.eqb_spec k j); [lia | reflexivity]. }
      split.
      { intros k Hk. destruct (Z.eq_dec k j) as [-> | Hne]; [lia | apply H2; lia]. }
      split; [rewrite sumZ_first, Ej; lia|].
      split; [intros _; apply H4; exact Ht2|].
      destruct H5 as [H5 | H5]; [|right; lia].
      destruct HmM as [HmM | HmM]; [left | right]; lia.
Qed.

Lemma normalise_O1_spec : forall Fi t Fi',
  (forall k, 0 <= Fi k) -> 0 <= t ->
  normalise_O1 Fi t = Ok Fi' ->
  exists M, 0 <= M < 256 /\
    (forall k, 0 <= k < 256 -> k <> M -> 0 <= Fi' k) /\
    (forall k, ~ (0 <= k < 256) -> Fi' k = Fi k) /\
    - 2 ^ 31 < Fi' M /\
    cum Fi' 256 = TOTFREQ - 1.
Proof.
  intros Fi t Fi' Hpos Ht H. unfold normalise_O1 in H.
  change (fun j => j <? 256) with (fun j => j <? 0 + Z.of_nat 256) in H.
  rewrite for_loop_up in H by lia.
  apply bind_ok in H. destruct H as (st & Hloop & H).
  apply bind_ok in H. destruct H as (t2 & Ht2 & H).
  injection H as <-.
  apply int_add_ok in Ht2. destruct Ht2 as [Et2 Ht2].
  apply norm_loop_O1 in Hloop.
  2:{ apply double_div_sign; apply double_of_int_sign; [cbn; lia | exact Ht]. }
  2:{ exact Hpos. }
  cbn [nm_F nm_sum nm_M] in Hloop.
  destruct Hloop as (H1 & H2 & H3 & H4 & H5).
  exists (nm_M st). rewrite adjust_eq.
  assert (HM : 0 <= nm_M st < 256) by lia.
  split; [exact HM|].
  split; [|split; [|split]].
  - intros k Hk Hne. unfold upd. destruct (Z.eqb_spec k (nm_M st)); [lia|].
    apply H2. lia.
  - intros k Hk. unfold upd. destruct (Z.eqb_spec k (nm_M st)); [lia|].
    apply H1. lia.
  - unfold upd. rewrite Z.eqb_refl.
    specialize (H2 (nm_M st) ltac:(lia)).
    change TOTFREQ with 4096. change (2 ^ 31) with 2147483648 in *. lia.
  - rewrite cum_256, sumZ_upd by lia. lia.
Qed.

(* a frequency that RansEncSymbolInit accepts is at most 2^31 *)
Lemma RansEncSymbolInit_ok_bound : forall s f sb sym,
  RansEncSymbolInit s f sb = Ok sym -> f <= 2 ^ 31.
Proof.
  intros s f sb sym H. unfold RansEncSymbolInit in H.
  destruct (Z.ltb_spec f 2); [change (2 ^ 31) with 2147483648; lia|].
  apply bind_ok in H. destruct H as (sh & Hsh & _).
  apply of_option_ok in Hsh.
  assert (G : forall fuel shift, shift_loop fuel f shift = Some sh ->
              f <= 2 ^ sh /\ sh < shift + Z.of_nat fuel).
  { induction fuel as [|fuel IH]; intros shift Hl; cbn [shift_loop] in Hl;
      [discriminate|].
    destruct (Z.gtb_spec f (Z.shiftl 1 shift)) as [Hgt | Hle].
    - apply IH in Hl. lia.
    - injection Hl as <-. rewrite Z.shiftl_1_l in Hle. lia. }
  destruct (G 32%nat 0 Hsh) as [Hle Hlt].
  destruct (Z.lt_ge_cases sh 0) as [Hneg | Hnn].
  { rewrite Z.pow_neg_r in Hle by lia. lia. }
  assert (2 ^ sh <= 2 ^ 31) by (apply Z.pow_le_mono_r; lia). lia.
Qed.

(* every present symbol of a row that write_row stored went through
   RansEncSymbolInit *)
Lemma write_loop_init : forall F n j st st',
  for_each (write_row_step F) (zrange j n) st = Ok st' ->
  forall k, j <= k < j + Z.of_nat n -> F k <> 0 -> u32 (F k) <= 2 ^ 31.
Proof.
  intros F n. induction n as [|n IH]; intros j st st' H k Hk HFk; [lia|].
  rewrite zrange_S in H. cbn [for_each] in H.
  apply bind_ok in H. destruct H as (st1 & Hstep & Hloop).
  destruct (Z.eq_dec k j) as [-> | Hne].
  - rewrite write_row_step_eq in Hstep.
    destruct (Z.eqb_spec (F j) 0); [contradiction|].
    apply bind_ok in Hstep. destruct Hstep as (sym & Hinit & _).
    apply RansEncSymbolInit_ok_bound in Hinit. exact Hinit.
  - apply (IH (j + 1) st1 st' Hloop); [lia | exact HFk].
Qed.

Lemma sumZ_positive : forall f lo n,
  0 < sumZ f lo n -> exists k, lo <= k < lo + Z.of_nat n /\ f k <> 0.
Proof.
  intros f lo n. induction n as [|n IH]; intros H; [cbn in H; lia|].
  rewrite sumZ_S in H.
  destruct (Z.eq_dec (f (lo + Z.of_nat n)) 0) as [E | E].
  - destruct IH as (k & Hk & Hfk); [lia|]. exists k. split; [lia | exact Hfk].
  - exists (lo + Z.of_nat n). split; [lia | exact E].
Qed.

(* a row that rans_compress_O1 normalised and stored is a valid row *)
Lemma stored_row_valid : forall Fi t Fi' cp tab syms,
  (forall k, 0 <= Fi k) -> 0 <= t ->
  normalise_O1 Fi t = Ok Fi' ->
  write_row Fi' cp = Ok (tab, syms) ->
  valid_row Fi' /\ cum Fi' 256 = TOTFREQ - 1.
Proof.
  intros Fi t Fi' cp tab syms Hpos Ht Hnorm Hrow.
  destruct (normalise_O1_spec Fi t Fi' Hpos Ht Hnorm) as (M & HM & Hoth & _ & HlowM & Hcum).
  unfold write_row in Hrow.
  change (fun j => j <? 256) with (fun j => j <? 0 + Z.of_nat 256) in Hrow.
  rewrite for_loop_up in Hrow by lia.
  apply bind_ok in Hrow. destruct Hrow as (st & Hloop & _).
  assert (HposM : 0 <= Fi' M).
  { destruct (Z.lt_ge_cases (Fi' M) 0) as [Hneg | Hnn]; [exfalso | exact Hnn].
    pose proof (write_loop_init Fi' 256 0 _ _ Hloop M ltac:(lia) ltac:(lia)) as Hb.
    unfold u32 in Hb.
    replace (Fi' M) with (Fi' M + 2 ^ 32 + (-1) * 2 ^ 32) in Hb by lia.
    rewrite Z.mod_add in Hb by lia.
    rewrite Z.mod_small in Hb;
      change (2 ^ 32) with 4294967296 in *; change (2 ^ 31) with 2147483648 in *; lia. }
  assert (Hall : forall k, 0 <= k < 256 -> 0 <= Fi' k).
  { intros k Hk. destruct (Z.eq_dec k M) as [-> | Hne]; [exact HposM|].
    apply Hoth; assumption. }
  split; [|exact Hcum].
  split; [exact Hall|]. split.
  - destruct (sumZ_positive Fi' 0 256) as (k & Hk & Hfk).
    + rewrite <- cum_256, Hcum. cbn. lia.
    + exists k. split; [lia | exact Hfk].
  - rewrite Hcum. change TOTFREQ with 4096. lia.
Qed.

(* ===================================================================== *)
(** * Doubles: magnitudes                                                  *)
(* ===================================================================== *)

Lemma digits2_pos_bounds : forall p,
  2 ^ (Z.pos (digits2_pos p) - 1) <= Z.pos p < 2 ^ Z.pos (digits2_pos p).
Proof.
  induction p as [p IH | p IH |]; cbn [digits2_pos].
  - rewrite Pos2Z.inj_succ. replace (Z.succ (Z.pos (digits2_pos p)) - 1)
      with (Z.succ (Z.pos (digits2_pos p) - 1)) by lia.
    rewrite !Z.pow_succ_r by lia. lia.
  - rewrite Pos2Z.inj_succ. replace (Z.succ (Z.pos (digits2_pos p)) - 1)
      with (Z.succ (Z.pos (digits2_pos p) - 1)) by lia.
    rewrite !Z.pow_succ_r by lia. lia.
  - cbn. lia.
Qed.

Lemma Zdigits2_bounds : forall m, 0 < m ->
  0 < Zdigits2 m /\ 2 ^ (Zdigits2 m - 1) <= m < 2 ^ Zdigits2 m.
Proof.
  intros m Hm. destruct m as [|p|p]; try lia. cbn [Zdigits2].
  split; [lia | apply digits2_pos_bounds].
Qed.

(* the number of digits of m, from a bracket of powers of two *)
Lemma Zdigits2_unique : forall m d,
  2 ^ (d - 1) <= m < 2 ^ d -> 0 < d -> Zdigits2 m = d.
Proof.
  intros m d Hm Hd.
  assert (Hpos : 0 < m) by (pose proof (Z.pow_pos_nonneg 2 (d - 1)); lia).
  destruct (Zdigits2_bounds m Hpos) as (Hd' & Hlo & Hhi).
  destruct (Z.lt_trichotomy (Zdigits2 m) d) as [Hlt | [E | Hgt]]; [|exact E|].
  - assert (2 ^ Zdigits2 m <= 2 ^ (d - 1)) by (apply Z.pow_le_mono_r; lia). lia.
  - assert (2 ^ d <= 2 ^ (Zdigits2 m - 1)) by (apply Z.pow_le_mono_r; lia). lia.
Qed.

Lemma shr_1_m : forall mrs, 0 <= shr_m mrs -> shr_m (shr_1 mrs) = shr_m mrs / 2.
Proof.
  intros [m r s] Hm. cbn [shr_m] in Hm |- *. unfold shr_1.
  destruct m as [|[p|p|]|p]; cbn [shr_m].
  - reflexivity.
  - rewrite Pos2Z.inj_xI. apply Z.div_unique with (r := 1); lia.
  - rewrite Pos2Z.inj_xO. apply Z.div_unique with (r := 0); lia.
  - reflexivity.
  - lia.
Qed.

Lemma iter_pos_shr_m : forall p mrs,
  0 <= shr_m mrs ->
  shr_m (iter_pos shr_1 p mrs) = shr_m mrs / 2 ^ Z.pos p.
Proof.
  induction p as [p IH | p IH |]; intros mrs Hm; cbn [iter_pos].
  - assert (H1 : 0 <= shr_m (shr_1 mrs)).
    { rewrite shr_1_m by exact Hm. apply Z.div_pos; lia. }
    assert (H2 : 0 <= shr_m (iter_pos shr_1 p (shr_1 mrs))).
    { rewrite IH by exact H1. apply Z.div_pos; [exact H1 | lia]. }
    rewrite IH by exact H2. rewrite IH by exact H1. rewrite shr_1_m by exact Hm.
    rewrite !Z.div_div by lia. f_equal.
    replace (Z.pos p~1) with (1 + Z.pos p + Z.pos p) by lia.
    rewrite !Z.pow_add_r by lia. lia.
  - assert (H2 : 0 <= shr_m (iter_pos shr_1 p mrs)).
    { rewrite IH by exact Hm. apply Z.div_pos; [exact Hm | lia]. }
    rewrite IH by exact H2. rewrite IH by exact Hm.
    rewrite Z.div_div by lia. f_equal.
    replace (Z.pos p~0) with (Z.pos p + Z.pos p) by lia.
    rewrite Z.pow_add_r by lia. reflexivity.
  - rewrite shr_1_m by exact Hm. reflexivity.
Qed.

(* shr shifts the mantissa right by n places, when n is positive *)
Lemma shr_spec : forall mrs e n,
  0 <= shr_m mrs ->
  shr_m (fst (shr mrs e n)) = shr_m mrs / 2 ^ Z.max 0 n /\
  snd (shr mrs e n) = e + Z.max 0 n /\
  (n <= 0 -> fst (shr mrs e n) = mrs).
Proof.
  intros mrs e n Hm. unfold shr. destruct n as [|p|p]; cbn [fst snd].
  - rewrite Z.div_1_r. repeat split; lia.
  - rewrite iter_pos_shr_m by exact Hm.
    replace (Z.max 0 (Z.pos p)) with (Z.pos p) by lia.
    repeat split; lia.
  - replace (Z.max 0 (Z.neg p)) with 0 by lia. rewrite Z.div_1_r.
    repeat split; lia.
Qed.

Lemma round_nearest_even_bounds : forall x l,
  x <= round_nearest_even x l <= x + 1.
Proof.
  intros x l. unfold round_nearest_even.
  destruct l as [|[ | | ]]; try lia. destruct (Z.even x); lia.
Qed.

(* binary_round_aux on an exact positive value: the mantissa is shifted
   right by n1 places and rounded to y, then shifted again by n2 *)
Lemma binary_round_aux_cases : forall m e,
  0 < m ->
  let n1 := Z.max 0 (fexp 53 1024 (Zdigits2 m + e) - e) in
  exists y,
    m / 2 ^ n1 <= y <= m / 2 ^ n1 + 1 /\ (n1 = 0 -> y = m) /\
    let n2 := Z.max 0 (fexp 53 1024 (Zdigits2 y + (e + n1)) - (e + n1)) in
    binary_round_aux 53 1024 false m e loc_Exact =
    match y / 2 ^ n2 with
    | 0 => S754_zero false
    | Z.pos m2 =>
        if e + n1 + n2 <=? 1024 - 53 then S754_finite false m2 (e + n1 + n2)
        else S754_infinity false
    | Z.neg _ => S754_nan
    end.
Proof.
  intros m e Hm n1. unfold binary_round_aux, shr_fexp.
  set (d1 := fexp 53 1024 (Zdigits2 m + e) - e) in *.
  destruct (shr_spec (shr_record_of_loc m loc_Exact) e d1)
    as (S1 & S2 & S3); [cbn; lia|].
  destruct (shr (shr_record_of_loc m loc_Exact) e d1) as [mrs1 e1] eqn:E1.
  cbn [fst snd shr_record_of_loc shr_m] in S1, S2, S3. fold n1 in S1, S2.
  set (y := round_nearest_even (shr_m mrs1) (loc_of_shr_record mrs1)).
  pose proof (round_nearest_even_bounds (shr_m mrs1) (loc_of_shr_record mrs1))
    as Hy. fold y in Hy. rewrite S1 in Hy.
  exists y. split; [exact Hy|]. split.
  { intros Hn. unfold y. rewrite S3 by (unfold n1 in Hn; lia). reflexivity. }
  cbv zeta. subst e1.
  set (d2 := fexp 53 1024 (Zdigits2 y + (e + n1)) - (e + n1)).
  assert (Hy0 : 0 <= y).
  { assert (0 <= m / 2 ^ n1) by (apply Z.div_pos; lia). lia. }
  destruct (shr_spec (shr_record_of_loc y loc_Exact) (e + n1) d2)
    as (T1 & T2 & _); [cbn; lia|].
  destruct (shr (shr_record_of_loc y loc_Exact) (e + n1) d2) as [mrs2 e2].
  cbn [fst snd shr_record_of_loc shr_m] in T1, T2. rewrite T1, T2.
  reflexivity.
Qed.

Lemma Zdigits2_between : forall m a b,
  0 <= a -> 2 ^ a <= m < 2 ^ b -> a < Zdigits2 m <= b.
Proof.
  intros m a b Ha Hm.
  assert (Hpos : 0 < m) by (pose proof (Z.pow_pos_nonneg 2 a); lia).
  destruct (Zdigits2_bounds m Hpos) as (Hd & Hlo & Hhi).
  split.
  - destruct (Z.lt_ge_cases a (Zdigits2 m)) as [|Hge]; [assumption|].
    assert (2 ^ Zdigits2 m <= 2 ^ a) by (apply Z.pow_le_mono_r; lia). lia.
  - destruct (Z.le_gt_cases (Zdigits2 m) b) as [|Hgt]; [assumption|].
    assert (0 <= b).
    { destruct (Z.lt_ge_cases b 0) as [Hb|]; [|assumption].
      rewrite (Z.pow_neg_r 2 b Hb) in Hm. lia. }
    assert (2 ^ b <= 2 ^ (Zdigits2 m - 1)) by (apply Z.pow_le_mono_r; lia). lia.
Qed.

Lemma Pos_iter_xO : forall p q, Z.pos (Pos.iter xO p q) = Z.pos p * 2 ^ Z.pos q.
Proof.
  intros p q. induction q as [|q IH] using Pos.peano_ind.
  - cbn. lia.
  - rewrite Pos.iter_succ, Pos2Z.inj_succ, Z.pow_succ_r by lia.
    change (Z.pos (Pos.iter xO p q)~0) with (2 * Z.pos (Pos.iter xO p q)).
    rewrite IH. lia.
Qed.

(* an unsigned int is converted to double without rounding *)
Lemma double_of_int_exact : forall n,
  0 < n < 2 ^ 53 ->
  exists mn, double_of_int n = S754_finite false mn (Zdigits2 n - 53) /\
             Z.pos mn = n * 2 ^ (53 - Zdigits2 n).
Proof.
  intros n Hn. destruct (Zdigits2_bounds n ltac:(lia)) as (Hd & Hlo & Hhi).
  assert (Hd53 : Zdigits2 n <= 53) by (apply (Zdigits2_between n 0 53); lia).
  destruct n as [|p|p]; try lia.
  unfold double_of_int, binary_normalize, binary_round.
  cbn [Zdigits2] in *. set (d := Z.pos (digits2_pos p)) in *.
  assert (Hf : fexp 53 1024 (d + 0) = d - 53) by (unfold fexp, emin; lia).
  rewrite Hf.
  assert (Hal : exists mz, shl_align p 0 (d - 53) = (mz, d - 53) /\
                           Z.pos mz = Z.pos p * 2 ^ (53 - d)).
  { unfold shl_align. destruct (d - 53 - 0) as [|q|q] eqn:E; try lia.
    - exists p. replace (d - 53) with 0 by lia. replace (53 - d) with 0 by lia.
      split; [reflexivity | lia].
    - exists (Pos.iter xO p q). split; [reflexivity|].
      rewrite Pos_iter_xO. f_equal. f_equal. lia. }
  destruct Hal as (mz & -> & Hmz).
  assert (Hb : 2 ^ 52 <= Z.pos mz < 2 ^ 53).
  { rewrite Hmz.
    assert (E52 : 2 ^ 52 = 2 ^ (d - 1) * 2 ^ (53 - d))
      by (rewrite <- Z.pow_add_r by lia; f_equal; lia).
    assert (E53 : 2 ^ 53 = 2 ^ d * 2 ^ (53 - d))
      by (rewrite <- Z.pow_add_r by lia; f_equal; lia).
    rewrite E52, E53.
    assert (0 < 2 ^ (53 - d)) by (apply Z.pow_pos_nonneg; lia). nia. }
  assert (Hdz : Zdigits2 (Z.pos mz) = 53)
    by (apply Zdigits2_unique; [exact Hb | lia]).
  destruct (binary_round_aux_cases (Z.pos mz) (d - 53) ltac:(lia))
    as (y & _ & Hy & Hr).
  rewrite Hdz in Hy, Hr.
  assert (Hn1 : Z.max 0 (fexp 53 1024 (53 + (d - 53)) - (d - 53)) = 0)
    by (unfold fexp, emin; lia).
  rewrite Hn1 in Hy, Hr. specialize (Hy eq_refl). subst y. cbv zeta in Hr.
  rewrite Hdz in Hr. rewrite Z.add_0_r in Hr. rewrite Hn1 in Hr.
  rewrite Z.pow_0_r, Z.div_1_r, Z.add_0_r in Hr.
  destruct (Z.leb_spec (d - 53) (1024 - 53)); [|lia].
  exists mz. split; [exact Hr | exact Hmz].
Qed.

(* the literal 1.05 is the correctly rounded quotient 105 / 100 *)
Lemma double_1_05_nearest :
  double_div (double_of_int 105) (double_of_int 100) = double_1_05.
Proof. vm_compute. reflexivity. Qed.

(* 1.05 * in_size in double, truncated: within one of the exact product
   of in_size and the mantissa of 1.05, scaled by 2^52 *)
Lemma mul_1_05_trunc : forall n,
  0 < n < 2 ^ 32 ->
  exists m2 e2,
    double_mul double_1_05 (double_of_int n) = S754_finite false m2 e2 /\
    e2 < 0 /\
    4728779608739021 * n / 2 ^ 52 <= Z.pos m2 / 2 ^ (- e2)
      <= (4728779608739021 * n + 2 ^ 32) / 2 ^ 52.
Proof.
  intros n Hn.
  destruct (double_of_int_exact n) as (mn & Hdn & Hmn);
    [change (2 ^ 53) with 9007199254740992;
     change (2 ^ 32) with 4294967296 in Hn; lia|].
  destruct (Zdigits2_bounds n ltac:(lia)) as (Hd & Hlo & Hhi).
  assert (Hd32 : Zdigits2 n <= 32) by (apply (Zdigits2_between n 0 32); lia).
  set (d := Zdigits2 n) in *. set (k := 53 - d) in *.
  assert (Hk : 21 <= k <= 52) by (unfold k; lia).
  assert (Pk : 0 < 2 ^ k) by (apply Z.pow_pos_nonneg; lia).
  unfold double_mul, double_1_05, SFmul. rewrite Hdn. cbn [xorb].
  set (c := 4728779608739021) in *.
  set (m := Z.pos (4728779608739021 * mn)).
  assert (Em : m = c * n * 2 ^ k) by (unfold m; rewrite Pos2Z.inj_mul, Hmn; fold c; lia).
  set (e := -52 + (d - 53)).
  assert (Ee : e = - 52 - k) by (unfold e, k; lia).
  (* the mantissa of n *)
  assert (Hnk : 2 ^ 52 <= n * 2 ^ k < 2 ^ 53).
  { assert (E52 : 2 ^ 52 = 2 ^ (d - 1) * 2 ^ k)
      by (rewrite <- Z.pow_add_r by lia; f_equal; unfold k; lia).
    assert (E53 : 2 ^ 53 = 2 ^ d * 2 ^ k)
      by (rewrite <- Z.pow_add_r by lia; f_equal; unfold k; lia).
    rewrite E52, E53. nia. }
  assert (Hm : 2 ^ 104 <= m < 2 ^ 106).
  { rewrite Em. replace (c * n * 2 ^ k) with (c * (n * 2 ^ k)) by lia.
    change (2 ^ 104) with (2 ^ 52 * 2 ^ 52). change (2 ^ 106) with (2 ^ 53 * 2 ^ 53).
    assert (Hc : 2 ^ 52 <= c < 2 ^ 53) by (unfold c; split; [vm_compute; discriminate | reflexivity]).
    nia. }
  destruct (Zdigits2_between m 104 106 ltac:(lia) Hm) as (HD1 & HD2).
  destruct (Zdigits2_bounds m ltac:(lia)) as (_ & HmLo & HmHi).
  destruct (binary_round_aux_cases m e ltac:(lia)) as (y & Hy & _ & Hr).
  set (D := Zdigits2 m) in *.
  assert (En1 : Z.max 0 (fexp 53 1024 (D + e) - e) = D - 53)
    by (unfold fexp, emin; lia).
  rewrite En1 in Hy, Hr. set (n1 := D - 53) in *.
  assert (Pn1 : 0 < 2 ^ n1) by (apply Z.pow_pos_nonneg; unfold n1; lia).
  (* the shifted mantissa *)
  assert (Hq : 2 ^ 52 <= m / 2 ^ n1 < 2 ^ 53).
  { assert (E1 : 2 ^ (D - 1) = 2 ^ 52 * 2 ^ n1)
      by (rewrite <- Z.pow_add_r by (unfold n1; lia); f_equal; unfold n1; lia).
    assert (E2 : 2 ^ D = 2 ^ 53 * 2 ^ n1)
      by (rewrite <- Z.pow_add_r by (unfold n1; lia); f_equal; unfold n1; lia).
    split.
    - apply Z.div_le_lower_bound; [exact Pn1 | lia].
    - apply Z.div_lt_upper_bound; [exact Pn1 | lia]. }
  assert (Hy2 : 2 ^ 52 <= y < 2 ^ 54)
    by (change (2 ^ 54) with (2 * 2 ^ 53); lia).
  destruct (Zdigits2_between y 52 54 ltac:(lia) Hy2) as (HY1 & HY2).
  cbv zeta in Hr. set (Dy := Zdigits2 y) in *.
  assert (En2 : Z.max 0 (fexp 53 1024 (Dy + (e + n1)) - (e + n1)) = Dy - 53)
    by (unfold fexp, emin, n1; lia).
  rewrite En2 in Hr. set (n2 := Dy - 53) in *.
  assert (Pn2 : 0 < 2 ^ n2) by (apply Z.pow_pos_nonneg; unfold n2; lia).
  assert (Hn2 : 2 ^ n2 <= 2).
  { change 2 with (2 ^ 1) at 2. apply Z.pow_le_mono_r; unfold n2; lia. }
  assert (Hm2 : 0 < y / 2 ^ n2).
  { apply Z.div_str_pos. change (2 ^ 52) with 4503599627370496 in Hy2. lia. }
  destruct (y / 2 ^ n2) as [|m2|m2] eqn:Ey; try lia.
  set (e2 := e + n1 + n2) in *.
  assert (He2 : e2 <= -19) by (unfold e2, n1, n2; lia).
  destruct (Z.leb_spec e2 (1024 - 53)); [|lia].
  exists m2, e2. split; [exact Hr|]. split; [lia|].
  rewrite <- Ey. set (t := - e2).
  assert (Ht : 0 <= t) by (unfold t; lia).
  assert (Pt : 0 < 2 ^ t) by (apply Z.pow_pos_nonneg; lia).
  assert (Esum : 2 ^ n1 * (2 ^ n2 * 2 ^ t) = 2 ^ 52 * 2 ^ k).
  { rewrite <- !Z.pow_add_r by (unfold n1, n2; lia). f_equal.
    unfold t, e2. lia. }
  rewrite Z.div_div by lia.
  split.
  - (* from below: the shifts only drop bits *)
    apply Z.le_trans with (m / 2 ^ n1 / (2 ^ n2 * 2 ^ t)).
    + rewrite Z.div_div by lia. rewrite Esum, Em.
      rewrite Z.div_mul_cancel_r by lia. lia.
    + apply Z.div_le_mono; [lia | apply Hy].
  - (* from above: rounding adds at most one unit in the last place *)
    apply Z.le_trans with ((m / 2 ^ n1 + 1) / (2 ^ n2 * 2 ^ t)).
    + apply Z.div_le_mono; [lia | apply Hy].
    + replace (m / 2 ^ n1 + 1) with ((m + 1 * 2 ^ n1) / 2 ^ n1)
        by (rewrite Z.div_add by lia; reflexivity).
      rewrite Z.div_div by lia. rewrite Esum.
      apply Z.le_trans with ((c * n + 2 ^ 32) * 2 ^ k / (2 ^ 52 * 2 ^ k)).
      * apply Z.div_le_mono; [lia|]. rewrite Em.
        assert (H53 : 2 ^ n1 <= 2 ^ 32 * 2 ^ k).
        { rewrite <- Z.pow_add_r by lia. apply Z.pow_le_mono_r; unfold n1; lia. }
        lia.
      * rewrite Z.div_mul_cancel_r by lia. lia.
Qed.

(* (int)(1.05*in_size) fits an int up to 2045222521 bytes, and no further *)
Lemma out_end_offset_defined : forall n,
  0 <= n <= 2045222521 -> exists k, out_end_offset n = Ok k.
Proof.
  intros n Hn. unfold out_end_offset.
  destruct (Z.eq_dec n 0) as [-> | Hne]; [exists 0; reflexivity|].
  destruct (mul_1_05_trunc n) as (m2 & e2 & -> & He2 & Hlo & Hhi);
    [change (2 ^ 32) with 4294967296; lia|].
  unfold int_of_double. cbv zeta.
  assert (Ea : Z.shiftl (Z.pos m2) e2 = Z.pos m2 / 2 ^ (- e2)).
  { rewrite <- Z.shiftr_opp_r. apply Z.shiftr_div_pow2. lia. }
  rewrite Ea.
  assert (Hup : (4728779608739021 * n + 2 ^ 32) / 2 ^ 52 <= 2147483647).
  { apply Z.le_trans
      with ((4728779608739021 * 2045222521 + 2 ^ 32) / 2 ^ 52).
    - apply Z.div_le_mono; [reflexivity | lia].
    - vm_compute. discriminate. }
  assert (H0 : 0 <= 4728779608739021 * n / 2 ^ 52) by (apply Z.div_pos; lia).
  destruct (Z.leb_spec (- 2 ^ 31) (Z.pos m2 / 2 ^ (- e2)));
    [|change (2 ^ 31) with 2147483648 in *; lia].
  destruct (Z.ltb_spec (Z.pos m2 / 2 ^ (- e2)) (2 ^ 31));
    [|change (2 ^ 31) with 2147483648 in *; lia].
  cbn [andb of_option]. eauto.
Qed.

Lemma out_end_offset_undefined : forall n,
  2045222522 <= n < 2 ^ 32 -> out_end_offset n = Undefined.
Proof.
  intros n Hn. unfold out_end_offset.
  destruct (mul_1_05_trunc n) as (m2 & e2 & -> & He2 & Hlo & Hhi); [lia|].
  unfold int_of_double. cbv zeta.
  assert (Ea : Z.shiftl (Z.pos m2) e2 = Z.pos m2 / 2 ^ (- e2)).
  { rewrite <- Z.shiftr_opp_r. apply Z.shiftr_div_pow2. lia. }
  rewrite Ea.
  assert (Hdn : 2147483648 <= 4728779608739021 * n / 2 ^ 52).
  { apply Z.le_trans with (4728779608739021 * 2045222522 / 2 ^ 52).
    - vm_compute. discriminate.
    - apply Z.div_le_mono; [reflexivity | lia]. }
  destruct (Z.ltb_spec (Z.pos m2 / 2 ^ (- e2)) (2 ^ 31));
    [change (2 ^ 31) with 2147483648 in *; lia|].
  rewrite andb_false_r. reflexivity.
Qed.

(* ===================================================================== *)
(** * Writing the order-1 table and parsing it back                        *)
(* ===================================================================== *)

Lemma write_table_step_eq : forall T i st,
  write_table_step T i st =
  if T i =? 0 then Ok st
  else
    Fi <- normalise_O1 (tw_F st i) (T i) ;;
    '(cp, syms_i) <- write_row Fi (tw_cp st ++ fst (entry_head T i (tw_rle st))) ;;
    Ok (mkTableWriter (upd (tw_F st) i Fi) cp (snd (entry_head T i (tw_rle st)))
          (upd (tw_syms st) i syms_i)).
Proof.
  intros T i st. unfold write_table_step, entry_head.
  destruct (T i =? 0); [reflexivity|].
  destruct (normalise_O1 (tw_F st i) (T i)) as [Fi| | |]; cbn [bind]; try reflexivity.
  destruct (negb (tw_rle st =? 0)); cbn [fst snd].
  - rewrite app_nil_r. reflexivity.
  - destruct (negb (i =? 0) && negb (T (i - 1) =? 0)); cbn [fst snd];
      rewrite <- ?app_assoc; reflexivity.
Qed.

Section TableO1.
Variable T : Z -> Z.

Lemma write_table_loop : forall n i st st' m,
  0 <= i -> i + Z.of_nat n <= 256 ->
  (forall k j, i <= k -> 0 <= tw_F st k j) -> (forall k, 0 <= T k) ->
  for_each (write_table_step T) (zrange i n) st = Ok st' ->
  tw_cp st ++ tab_from (n + m) T (tw_F st') i (tw_rle st)
    = tw_cp st' ++ tab_from m T (tw_F st') (i + Z.of_nat n) (tw_rle st') /\
  (forall k, i <= k < i + Z.of_nat n -> T k <> 0 ->
     valid_row (tw_F st' k) /\ cum (tw_F st' k) 256 = TOTFREQ - 1 /\
     row_written (tw_F st' k) 256 (tw_syms st' k)) /\
  (forall k, ~ (i <= k < i + Z.of_nat n) \/ T k = 0 ->
     tw_F st' k = tw_F st k /\ tw_syms st' k = tw_syms st k).
Proof.
  induction n as [|n IH]; intros i st st' m Hi Hn Hpos HT H.
  - cbn in H. injection H as <-.
    replace (i + Z.of_nat 0) with i by lia.
    split; [reflexivity|]. split; [intros; lia | intros; split; reflexivity].
  - rewrite zrange_S in H. cbn [for_each] in H.
    apply bind_ok in H. destruct H as (st1 & Hstep & Hloop).
    replace (i + Z.of_nat (S n)) with (i + 1 + Z.of_nat n) by lia.
    rewrite write_table_step_eq in Hstep.
    cbn [Nat.add tab_from].
    destruct (Z.eqb_spec (T i) 0) as [E | E].
    + injection Hstep as <-.
      destruct (IH (i + 1) st st' m ltac:(lia) ltac:(lia)
                  ltac:(intros; apply Hpos; lia) HT Hloop) as (H1 & H2 & H3).
      split; [exact H1|]. split.
      * intros k Hk HTk. apply H2; [|exact HTk].
        destruct (Z.eq_dec k i); [subst; contradiction | lia].
      * intros k Hk. apply H3.
        destruct (Z.eq_dec k i) as [-> | Hne]; [now right|].
        destruct Hk as [Hk | Hk]; [left; lia | now right].
    + apply bind_ok in Hstep. destruct Hstep as (Fi & Hnorm & Hstep).
      apply bind_ok in Hstep. destruct Hstep as ([cp syms_i] & Hrow & Hst1).
      injection Hst1 as <-.
      assert (Hposi : forall k, 0 <= tw_F st i k) by (intros; apply Hpos; lia).
      destruct (stored_row_valid (tw_F st i) (T i) Fi _ _ _
                  Hposi (HT i) Hnorm Hrow) as (Hvalid & Hcum).
      assert (Hcum' : cum Fi 256 <= 4096)
        by (rewrite Hcum; change TOTFREQ with 4096; lia).
      destruct (write_row_spec Fi (proj1 Hvalid) Hcum' _ _ _ Hrow)
        as (Ecp & Hwritten).
      assert (Hpos1 : forall k j, i + 1 <= k -> 0 <= upd (tw_F st) i Fi k j).
      { intros k j Hk. unfold upd.
        destruct (Z.eqb_spec k i); [lia | apply Hpos; lia]. }
      destruct (IH (i + 1)
                  (mkTableWriter (upd (tw_F st) i Fi) cp
                     (snd (entry_head T i (tw_rle st)))
                     (upd (tw_syms st) i syms_i))
                  st' m ltac:(lia) ltac:(lia) Hpos1 HT Hloop) as (H1 & H2 & H3).
      cbn [tw_cp tw_rle tw_F tw_syms] in H1, H3.
      assert (Ei : tw_F st' i = Fi /\ tw_syms st' i = syms_i).
      { destruct (H3 i ltac:(left; lia)) as [A B]. rewrite A, B.
        unfold upd. rewrite Z.eqb_refl. auto. }
      destruct Ei as [EF Es].
      split; [|split].
      * rewrite EF. rewrite <- H1. rewrite Ecp. rewrite <- !app_assoc. reflexivity.
      * intros k Hk HTk. destruct (Z.eq_dec k i) as [-> | Hne].
        -- rewrite EF, Es. auto.
        -- apply H2; [lia | exact HTk].
      * intros k Hk.
        assert (Hne : k <> i) by (intros ->; destruct Hk; [lia | contradiction]).
        destruct (H3 k) as [A B].
        { destruct Hk as [Hk | Hk]; [left; lia | now right]. }
        rewrite A, B. unfold upd.
        destruct (Z.eqb_spec k i); [contradiction | auto].
Qed.
End TableO1.

Lemma row_from_nonempty : forall n F j rle, (1 <= length (row_from n F j rle))%nat.
Proof.
  induction n as [|n IH]; intros F j rle; cbn [row_from]; [cbn; lia|].
  destruct (F j =? 0); [apply IH|].
  rewrite !length_app. pose proof (freq_bytes_length (F j)). lia.
Qed.

Lemma tab_from_skip : forall T Fn n i,
  Z.of_nat n = 256 - i -> 0 <= i ->
  (tab_from n T Fn i 0 = [0] /\ forall k, i <= k < 256 -> T k = 0) \/
  (exists j m, i <= j < 256 /\ T j <> 0 /\ (forall k, i <= k < j -> T k = 0) /\
     Z.of_nat m = 255 - j /\
     tab_from n T Fn i 0
     = fst (entry_head T j 0) ++ row_from 256 (Fn j) 0 0
         ++ tab_from m T Fn (j + 1) (snd (entry_head T j 0))).
Proof.
  intros T Fn n. induction n as [|n IH]; intros i Hn Hi.
  - left. split; [reflexivity|]. intros; lia.
  - cbn [tab_from]. destruct (Z.eqb_spec (T i) 0) as [E | E].
    + destruct (IH (i + 1)) as [[H1 H2] | (j & m & Hj & HFj & Habs & Hm & Hrow)]; try lia.
      * left. split; [exact H1|]. intros k Hk.
        destruct (Z.eq_dec k i) as [-> | Hne]; [exact E | apply H2; lia].
      * right. exists j, m.
        split; [lia|]. split; [exact HFj|]. split; [|split; [exact Hm | exact Hrow]].
        intros k Hk. destruct (Z.eq_dec k i) as [-> | Hne]; [exact E | apply Habs; lia].
    + right. exists i, n.
      split; [lia|]. split; [exact E|]. split; [intros; lia|].
      split; [lia | reflexivity].
Qed.

Section ParseTableO1.
Variable T : Z -> Z.
Variable Fn : Z -> Z -> Z.
Hypothesis Hrows : forall k, 0 <= k < 256 -> T k <> 0 ->
  valid_row (Fn k).

Lemma parse_table_ctx : forall n i rle D dsyms fuel rest,
  Z.of_nat n = 255 - i -> 0 <= i -> T i <> 0 ->
  run_present T (i + 1) rle ->
  table_parsed T Fn i D dsyms ->
  (forall k j, i <= k -> fc_F (D k) j = 0) ->
  (length (row_from 256 (Fn i) 0 0 ++ tab_from n T Fn (i + 1) rle ++ rest)
   < fuel)%nat ->
  exists st,
    parse_table_loop fuel
      (mkTableParser D dsyms i rle
         (row_from 256 (Fn i) 0 0 ++ tab_from n T Fn (i + 1) rle ++ rest))
      = Ok st /\
    tp_cp st = rest /\
    table_parsed T Fn 256 (tp_D st) (tp_syms st) /\
    (forall k, T k = 0 -> tp_D st k = D k /\ tp_syms st k = dsyms k).
Proof.
  induction n as [n IH] using lt_wf_ind.
  intros i rle D dsyms fuel rest Hn Hi HTi Hrun Hparsed Hzero Hfuel.
  destruct fuel as [|fuel]; [lia|].
  cbn [parse_table_loop]. unfold parse_ctx at 1.
  cbn [tp_i tp_D tp_syms tp_cp tp_rle].
  destruct (Z.ltb_spec i 0); [lia|]. destruct (Z.leb_spec 256 i); [lia|].
  cbn [orb].
  destruct (Hrows i ltac:(lia) HTi) as (Hpos & Hex & Hcum).
  change TOTFREQ with 4096 in Hcum.
  destruct (parse_row_written (Fn i) Hpos Hcum true (D i) (dsyms i)
              (tab_from n T Fn (i + 1) rle ++ rest) Hex)
    as (row & Hrow & Hcp & _ & Hrp & Hkeep).
  rewrite Hrow. cbn [bind]. rewrite Hcp.
  set (D' := upd D i (rp_D row)).
  set (dsyms' := upd dsyms i (rp_syms row)).
  assert (Hparsed' : table_parsed T Fn (i + 1) D' dsyms').
  { intros k Hk HTk. unfold D', dsyms', upd.
    destruct (Z.eqb_spec k i) as [-> | Hne].
    - split; [exact Hrp|]. intros j Hj. rewrite Hkeep by exact Hj.
      apply Hzero. lia.
    - apply Hparsed; [lia | exact HTk]. }
  assert (Hzero' : forall k j, i + 1 <= k -> fc_F (D' k) j = 0).
  { intros k j Hk. unfold D', upd. destruct (Z.eqb_spec k i); [lia|].
    apply Hzero. lia. }
  assert (Hkeep' : forall k, T k = 0 -> D' k = D k /\ dsyms' k = dsyms k).
  { intros k Hk. unfold D', dsyms', upd.
    destruct (Z.eqb_spec k i); [subst; contradiction | auto]. }
  assert (Hclose : forall st : table_parser,
    (forall k, T k = 0 -> tp_D st k = D' k /\ tp_syms st k = dsyms' k) ->
    (forall k, T k = 0 -> tp_D st k = D k /\ tp_syms st k = dsyms k)).
  { intros st Hst k Hk. destruct (Hst k Hk) as [A B].
    destruct (Hkeep' k Hk) as [A' B']. rewrite A, B. auto. }
  pose proof (row_from_nonempty 256 (Fn i) 0 0) as Hne1.
  destruct (Z.eqb_spec rle 0) as [-> | Hrle].
  - destruct (tab_from_skip T Fn n (i + 1) ltac:(lia) ltac:(lia))
      as [[Htab Habs] | (i' & m & Hi' & HTi' & Habs & Hm & Htab)].
    + rewrite Htab in *. cbn [app].
      destruct (Z.eqb_spec (i + 1) 0); [lia|].
      cbn [bind tp_i Z.eqb].
      eexists. split; [reflexivity|]. cbn [tp_cp tp_D tp_syms].
      split; [reflexivity|]. split; [|exact Hkeep'].
      intros k Hk HTk. apply Hparsed'; [|exact HTk].
      destruct (Z.lt_ge_cases k (i + 1)); [lia|].
      exfalso. apply HTk. apply Habs. lia.
    + assert (Hu8 : u8 i' = i') by (apply u8_small; change (2 ^ 8) with 256; lia).
      assert (Hparsed'' : table_parsed T Fn i' D' dsyms').
      { intros k Hk HTk. apply Hparsed'; [|exact HTk].
        destruct (Z.lt_ge_cases k (i + 1)); [lia|].
        exfalso. apply HTk. apply Habs. lia. }
      assert (Hzero'' : forall k j, i' <= k -> fc_F (D' k) j = 0)
        by (intros; apply Hzero'; lia).
      destruct (Z.eq_dec i' (i + 1)) as [Ei | Ei].
      * subst i'.
        destruct (run_end_spec 256 T (i + 1 + 1) ltac:(lia) ltac:(lia))
          as (Hr1 & Hr2 & Hr3).
        assert (Etab : exists r, 0 <= r /\ r = run_end 256 T (i + 1 + 1) - (i + 1 + 1) /\
                   tab_from n T Fn (i + 1) 0 =
                   (i + 1) :: r :: (row_from 256 (Fn (i + 1)) 0 0
                     ++ tab_from m T Fn (i + 1 + 1) r)).
        { exists (run_end 256 T (i + 1 + 1) - (i + 1 + 1)).
          split; [lia|]. split; [reflexivity|].
          rewrite Htab. rewrite entry_head_next;
            try lia; try (replace (i + 1 - 1) with i by lia; exact HTi).
          generalize dependent (run_end 256 T (i + 1 + 1)). intros e He1 He2 He3.
          generalize (row_from 256 (Fn (i + 1)) 0 0). intros X.
          cbn [fst snd app]. rewrite Hu8.
          rewrite (u8_small (e - (i + 1 + 1))) by (change (2 ^ 8) with 256; lia).
          reflexivity. }
        destruct Etab as (r & Hr0 & Er & Etab).
        clear Htab. rewrite Etab in *. clear Etab.
        rewrite <- !app_comm_cons in *.
        rewrite Z.eqb_refl.
        cbn [bind tp_i].
        destruct (Z.eqb_spec (i + 1) 0); [lia|].
        rewrite <- ?app_assoc.
        destruct (IH m ltac:(lia) (i + 1) r D' dsyms' fuel rest)
          as (st0 & A1 & A2 & A3 & A4); try lia; try assumption;
          [ | | exists st0; repeat (split; [assumption|]); apply Hclose; exact A4].
        -- unfold run_present. split; [lia|]. split; [lia|].
           intros k Hk. apply Hr2. lia.
        -- cbn [length] in *. rewrite !length_app in *. cbn [length] in *. rewrite ?length_app in *. lia.
      * assert (Etab : tab_from n T Fn (i + 1) 0 =
                   i' :: (row_from 256 (Fn i') 0 0
                     ++ tab_from m T Fn (i' + 1) 0)).
        { rewrite Htab. rewrite entry_head_first by (right; apply Habs; lia).
          generalize (row_from 256 (Fn i') 0 0). intros X.
          cbn [fst snd app]. rewrite Hu8. reflexivity. }
        clear Htab. rewrite Etab in *. clear Etab.
        rewrite <- !app_comm_cons in *.
        destruct (Z.eqb_spec (i + 1) i'); [lia|].
        cbn [bind tp_i].
        destruct (Z.eqb_spec i' 0); [lia|].
        rewrite <- ?app_assoc.
        destruct (IH m ltac:(lia) i' 0 D' dsyms' fuel rest)
          as (st0 & A1 & A2 & A3 & A4); try lia; try assumption;
          [ | | exists st0; repeat (split; [assumption|]); apply Hclose; exact A4].
        -- unfold run_present. split; [lia|]. split; [lia|]. intros; lia.
        -- cbn [length] in *. rewrite !length_app in *. cbn [length] in *. rewrite ?length_app in *. lia.
  - destruct Hrun as (Hr0 & Hr1 & Hr2).
    assert (HTi1 : T (i + 1) <> 0) by (apply Hr2; lia).
    destruct n as [|n]; [lia|].
    assert (Etab : tab_from (S n) T Fn (i + 1) rle =
                   row_from 256 (Fn (i + 1)) 0 0
                     ++ tab_from n T Fn (i + 1 + 1) (rle - 1)).
    { cbn [tab_from]. destruct (Z.eqb_spec (T (i + 1)) 0); [contradiction|].
      rewrite entry_head_in_run by assumption.
      generalize (row_from 256 (Fn (i + 1)) 0 0). intros X.
      cbn [fst snd]. apply app_nil_l. }
    rewrite Etab in *. clear Etab.
    cbn [bind tp_i].
    destruct (Z.eqb_spec (i + 1) 0); [lia|].
    rewrite <- ?app_assoc.
    destruct (IH n ltac:(lia) (i + 1) (rle - 1) D' dsyms' fuel rest)
      as (st0 & A1 & A2 & A3 & A4); try lia; try assumption;
      [ | | exists st0; repeat (split; [assumption|]); apply Hclose; exact A4].
    + unfold run_present. split; [lia|]. split; [lia|].
      intros k Hk. apply Hr2. lia.
    + rewrite !length_app in *. lia.
Qed.

(* parse_table on the bytes of write_table *)
Lemma parse_table_written : forall rest,
  (exists i, 0 <= i < 256 /\ T i <> 0) ->
  exists st,
    parse_table (tab_from 256 T Fn 0 0 ++ rest) = Ok st /\
    tp_cp st = rest /\
    table_parsed T Fn 256 (tp_D st) (tp_syms st) /\
    (forall k, T k = 0 ->
       tp_D st k = ari_decoder_zero /\ tp_syms st k = fun _ => None).
Proof.
  intros rest (i0 & Hi0 & HTi0).
  destruct (tab_from_skip T Fn 256 0 ltac:(lia) ltac:(lia))
    as [[Htab Habs] | (i & m & Hi & HTi & Habs & Hm & Htab)].
  - exfalso. apply HTi0. apply Habs. lia.
  - assert (Etab : tab_from 256 T Fn 0 0 =
                   i :: (row_from 256 (Fn i) 0 0 ++ tab_from m T Fn (i + 1) 0)).
    { rewrite Htab. rewrite entry_head_first.
      2:{ destruct (Z.eq_dec i 0); [now left | right; apply Habs; lia]. }
      generalize (row_from 256 (Fn i) 0 0). intros X.
      cbn [fst snd app].
      rewrite u8_small by (change (2 ^ 8) with 256; lia). reflexivity. }
    clear Htab. rewrite Etab. clear Etab.
    rewrite <- app_comm_cons. rewrite <- app_assoc.
    unfold parse_table.
    apply (parse_table_ctx m); try lia; try assumption.
    + unfold run_present. split; [lia|]. split; [lia|]. intros; lia.
    + intros k Hk HTk. exfalso. apply HTk. apply Habs. lia.
    + intros; reflexivity.
Qed.
End ParseTableO1.

(* ===================================================================== *)
(** * The order-1 payload                                                  *)
(* ===================================================================== *)

Lemma iterates_pred : forall n i, iterates Z.pred i n = zdown i 1 n.
Proof.
  induction n as [|n IH]; intros; [reflexivity|].
  rewrite zdown_S. simpl. f_equal. rewrite IH. reflexivity.
Qed.

Lemma iter_pred : forall n i, Nat.iter n Z.pred i = i - Z.of_nat n.
Proof. induction n; intros; simpl; [lia|]. rewrite IHn. lia. Qed.

(* for (i = hi; i > lo; i--) *)
Lemma for_loop_pred_gt : forall {St : Type} (body : Z -> St -> result St)
  fuel lo hi n st,
  (n < fuel)%nat -> hi - Z.of_nat n = lo ->
  for_loop fuel (fun i => i >? lo) Z.pred body hi st
  = for_each body (zdown hi 1 n) st.
Proof.
  intros. rewrite <- iterates_pred. apply for_loop_iterates; [assumption| |].
  - rewrite iterates_pred. apply Forall_forall. intros k Hk.
    apply in_zdown in Hk. destruct Hk as (m & Hm & ->). apply Z.gtb_lt. lia.
  - rewrite iter_pred. rewrite Z.gtb_ltb. apply Z.ltb_ge. lia.
Qed.

(* for (i = hi; i >= 0; i--) *)
Lemma for_loop_pred_ge : forall {St : Type} (body : Z -> St -> result St)
  fuel hi n st,
  (n < fuel)%nat -> hi - Z.of_nat n = -1 ->
  for_loop fuel (fun i => i >=? 0) Z.pred body hi st
  = for_each body (zdown hi 1 n) st.
Proof.
  intros. rewrite <- iterates_pred. apply for_loop_iterates; [assumption| |].
  - rewrite iterates_pred. apply Forall_forall. intros k Hk.
    apply in_zdown in Hk. destruct Hk as (m & Hm & ->).
    rewrite Z.geb_leb. apply Z.leb_le. lia.
  - rewrite iter_pred. rewrite Z.geb_leb. apply Z.leb_gt. lia.
Qed.

(* for (j = lo; j < hi; j++) with hi - lo rounds *)
Lemma for_loop_up_to : forall {St : Type} (body : Z -> St -> result St)
  fuel lo hi n st,
  (n < fuel)%nat -> hi = lo + Z.of_nat n ->
  for_loop fuel (fun j => j <? hi) Z.succ body lo st
  = for_each body (zrange lo n) st.
Proof. intros; subst hi; apply for_loop_up; assumption. Qed.

Lemma decoded_upd : forall inp out P q c,
  rd inp q = Ok c -> decoded inp out P ->
  decoded inp (upd out q c) (fun p => P p \/ p = q).
Proof.
  intros inp out P q c Hq Hd p Hp. unfold upd.
  destruct (Z.eqb_spec p q) as [-> | Hne]; [exact Hq|].
  apply Hd. destruct Hp; [assumption | contradiction].
Qed.

Lemma decoded_weaken : forall inp out (P Q : Z -> Prop),
  (forall p, Q p -> P p) -> decoded inp out P -> decoded inp out Q.
Proof. intros inp out P Q H Hd p Hp. apply Hd, H, Hp. Qed.

Section PayloadO1.
Variable esyms : Z -> Z -> option RansEncSymbol.
Variable D : Z -> ari_decoder.
Variable dsyms : Z -> Z -> option RansDecSymbol.
Variable inp : bytes.
Variable isz4 : Z.
Hypothesis Hco : forall ctx, coherent (esyms ctx) (D ctx) (dsyms ctx).

(* four symbols pushed in contexts c0..c3 are popped by one round of the
   decoder that has c0..c3 as its last symbols *)
Lemma enc_put4_inverse : forall c0 c1 c2 c3 st s',
  lanes_normalised (ls st) ->
  enc_put4 esyms c0 c1 c2 c3 st = Ok s' ->
  lanes_normalised s' /\
  (length (ptr s') <= length (ptr (ls st)) + 8)%nat /\
  forall i out,
    dec_block_O1 D dsyms isz4 i (mkLanesO1 s' c0 c1 c2 c3, out)
    = Ok (st, upd (upd (upd (upd out (0 * isz4 + i) (l0 st))
                          (1 * isz4 + i) (l1 st))
                     (2 * isz4 + i) (l2 st)) (3 * isz4 + i) (l3 st)).
Proof.
  intros c0 c1 c2 c3 st s' Hn H. unfold enc_put4 in H.
  apply bind_ok in H. destruct H as (sa & H3 & H).
  apply bind_ok in H. destruct H as (sb & H2 & H).
  apply bind_ok in H. destruct H as (sc & H1 & H0).
  destruct (enc_put_inverse _ _ _ _ _ _ _ (Hco c3) Hn H3) as (Hna & Hd3 & Hl3).
  destruct (enc_put_inverse _ _ _ _ _ _ _ (Hco c2) Hna H2) as (Hnb & Hd2 & Hl2).
  destruct (enc_put_inverse _ _ _ _ _ _ _ (Hco c1) Hnb H1) as (Hnc & Hd1 & Hl1).
  destruct (enc_put_inverse _ _ _ _ _ _ _ (Hco c0) Hnc H0) as (Hnd & Hd0 & Hl0).
  split; [exact Hnd|]. split; [lia|].
  intros i out. unfold dec_block_O1. cbn [fst snd ls l0 l1 l2 l3].
  rewrite (dec_block_gets _ _ _ _ _ _ _ _ _ _ _ _ _ _ _ _ _ Hd0 Hd1 Hd2 Hd3).
  cbn [bind]. destruct st; reflexivity.
Qed.

(* a round of the main loop of the encoder *)
Lemma enc_block_O1_eq : forall i0 st st',
  enc_block_O1 esyms inp isz4 i0 st = Ok st' ->
  exists s',
    pending inp isz4 i0 st' /\ ls st' = s' /\
    enc_put4 esyms (l0 st') (l1 st') (l2 st') (l3 st') st = Ok s'.
Proof.
  intros i0 st st' H. unfold enc_block_O1 in H.
  apply bind_ok in H. destruct H as (c3 & Hc3 & H).
  apply bind_ok in H. destruct H as (c2 & Hc2 & H).
  apply bind_ok in H. destruct H as (c1 & Hc1 & H).
  apply bind_ok in H. destruct H as (c0 & Hc0 & H).
  apply bind_ok in H. destruct H as (sa & H3 & H).
  apply bind_ok in H. destruct H as (sb & H2 & H).
  apply bind_ok in H. destruct H as (sc & H1 & H).
  apply bind_ok in H. destruct H as (sd & H0 & H).
  inversion H; subst st'; clear H. exists sd.
  cbn [ls l0 l1 l2 l3]. split.
  - unfold pending. cbn [l0 l1 l2 l3].
    replace (0 * isz4 + i0) with i0 by lia.
    replace (1 * isz4 + i0) with (i0 + 1 * isz4) by lia.
    replace (2 * isz4 + i0) with (i0 + 2 * isz4) by lia.
    replace (3 * isz4 + i0) with (i0 + 3 * isz4) by lia.
    auto.
  - split; [reflexivity|]. unfold enc_put4.
    rewrite H3. cbn [bind]. rewrite H2. cbn [bind]. rewrite H1. cbn [bind].
    exact H0.
Qed.

Lemma block_O1_inverse : forall i0 st st' out P,
  lanes_normalised (ls st) -> pending inp isz4 (i0 + 1) st ->
  enc_block_O1 esyms inp isz4 i0 st = Ok st' ->
  decoded inp out P ->
  lanes_normalised (ls st') /\ pending inp isz4 i0 st' /\
  (length (ptr (ls st')) <= length (ptr (ls st)) + 8)%nat /\
  exists out',
    dec_block_O1 D dsyms isz4 (i0 + 1) (st', out) = Ok (st, out') /\
    decoded inp out' (fun p => P p \/ quarters isz4 (i0 + 1) (i0 + 2) p).
Proof.
  intros i0 st st' out P Hn Hpend H Hdec.
  destruct (enc_block_O1_eq _ _ _ H) as (s' & Hpend' & Hls & H4).
  destruct (enc_put4_inverse _ _ _ _ _ _ Hn H4) as (Hn' & Hlen & Hdb).
  rewrite Hls. split; [exact Hn'|]. split; [exact Hpend'|]. split; [exact Hlen|].
  eexists. split.
  - specialize (Hdb (i0 + 1) out). rewrite <- Hls in Hdb.
    replace (mkLanesO1 (ls st') (l0 st') (l1 st') (l2 st') (l3 st')) with st' in Hdb
      by (destruct st'; reflexivity).
    exact Hdb.
  - destruct Hpend as (P0 & P1 & P2 & P3).
    pose proof (decoded_upd _ _ _ _ _ P0 Hdec) as Q0.
    pose proof (decoded_upd _ _ _ _ _ P1 Q0) as Q1.
    pose proof (decoded_upd _ _ _ _ _ P2 Q1) as Q2.
    pose proof (decoded_upd _ _ _ _ _ P3 Q2) as Q3.
    eapply decoded_weaken; [|exact Q3].
    cbn beta. intros p [Hp | (k & i & Hk & Hi & ->)]; [tauto|].
    assert (i = i0 + 1) by lia. subst i.
    assert (Hcases : k = 0 \/ k = 1 \/ k = 2 \/ k = 3) by lia.
    destruct Hcases as [-> | [-> | [-> | ->]]]; tauto.
Qed.

(* the main loops: n rounds, the encoder from index hi down, the decoder
   from index hi - n + 2 up *)
Lemma main_loop_O1_inverse : forall n hi st st',
  lanes_normalised (ls st) -> pending inp isz4 (hi + 1) st ->
  for_each (enc_block_O1 esyms inp isz4) (zdown hi 1 n) st = Ok st' ->
  lanes_normalised (ls st') /\ pending inp isz4 (hi + 1 - Z.of_nat n) st' /\
  (length (ptr (ls st')) <= length (ptr (ls st)) + 8 * n)%nat /\
  forall out P, decoded inp out P ->
    exists out',
      for_each (dec_block_O1 D dsyms isz4) (zrange (hi + 2 - Z.of_nat n) n)
        (st', out) = Ok (st, out') /\
      decoded inp out'
        (fun p => P p \/ quarters isz4 (hi + 2 - Z.of_nat n) (hi + 2) p).
Proof.
  induction n as [|n IH]; intros hi st st' Hn Hpend H.
  - cbn in H. inversion H; subst st'. split; [exact Hn|].
    split; [replace (hi + 1 - Z.of_nat 0) with (hi + 1) by lia; exact Hpend|].
    split; [lia|].
    intros out P Hdec. exists out. split; [reflexivity|].
    eapply decoded_weaken; [|exact Hdec]. cbn beta.
    intros p [Hp | (k & i & Hk & Hi & _)]; [assumption | lia].
  - rewrite zdown_S in H. cbn [for_each] in H.
    apply bind_ok in H. destruct H as (sa & Hblk & Hrest).
    destruct (block_O1_inverse hi st sa (fun _ => 0) (fun _ => False) Hn Hpend Hblk)
      as (Hna & Hpa & Hla & _); [intros p []|].
    replace hi with (hi - 1 + 1) in Hpa by lia.
    destruct (IH (hi - 1) sa st' Hna Hpa Hrest) as (Hn' & Hp' & Hl' & Hd').
    split; [exact Hn'|].
    split; [replace (hi + 1 - Z.of_nat (S n)) with (hi - 1 + 1 - Z.of_nat n) by lia;
            exact Hp'|].
    split; [lia|].
    intros out P Hdec.
    destruct (Hd' out P Hdec) as (out1 & Hd1 & Hdec1).
    destruct (block_O1_inverse hi st sa out1 _ Hn Hpend Hblk Hdec1)
      as (_ & _ & _ & out2 & Hd2 & Hdec2).
    exists out2. split.
    + rewrite zrange_snoc, for_each_app.
      replace (hi + 2 - Z.of_nat (S n)) with (hi - 1 + 2 - Z.of_nat n) by lia.
      rewrite Hd1. cbn [bind for_each].
      replace (hi - 1 + 2 - Z.of_nat n + Z.of_nat n) with (hi + 1) by lia.
      rewrite Hd2. reflexivity.
    + eapply decoded_weaken; [|exact Hdec2]. cbn beta.
      intros p [Hp | (k & i & Hk & Hi & ->)]; [tauto|].
      destruct (Z.eq_dec i (hi + 1)) as [-> | Hne].
      * right. exists k, (hi + 1). repeat split; lia.
      * left. right. exists k, i. repeat split; lia.
Qed.

(* a step of the loop over the last in_size mod 4 symbols, on lane 3 *)
Lemma rem_O1_inverse : forall i3 st st' out P,
  lanes_normalised (ls st) -> rd inp (i3 + 1) = Ok (l3 st) ->
  enc_rem_O1 esyms inp i3 st = Ok st' ->
  decoded inp out P ->
  lanes_normalised (ls st') /\ rd inp i3 = Ok (l3 st') /\
  l0 st' = l0 st /\ l1 st' = l1 st /\ l2 st' = l2 st /\
  (length (ptr (ls st')) <= length (ptr (ls st)) + 2)%nat /\
  exists out',
    dec_rem_O1 D dsyms (i3 + 1) (st', out) = Ok (st, out') /\
    decoded inp out' (fun p => P p \/ p = i3 + 1).
Proof.
  intros i3 st st' out P Hn Hpend H Hdec. unfold enc_rem_O1 in H.
  apply bind_ok in H. destruct H as (c3 & Hc3 & H).
  apply bind_ok in H. destruct H as (s & Hput & H).
  inversion H; subst st'; clear H. cbn [ls l0 l1 l2 l3].
  destruct (enc_put_inverse _ _ _ _ _ _ _ (Hco c3) Hn Hput) as (Hn' & Hd & Hl).
  split; [exact Hn'|]. split; [exact Hc3|].
  split; [reflexivity|]. split; [reflexivity|]. split; [reflexivity|].
  split; [exact Hl|].
  eexists. split.
  - unfold dec_rem_O1. cbn [fst snd ls l0 l1 l2 l3]. rewrite Hd. cbn [bind].
    destruct st; reflexivity.
  - apply decoded_upd; assumption.
Qed.

Lemma rem_loop_O1_inverse : forall n hi st st',
  lanes_normalised (ls st) -> rd inp (hi + 1) = Ok (l3 st) ->
  for_each (enc_rem_O1 esyms inp) (zdown hi 1 n) st = Ok st' ->
  lanes_normalised (ls st') /\ rd inp (hi + 1 - Z.of_nat n) = Ok (l3 st') /\
  l0 st' = l0 st /\ l1 st' = l1 st /\ l2 st' = l2 st /\
  (length (ptr (ls st')) <= length (ptr (ls st)) + 2 * n)%nat /\
  forall out P, decoded inp out P ->
    exists out',
      for_each (dec_rem_O1 D dsyms) (zrange (hi + 2 - Z.of_nat n) n)
        (st', out) = Ok (st, out') /\
      decoded inp out' (fun p => P p \/ hi + 2 - Z.of_nat n <= p < hi + 2).
Proof.
  induction n as [|n IH]; intros hi st st' Hn Hpend H.
  - cbn in H. inversion H; subst st'. split; [exact Hn|].
    split; [replace (hi + 1 - Z.of_nat 0) with (hi + 1) by lia; exact Hpend|].
    split; [reflexivity|]. split; [reflexivity|]. split; [reflexivity|].
    split; [lia|].
    intros out P Hdec. exists out. split; [reflexivity|].
    eapply decoded_weaken; [|exact Hdec]. cbn beta.
    intros p [Hp | Hp]; [assumption | lia].
  - rewrite zdown_S in H. cbn [for_each] in H.
    apply bind_ok in H. destruct H as (sa & Hstep & Hrest).
    destruct (rem_O1_inverse hi st sa (fun _ => 0) (fun _ => False) Hn Hpend Hstep)
      as (Hna & Hpa & E0 & E1 & E2 & Hla & _); [intros p []|].
    replace hi with (hi - 1 + 1) in Hpa by lia.
    destruct (IH (hi - 1) sa st' Hna Hpa Hrest)
      as (Hn' & Hp' & E0' & E1' & E2' & Hl' & Hd').
    split; [exact Hn'|].
    split; [replace (hi + 1 - Z.of_nat (S n)) with (hi - 1 + 1 - Z.of_nat n) by lia;
            exact Hp'|].
    split; [congruence|]. split; [congruence|]. split; [congruence|].
    split; [lia|].
    intros out P Hdec.
    destruct (Hd' out P Hdec) as (out1 & Hd1 & Hdec1).
    destruct (rem_O1_inverse hi st sa out1 _ Hn Hpend Hstep Hdec1)
      as (_ & _ & _ & _ & _ & _ & out2 & Hd2 & Hdec2).
    exists out2. split.
    + rewrite zrange_snoc, for_each_app.
      replace (hi + 2 - Z.of_nat (S n)) with (hi - 1 + 2 - Z.of_nat n) by lia.
      rewrite Hd1. cbn [bind for_each].
      replace (hi - 1 + 2 - Z.of_nat n + Z.of_nat n) with (hi + 1) by lia.
      rewrite Hd2. reflexivity.
    + eapply decoded_weaken; [|exact Hdec2]. cbn beta.
      intros p [Hp | Hp]; [tauto|].
      destruct (Z.eq_dec p (hi + 1)) as [-> | Hne]; [tauto|].
      left. right. lia.
Qed.

(* the whole payload: what rans_compress_O1 pushes, rans_uncompress_O1
   pops in the opposite order *)
Lemma payload_O1_inverse : forall st0 st1 st2 s,
  let N := Z.of_nat (length inp) in
  isz4 = N / 4 -> 4 <= N ->
  lanes_normalised (ls st0) ->
  rd inp (1 * isz4 - 2 + 1) = Ok (l0 st0) ->
  rd inp (2 * isz4 - 2 + 1) = Ok (l1 st0) ->
  rd inp (3 * isz4 - 2 + 1) = Ok (l2 st0) ->
  rd inp (N - 1) = Ok (l3 st0) ->
  for_loop (S (Z.to_nat N)) (fun i3 => i3 >? 4 * isz4 - 2) Z.pred
    (enc_rem_O1 esyms inp) (N - 2) st0 = Ok st1 ->
  for_loop (S (Z.to_nat N)) (fun i0 => i0 >=? 0) Z.pred
    (enc_block_O1 esyms inp isz4) (1 * isz4 - 2) st1 = Ok st2 ->
  enc_put4 esyms 0 0 0 0 st2 = Ok s ->
  lanes_normalised s /\
  (length (ptr s) <= length (ptr (ls st0)) + 2 * length inp)%nat /\
  exists sta stb,
    for_loop (S (Z.to_nat N)) (fun i => i <? isz4) Z.succ
      (dec_block_O1 D dsyms isz4) 0 (mkLanesO1 s 0 0 0 0, fun _ => 0) = Ok sta /\
    for_loop (S (Z.to_nat N)) (fun i => i <? N) Z.succ
      (dec_rem_O1 D dsyms) (4 * isz4) sta = Ok stb /\
    decoded inp (snd stb) (fun p => 0 <= p < N).
Proof.
  intros st0 st1 st2 s N Hisz HN Hn0 A0 A1 A2 A3 Hrem Hmain Hfin.
  pose proof (Z.div_mod N 4 ltac:(lia)) as Hdm.
  pose proof (Z.mod_pos_bound N 4 ltac:(lia)) as Hmb.
  assert (Hq : 1 <= isz4) by (subst isz4; apply Z.div_le_lower_bound; lia).
  set (nr := Z.to_nat (N mod 4)).
  set (nm := Z.to_nat (isz4 - 1)).
  assert (Enr : Z.of_nat nr = N - 4 * isz4) by (unfold nr; lia).
  assert (Enm : Z.of_nat nm = isz4 - 1) by (unfold nm; lia).
  rewrite (for_loop_pred_gt _ _ _ _ nr) in Hrem by lia.
  rewrite (for_loop_pred_ge _ _ _ nm) in Hmain by lia.
  (* the last symbols, on lane 3 *)
  assert (A3' : rd inp (N - 2 + 1) = Ok (l3 st0))
    by (replace (N - 2 + 1) with (N - 1) by lia; exact A3).
  destruct (rem_loop_O1_inverse nr (N - 2) st0 st1 Hn0 A3' Hrem)
    as (Hn1 & B3 & E0 & E1 & E2 & Hl1 & Hd1).
  (* the main loop *)
  assert (Hp1 : pending inp isz4 (1 * isz4 - 2 + 1) st1).
  { unfold pending. rewrite E0, E1, E2.
    replace (0 * isz4 + (1 * isz4 - 2 + 1)) with (1 * isz4 - 2 + 1) by lia.
    replace (1 * isz4 + (1 * isz4 - 2 + 1)) with (2 * isz4 - 2 + 1) by lia.
    replace (2 * isz4 + (1 * isz4 - 2 + 1)) with (3 * isz4 - 2 + 1) by lia.
    replace (3 * isz4 + (1 * isz4 - 2 + 1)) with (N - 2 + 1 - Z.of_nat nr) by lia.
    auto. }
  destruct (main_loop_O1_inverse nm (1 * isz4 - 2) st1 st2 Hn1 Hp1 Hmain)
    as (Hn2 & Hp2 & Hl2 & Hd2).
  replace (1 * isz4 - 2 + 1 - Z.of_nat nm) with 0 in Hp2 by lia.
  replace (1 * isz4 - 2 + 2 - Z.of_nat nm) with 1 in Hd2 by lia.
  replace (N - 2 + 2 - Z.of_nat nr) with (4 * isz4) in Hd1 by lia.
  (* the first symbol of each quarter, in context 0 *)
  destruct (enc_put4_inverse 0 0 0 0 st2 s Hn2 Hfin) as (Hn3 & Hl3 & Hd3).
  split; [exact Hn3|].
  split.
  { assert (Z.of_nat (8 * nm + 2 * nr + 8) <= 2 * N) by lia.
    unfold N in *. lia. }
  set (out0 := fun _ : Z => 0).
  set (outa := upd (upd (upd (upd out0 (0 * isz4 + 0) (l0 st2))
                          (1 * isz4 + 0) (l1 st2))
                     (2 * isz4 + 0) (l2 st2)) (3 * isz4 + 0) (l3 st2)).
  assert (Hda : decoded inp outa (fun p => quarters isz4 0 1 p)).
  { destruct Hp2 as (P0 & P1 & P2 & P3).
    assert (Q : decoded inp out0 (fun _ => False)) by (intros p []).
    pose proof (decoded_upd _ _ _ _ _ P0 Q) as Q0.
    pose proof (decoded_upd _ _ _ _ _ P1 Q0) as Q1.
    pose proof (decoded_upd _ _ _ _ _ P2 Q1) as Q2.
    pose proof (decoded_upd _ _ _ _ _ P3 Q2) as Q3.
    eapply decoded_weaken; [|exact Q3].
    cbn beta. intros p (k & i & Hk & Hi & ->).
    assert (i = 0) by lia. subst i.
    assert (Hcases : k = 0 \/ k = 1 \/ k = 2 \/ k = 3) by lia.
    destruct Hcases as [-> | [-> | [-> | ->]]]; tauto. }
  destruct (Hd2 outa _ Hda) as (outb & Hdb & Hdecb).
  destruct (Hd1 outb _ Hdecb) as (outc & Hdc & Hdecc).
  exists (st1, outb), (st0, outc).
  split; [|split].
  - rewrite (for_loop_up_to _ _ 0 isz4 (S nm)) by lia.
    rewrite zrange_S. cbn [for_each]. rewrite Hd3. cbn [bind].
    fold out0. fold outa. exact Hdb.
  - rewrite (for_loop_up_to _ _ (4 * isz4) N nr) by lia. exact Hdc.
  - cbn [snd]. eapply decoded_weaken; [|exact Hdecc].
    cbn beta. intros p Hp.
    destruct (Z.lt_ge_cases p (4 * isz4)) as [Hlt | Hge]; [|right; lia].
    left.
    pose proof (Z.div_mod p isz4 ltac:(lia)) as Hpd.
    pose proof (Z.mod_pos_bound p isz4 ltac:(lia)) as Hpm.
    assert (0 <= p / isz4 < 4).
    { split; [apply Z.div_pos; lia | apply Z.div_lt_upper_bound; lia]. }
    destruct (Z.eq_dec (p mod isz4) 0) as [E | E].
    + left. exists (p / isz4), 0. repeat split; lia.
    + right. exists (p / isz4), (p mod isz4). repeat split; lia.
Qed.
End PayloadO1.

(* ===================================================================== *)
(** * The size of the payload                                              *)
(* ===================================================================== *)

(* A symbol costs at most twelve bits and a little: pushing it multiplies
   the product 256^(bytes written) * (coder state) by at most 4098. *)

Lemma bw_pos : forall out, 0 < bw out.
Proof. intros. unfold bw. apply Z.pow_pos_nonneg; lia. Qed.

Lemma bw_cons : forall b out, bw (b :: out) = 256 * bw out.
Proof.
  intros. unfold bw. cbn [length]. rewrite Nat2Z.inj_succ, Z.pow_succ_r by lia.
  reflexivity.
Qed.

Lemma enc_renorm_loop_weight : forall fuel x xm out x1 out1,
  0 <= x -> enc_renorm_loop fuel x xm out = Ok (x1, out1) ->
  bw out1 * x1 <= bw out * x.
Proof.
  induction fuel as [|fuel IH]; intros x xm out x1 out1 Hx H; simpl in H.
  - destruct (x <? xm); [|discriminate]. inversion H; subst. lia.
  - destruct (x <? xm); [inversion H; subst; lia|].
    apply IH in H; [|rewrite shiftr_8; apply Z.div_pos; lia].
    rewrite bw_cons, shiftr_8 in H.
    pose proof (bw_pos out) as Hb.
    pose proof (Z.mul_div_le x 256 ltac:(lia)) as Hd.
    assert (bw out * (256 * (x / 256)) <= bw out * x)
      by (apply Z.mul_le_mono_nonneg_l; lia).
    lia.
Qed.

Lemma put_symbol_weight : forall start freq sym x out x' out',
  0 <= start -> 1 <= freq -> start + freq <= 4096 ->
  RansEncSymbolInit start freq 12 = Ok sym ->
  normalised x ->
  RansEncPutSymbol x out sym = Ok (x', out') ->
  bw out' * x' <= 4098 * (bw out * x).
Proof.
  intros start freq sym x out x' out' Hs Hf Hsum Hinit Hx Hput.
  destruct (put_symbol_spec start freq sym x out Hs Hf Hsum Hinit Hx)
    as (x1 & out1 & Hloop & Hx1 & Hput').
  rewrite Hput in Hput'. inversion Hput'; subst x' out'; clear Hput'.
  change (2 ^ 11) with 2048 in Hx1.
  assert (Hx0 : 0 <= x) by (destruct Hx as [Hlo _]; change (2 ^ 23) with 8388608 in Hlo; lia).
  pose proof (enc_renorm_loop_weight _ _ _ _ _ _ Hx0 Hloop) as Hw.
  pose proof (bw_pos out1) as Hb.
  pose proof (Z.mod_pos_bound x1 freq ltac:(lia)) as Hm.
  assert (Hq : x1 / freq <= x1).
  { apply Z.div_le_upper_bound; [lia|]. nia. }
  assert (Hx' : x1 / freq * 4096 + x1 mod freq + start <= 4098 * x1) by lia.
  assert (bw out1 * (x1 / freq * 4096 + x1 mod freq + start)
          <= bw out1 * (4098 * x1))
    by (apply Z.mul_le_mono_nonneg_l; lia).
  lia.
Qed.

Lemma normalised_pos : forall x, normalised x -> 0 < x.
Proof. intros x [H _]. change (2 ^ 23) with 8388608 in H. lia. Qed.

Lemma enc_put_weight : forall esyms D dsyms k c st st',
  coherent esyms D dsyms -> lanes_normalised st ->
  enc_put esyms k c st = Ok st' ->
  weight st' <= 4098 * weight st.
Proof.
  intros esyms D dsyms k c st st' Hco Hn Hput.
  unfold enc_put in Hput.
  apply bind_ok in Hput. destruct Hput as (sym & Hsym & Hput).
  apply of_option_ok in Hsym.
  apply bind_ok in Hput. destruct Hput as ([x p] & Hps & Hst').
  inversion Hst'; subst st'; clear Hst'.
  destruct (Hco c sym Hsym) as (s & fr & Hs & Hfr & Hsum & Hinit & _).
  pose proof (put_symbol_weight s fr sym _ _ _ _ Hs Hfr Hsum Hinit
                (lanes_normalised_get k st Hn) Hps) as Hw.
  destruct Hn as (N0 & N1 & N2 & N3).
  apply normalised_pos in N0, N1, N2, N3.
  destruct st as [r0 r1 r2 r3 q]. cbn [rans0 rans1 rans2 rans3] in *.
  unfold weight.
  destruct k; cbn [set_lane get_lane rans0 rans1 rans2 rans3 ptr] in *.
  - replace (bw p * (x * r1 * r2 * r3)) with (bw p * x * (r1 * r2 * r3)) by ring.
    replace (4098 * (bw q * (r0 * r1 * r2 * r3)))
      with (4098 * (bw q * r0) * (r1 * r2 * r3)) by ring.
    apply Z.mul_le_mono_nonneg_r; [nia | exact Hw].
  - replace (bw p * (r0 * x * r2 * r3)) with (bw p * x * (r0 * r2 * r3)) by ring.
    replace (4098 * (bw q * (r0 * r1 * r2 * r3)))
      with (4098 * (bw q * r1) * (r0 * r2 * r3)) by ring.
    apply Z.mul_le_mono_nonneg_r; [nia | exact Hw].
  - replace (bw p * (r0 * r1 * x * r3)) with (bw p * x * (r0 * r1 * r3)) by ring.
    replace (4098 * (bw q * (r0 * r1 * r2 * r3)))
      with (4098 * (bw q * r2) * (r0 * r1 * r3)) by ring.
    apply Z.mul_le_mono_nonneg_r; [nia | exact Hw].
  - replace (bw p * (r0 * r1 * r2 * x)) with (bw p * x * (r0 * r1 * r2)) by ring.
    replace (4098 * (bw q * (r0 * r1 * r2 * r3)))
      with (4098 * (bw q * r3) * (r0 * r1 * r2)) by ring.
    apply Z.mul_le_mono_nonneg_r; [nia | exact Hw].
Qed.

Lemma weight_pos : forall st, lanes_normalised st -> 0 < weight st.
Proof.
  intros [r0 r1 r2 r3 q] (N0 & N1 & N2 & N3).
  cbn [rans0 rans1 rans2 rans3] in *.
  apply normalised_pos in N0, N1, N2, N3.
  unfold weight. cbn [rans0 rans1 rans2 rans3 ptr].
  pose proof (bw_pos q). nia.
Qed.

(* a after b: the costs add up *)
Lemma weight_trans : forall a b w0 w1 w2,
  0 <= a -> 0 <= b -> 0 <= w0 ->
  w1 <= 4098 ^ a * w0 -> w2 <= 4098 ^ b * w1 -> w2 <= 4098 ^ (a + b) * w0.
Proof.
  intros a b w0 w1 w2 Ha Hb Hw0 H1 H2.
  rewrite Z.pow_add_r by lia.
  assert (0 < 4098 ^ b) by (apply Z.pow_pos_nonneg; lia).
  assert (4098 ^ b * w1 <= 4098 ^ b * (4098 ^ a * w0))
    by (apply Z.mul_le_mono_nonneg_l; lia).
  lia.
Qed.

(* a loop whose body costs c symbols a round *)
Lemma for_each_weight : forall {St : Type} (w : St -> Z) (Inv : St -> Prop)
  (body : Z -> St -> result St) c,
  0 <= c ->
  (forall s, Inv s -> 0 < w s) ->
  (forall j s s', Inv s -> body j s = Ok s' ->
     Inv s' /\ w s' <= 4098 ^ c * w s) ->
  forall js st st',
    Inv st -> for_each body js st = Ok st' ->
    Inv st' /\ w st' <= 4098 ^ (c * Z.of_nat (length js)) * w st.
Proof.
  intros St w Inv body c Hc Hpos Hbody js.
  induction js as [|j js IH]; intros st st' Hi H; cbn [for_each] in H.
  - injection H as <-. split; [exact Hi|].
    cbn [length]. change (Z.of_nat 0) with 0.
    rewrite Z.mul_0_r, Z.pow_0_r. lia.
  - apply bind_ok in H. destruct H as (s1 & Hstep & Hrest).
    destruct (Hbody j st s1 Hi Hstep) as (Hi1 & Hw1).
    destruct (IH s1 st' Hi1 Hrest) as (Hi' & Hw').
    split; [exact Hi'|].
    cbn [length]. rewrite Nat2Z.inj_succ.
    replace (c * Z.succ (Z.of_nat (length js)))
      with (c + c * Z.of_nat (length js)) by lia.
    specialize (Hpos st Hi).
    assert (H0 : 0 <= c * Z.of_nat (length js)) by lia.
    assert (H1 : 0 <= w st) by lia.
    exact (weight_trans c (c * Z.of_nat (length js)) (w st) (w s1) (w st')
             Hc H0 H1 Hw1 Hw').
Qed.

Lemma weight_step : forall w0 w1, 0 <= w0 ->
  w1 <= 4098 * w0 -> w1 <= 4098 ^ 1 * w0.
Proof. intros. rewrite Z.pow_1_r. assumption. Qed.

Section WeightO0.
Variable esyms : Z -> option RansEncSymbol.
Variable D : ari_decoder.
Variable dsyms : Z -> option RansDecSymbol.
Variable inp : bytes.
Hypothesis Hco : coherent esyms D dsyms.

Lemma put_O0_weight : forall k i st st',
  lanes_normalised st -> put_O0 esyms inp k i st = Ok st' ->
  lanes_normalised st' /\ weight st' <= 4098 ^ 1 * weight st.
Proof.
  intros k i st st' Hn H.
  destruct (put_O0_inverse esyms D dsyms inp Hco k i st st' Hn H)
    as (c & _ & Hn' & _).
  split; [exact Hn'|].
  unfold put_O0 in H. apply bind_ok in H. destruct H as (c' & _ & H).
  apply weight_step; [pose proof (weight_pos st Hn); lia|].
  apply (enc_put_weight _ _ _ _ _ _ _ Hco Hn H).
Qed.

Lemma block_O0_weight : forall i st st',
  lanes_normalised st -> enc_block_O0 (put_O0 esyms inp) i st = Ok st' ->
  lanes_normalised st' /\ weight st' <= 4098 ^ 4 * weight st.
Proof.
  intros i st st' Hn H. unfold enc_block_O0 in H.
  apply bind_ok in H. destruct H as (sa & H3 & H).
  apply bind_ok in H. destruct H as (sb & H2 & H).
  apply bind_ok in H. destruct H as (sc & H1 & H0).
  destruct (put_O0_weight _ _ _ _ Hn H3) as (Hna & Wa).
  destruct (put_O0_weight _ _ _ _ Hna H2) as (Hnb & Wb).
  destruct (put_O0_weight _ _ _ _ Hnb H1) as (Hnc & Wc).
  destruct (put_O0_weight _ _ _ _ Hnc H0) as (Hnd & Wd).
  split; [exact Hnd|].
  assert (Hw0 : 0 <= weight st) by (pose proof (weight_pos st Hn); lia).
  pose proof (weight_trans 1 1 _ _ _ ltac:(lia) ltac:(lia) Hw0 Wa Wb) as W2.
  pose proof (weight_trans (1 + 1) 1 _ _ _ ltac:(lia) ltac:(lia) Hw0 W2 Wc) as W3.
  exact (weight_trans (1 + 1 + 1) 1 _ _ _ ltac:(lia) ltac:(lia) Hw0 W3 Wd).
Qed.

Lemma tail_O0_weight : forall N st st',
  0 <= N -> lanes_normalised st ->
  enc_tail_O0 (put_O0 esyms inp) N st = Ok st' ->
  lanes_normalised st' /\ weight st' <= 4098 ^ (N mod 4) * weight st.
Proof.
  intros N st st' HN Hn H. unfold enc_tail_O0 in H. rewrite land_3 in H.
  pose proof (Z.mod_pos_bound N 4 ltac:(lia)) as Hmb.
  pose proof (weight_pos st Hn) as Hw.
  assert (Hw0 : 0 <= weight st) by lia.
  assert (Hcases : N mod 4 = 0 \/ N mod 4 = 1 \/ N mod 4 = 2 \/ N mod 4 = 3) by lia.
  destruct Hcases as [E | [E | [E | E]]]; rewrite E in *;
    cbn [Z.eqb Pos.eqb orb bind] in H.
  - injection H as <-. split; [exact Hn|]. rewrite Z.pow_0_r. lia.
  - apply (put_O0_weight _ _ _ _ Hn H).
  - apply bind_ok in H. destruct H as (s1 & H1 & H0).
    destruct (put_O0_weight _ _ _ _ Hn H1) as (Hn1 & W1).
    destruct (put_O0_weight _ _ _ _ Hn1 H0) as (Hn0 & W0).
    split; [exact Hn0|].
    exact (weight_trans 1 1 _ _ _ ltac:(lia) ltac:(lia) Hw0 W1 W0).
  - apply bind_ok in H. destruct H as (s2 & H2 & H).
    apply bind_ok in H. destruct H as (s1 & H1 & H0).
    destruct (put_O0_weight _ _ _ _ Hn H2) as (Hn2 & W2).
    destruct (put_O0_weight _ _ _ _ Hn2 H1) as (Hn1 & W1).
    destruct (put_O0_weight _ _ _ _ Hn1 H0) as (Hn0 & W0).
    split; [exact Hn0|].
    pose proof (weight_trans 1 1 _ _ _ ltac:(lia) ltac:(lia) Hw0 W2 W1) as W.
    exact (weight_trans (1 + 1) 1 _ _ _ ltac:(lia) ltac:(lia) Hw0 W W0).
Qed.

(* the order-0 payload: one symbol for every byte of the input *)
Lemma payload_O0_weight : forall st st',
  let N := Z.of_nat (length inp) in
  lanes_normalised st ->
  enc_order_O0 (put_O0 esyms inp) N st = Ok st' ->
  weight st' <= 4098 ^ N * weight st.
Proof.
  intros st st' N Hn H. unfold enc_order_O0 in H.
  apply bind_ok in H. destruct H as (st_t & Htail & Hmain).
  rewrite land_not3 in Hmain.
  assert (HN0 : 0 <= N) by (unfold N; lia).
  pose proof (Z.div_mod N 4 ltac:(lia)) as Hdm.
  pose proof (Z.mod_pos_bound N 4 ltac:(lia)) as Hmb.
  assert (Hq0 : 0 <= N / 4) by (apply Z.div_pos; lia).
  set (n := Z.to_nat (N / 4)).
  rewrite (for_loop_down _ _ 4 0 _ n) in Hmain by (unfold n in *; lia).
  destruct (tail_O0_weight N st st_t HN0 Hn Htail) as (Hnt & Wt).
  destruct (for_each_weight weight lanes_normalised
              (enc_block_O0 (put_O0 esyms inp)) 4 ltac:(lia) weight_pos
              ltac:(intros j s s' Hs Hb; exact (block_O0_weight j s s' Hs Hb))
              _ _ _ Hnt Hmain) as (_ & Wm).
  unfold zdown in Wm. rewrite length_map, length_seq in Wm.
  assert (Hw0 : 0 <= weight st) by (pose proof (weight_pos st Hn); lia).
  assert (Ha : 0 <= N mod 4) by lia.
  assert (Hb : 0 <= 4 * Z.of_nat n) by lia.
  pose proof (weight_trans _ _ _ _ _ Ha Hb Hw0 Wt Wm) as W.
  replace (N mod 4 + 4 * Z.of_nat n) with N in W by (unfold n; lia).
  exact W.
Qed.
End WeightO0.

Section WeightO1.
Variable esyms : Z -> Z -> option RansEncSymbol.
Variable D : Z -> ari_decoder.
Variable dsyms : Z -> Z -> option RansDecSymbol.
Variable inp : bytes.
Variable isz4 : Z.
Hypothesis Hco : forall ctx, coherent (esyms ctx) (D ctx) (dsyms ctx).

Lemma enc_put_O1_weight : forall ctx k c st st',
  lanes_normalised st -> enc_put (esyms ctx) k c st = Ok st' ->
  lanes_normalised st' /\ weight st' <= 4098 ^ 1 * weight st.
Proof.
  intros ctx k c st st' Hn H.
  destruct (enc_put_inverse _ _ _ _ _ _ _ (Hco ctx) Hn H) as (Hn' & _).
  split; [exact Hn'|].
  apply weight_step; [pose proof (weight_pos st Hn); lia|].
  apply (enc_put_weight _ _ _ _ _ _ _ (Hco ctx) Hn H).
Qed.

Lemma enc_put4_weight : forall c0 c1 c2 c3 st s',
  lanes_normalised (ls st) ->
  enc_put4 esyms c0 c1 c2 c3 st = Ok s' ->
  lanes_normalised s' /\ weight s' <= 4098 ^ 4 * weight (ls st).
Proof.
  intros c0 c1 c2 c3 st s' Hn H. unfold enc_put4 in H.
  apply bind_ok in H. destruct H as (sa & H3 & H).
  apply bind_ok in H. destruct H as (sb & H2 & H).
  apply bind_ok in H. destruct H as (sc & H1 & H0).
  destruct (enc_put_O1_weight _ _ _ _ _ Hn H3) as (Hna & Wa).
  destruct (enc_put_O1_weight _ _ _ _ _ Hna H2) as (Hnb & Wb).
  destruct (enc_put_O1_weight _ _ _ _ _ Hnb H1) as (Hnc & Wc).
  destruct (enc_put_O1_weight _ _ _ _ _ Hnc H0) as (Hnd & Wd).
  split; [exact Hnd|].
  assert (Hw0 : 0 <= weight (ls st)) by (pose proof (weight_pos _ Hn); lia).
  pose proof (weight_trans 1 1 _ _ _ ltac:(lia) ltac:(lia) Hw0 Wa Wb) as W2.
  pose proof (weight_trans (1 + 1) 1 _ _ _ ltac:(lia) ltac:(lia) Hw0 W2 Wc) as W3.
  exact (weight_trans (1 + 1 + 1) 1 _ _ _ ltac:(lia) ltac:(lia) Hw0 W3 Wd).
Qed.

Lemma block_O1_weight : forall i0 st st',
  lanes_normalised (ls st) ->
  enc_block_O1 esyms inp isz4 i0 st = Ok st' ->
  lanes_normalised (ls st') /\ weight (ls st') <= 4098 ^ 4 * weight (ls st).
Proof.
  intros i0 st st' Hn H.
  destruct (enc_block_O1_eq esyms inp isz4 _ _ _ H) as (s' & _ & Hls & H4).
  rewrite Hls. apply (enc_put4_weight _ _ _ _ _ _ Hn H4).
Qed.

Lemma rem_O1_weight : forall i3 st st',
  lanes_normalised (ls st) ->
  enc_rem_O1 esyms inp i3 st = Ok st' ->
  lanes_normalised (ls st') /\ weight (ls st') <= 4098 ^ 1 * weight (ls st).
Proof.
  intros i3 st st' Hn H. unfold enc_rem_O1 in H.
  apply bind_ok in H. destruct H as (c3 & _ & H).
  apply bind_ok in H. destruct H as (s & Hput & H).
  injection H as <-. cbn [ls].
  apply (enc_put_O1_weight _ _ _ _ _ Hn Hput).
Qed.

(* the order-1 payload: one symbol for every byte of the input *)
Lemma payload_O1_weight : forall st0 st1 st2 s,
  let N := Z.of_nat (length inp) in
  isz4 = N / 4 -> 4 <= N ->
  lanes_normalised (ls st0) ->
  for_loop (S (Z.to_nat N)) (fun i3 => i3 >? 4 * isz4 - 2) Z.pred
    (enc_rem_O1 esyms inp) (N - 2) st0 = Ok st1 ->
  for_loop (S (Z.to_nat N)) (fun i0 => i0 >=? 0) Z.pred
    (enc_block_O1 esyms inp isz4) (1 * isz4 - 2) st1 = Ok st2 ->
  enc_put4 esyms 0 0 0 0 st2 = Ok s ->
  weight s <= 4098 ^ N * weight (ls st0).
Proof.
  intros st0 st1 st2 s N Hisz HN Hn0 Hrem Hmain Hfin.
  pose proof (Z.div_mod N 4 ltac:(lia)) as Hdm.
  pose proof (Z.mod_pos_bound N 4 ltac:(lia)) as Hmb.
  assert (Hq : 1 <= isz4) by (subst isz4; apply Z.div_le_lower_bound; lia).
  set (nr := Z.to_nat (N mod 4)).
  set (nm := Z.to_nat (isz4 - 1)).
  rewrite (for_loop_pred_gt _ _ _ _ nr) in Hrem by (unfold nr; lia).
  rewrite (for_loop_pred_ge _ _ _ nm) in Hmain by (unfold nm; lia).
  destruct (for_each_weight (fun st => weight (ls st))
              (fun st => lanes_normalised (ls st))
              (enc_rem_O1 esyms inp) 1 ltac:(lia)
              ltac:(intros st Hs; exact (weight_pos _ Hs))
              ltac:(intros j a b Ha Hb; exact (rem_O1_weight j a b Ha Hb))
              _ _ _ Hn0 Hrem) as (Hn1 & W1).
  destruct (for_each_weight (fun st => weight (ls st))
              (fun st => lanes_normalised (ls st))
              (enc_block_O1 esyms inp isz4) 4 ltac:(lia)
              ltac:(intros st Hs; exact (weight_pos _ Hs))
              ltac:(intros j a b Ha Hb; exact (block_O1_weight j a b Ha Hb))
              _ _ _ Hn1 Hmain) as (Hn2 & W2).
  destruct (enc_put4_weight _ _ _ _ _ _ Hn2 Hfin) as (_ & W3).
  cbv beta in W1, W2.
  unfold zdown in W1, W2. rewrite length_map, length_seq in W1, W2.
  assert (Hw0 : 0 <= weight (ls st0)) by (pose proof (weight_pos _ Hn0); lia).
  assert (Ha : 0 <= 1 * Z.of_nat nr) by lia.
  assert (Hb : 0 <= 4 * Z.of_nat nm) by lia.
  pose proof (weight_trans _ _ _ _ _ Ha Hb Hw0 W1 W2) as W.
  assert (Hc : 0 <= 1 * Z.of_nat nr + 4 * Z.of_nat nm) by lia.
  assert (Hd : 0 <= 4) by lia.
  pose proof (weight_trans _ _ _ _ _ Hc Hd Hw0 W W3) as W'.
  replace (1 * Z.of_nat nr + 4 * Z.of_nat nm + 4) with N in W'
    by (unfold nr, nm; lia).
  exact W'.
Qed.
End WeightO1.

(* from the product to the number of bytes: 4098^5 < 256^8 *)
Lemma weight_length : forall st n,
  lanes_normalised st -> 0 <= n ->
  weight st <= 4098 ^ n * weight (mkLanes RansEncInit RansEncInit RansEncInit RansEncInit []) ->
  5 * Z.of_nat (length (ptr st)) <= 8 * n.
Proof.
  intros [r0 r1 r2 r3 q] n (N0 & N1 & N2 & N3) Hn H.
  cbn [rans0 rans1 rans2 rans3 ptr] in *.
  unfold weight in H. cbn [rans0 rans1 rans2 rans3 ptr] in H.
  unfold bw in H. cbn [length] in H.
  change (256 ^ Z.of_nat 0) with 1 in H.
  unfold RansEncInit, RANS_BYTE_L in H.
  change (Z.shiftl 1 23) with 8388608 in H.
  destruct N0 as [N0 _], N1 as [N1 _], N2 as [N2 _], N3 as [N3 _].
  change (2 ^ 23) with 8388608 in N0, N1, N2, N3.
  set (l := Z.of_nat (length q)) in *.
  assert (Hl : 0 <= l) by (unfold l; lia).
  assert (Hb : 0 < 256 ^ l) by (apply Z.pow_pos_nonneg; lia).
  assert (Hp : 0 < 4098 ^ n) by (apply Z.pow_pos_nonneg; lia).
  set (B := 8388608 * 8388608 * 8388608 * 8388608) in *.
  assert (HB : B <= r0 * r1 * r2 * r3).
  { unfold B.
    assert (8388608 * 8388608 <= r0 * r1) by nia.
    assert (8388608 * 8388608 * 8388608 <= r0 * r1 * r2) by nia.
    nia. }
  assert (H1 : 256 ^ l <= 4098 ^ n).
  { assert (256 ^ l * B <= 4098 ^ n * B).
    { replace (4098 ^ n * (1 * B)) with (4098 ^ n * B) in H by ring.
      assert (256 ^ l * B <= 256 ^ l * (r0 * r1 * r2 * r3))
        by (apply Z.mul_le_mono_nonneg_l; lia).
      lia. }
    assert (0 < B) by (unfold B; lia).
    apply Z.mul_le_mono_pos_r with (p := B); assumption. }
  assert (H5 : (256 ^ l) ^ 5 <= (4098 ^ n) ^ 5)
    by (apply Z.pow_le_mono_l; lia).
  rewrite <- !Z.pow_mul_r in H5 by lia.
  assert (H8 : 4098 ^ (n * 5) <= 256 ^ (n * 8)).
  { rewrite (Z.mul_comm n 5), (Z.mul_comm n 8).
    rewrite !Z.pow_mul_r by lia.
    apply Z.pow_le_mono_l. cbn. lia. }
  assert (H9 : 256 ^ (l * 5) <= 256 ^ (n * 8)) by lia.
  apply Z.pow_le_mono_r_iff in H9; lia.
Qed.

(* ===================================================================== *)
(** * rans_compress_O0 and rans_uncompress_O0                              *)
(* ===================================================================== *)

(* Everything rans_compress_O0 does on the way to a frame, and what
   rans_uncompress_O0 makes of that frame. *)
Lemma compress_O0_sound : forall inp frame,
  is_bytes inp -> Z.of_nat (length inp) < 2 ^ 31 ->
  rans_compress_O0 inp = Ok frame ->
  exists tr F M payload row,
    let N := Z.of_nat (length inp) in
    0 < N /\ scale_factor N = Ok tr /\
    normalise_O0 (count_O0 inp) tr = Ok (F, M) /\ 0 < F M /\
    valid_row F /\ cum F 256 = TOTFREQ - 1 /\
    frame = make_frame 0 N (row_from 256 F 0 0) payload /\
    5 * Z.of_nat (length payload) <= 8 * N + 80 /\
    uncompress_O0 frame = Ok (row, inp) /\
    rp_x row = TOTFREQ - 1 /\
    (forall k, fc_F (rp_D row) k = if (0 <=? k) && (k <? 256) then F k else 0).
Proof.
  intros inp frame Hb HN H. unfold rans_compress_O0 in H.
  apply bind_ok in H. destruct H as (off & _ & H).
  apply bind_ok in H. destruct H as (tr & Htr & H).
  assert (HN0 : 0 < Z.of_nat (length inp)).
  { unfold scale_factor in Htr.
    destruct (Z.eqb_spec (Z.of_nat (length inp)) 0); [discriminate | lia]. }
  apply bind_ok in H. destruct H as ([F M] & Hnorm & H).
  destruct (Z.gtb_spec (F M) 0) as [HFM | HFM]; cbn [negb] in H; [|discriminate].
  apply bind_ok in H. destruct H as ([tab esyms] & Hrow & H).
  apply bind_ok in H. destruct H as (st' & Henc & H).
  injection H as <-.
  (* the normalised row *)
  destruct (normalise_O0_spec (count_O0 inp) tr) as (F' & M' & E & HM & Hoth & _ & Hcum).
  rewrite Hnorm in E. injection E as <- <-.
  pose proof (scale_factor_spec _ _ Htr HN0) as Etr.
  assert (Hpos : forall j, 0 <= j < 256 -> 0 <= F j).
  { intros j Hj. destruct (Z.eq_dec j M) as [-> | Hne]; [lia|].
    rewrite Hoth by exact Hne.
    destruct (Z.leb_spec 0 j); destruct (Z.ltb_spec j 256); cbn [andb]; try lia.
    pose proof (count_O0_bounds inp j) as Hc.
    destruct (norm_O0_bounds (Z.of_nat (length inp)) (count_O0 inp j) HN0 Hc)
      as [Hz Hp].
    rewrite <- Etr in Hz, Hp.
    destruct (Z.eq_dec (count_O0 inp j) 0) as [E0 | E0]; [rewrite Hz; lia|].
    specialize (Hp ltac:(lia)). lia. }
  assert (Hout : forall k, ~ (0 <= k < 256) -> F k = 0).
  { intros k Hk. rewrite Hoth by lia.
    destruct (Z.leb_spec 0 k); destruct (Z.ltb_spec k 256); cbn [andb]; try lia;
      apply count_O0_outside; assumption. }
  assert (Hvalid : valid_row F).
  { split; [exact Hpos|]. split; [exists M; split; [exact HM | lia]|].
    rewrite Hcum. change TOTFREQ with 4096. lia. }
  assert (Hcum' : cum F 256 <= 4096) by (rewrite Hcum; change TOTFREQ with 4096; lia).
  (* the table *)
  destruct (write_row_spec F Hpos Hcum' _ _ _ Hrow) as (Etab & Hwritten).
  rewrite app_nil_l in Etab. subst tab.
  destruct (parse_row_written F Hpos Hcum' false ari_decoder_zero (fun _ => None)
              (enc_flush st') ltac:(exists M; split; [exact HM | lia]))
    as (row & Hparse & Hcp & Hx & Hparsed & Hkeep).
  pose proof (coherent_row F esyms (rp_D row) (rp_syms row) Hpos Hcum'
                Hwritten Hparsed) as Hco.
  (* the payload *)
  assert (Hn0 : lanes_normalised
                  (mkLanes RansEncInit RansEncInit RansEncInit RansEncInit [])).
  { repeat split; apply RansEncInit_normalised. }
  change (fun (k : lane) (i : Z) (st : lanes) =>
            c <- rd inp i;; enc_put esyms k c st) with (put_O0 esyms inp) in Henc.
  destruct (payload_O0_inverse esyms (rp_D row) (rp_syms row) inp Hco _ _ Hn0 Henc)
    as (Hn' & Hlen & Hdec).
  destruct (Hdec (fun _ => 0)) as (out' & Hd & [W1 _]).
  exists tr, F, M, (enc_flush st'), row. cbv zeta.
  split; [exact HN0|]. split; [exact Htr|]. split; [exact Hnorm|].
  split; [lia|]. split; [exact Hvalid|]. split; [exact Hcum|].
  split; [reflexivity|].
  split.
  { pose proof (payload_O0_weight esyms (rp_D row) (rp_syms row) inp Hco _ _
                  Hn0 Henc) as Hw.
    pose proof (weight_length st' (Z.of_nat (length inp)) Hn' (Nat2Z.is_nonneg _) Hw) as Hl.
    rewrite enc_flush_length. lia. }
  split; [|split].
  - unfold uncompress_O0.
    rewrite read_header_frame by lia. cbn [bind].
    rewrite skipn_make_frame, Hparse. cbn [bind].
    rewrite Hx, Hcum. change (TOTFREQ - 1 <? TOTFREQ) with true. cbn [negb].
    rewrite Hcp, dec_init_enc_flush by exact Hn'. cbn [bind].
    rewrite Hd. cbn [bind snd].
    rewrite map_read_out by exact W1. reflexivity.
  - rewrite Hx. exact Hcum.
  - intros k. destruct (Z.leb_spec 0 k); destruct (Z.ltb_spec k 256); cbn [andb].
    + destruct (Z.eq_dec (F k) 0) as [E0 | E0].
      * rewrite Hkeep by exact E0. rewrite E0. reflexivity.
      * apply (Hparsed k ltac:(lia) E0).
    + rewrite Hkeep by (apply Hout; lia). reflexivity.
    + rewrite Hkeep by (apply Hout; lia). reflexivity.
    + lia.
Qed.

(* ===================================================================== *)
(** * rans_compress_O1 and rans_uncompress_O1                              *)
(* ===================================================================== *)

Lemma upd2_nonneg : forall (F : Z -> Z -> Z) i j v,
  (forall k l, 0 <= F k l) -> 0 <= v -> forall k l, 0 <= upd2 F i j v k l.
Proof.
  intros F i j v HF Hv k l. unfold upd2, upd.
  destruct (k =? i); [destruct (l =? j); [exact Hv | apply HF] | apply HF].
Qed.

Lemma count_fold_O1_nonneg : forall inp st,
  (forall k l, 0 <= co_F st k l) -> (forall k, 0 <= co_T st k) ->
  (forall k l, 0 <= co_F (fold_left count_step_O1 inp st) k l) /\
  (forall k, 0 <= co_T (fold_left count_step_O1 inp st) k).
Proof.
  induction inp as [|c inp IH]; intros st HF HT; cbn [fold_left]; [auto|].
  apply IH; unfold count_step_O1; cbn [co_F co_T].
  - apply upd2_nonneg; [exact HF|]. specialize (HF (co_last st) c). lia.
  - intros k. unfold upd. destruct (k =? co_last st); [|apply HT].
    specialize (HT (co_last st)). lia.
Qed.

(* the counts of rans_compress_O1 are not negative, and context 0 occurs *)
Lemma count_O1_nonneg : forall inp F T,
  count_O1 inp = Ok (F, T) ->
  (forall k l, 0 <= F k l) /\ (forall k, 0 <= T k) /\ T 0 <> 0.
Proof.
  intros inp F T H. unfold count_O1 in H.
  apply bind_ok in H. destruct H as (c1 & _ & H).
  apply bind_ok in H. destruct H as (c2 & _ & H).
  apply bind_ok in H. destruct H as (c3 & _ & H).
  injection H as <- <-.
  destruct (count_fold_O1_nonneg inp (mkCounterO1 (fun _ _ => 0) (fun _ => 0) 0))
    as (HF & HT); cbn [co_F co_T]; try (intros; lia).
  set (st := fold_left count_step_O1 inp _) in *.
  assert (H1 : forall k l, 0 <= upd2 (co_F st) 0 c1 (co_F st 0 c1 + 1) k l).
  { apply upd2_nonneg; [exact HF|]. specialize (HF 0 c1). lia. }
  set (F1 := upd2 (co_F st) 0 c1 (co_F st 0 c1 + 1)) in *.
  assert (H2 : forall k l, 0 <= upd2 F1 0 c2 (F1 0 c2 + 1) k l).
  { apply upd2_nonneg; [exact H1|]. specialize (H1 0 c2). lia. }
  set (F2 := upd2 F1 0 c2 (F1 0 c2 + 1)) in *.
  split; [|split].
  - apply upd2_nonneg; [exact H2|]. specialize (H2 0 c3). lia.
  - intros k. unfold upd. destruct (k =? 0); [|apply HT].
    specialize (HT 0). lia.
  - unfold upd. cbn [Z.eqb]. specialize (HT 0). lia.
Qed.

(* the table rans_compress_O1 writes *)
Lemma write_table_spec : forall F T tw tab,
  (forall k l, 0 <= F k l) -> (forall k, 0 <= T k) ->
  write_table F T = Ok (tw, tab) ->
  tab = tab_from 256 T (tw_F tw) 0 0 /\
  (forall k, 0 <= k < 256 -> T k <> 0 ->
     valid_row (tw_F tw k) /\ cum (tw_F tw k) 256 = TOTFREQ - 1 /\
     row_written (tw_F tw k) 256 (tw_syms tw k)) /\
  (forall k, ~ (0 <= k < 256) \/ T k = 0 -> tw_syms tw k = fun _ => None).
Proof.
  intros F T tw tab HF HT H. unfold write_table in H.
  change (fun i => i <? 256) with (fun i => i <? 0 + Z.of_nat 256) in H.
  rewrite for_loop_up in H by lia.
  apply bind_ok in H. destruct H as (st & Hloop & H).
  injection H as <- <-.
  destruct (write_table_loop T 256 0 (mkTableWriter F [] 0 (fun _ _ => None))
              st 0%nat ltac:(lia) ltac:(lia)
              ltac:(intros; cbn [tw_F]; apply HF) HT Hloop) as (H1 & H2 & H3).
  cbn [tw_cp tw_rle tw_F tw_syms] in H1, H3.
  rewrite Nat.add_0_r in H1. rewrite app_nil_l in H1.
  split; [|split].
  - rewrite H1. reflexivity.
  - intros k Hk HTk. apply H2; [lia | exact HTk].
  - intros k Hk. apply H3. destruct Hk; [left; lia | right; assumption].
Qed.

(* Everything rans_compress_O1 does on the way to a frame, and what
   rans_uncompress_O1 makes of that frame. *)
Lemma compress_O1_sound : forall inp frame,
  4 <= Z.of_nat (length inp) < 2 ^ 31 ->
  rans_compress_O1 inp = Ok frame ->
  exists F T tw payload tp,
    let N := Z.of_nat (length inp) in
    let tab := tab_from 256 T (tw_F tw) 0 0 in
    count_O1 inp = Ok (F, T) /\ T 0 <> 0 /\
    write_table F T = Ok (tw, tab) /\
    (forall k, 0 <= k < 256 -> T k <> 0 ->
       valid_row (tw_F tw k) /\ cum (tw_F tw k) 256 = TOTFREQ - 1) /\
    9 + Z.of_nat (length tab) < 257 * 257 * 3 /\
    frame = make_frame 1 N tab payload /\
    5 * Z.of_nat (length payload) <= 8 * N + 80 /\
    uncompress_O1 frame = Ok (tp, inp) /\
    table_parsed T (tw_F tw) 256 (tp_D tp) (tp_syms tp).
Proof.
  intros inp frame HN H. unfold rans_compress_O1 in H.
  destruct (Z.ltb_spec (Z.of_nat (length inp)) 4) as [|_]; [lia|].
  apply bind_ok in H. destruct H as (off & _ & H).
  apply bind_ok in H. destruct H as ([F T] & Hcount & H).
  apply bind_ok in H. destruct H as ([tw tab] & Htab & H).
  destruct (Z.ltb_spec (9 + Z.of_nat (length tab)) (257 * 257 * 3)) as [Hsz|];
    cbn [negb] in H; [|discriminate].
  apply bind_ok in H. destruct H as (a0 & A0 & H).
  apply bind_ok in H. destruct H as (a1 & A1 & H).
  apply bind_ok in H. destruct H as (a2 & A2 & H).
  apply bind_ok in H. destruct H as (a3' & _ & H).
  apply bind_ok in H. destruct H as (a3 & A3 & H).
  apply bind_ok in H. destruct H as (st1 & Hrem & H).
  apply bind_ok in H. destruct H as (st2 & Hmain & H).
  assert (Hfin : exists s, enc_put4 (tw_syms tw) 0 0 0 0 st2 = Ok s /\
                           frame = make_frame 1 (Z.of_nat (length inp)) tab (enc_flush s)).
  { apply bind_ok in H. destruct H as (sa & H3 & H).
    apply bind_ok in H. destruct H as (sb & H2 & H).
    apply bind_ok in H. destruct H as (sc & H1 & H).
    apply bind_ok in H. destruct H as (sd & H0 & H).
    injection H as <-. exists sd. split; [|reflexivity].
    unfold enc_put4. rewrite H3. cbn [bind]. rewrite H2. cbn [bind].
    rewrite H1. cbn [bind]. exact H0. }
  clear H. destruct Hfin as (s & Hfin & ->).
  (* the table *)
  destruct (count_O1_nonneg _ _ _ Hcount) as (HF & HT & HT0).
  destruct (write_table_spec _ _ _ _ HF HT Htab) as (Etab & Hrows & Hnone).
  assert (Hvalid : forall k, 0 <= k < 256 -> T k <> 0 -> valid_row (tw_F tw k))
    by (intros k Hk HTk; apply (Hrows k Hk HTk)).
  destruct (parse_table_written T (tw_F tw) Hvalid (enc_flush s)
              ltac:(exists 0; split; [lia | exact HT0]))
    as (tp & Hparse & Hcp & Hparsed & Hzero).
  assert (Hco : forall ctx,
            coherent (tw_syms tw ctx) (tp_D tp ctx) (tp_syms tp ctx)).
  { intros ctx.
    destruct (Z.eq_dec (T ctx) 0) as [E | E].
    { intros c sym Hc. rewrite Hnone in Hc by (right; exact E). discriminate. }
    destruct (Z.lt_ge_cases ctx 0) as [Hlo | Hlo].
    { intros c sym Hc. rewrite Hnone in Hc by (left; lia). discriminate. }
    destruct (Z.lt_ge_cases ctx 256) as [Hhi | Hhi].
    2:{ intros c sym Hc. rewrite Hnone in Hc by (left; lia). discriminate. }
    destruct (Hrows ctx ltac:(lia) E) as ((Hpos & _ & Hcum) & _ & Hw).
    apply (coherent_row (tw_F tw ctx)); try assumption.
    apply (Hparsed ctx ltac:(lia) E). }
  (* the payload *)
  assert (Hn0 : lanes_normalised
                  (mkLanes RansEncInit RansEncInit RansEncInit RansEncInit [])).
  { repeat split; apply RansEncInit_normalised. }
  assert (Hisz : Z.shiftr (Z.of_nat (length inp)) 2 = Z.of_nat (length inp) / 4)
    by (rewrite Z.shiftr_div_pow2 by lia; reflexivity).
  destruct (payload_O1_inverse (tw_syms tw) (tp_D tp) (tp_syms tp) inp
              (Z.shiftr (Z.of_nat (length inp)) 2) Hco
              (mkLanesO1
                 (mkLanes RansEncInit RansEncInit RansEncInit RansEncInit [])
                 a0 a1 a2 a3) st1 st2 s
              Hisz ltac:(lia) Hn0 A0 A1 A2 A3 Hrem Hmain Hfin)
    as (Hn' & Hlen & sta & stb & Hda & Hdb & Hdec).
  exists F, T, tw, (enc_flush s), tp. cbv zeta. rewrite <- Etab.
  split; [exact Hcount|]. split; [exact HT0|]. split; [exact Htab|].
  split; [intros k Hk HTk; destruct (Hrows k Hk HTk) as (V & C & _); auto|].
  split; [exact Hsz|]. split; [reflexivity|].
  split.
  { pose proof (payload_O1_weight (tw_syms tw) (tp_D tp) (tp_syms tp) inp
                  (Z.shiftr (Z.of_nat (length inp)) 2) Hco
                  (mkLanesO1
                     (mkLanes RansEncInit RansEncInit RansEncInit RansEncInit [])
                     a0 a1 a2 a3) st1 st2 s
                  Hisz ltac:(lia) Hn0 Hrem Hmain Hfin) as Hw.
    pose proof (weight_length s (Z.of_nat (length inp)) Hn' (Nat2Z.is_nonneg _) Hw) as Hl.
    rewrite enc_flush_length. lia. }
  split; [|exact Hparsed].
  unfold uncompress_O1.
  rewrite read_header_frame by lia. cbn [bind].
  rewrite skipn_make_frame, Etab, Hparse. cbn [bind].
  rewrite Hcp, dec_init_enc_flush by exact Hn'. cbn [bind].
  rewrite Hda. cbn [bind]. rewrite Hdb. cbn [bind].
  rewrite map_read_out by exact Hdec. reflexivity.
Qed.

(* ===================================================================== *)
(** * The entry points                                                     *)
(* ===================================================================== *)

Lemma rans_compress_cases : forall inp order,
  rans_compress inp order =
  if (order =? 0) || (Z.of_nat (length inp) <? 4) then rans_compress_O0 inp
  else rans_compress_O1 inp.
Proof.
  intros inp order. unfold rans_compress, rans_compress_O1.
  destruct (order =? 0); cbn [negb orb]; [reflexivity|].
  destruct (Z.of_nat (length inp) <? 4); reflexivity.
Qed.

Lemma rans_uncompress_frame : forall order N tab payload,
  rans_uncompress (make_frame order N tab payload) =
  if negb (order =? 0) then rans_uncompress_O1 (make_frame order N tab payload)
  else rans_uncompress_O0 (make_frame order N tab payload).
Proof.
  intros. unfold rans_uncompress. rewrite make_frame_length.
  destruct (Z.ltb_spec (Z.of_nat (9 + length tab + length payload)) 9); [lia|].
  unfold make_frame. rewrite rd_0. reflexivity.
Qed.

(* Whenever a compressor returns a frame, the decompressor returns the
   input from it. *)
Theorem round_trip : forall inp order frame,
  is_bytes inp -> Z.of_nat (length inp) < 2 ^ 31 ->
  rans_compress inp order = Ok frame ->
  rans_uncompress frame = Ok inp.
Proof.
  intros inp order frame Hb HN H. rewrite rans_compress_cases in H.
  destruct ((order =? 0) || (Z.of_nat (length inp) <? 4)) eqn:E.
  - destruct (compress_O0_sound inp frame Hb HN H)
      as (tr & F & M & payload & row & _ & _ & _ & _ & _ & _ & -> & _ & Hdec & _).
    rewrite rans_uncompress_frame. cbn [Z.eqb negb].
    unfold rans_uncompress_O0. rewrite Hdec. reflexivity.
  - apply orb_false_iff in E. destruct E as [_ E]. apply Z.ltb_ge in E.
    destruct (compress_O1_sound inp frame ltac:(lia) H)
      as (F & T & tw & payload & tp & _ & _ & _ & _ & _ & -> & _ & Hdec & _).
    rewrite rans_uncompress_frame. cbn [Z.eqb negb].
    unfold rans_uncompress_O1. rewrite Hdec. reflexivity.
Qed.

(* ===================================================================== *)
(** * The properties of the specification                                  *)
(* ===================================================================== *)

(** C1.  The round trip decompress (compress B) = B does not hold for every
    byte sequence B: for the empty sequence rans_compress divides by
    in_size = 0 at either order, so there is no frame to decompress, and
    for [sparse_input] the assertion F[M] > 0 of rans_compress_O0 fails.
    ([round_trip] above is the round trip on the inputs for which a
    compressor returns.) *)
Theorem C1_round_trip_breaks :
  (forall order, bind (rans_compress [] order) rans_uncompress = Undefined) /\
  bind (rans_compress sparse_input 0) rans_uncompress = Abort.
Proof.
  split.
  - intros order. rewrite rans_compress_cases.
    destruct ((order =? 0) || (Z.of_nat (length (@nil Z)) <? 4)); reflexivity.
  - vm_compute. reflexivity.
Qed.

(** C2.  For freq >= 1, start + freq <= 4096 and a state x in
    [2^23, 2^23 * 2^8), RansEncSymbolInit (start, freq, 12) returns a
    record with which RansEncPutSymbol gives the state and the bytes of
    the textbook step RansEncPut (start, freq, 12), which returns; for
    freq = 1 the record is rcp_freq = 0xFFFFFFFF, rcp_shift = 0 (stored
    with the 32 added that RansEncPutSymbol shifts by in one go) and
    bias = start + 2^12 - 1. *)
Theorem C2_put_symbol_is_put : forall start freq x out,
  0 <= start -> 1 <= freq -> start + freq <= 4096 -> normalised x ->
  exists sym x' out',
    RansEncSymbolInit start freq 12 = Ok sym /\
    RansEncPut x out start freq 12 = Ok (x', out') /\
    RansEncPutSymbol x out sym = Ok (x', out') /\
    (freq = 1 ->
       rcp_freq sym = 2 ^ 32 - 1 /\ rcp_shift sym = 0 + 32 /\
       bias sym = start + 2 ^ 12 - 1).
Proof.
  intros start freq x out Hs Hf Hsum Hx.
  destruct (RansEncSymbolInit_12 start freq Hs Hf Hsum)
    as (sym & Hinit & Hxm & _ & Hone & _).
  destruct (put_symbol_spec start freq sym x out Hs Hf Hsum Hinit Hx)
    as (x1 & out1 & Hloop & Hx1 & Hput).
  exists sym, (x1 / freq * 4096 + x1 mod freq + start), out1.
  split; [exact Hinit|]. split; [|split; [exact Hput | exact Hone]].
  unfold RansEncPut, RansEncRenorm.
  unfold RansEncSymbolInit in Hinit.
  assert (E : u32 (Z.shiftl (Z.shiftr RANS_BYTE_L 12) 8 * freq) = 2 ^ 19 * freq).
  { change (Z.shiftl (Z.shiftr RANS_BYTE_L 12) 8) with (2 ^ 19).
    apply u32_small. change (2 ^ 19) with 524288. change (2 ^ 32) with 4294967296.
    lia. }
  rewrite E, Hloop. cbn [bind].
  destruct (Z.eqb_spec freq 0); [lia|].
  rewrite Z.shiftl_mul_pow2 by lia. change (2 ^ 12) with 4096.
  rewrite u32_small; [reflexivity|].
  change (2 ^ 19) with 524288 in Hx1. change (2 ^ 11) with 2048 in Hx1.
  change (2 ^ 32) with 4294967296.
  pose proof (Z.mod_pos_bound x1 freq ltac:(lia)).
  assert (0 <= x1 / freq < 524288).
  { split; [apply Z.div_pos; lia | apply Z.div_lt_upper_bound; lia]. }
  lia.
Qed.

Lemma C2_put_symbol_is_put_witness :
  exists sym x' out',
    RansEncSymbolInit 0 1 12 = Ok sym /\
    RansEncPut (2 ^ 23) [] 0 1 12 = Ok (x', out') /\
    RansEncPutSymbol (2 ^ 23) [] sym = Ok (x', out') /\
    (1 = 1 ->
       rcp_freq sym = 2 ^ 32 - 1 /\ rcp_shift sym = 0 + 32 /\
       bias sym = 0 + 2 ^ 12 - 1).
Proof.
  apply (C2_put_symbol_is_put 0 1 (2 ^ 23) []).
  - lia.
  - lia.
  - lia.
  - unfold normalised. lia.
Defined.

(** C4.  The assertion F[M] > 0 of rans_compress_O0 can fail.  For
    [sparse_input] (5416 bytes: 41 of each value below 129, one of each
    value from 129 on) the most frequent symbol is M = 0 with count 41; the
    254 other symbols take 128 * 31 + 127 = 4095 of the 4095 units, the
    adjustment leaves F[0] = 0, and the compressor stops in the assertion:
    a symbol that occurs is left with frequency 0. *)
Theorem C4_assertion_fails :
  exists tr F M,
    scale_factor (Z.of_nat (length sparse_input)) = Ok tr /\
    normalise_O0 (count_O0 sparse_input) tr = Ok (F, M) /\
    M = 0 /\ count_O0 sparse_input M = 41 /\ F M = 0 /\
    rans_compress_O0 sparse_input = Abort.
Proof.
  destruct (normalise_O0_spec (count_O0 sparse_input)
              (2 ^ 43 / 5416 + 2 ^ 30 / 5416)) as (F & M & Hn & _).
  exists (2 ^ 43 / 5416 + 2 ^ 30 / 5416), F, M.
  split; [vm_compute; reflexivity|]. split; [exact Hn|].
  assert (E : match normalise_O0 (count_O0 sparse_input)
                      (2 ^ 43 / 5416 + 2 ^ 30 / 5416) with
              | Ok (F, M) => (M, count_O0 sparse_input M, F M)
              | _ => (-1, 0, 0)
              end = (0, 41, 0)) by (vm_compute; reflexivity).
  rewrite Hn in E. injection E as E1 E2 E3.
  split; [exact E1|]. split; [exact E2|]. split; [exact E3|].
  vm_compute. reflexivity.
Qed.

(** C5.  Compressing the empty input is not defined, at either order:
    order 1 falls back to order 0, and rans_compress_O0 divides by
    in_size = 0 when it computes the scaling factor tr, before any frame
    is written. *)
Theorem C5_empty_input_undefined :
  rans_compress_O1 [] = rans_compress_O0 [] /\
  scale_factor (Z.of_nat (length (@nil Z))) = Undefined /\
  rans_compress [] 0 = Undefined /\ rans_compress [] 1 = Undefined.
Proof. repeat split; reflexivity. Qed.

(* ===================================================================== *)
(** * Frames that rans_uncompress rejects                                  *)
(* ===================================================================== *)

Lemma read_freq_shorter : forall cp F0 cp',
  read_freq cp = Ok (F0, cp') -> (length cp' < length cp)%nat.
Proof.
  intros cp F0 cp' H. unfold read_freq in H.
  destruct cp as [|b cp1]; [discriminate|].
  destruct (b >=? 128).
  - destruct cp1 as [|b2 cp2]; [discriminate|].
    injection H as _ <-. cbn [length]. lia.
  - injection H as _ <-. cbn [length]. lia.
Qed.

Lemma parse_entry_shorter : forall o1 st st',
  parse_entry o1 st = Ok st' -> (length (rp_cp st') < length (rp_cp st))%nat.
Proof.
  intros o1 st st' H. unfold parse_entry in H.
  destruct ((rp_j st <? 0) || (256 <=? rp_j st)); [discriminate|].
  apply bind_ok in H. destruct H as ([F0 cp] & Hrf & H).
  apply read_freq_shorter in Hrf.
  destruct (rp_x st + (if o1 && (F0 =? 0) then TOTFREQ else F0) >? TOTFREQ);
    [discriminate|].
  destruct (rp_rle st =? 0).
  - destruct cp as [|b cp1]; [discriminate|].
    destruct (rp_j st + 1 =? b).
    + destruct cp1 as [|r cp2]; [discriminate|].
      injection H as <-. cbn [rp_cp length] in *. lia.
    + injection H as <-. cbn [rp_cp length] in *. lia.
  - injection H as <-. cbn [rp_cp]. exact Hrf.
Qed.

Lemma parse_row_loop_shorter : forall fuel o1 st st',
  parse_row_loop fuel o1 st = Ok st' ->
  (length (rp_cp st') < length (rp_cp st))%nat.
Proof.
  induction fuel as [|fuel IH]; intros o1 st st' H; cbn [parse_row_loop] in H;
    [discriminate|].
  apply bind_ok in H. destruct H as (st1 & Hstep & H).
  apply parse_entry_shorter in Hstep.
  destruct (rp_j st1 =? 0).
  - injection H as <-. exact Hstep.
  - apply IH in H. lia.
Qed.

Lemma parse_row_shorter : forall o1 D syms cp row,
  parse_row o1 D syms cp = Ok row -> (length (rp_cp row) < length cp)%nat.
Proof.
  intros o1 D syms cp row H. unfold parse_row in H.
  destruct cp as [|j cp1]; [discriminate|].
  apply parse_row_loop_shorter in H. cbn [rp_cp length] in *. lia.
Qed.

Lemma parse_ctx_shorter : forall st st',
  parse_ctx st = Ok st' -> (length (tp_cp st') < length (tp_cp st))%nat.
Proof.
  intros st st' H. unfold parse_ctx in H.
  destruct ((tp_i st <? 0) || (256 <=? tp_i st)); [discriminate|].
  apply bind_ok in H. destruct H as (row & Hrow & H).
  apply parse_row_shorter in Hrow.
  destruct (tp_rle st =? 0).
  - destruct (rp_cp row) as [|b cp1]; [discriminate|].
    destruct (tp_i st + 1 =? b).
    + destruct cp1 as [|r cp2]; [discriminate|].
      injection H as <-. cbn [tp_cp length] in *. lia.
    + injection H as <-. cbn [tp_cp length] in *. lia.
  - injection H as <-. cbn [tp_cp]. exact Hrow.
Qed.

(* the round in which the check fails returns NULL *)
Lemma parse_entry_fails : forall o1 st,
  check_fails o1 st -> parse_entry o1 st = Null.
Proof.
  intros o1 st (Hj & F0 & cp & Hrf & Hx). unfold parse_entry.
  destruct (Z.ltb_spec (rp_j st) 0); [lia|].
  destruct (Z.leb_spec 256 (rp_j st)); [lia|]. cbn [orb].
  rewrite Hrf. cbn [bind].
  destruct (Z.gtb_spec (rp_x st + (if o1 && (F0 =? 0) then TOTFREQ else F0))
              TOTFREQ); [reflexivity | lia].
Qed.

Lemma parse_row_loop_null : forall o1 st st',
  row_reaches o1 st st' -> check_fails o1 st' ->
  forall fuel, (length (rp_cp st) < fuel)%nat ->
    parse_row_loop fuel o1 st = Null.
Proof.
  intros o1 st st' Hreach. induction Hreach as [st | st st1 st2 Hstep Hj _ IH];
    intros Hfail fuel Hfuel.
  - destruct fuel as [|fuel]; [lia|]. cbn [parse_row_loop].
    rewrite (parse_entry_fails _ _ Hfail). reflexivity.
  - destruct fuel as [|fuel]; [lia|]. cbn [parse_row_loop].
    rewrite Hstep. cbn [bind].
    destruct (Z.eqb_spec (rp_j st1) 0); [contradiction|].
    apply IH; [exact Hfail|].
    apply parse_entry_shorter in Hstep. lia.
Qed.

Lemma parse_row_null : forall o1 D syms cp,
  row_overflows o1 D syms cp -> parse_row o1 D syms cp = Null.
Proof.
  intros o1 D syms cp (j & cp1 & st & -> & Hreach & Hfail).
  unfold parse_row.
  apply (parse_row_loop_null o1 _ st Hreach Hfail). cbn [rp_cp]. lia.
Qed.

Lemma parse_table_loop_null : forall st st',
  table_reaches st st' ->
  0 <= tp_i st' < 256 ->
  row_overflows true (tp_D st' (tp_i st')) (tp_syms st' (tp_i st')) (tp_cp st') ->
  forall fuel, (length (tp_cp st) < fuel)%nat ->
    parse_table_loop fuel st = Null.
Proof.
  intros st st' Hreach. induction Hreach as [st | st st1 st2 Hstep Hi _ IH];
    intros Hrange Hfail fuel Hfuel.
  - destruct fuel as [|fuel]; [lia|]. cbn [parse_table_loop].
    unfold parse_ctx.
    destruct (Z.ltb_spec (tp_i st) 0); [lia|].
    destruct (Z.leb_spec 256 (tp_i st)); [lia|]. cbn [orb].
    rewrite (parse_row_null _ _ _ _ Hfail). reflexivity.
  - destruct fuel as [|fuel]; [lia|]. cbn [parse_table_loop].
    rewrite Hstep. cbn [bind].
    destruct (Z.eqb_spec (tp_i st1) 0); [contradiction|].
    apply IH; [exact Hrange | exact Hfail |].
    apply parse_ctx_shorter in Hstep. lia.
Qed.

Lemma parse_table_null : forall cp,
  table_overflows cp -> parse_table cp = Null.
Proof.
  intros cp (i & cp1 & st & -> & Hreach & Hrange & Hfail).
  unfold parse_table.
  apply (parse_table_loop_null _ st Hreach Hrange Hfail). cbn [tp_cp]. lia.
Qed.

Lemma rd_in_range : forall buf i,
  0 <= i < Z.of_nat (length buf) -> exists b, rd buf i = Ok b.
Proof.
  intros buf i Hi. unfold rd. destruct (Z.ltb_spec i 0); [lia|].
  destruct (nth_error buf (Z.to_nat i)) as [b|] eqn:E; [exists b; reflexivity|].
  apply nth_error_None in E. lia.
Qed.

Lemma read_int_in_range : forall buf i,
  0 <= i -> i + 3 < Z.of_nat (length buf) -> exists v, read_int buf i = Ok v.
Proof.
  intros buf i Hi Hlen. unfold read_int.
  destruct (rd_in_range buf i ltac:(lia)) as (b0 & ->).
  destruct (rd_in_range buf (i + 1) ltac:(lia)) as (b1 & ->).
  destruct (rd_in_range buf (i + 2) ltac:(lia)) as (b2 & ->).
  destruct (rd_in_range buf (i + 3) ltac:(lia)) as (b3 & ->).
  cbn [bind]. eauto.
Qed.

(* the header checks return out_sz or NULL *)
Lemma read_header_cases : forall order inp,
  9 <= Z.of_nat (length inp) ->
  read_header order inp = Null \/
  exists out_sz in_sz,
    read_header order inp = Ok out_sz /\ rd inp 0 = Ok order /\
    read_int inp 1 = Ok in_sz /\
    u32 in_sz = u32 (u32 (Z.of_nat (length inp)) - 9).
Proof.
  intros order inp Hlen. unfold read_header.
  destruct (rd_in_range inp 0 ltac:(lia)) as (b0 & Hb0). rewrite Hb0. cbn [bind].
  destruct (Z.eqb_spec b0 order) as [-> | Hne]; cbn [negb]; [|now left].
  destruct (read_int_in_range inp 1 ltac:(lia) ltac:(lia)) as (in_sz & Hin).
  destruct (read_int_in_range inp 5 ltac:(lia) ltac:(lia)) as (out_sz & Hout).
  rewrite Hin, Hout. cbn [bind].
  destruct (Z.eqb_spec (u32 in_sz) (u32 (u32 (Z.of_nat (length inp)) - 9)));
    cbn [negb]; [|now left].
  destruct (out_sz <? 0); [now left|].
  right. exists out_sz, in_sz. auto.
Qed.

Lemma uncompress_O0_null : forall inp,
  9 <= Z.of_nat (length inp) ->
  row_overflows false ari_decoder_zero (fun _ => None) (skipn 9 inp) ->
  rans_uncompress_O0 inp = Null.
Proof.
  intros inp Hlen Hov. unfold rans_uncompress_O0, uncompress_O0.
  destruct (read_header_cases 0 inp Hlen) as [-> | (out_sz & in_sz & -> & _)];
    [reflexivity|].
  cbn [bind]. rewrite (parse_row_null _ _ _ _ Hov). reflexivity.
Qed.

Lemma uncompress_O1_null : forall inp,
  9 <= Z.of_nat (length inp) ->
  table_overflows (skipn 9 inp) ->
  rans_uncompress_O1 inp = Null.
Proof.
  intros inp Hlen Hov. unfold rans_uncompress_O1, uncompress_O1.
  destruct (read_header_cases 1 inp Hlen) as [-> | (out_sz & in_sz & -> & _)];
    [reflexivity|].
  cbn [bind]. rewrite (parse_table_null _ Hov). reflexivity.
Qed.

Lemma uncompress_bad_size : forall order inp in_sz,
  9 <= Z.of_nat (length inp) ->
  read_int inp 1 = Ok in_sz ->
  u32 in_sz <> u32 (u32 (Z.of_nat (length inp)) - 9) ->
  read_header order inp = Null.
Proof.
  intros order inp in_sz Hlen Hin Hne.
  destruct (read_header_cases order inp Hlen)
    as [E | (out_sz & in_sz' & _ & _ & Hin' & Heq)]; [exact E|].
  rewrite Hin in Hin'. injection Hin' as <-. contradiction.
Qed.

(** C6.  rans_uncompress returns NULL, and so no output, on every frame
    that is shorter than 9 bytes, or whose compressed-size field differs
    from the length of the frame less 9, or whose order byte is neither 0
    nor 1, or in whose table a cumulative-frequency check x + F > TOTFREQ
    fails. *)
Theorem C6_malformed_frame_is_rejected : forall inp,
  malformed inp -> rans_uncompress inp = Null.
Proof.
  intros inp H. unfold rans_uncompress.
  destruct (Z.ltb_spec (Z.of_nat (length inp)) 9) as [|Hlen]; [reflexivity|].
  destruct H as [H | [(in_sz & Hin & Hne) | [(b0 & Hb0 & Hn0 & Hn1) | [[Hb0 Hov] | [Hb0 Hov]]]]].
  - lia.
  - destruct (rd_in_range inp 0 ltac:(lia)) as (b0 & ->). cbn [bind].
    destruct (negb (b0 =? 0)).
    + unfold rans_uncompress_O1, uncompress_O1.
      rewrite (uncompress_bad_size 1 inp in_sz Hlen Hin Hne). reflexivity.
    + unfold rans_uncompress_O0, uncompress_O0.
      rewrite (uncompress_bad_size 0 inp in_sz Hlen Hin Hne). reflexivity.
  - rewrite Hb0. cbn [bind].
    destruct (Z.eqb_spec b0 0); [contradiction|]. cbn [negb].
    unfold rans_uncompress_O1, uncompress_O1, read_header.
    rewrite Hb0. cbn [bind].
    destruct (Z.eqb_spec b0 1); [contradiction|]. reflexivity.
  - rewrite Hb0. cbn [bind Z.eqb negb]. apply uncompress_O0_null; assumption.
  - rewrite Hb0. cbn [bind Z.eqb negb]. apply uncompress_O1_null; assumption.
Qed.

Lemma C6_malformed_frame_is_rejected_witness :
  malformed overflowing_frame /\ rans_uncompress overflowing_frame = Null.
Proof.
  assert (H : malformed overflowing_frame).
  { right. right. right. left. split; [reflexivity|].
    exists 65, [143; 255; 67; 2; 0].
    eexists. split; [reflexivity|]. split.
    - eapply rr_next; [reflexivity | cbn; lia | apply rr_here].
    - split; [cbn; lia|]. exists 2, [0]. split; [reflexivity|].
      vm_compute. reflexivity. }
  split; [exact H | apply (C6_malformed_frame_is_rejected overflowing_frame H)].
Defined.

(* ===================================================================== *)
(** * A stored frequency of 0 in an order-1 row                            *)
(* ===================================================================== *)

(* one round of the table parsers, from the frequency it reads *)
Lemma parse_entry_round : forall o1 D syms j x rle cp F0 cp1,
  0 <= j < 256 ->
  read_freq cp = Ok (F0, cp1) ->
  let F := if o1 && (F0 =? 0) then TOTFREQ else F0 in
  let D' := mkAriDecoder (upd (fc_F D) j F) (upd (fc_C D) j x)
              (memset (R D) x j F) in
  let syms' := upd syms j (Some (RansDecSymbolInit x F)) in
  parse_entry o1 (mkRowParser D syms j x rle cp) =
  if x + F >? TOTFREQ then Null
  else if rle =? 0 then
    match cp1 with
    | [] => Undefined
    | b :: cp2 =>
        if j + 1 =? b then
          match cp2 with
          | [] => Undefined
          | r :: cp3 => Ok (mkRowParser D' syms' b (x + F) r cp3)
          end
        else Ok (mkRowParser D' syms' b (x + F) 0 cp2)
    end
  else Ok (mkRowParser D' syms' (j + 1) (x + F) (rle - 1) cp1).
Proof.
  intros o1 D syms j x rle cp F0 cp1 Hj Hrf. cbv zeta. unfold parse_entry.
  cbn [rp_j rp_x rp_cp rp_D rp_syms rp_rle].
  destruct (Z.ltb_spec j 0); [lia|]. destruct (Z.leb_spec 256 j); [lia|].
  cbn [orb]. rewrite Hrf. cbn [bind]. reflexivity.
Qed.

(** C10.  When the frequency stored for symbol j of an order-1 row decodes
    to F = 0, which the byte 0x00 and the two bytes 0x80 0x00 both do, the
    order-1 parser goes on with F = TOTFREQ = 2^12 in its place.  The
    round is the round on a row that stores 4096 (bytes 0x90 0x00) for j:
    the cumulative check rejects the row unless x = 0; with x = 0 the
    round returns, as far as the bytes that name the next symbol are
    there, with fc[j].F, the decoder symbol and the TOTFREQ slots of the
    reverse lookup set up for frequency TOTFREQ, and x = TOTFREQ.  (The
    order-0 parser has no such line and keeps F = 0.) *)
Theorem C10_stored_zero_is_totfreq : forall D syms j x rle cp rest,
  0 <= j < 256 -> 0 <= x ->
  read_freq cp = Ok (0, rest) ->
  let st := mkRowParser D syms j x rle cp in
  let D' := mkAriDecoder (upd (fc_F D) j TOTFREQ) (upd (fc_C D) j 0)
              (memset (R D) 0 j TOTFREQ) in
  let syms' := upd syms j (Some (RansDecSymbolInit 0 TOTFREQ)) in
  read_freq (0 :: rest) = Ok (0, rest) /\
  read_freq (128 :: 0 :: rest) = Ok (0, rest) /\
  parse_entry true st
    = parse_entry true (mkRowParser D syms j x rle (144 :: 0 :: rest)) /\
  (0 < x -> parse_entry true st = Null) /\
  (x = 0 -> rle <> 0 ->
     parse_entry true st
       = Ok (mkRowParser D' syms' (j + 1) TOTFREQ (rle - 1) rest)) /\
  (x = 0 -> rle = 0 -> forall b cp1, rest = b :: cp1 -> b <> j + 1 ->
     parse_entry true st = Ok (mkRowParser D' syms' b TOTFREQ 0 cp1)) /\
  (x = 0 -> rle = 0 -> forall r cp2, rest = (j + 1) :: r :: cp2 ->
     parse_entry true st = Ok (mkRowParser D' syms' (j + 1) TOTFREQ r cp2)) /\
  (forall st', parse_entry true st = Ok st' ->
     x = 0 /\
     fc_F (rp_D st') j = TOTFREQ /\ fc_C (rp_D st') j = 0 /\
     rp_syms st' j = Some (RansDecSymbolInit 0 TOTFREQ) /\
     (forall s, 0 <= s < TOTFREQ -> R (rp_D st') s = Some (u8 j)) /\
     rp_x st' = TOTFREQ) /\
  (forall st', parse_entry false st = Ok st' -> fc_F (rp_D st') j = 0).
Proof.
  intros D syms j x rle cp rest Hj Hx Hrf st D' syms'.
  assert (Hrf' : read_freq (144 :: 0 :: rest) = Ok (4096, rest))
    by reflexivity.
  pose proof (parse_entry_round true D syms j x rle cp 0 rest Hj Hrf) as E.
  pose proof (parse_entry_round true D syms j x rle _ 4096 rest Hj Hrf') as E'.
  pose proof (parse_entry_round false D syms j x rle cp 0 rest Hj Hrf) as E0.
  cbv zeta in E, E', E0. cbn [andb Z.eqb] in E, E', E0.
  change TOTFREQ with 4096 in *. fold st in E, E0.
  split; [reflexivity|]. split; [reflexivity|].
  split; [rewrite E, E'; reflexivity|].
  split; [|split; [|split; [|split; [|split]]]].
  - intros Hx0. rewrite E. destruct (Z.gtb_spec (x + 4096) 4096); [reflexivity | lia].
  - intros -> Hrle. rewrite E. cbn [Z.add Z.gtb Z.compare].
    destruct (Z.eqb_spec rle 0); [contradiction | reflexivity].
  - intros -> -> b cp1 -> Hb. rewrite E. cbn [Z.add Z.gtb Z.compare Z.eqb].
    destruct (Z.eqb_spec (j + 1) b); [congruence | reflexivity].
  - intros -> -> r cp2 ->. rewrite E. cbn [Z.add Z.gtb Z.compare Z.eqb].
    rewrite Z.eqb_refl. reflexivity.
  - intros st' H. rewrite E in H.
    destruct (Z.gtb_spec (x + 4096) 4096) as [|Hle]; [discriminate|].
    assert (Ex : x = 0) by lia. subst x. cbn [Z.add] in H.
    assert (Hfields : forall j' r' c',
      st' = mkRowParser D' syms' j' 4096 r' c' ->
      0 = 0 /\
      fc_F (rp_D st') j = 4096 /\ fc_C (rp_D st') j = 0 /\
      rp_syms st' j = Some (RansDecSymbolInit 0 4096) /\
      (forall s, 0 <= s < 4096 -> R (rp_D st') s = Some (u8 j)) /\
      rp_x st' = 4096).
    { intros j' r' c' ->. unfold D', syms'.
      cbn [rp_D rp_syms rp_x fc_F fc_C R].
      unfold upd. rewrite Z.eqb_refl. repeat split.
      intros s Hs. unfold memset.
      destruct (Z.leb_spec 0 s); [|lia].
      destruct (Z.ltb_spec s (0 + 4096)); [|lia]. reflexivity. }
    destruct (rle =? 0).
    + destruct rest as [|b cp1]; [discriminate|].
      destruct (j + 1 =? b).
      * destruct cp1 as [|r cp2]; [discriminate|].
        injection H as <-. eapply Hfields; reflexivity.
      * injection H as <-. eapply Hfields; reflexivity.
    + injection H as <-. eapply Hfields; reflexivity.
  - intros st' H. rewrite E0 in H.
    destruct (x + 0 >? 4096); [discriminate|].
    assert (Hfield : forall j' x' r' c',
      st' = mkRowParser
              (mkAriDecoder (upd (fc_F D) j 0) (upd (fc_C D) j x)
                 (memset (R D) x j 0))
              (upd syms j (Some (RansDecSymbolInit x 0))) j' x' r' c' ->
      fc_F (rp_D st') j = 0).
    { intros j' x' r' c' ->. cbn [rp_D fc_F]. unfold upd.
      rewrite Z.eqb_refl. reflexivity. }
    destruct (rle =? 0).
    + destruct rest as [|b cp1]; [discriminate|].
      destruct (j + 1 =? b).
      * destruct cp1 as [|r cp2]; [discriminate|].
        injection H as <-. eapply Hfield; reflexivity.
      * injection H as <-. eapply Hfield; reflexivity.
    + injection H as <-. eapply Hfield; reflexivity.
Qed.

(* a row that stores 0x80 0x00 for 'A' and ends there *)
Lemma C10_stored_zero_is_totfreq_witness :
  0 <= 65 < 256 /\ 0 <= 0 /\
  read_freq [128; 0; 0] = Ok (0, [0]) /\
  parse_entry true
    (mkRowParser ari_decoder_zero (fun _ => None) 65 0 0 [128; 0; 0])
    = Ok (mkRowParser
            (mkAriDecoder (upd (fc_F ari_decoder_zero) 65 TOTFREQ)
               (upd (fc_C ari_decoder_zero) 65 0)
               (memset (R ari_decoder_zero) 0 65 TOTFREQ))
            (upd (fun _ => None) 65 (Some (RansDecSymbolInit 0 TOTFREQ)))
            0 TOTFREQ 0 []).
Proof.
  assert (H1 : 0 <= 65 < 256) by lia.
  assert (H2 : 0 <= 0) by lia.
  assert (H3 : read_freq [128; 0; 0] = Ok (0, [0])) by reflexivity.
  assert (H4 : 0 <> 65 + 1) by lia.
  destruct (C10_stored_zero_is_totfreq ari_decoder_zero (fun _ => None)
              65 0 0 [128; 0; 0] [0] H1 H2 H3)
    as (_ & _ & _ & _ & _ & Hret & _).
  split; [exact H1|]. split; [exact H2|]. split; [exact H3|].
  exact (Hret eq_refl eq_refl 0 [] eq_refl H4).
Defined.

(* ===================================================================== *)
(** * The normalised rows                                                  *)
(* ===================================================================== *)

Lemma norm_step_O1_value : forall p j st st',
  norm_step_O1 p j st = Ok st' ->
  norm_entry_O1 p (nm_F st j) = Some (nm_F st' j) /\
  (forall k, k <> j -> nm_F st' k = nm_F st k).
Proof.
  intros p j st st' H. unfold norm_step_O1 in H. unfold norm_entry_O1.
  destruct (Z.eqb_spec (nm_F st j) 0) as [E | E].
  - injection H as <-. rewrite E. split; [reflexivity | auto].
  - destruct (if nm_m st <? nm_F st j then (nm_F st j, j) else (nm_m st, nm_M st))
      as [m M].
    apply bind_ok in H. destruct H as (f & Hf & H).
    apply of_option_ok in Hf. rewrite Hf.
    apply bind_ok in H. destruct H as (t2 & _ & H).
    injection H as <-. cbn [nm_F]. unfold upd. rewrite Z.eqb_refl.
    split; [reflexivity|].
    intros k Hk. destruct (Z.eqb_spec k j); [contradiction | reflexivity].
Qed.

Lemma norm_loop_O1_values : forall p n j st st',
  for_each (norm_step_O1 p) (zrange j n) st = Ok st' ->
  (forall k, j <= k < j + Z.of_nat n ->
     norm_entry_O1 p (nm_F st k) = Some (nm_F st' k)) /\
  (forall k, ~ (j <= k < j + Z.of_nat n) -> nm_F st' k = nm_F st k).
Proof.
  intros p n. induction n as [|n IH]; intros j st st' H.
  - cbn in H. injection H as <-. split; [intros; lia | reflexivity].
  - rewrite zrange_S in H. cbn [for_each] in H.
    apply bind_ok in H. destruct H as (st1 & Hstep & Hloop).
    destruct (norm_step_O1_value _ _ _ _ Hstep) as (Hv & Ho).
    destruct (IH (j + 1) st1 st' Hloop) as (IH1 & IH2).
    split.
    + intros k Hk. destruct (Z.eq_dec k j) as [-> | Hne].
      * rewrite IH2 by lia. exact Hv.
      * rewrite <- (Ho k Hne). apply IH1. lia.
    + intros k Hk. rewrite IH2 by lia. apply Ho. lia.
Qed.

(* what the normalisation of a row of rans_compress_O1 computes *)
Lemma normalise_O1_entries : forall Fi t Fi',
  (forall k, 0 <= Fi k) -> 0 <= t ->
  normalise_O1 Fi t = Ok Fi' ->
  let p := double_div (double_of_int TOTFREQ) (double_of_int t) in
  exists M, 0 <= M < 256 /\
    (forall k, 0 <= k < 256 -> k <> M ->
       norm_entry_O1 p (Fi k) = Some (Fi' k)) /\
    cum Fi' 256 = TOTFREQ - 1.
Proof.
  intros Fi t Fi' Hpos Ht H p.
  pose proof H as H'. unfold normalise_O1 in H.
  change (fun j => j <? 256) with (fun j => j <? 0 + Z.of_nat 256) in H.
  rewrite for_loop_up in H by lia.
  apply bind_ok in H. destruct H as (st & Hloop & H).
  apply bind_ok in H. destruct H as (t2 & Ht2 & H).
  injection H as <-.
  apply int_add_ok in Ht2. destruct Ht2 as [Et2 Ht2].
  destruct (norm_loop_O1_values _ _ _ _ _ Hloop) as (Hv & _).
  apply norm_loop_O1 in Hloop.
  2:{ apply double_div_sign; apply double_of_int_sign; [cbn; lia | exact Ht]. }
  2:{ exact Hpos. }
  cbn [nm_F nm_sum nm_M] in Hloop, Hv.
  destruct Hloop as (H1 & H2 & H3 & H4 & H5).
  exists (nm_M st). rewrite adjust_eq.
  assert (HM : 0 <= nm_M st < 256) by lia.
  split; [exact HM|]. split.
  - intros k Hk Hne. unfold upd. destruct (Z.eqb_spec k (nm_M st)); [lia|].
    apply Hv. lia.
  - rewrite cum_256, sumZ_upd by lia. lia.
Qed.

Lemma write_table_keeps : forall T n i st st',
  for_each (write_table_step T) (zrange i n) st = Ok st' ->
  forall k, ~ (i <= k < i + Z.of_nat n) -> tw_F st' k = tw_F st k.
Proof.
  intros T n. induction n as [|n IH]; intros i st st' H k Hk.
  - cbn in H. injection H as <-. reflexivity.
  - rewrite zrange_S in H. cbn [for_each] in H.
    apply bind_ok in H. destruct H as (st1 & Hstep & Hloop).
    rewrite (IH _ _ _ Hloop) by lia.
    rewrite write_table_step_eq in Hstep.
    destruct (T i =? 0); [injection Hstep as <-; reflexivity|].
    apply bind_ok in Hstep. destruct Hstep as (Fi & _ & Hstep).
    apply bind_ok in Hstep. destruct Hstep as ([cp syms_i] & _ & Hstep).
    injection Hstep as <-. cbn [tw_F]. unfold upd.
    destruct (Z.eqb_spec k i); [lia | reflexivity].
Qed.

(* the rows of the table are the normalised rows of the counts *)
Lemma write_table_rows : forall T n i st st',
  for_each (write_table_step T) (zrange i n) st = Ok st' ->
  forall k, i <= k < i + Z.of_nat n -> T k <> 0 ->
    normalise_O1 (tw_F st k) (T k) = Ok (tw_F st' k).
Proof.
  intros T n. induction n as [|n IH]; intros i st st' H k Hk HTk; [lia|].
  rewrite zrange_S in H. cbn [for_each] in H.
  apply bind_ok in H. destruct H as (st1 & Hstep & Hloop).
  pose proof Hstep as Hstep'.
  rewrite write_table_step_eq in Hstep.
  destruct (Z.eq_dec k i) as [-> | Hne].
  - destruct (Z.eqb_spec (T i) 0); [contradiction|].
    apply bind_ok in Hstep. destruct Hstep as (Fi & Hnorm & Hstep).
    apply bind_ok in Hstep. destruct Hstep as ([cp syms_i] & _ & Hstep).
    injection Hstep as <-.
    rewrite (write_table_keeps _ _ _ _ _ Hloop) by lia.
    cbn [tw_F]. unfold upd. rewrite Z.eqb_refl. exact Hnorm.
  - assert (E : tw_F st1 k = tw_F st k).
    { destruct (T i =? 0); [injection Hstep as <-; reflexivity|].
      apply bind_ok in Hstep. destruct Hstep as (Fi & _ & Hstep).
      apply bind_ok in Hstep. destruct Hstep as ([cp syms_i] & _ & Hstep).
      injection Hstep as <-. cbn [tw_F]. unfold upd.
      destruct (Z.eqb_spec k i); [contradiction | reflexivity]. }
    rewrite <- E. apply (IH (i + 1) st1 st' Hloop); [lia | exact HTk].
Qed.

Lemma write_table_normalised : forall F T tw tab,
  write_table F T = Ok (tw, tab) ->
  forall i, 0 <= i < 256 -> T i <> 0 ->
    normalise_O1 (F i) (T i) = Ok (tw_F tw i).
Proof.
  intros F T tw tab H i Hi HTi. unfold write_table in H.
  change (fun i => i <? 256) with (fun i => i <? 0 + Z.of_nat 256) in H.
  rewrite for_loop_up in H by lia.
  apply bind_ok in H. destruct H as (st & Hloop & H).
  injection H as <- _.
  apply (write_table_rows _ _ _ _ _ Hloop i ltac:(lia) HTi).
Qed.

(* the sum of the row a decoder table holds *)
Lemma cum_row_parsed : forall F D dsyms,
  row_parsed F 256 D dsyms -> (forall j, F j = 0 -> fc_F D j = 0) ->
  cum (fc_F D) 256 = cum F 256.
Proof.
  intros F D dsyms Hp Hz. rewrite !cum_256. apply sumZ_ext.
  intros k Hk. destruct (Z.eq_dec (F k) 0) as [E | E].
  - rewrite E. apply Hz, E.
  - apply (Hp k ltac:(lia) E).
Qed.

(** C3.  The normalised frequencies of a row do not sum to TOTFREQ = 4096:
    for the one-byte input [65] the row of rans_compress_O0 sums to 4095. *)
Lemma C3_rows_do_not_sum_to_TOTFREQ :
  exists tr F M frame,
    scale_factor (Z.of_nat (length [65])) = Ok tr /\
    normalise_O0 (count_O0 [65]) tr = Ok (F, M) /\
    rans_compress [65] 0 = Ok frame /\
    cum F 256 = 4095 /\ cum F 256 <> TOTFREQ.
Proof.
  destruct (normalise_O0_spec (count_O0 [65]) (2 ^ 43 / 1 + 2 ^ 30 / 1))
    as (F & M & Hn & _ & _ & _ & Hcum).
  exists (2 ^ 43 / 1 + 2 ^ 30 / 1), F, M. eexists.
  split; [vm_compute; reflexivity|]. split; [exact Hn|].
  split; [vm_compute; reflexivity|].
  rewrite Hcum. change TOTFREQ with 4096. split; lia.
Qed.

(** C3, as the code has it.  For every input on which a compressor returns
    a frame, every row the compressor builds (the one row of order 0, the
    row of every occurring context of order 1) sums, after the adjustment
    of F[M], to TOTFREQ - 1 = 4095, the running sum being incremented once
    before the adjustment; and every row the decompressor parses back from
    the frame sums to 4095. *)
Theorem C3_rows_sum_to_TOTFREQ_minus_1 : forall inp order frame,
  is_bytes inp -> Z.of_nat (length inp) < 2 ^ 31 ->
  rans_compress inp order = Ok frame ->
  if (order =? 0) || (Z.of_nat (length inp) <? 4) then
    exists tr F M row,
      scale_factor (Z.of_nat (length inp)) = Ok tr /\
      normalise_O0 (count_O0 inp) tr = Ok (F, M) /\
      cum F 256 = TOTFREQ - 1 /\
      uncompress_O0 frame = Ok (row, inp) /\
      cum (fc_F (rp_D row)) 256 = TOTFREQ - 1
  else
    exists F T tw tab tp,
      count_O1 inp = Ok (F, T) /\ write_table F T = Ok (tw, tab) /\
      uncompress_O1 frame = Ok (tp, inp) /\
      forall i, 0 <= i < 256 -> T i <> 0 ->
        normalise_O1 (F i) (T i) = Ok (tw_F tw i) /\
        cum (tw_F tw i) 256 = TOTFREQ - 1 /\
        cum (fc_F (tp_D tp i)) 256 = TOTFREQ - 1.
Proof.
  intros inp order frame Hb HN H. rewrite rans_compress_cases in H.
  destruct ((order =? 0) || (Z.of_nat (length inp) <? 4)) eqn:E.
  - destruct (compress_O0_sound inp frame Hb HN H)
      as (tr & F & M & payload & row & _ & Htr & Hn & _ & _ & Hcum & _ & _
          & Hdec & _ & HD).
    exists tr, F, M, row. repeat (split; [assumption|]).
    rewrite <- Hcum, !cum_256. apply sumZ_ext. intros k Hk. rewrite HD.
    destruct (Z.leb_spec 0 k); destruct (Z.ltb_spec k 256); cbn [andb];
      try reflexivity; lia.
  - apply orb_false_iff in E. destruct E as [_ E]. apply Z.ltb_ge in E.
    destruct (compress_O1_sound inp frame ltac:(lia) H)
      as (F & T & tw & payload & tp & Hcount & _ & Htab & Hrows & _ & _ & _
          & Hdec & Hparsed).
    exists F, T, tw, (tab_from 256 T (tw_F tw) 0 0), tp.
    split; [exact Hcount|]. split; [exact Htab|]. split; [exact Hdec|].
    intros i Hi HTi.
    destruct (Hrows i Hi HTi) as (_ & Hcum).
    destruct (Hparsed i Hi HTi) as (Hp & Hz).
    split; [apply (write_table_normalised _ _ _ _ Htab i Hi HTi)|].
    split; [exact Hcum|].
    rewrite (cum_row_parsed _ _ _ Hp Hz). exact Hcum.
Qed.

Lemma C3_rows_sum_to_TOTFREQ_minus_1_witness :
  exists frame,
    is_bytes ctx_input /\ Z.of_nat (length ctx_input) < 2 ^ 31 /\
    rans_compress ctx_input 1 = Ok frame /\
    exists F T tw tab tp,
      count_O1 ctx_input = Ok (F, T) /\ write_table F T = Ok (tw, tab) /\
      uncompress_O1 frame = Ok (tp, ctx_input) /\
      forall i, 0 <= i < 256 -> T i <> 0 ->
        normalise_O1 (F i) (T i) = Ok (tw_F tw i) /\
        cum (tw_F tw i) 256 = TOTFREQ - 1 /\
        cum (fc_F (tp_D tp i)) 256 = TOTFREQ - 1.
Proof.
  eexists.
  assert (H1 : is_bytes ctx_input)
    by (unfold is_bytes, ctx_input; repeat (constructor; [lia|]); constructor).
  assert (H2 : Z.of_nat (length ctx_input) < 2 ^ 31) by (vm_compute; reflexivity).
  split; [exact H1|]. split; [exact H2|].
  assert (H3 : rans_compress ctx_input 1 = Ok ?[frame])
    by (vm_compute; reflexivity).
  split; [exact H3|].
  exact (C3_rows_sum_to_TOTFREQ_minus_1 ctx_input 1 _ H1 H2 H3).
Defined.

(* ===================================================================== *)
(** * The counts of a context and its most frequent symbol                  *)
(* ===================================================================== *)

Lemma sumZ_zero : forall n lo, sumZ (fun _ => 0) lo n = 0.
Proof.
  induction n as [|n IH]; intros lo; [reflexivity|].
  rewrite sumZ_S, IH. reflexivity.
Qed.

Lemma sumZ_upd2_same : forall (F : Z -> Z -> Z) i c v,
  0 <= c < 256 ->
  sumZ (upd2 F i c v i) 0 256 = sumZ (F i) 0 256 + v - F i c.
Proof.
  intros F i c v Hc. unfold upd2.
  assert (E : upd F i (upd (F i) c v) i = upd (F i) c v)
    by (unfold upd at 1; rewrite Z.eqb_refl; reflexivity).
  rewrite E. apply sumZ_upd. lia.
Qed.

Lemma upd2_other : forall (F : Z -> Z -> Z) i c v k,
  k <> i -> upd2 F i c v k = F k.
Proof.
  intros F i c v k Hk. unfold upd2, upd.
  destruct (Z.eqb_spec k i); [contradiction | reflexivity].
Qed.

(* between two rounds of the counting loop of rans_compress_O1 *)
Lemma count_fold_O1_rows : forall inp st,
  is_bytes inp ->
  (forall i, co_T st i = sumZ (co_F st i) 0 256) ->
  forall i, co_T (fold_left count_step_O1 inp st) i
            = sumZ (co_F (fold_left count_step_O1 inp st) i) 0 256.
Proof.
  induction inp as [|c inp IH]; intros st Hb Hinv; cbn [fold_left]; [exact Hinv|].
  inversion Hb as [|? ? Hc Hb']; subst.
  apply IH; [exact Hb'|]. intros i. unfold count_step_O1. cbn [co_F co_T].
  destruct (Z.eq_dec i (co_last st)) as [-> | Hne].
  - rewrite sumZ_upd2_same by lia. unfold upd. rewrite Z.eqb_refl.
    rewrite Hinv. lia.
  - rewrite upd2_other by exact Hne. unfold upd.
    destruct (Z.eqb_spec i (co_last st)); [contradiction|]. apply Hinv.
Qed.

Lemma rd_byte : forall inp i c,
  is_bytes inp -> rd inp i = Ok c -> 0 <= c < 256.
Proof.
  intros inp i c Hb H. unfold rd in H. destruct (i <? 0); [discriminate|].
  destruct (nth_error inp (Z.to_nat i)) as [b|] eqn:E; [|discriminate].
  injection H as <-. unfold is_bytes in Hb. rewrite Forall_forall in Hb.
  apply Hb. eapply nth_error_In. exact E.
Qed.

Lemma count_O1_row_sums : forall inp F T,
  is_bytes inp -> count_O1 inp = Ok (F, T) ->
  forall i, T i = sumZ (F i) 0 256.
Proof.
  intros inp F T Hb H i. unfold count_O1 in H.
  apply bind_ok in H. destruct H as (c1 & H1 & H).
  apply bind_ok in H. destruct H as (c2 & H2 & H).
  apply bind_ok in H. destruct H as (c3 & H3 & H).
  injection H as <- <-.
  pose proof (rd_byte _ _ _ Hb H1) as B1.
  pose proof (rd_byte _ _ _ Hb H2) as B2.
  pose proof (rd_byte _ _ _ Hb H3) as B3.
  pose proof (count_fold_O1_rows inp
                (mkCounterO1 (fun _ _ => 0) (fun _ => 0) 0) Hb) as Hinv.
  cbn [co_F co_T] in Hinv.
  specialize (Hinv ltac:(intros; rewrite sumZ_zero; reflexivity)).
  set (st := fold_left count_step_O1 inp _) in *.
  destruct (Z.eq_dec i 0) as [-> | Hne].
  - rewrite !sumZ_upd2_same by lia. unfold upd at 1. cbn [Z.eqb].
    rewrite Hinv. lia.
  - rewrite !upd2_other by exact Hne. unfold upd.
    destruct (Z.eqb_spec i 0); [contradiction|]. apply Hinv.
Qed.

(* m and M of the normalisation loop: the first largest count *)
Lemma norm_step_O1_max : forall p j st st',
  norm_step_O1 p j st = Ok st' ->
  (forall k, k <> j -> nm_F st' k = nm_F st k) /\
  ((nm_m st < nm_F st j /\ nm_F st j <> 0 /\
    nm_m st' = nm_F st j /\ nm_M st' = j) \/
   ((nm_F st j <= nm_m st \/ nm_F st j = 0) /\
    nm_m st' = nm_m st /\ nm_M st' = nm_M st)).
Proof.
  intros p j st st' H.
  split; [exact (proj2 (norm_step_O1_value _ _ _ _ H))|].
  unfold norm_step_O1 in H.
  destruct (Z.eqb_spec (nm_F st j) 0) as [E | E].
  - assert (E' : st' = st) by congruence. subst st'. right. auto.
  - destruct (Z.ltb_spec (nm_m st) (nm_F st j)) as [Hlt | Hge].
    + apply bind_ok in H. destruct H as (f & _ & H).
      apply bind_ok in H. destruct H as (t2 & _ & H).
      assert (E' : st' = mkNormaliser
                           (upd (nm_F st) j (if f =? 0 then 1 else f))
                           (nm_F st j) j t2) by congruence.
      subst st'. left. cbn [nm_m nm_M]. auto.
    + apply bind_ok in H. destruct H as (f & _ & H).
      apply bind_ok in H. destruct H as (t2 & _ & H).
      assert (E' : st' = mkNormaliser
                           (upd (nm_F st) j (if f =? 0 then 1 else f))
                           (nm_m st) (nm_M st) t2) by congruence.
      subst st'. right. cbn [nm_m nm_M]. auto.
Qed.

Lemma norm_loop_O1_max : forall p n j st st',
  for_each (norm_step_O1 p) (zrange j n) st = Ok st' ->
  0 <= nm_m st ->
  (forall k, j <= k < j + Z.of_nat n -> 0 <= nm_F st k) ->
  nm_m st <= nm_m st' /\
  (forall k, j <= k < j + Z.of_nat n -> nm_F st k <= nm_m st') /\
  ((nm_m st' = nm_m st /\ nm_M st' = nm_M st) \/
   (j <= nm_M st' < j + Z.of_nat n /\ nm_m st' = nm_F st (nm_M st') /\
    nm_m st < nm_m st' /\
    forall k, j <= k < nm_M st' -> nm_F st k < nm_m st')).
Proof.
  intros p n. induction n as [|n IH]; intros j st st' H Hm Hpos.
  - cbn in H. assert (E : st' = st) by congruence. subst st'.
    split; [lia|]. split; [intros; lia | left; auto].
  - rewrite zrange_S in H. cbn [for_each] in H.
    apply bind_ok in H. destruct H as (st1 & Hstep & Hloop).
    destruct (norm_step_O1_max _ _ _ _ Hstep) as (Ho & Hcase).
    assert (Hm1 : 0 <= nm_m st1)
      by (destruct Hcase as [(? & ? & ? & ?) | (? & ? & ?)]; lia).
    destruct (IH (j + 1) st1 st' Hloop Hm1) as (I1 & I2 & I3).
    { intros k Hk. rewrite Ho by lia. apply Hpos. lia. }
    assert (I2' : forall k, j + 1 <= k < j + Z.of_nat (S n) ->
                            nm_F st k <= nm_m st').
    { intros k Hk. rewrite <- (Ho k) by lia. apply I2. lia. }
    destruct Hcase as [(Hlt & Hne & Em & EM) | (Hle & Em & EM)].
    + split; [lia|]. split.
      { intros k Hk. destruct (Z.eq_dec k j) as [-> | Hkj]; [lia|].
        apply I2'. lia. }
      right. destruct I3 as [(E1 & E2) | (J1 & J2 & J3 & J4)].
      * rewrite E1, E2, EM, Em. split; [lia|]. split; [reflexivity|].
        split; [lia|]. intros k Hk. lia.
      * split; [lia|]. split; [rewrite J2; apply Ho; lia|].
        split; [lia|]. intros k Hk.
        destruct (Z.eq_dec k j) as [-> | Hkj]; [lia|].
        rewrite <- (Ho k) by lia. apply J4. lia.
    + assert (Hj : nm_F st j <= nm_m st) by (destruct Hle; lia).
      split; [lia|]. split.
      { intros k Hk. destruct (Z.eq_dec k j) as [-> | Hkj]; [lia|].
        apply I2'. lia. }
      destruct I3 as [(E1 & E2) | (J1 & J2 & J3 & J4)].
      * left. split; congruence.
      * right. split; [lia|]. split; [rewrite J2; apply Ho; lia|].
        split; [lia|]. intros k Hk.
        destruct (Z.eq_dec k j) as [-> | Hkj]; [lia|].
        rewrite <- (Ho k) by lia. apply J4. lia.
Qed.

(* the normalisation of a row that is not empty: M is the first symbol
   with the largest count, every count is scaled, and the entry of M is
   adjusted *)
Lemma normalise_O1_first_max : forall Fi t Fi',
  (forall k, 0 <= Fi k) -> 0 <= t ->
  (exists j, 0 <= j < 256 /\ Fi j <> 0) ->
  normalise_O1 Fi t = Ok Fi' ->
  let p := double_div (double_of_int TOTFREQ) (double_of_int t) in
  exists M, 0 <= M < 256 /\
    0 < Fi M /\
    (forall j, 0 <= j < 256 -> Fi j <= Fi M) /\
    (forall j, 0 <= j < M -> Fi j < Fi M) /\
    (forall j, 0 <= j < 256 -> j <> M ->
       norm_entry_O1 p (Fi j) = Some (Fi' j)) /\
    (exists fM, norm_entry_O1 p (Fi M) = Some fM) /\
    cum Fi' 256 = TOTFREQ - 1.
Proof.
  intros Fi t Fi' Hpos Ht (j0 & Hj0 & Hne0) H p.
  unfold normalise_O1 in H.
  change (fun j => j <? 256) with (fun j => j <? 0 + Z.of_nat 256) in H.
  rewrite for_loop_up in H by lia.
  apply bind_ok in H. destruct H as (st & Hloop & H).
  apply bind_ok in H. destruct H as (t2 & Ht2 & H).
  assert (EF : Fi' = adjust st t2) by congruence. subst Fi'.
  apply int_add_ok in Ht2. destruct Ht2 as [Et2 Ht2].
  destruct (norm_loop_O1_values _ _ _ _ _ Hloop) as (Hv & _).
  destruct (norm_loop_O1_max _ _ _ _ _ Hloop) as (_ & Hmax & Hcase);
    [cbn; lia | intros; apply Hpos |].
  apply norm_loop_O1 in Hloop.
  2:{ apply double_div_sign; apply double_of_int_sign; [cbn; lia | exact Ht]. }
  2:{ exact Hpos. }
  cbn [nm_F nm_sum nm_M nm_m] in Hloop, Hv, Hmax, Hcase.
  destruct Hloop as (H1 & H2 & H3 & H4 & H5).
  destruct Hcase as [(E1 & _) | (J1 & J2 & J3 & J4)].
  { specialize (Hmax j0 ltac:(lia)). specialize (Hpos j0). lia. }
  exists (nm_M st). rewrite adjust_eq.
  split; [lia|]. split; [lia|].
  split; [intros j Hj; rewrite <- J2; apply Hmax; lia|].
  split; [intros j Hj; rewrite <- J2; apply J4; lia|].
  split.
  { intros k Hk Hne. unfold upd. destruct (Z.eqb_spec k (nm_M st)); [lia|].
    apply Hv. lia. }
  split; [exists (nm_F st (nm_M st)); apply Hv; lia|].
  rewrite cum_256, sumZ_upd by lia. lia.
Qed.

(** C7.  rans_compress_O1 does not normalise a row with the multiplier tr
    of rans_compress_O0.  In [ctx_input] context 1 occurs T[1] = 11 times
    and is followed 5 times by symbol 2: the stored frequency is
    (int)(5 * (4096.0 / 11)) = 1861, where (5 * tr) >> 31 for
    tr = (2^12 << 31) / 11 + (1 << 30) / 11 is 1862. *)
Lemma C7_order1_row_differs :
  exists F T tw tab tr Fs M,
    count_O1 ctx_input = Ok (F, T) /\ write_table F T = Ok (tw, tab) /\
    T 1 = 11 /\ F 1 2 = 5 /\
    scale_factor (T 1) = Ok tr /\ normalise_O0 (F 1) tr = Ok (Fs, M) /\
    norm_O0 tr (F 1 2) = 1862 /\ Fs 2 = 1862 /\
    tw_F tw 1 2 = 1861.
Proof.
  assert (E0 : match count_O1 ctx_input with
               | Ok (F, T) =>
                   match write_table F T with Ok _ => true | _ => false end
               | _ => false
               end = true) by (vm_compute; reflexivity).
  destruct (count_O1 ctx_input) as [[F T]| | |] eqn:Hc; try discriminate E0.
  destruct (write_table F T) as [[tw tab]| | |] eqn:Hw; try discriminate E0.
  clear E0.
  destruct (normalise_O0_spec (F 1) (2 ^ 43 / 11 + 2 ^ 30 / 11))
    as (Fs & M & Hn & _).
  assert (E : match count_O1 ctx_input with
              | Ok (F, T) =>
                  match write_table F T,
                        normalise_O0 (F 1) (2 ^ 43 / 11 + 2 ^ 30 / 11) with
                  | Ok (tw, _), Ok (Fs, _) =>
                      (T 1, F 1 2, Fs 2, tw_F tw 1 2)
                  | _, _ => (0, 0, 0, 0)
                  end
              | _ => (0, 0, 0, 0)
              end = (11, 5, 1862, 1861)) by (vm_compute; reflexivity).
  rewrite Hc, Hw, Hn in E. injection E as E1 E2 E3 E4.
  exists F, T, tw, tab, (2 ^ 43 / 11 + 2 ^ 30 / 11), Fs, M.
  split; [reflexivity|]. split; [exact Hw|].
  split; [exact E1|]. split; [exact E2|].
  split; [rewrite E1; vm_compute; reflexivity|]. split; [exact Hn|].
  split; [rewrite E2; vm_compute; reflexivity|]. split; [exact E3 | exact E4].
Qed.

(** C7, as the code has it.  rans_compress_O1 normalises the row of every
    occurring context i on its own, in double precision: with
    p = (double)TOTFREQ / T[i], every nonzero count F is mapped to
    (int)(F * p), truncated, or to 1 when that is 0.  M is the most
    frequent symbol of the row, the first one when several are: its count
    is scaled like the others, and its entry then takes up the difference
    to TOTFREQ - 1. *)
Theorem C7_order1_rows_are_scaled_in_double : forall inp F T tw tab i,
  is_bytes inp ->
  count_O1 inp = Ok (F, T) -> write_table F T = Ok (tw, tab) ->
  0 <= i < 256 -> T i <> 0 ->
  let p := double_div (double_of_int TOTFREQ) (double_of_int (T i)) in
  normalise_O1 (F i) (T i) = Ok (tw_F tw i) /\
  exists M, 0 <= M < 256 /\
    0 < F i M /\
    (forall j, 0 <= j < 256 -> F i j <= F i M) /\
    (forall j, 0 <= j < M -> F i j < F i M) /\
    (forall j, 0 <= j < 256 -> j <> M ->
       norm_entry_O1 p (F i j) = Some (tw_F tw i j)) /\
    (exists fM, norm_entry_O1 p (F i M) = Some fM) /\
    cum (tw_F tw i) 256 = TOTFREQ - 1.
Proof.
  intros inp F T tw tab i Hb Hc Hw Hi HTi p.
  destruct (count_O1_nonneg _ _ _ Hc) as (HF & HT & _).
  pose proof (write_table_normalised _ _ _ _ Hw i Hi HTi) as Hn.
  split; [exact Hn|].
  apply (normalise_O1_first_max (F i) (T i) (tw_F tw i)
           ltac:(intros k; apply HF) (HT i)); [|exact Hn].
  destruct (sumZ_positive (F i) 0 256) as (j & Hj & Hne).
  { rewrite <- (count_O1_row_sums _ _ _ Hb Hc i). specialize (HT i). lia. }
  exists j. split; [lia | exact Hne].
Qed.

Lemma C7_order1_rows_are_scaled_in_double_witness :
  exists F T tw tab,
    is_bytes ctx_input /\
    count_O1 ctx_input = Ok (F, T) /\ write_table F T = Ok (tw, tab) /\
    0 <= 1 < 256 /\ T 1 <> 0 /\
    normalise_O1 (F 1) (T 1) = Ok (tw_F tw 1) /\
    exists M, 0 <= M < 256 /\
      0 < F 1 M /\
      (forall j, 0 <= j < 256 -> F 1 j <= F 1 M) /\
      (forall j, 0 <= j < M -> F 1 j < F 1 M) /\
      (forall j, 0 <= j < 256 -> j <> M ->
         norm_entry_O1 (double_div (double_of_int TOTFREQ) (double_of_int (T 1)))
           (F 1 j) = Some (tw_F tw 1 j)) /\
      (exists fM,
         norm_entry_O1 (double_div (double_of_int TOTFREQ) (double_of_int (T 1)))
           (F 1 M) = Some fM) /\
      cum (tw_F tw 1) 256 = TOTFREQ - 1.
Proof.
  assert (E0 : match count_O1 ctx_input with
               | Ok (F, T) =>
                   match write_table F T with Ok _ => true | _ => false end
               | _ => false
               end = true) by (vm_compute; reflexivity).
  assert (E1 : match count_O1 ctx_input with
               | Ok (_, T) => T 1
               | _ => 0
               end = 11) by (vm_compute; reflexivity).
  destruct (count_O1 ctx_input) as [[F T]| | |] eqn:H1; try discriminate E0.
  destruct (write_table F T) as [[tw tab]| | |] eqn:H2; try discriminate E0.
  exists F, T, tw, tab.
  assert (H0 : is_bytes ctx_input)
    by (unfold is_bytes, ctx_input; repeat (constructor; [lia|]); constructor).
  assert (H3 : 0 <= 1 < 256) by lia.
  assert (H4 : T 1 <> 0) by (rewrite E1; lia).
  split; [exact H0|]. split; [reflexivity|]. split; [exact H2|].
  split; [exact H3|]. split; [exact H4|].
  exact (C7_order1_rows_are_scaled_in_double ctx_input F T tw tab 1
           H0 H1 H2 H3 H4).
Defined.

(* ===================================================================== *)
(** * The order of the coding steps of order 0                             *)
(* ===================================================================== *)

Lemma run_ops_app : forall {St : Type} (step : lane -> Z -> St -> result St)
  ops1 ops2 st,
  run_ops step (ops1 ++ ops2) st
  = (st' <- run_ops step ops1 st ;; run_ops step ops2 st').
Proof.
  intros St step ops1. induction ops1 as [|[k i] ops1 IH]; intros ops2 st;
    cbn [app run_ops bind]; [reflexivity|].
  destruct (step k i st); cbn [bind]; auto.
Qed.

Lemma bind_assoc : forall {A B C : Type} (r : result A) (f : A -> result B)
  (g : B -> result C),
  bind (bind r f) g = bind r (fun a => bind (f a) g).
Proof. intros A B C [a| | |] f g; reflexivity. Qed.

Lemma bind_ret : forall {A : Type} (r : result A), bind r (fun a => Ok a) = r.
Proof. intros A [a| | |]; reflexivity. Qed.

Lemma bind_ext : forall {A B : Type} (r : result A) (f g : A -> result B),
  (forall a, f a = g a) -> bind r f = bind r g.
Proof. intros A B [a| | |] f g H; cbn [bind]; auto. Qed.

Section OrderO0.
Context {St : Type}.
Variable put : lane -> Z -> St -> result St.

Lemma enc_block_O0_ops : forall i st,
  enc_block_O0 put i st
  = run_ops put [(L3, i - 1); (L2, i - 2); (L1, i - 3); (L0, i - 4)] st.
Proof.
  intros i st. unfold enc_block_O0. cbn [run_ops].
  apply bind_ext; intros s3. apply bind_ext; intros s2.
  apply bind_ext; intros s1. rewrite bind_ret. reflexivity.
Qed.

Lemma enc_main_O0_ops : forall js st,
  for_each (enc_block_O0 put) js st
  = run_ops put
      (flat_map (fun i => [(L3, i - 1); (L2, i - 2); (L1, i - 3); (L0, i - 4)]) js)
      st.
Proof.
  induction js as [|i js IH]; intros st; [reflexivity|].
  cbn [for_each flat_map]. rewrite run_ops_app, <- enc_block_O0_ops.
  apply bind_ext. exact IH.
Qed.

Lemma enc_tail_O0_ops : forall N st,
  0 <= N -> enc_tail_O0 put N st = run_ops put (tail_ops N) st.
Proof.
  intros N st HN. unfold enc_tail_O0, tail_ops. rewrite land_3. cbv zeta.
  pose proof (Z.mod_pos_bound N 4 ltac:(lia)) as Hmb.
  assert (Hcases : N mod 4 = 0 \/ N mod 4 = 1 \/ N mod 4 = 2 \/ N mod 4 = 3) by lia.
  destruct Hcases as [E | [E | [E | E]]]; rewrite E;
    cbn [Z.eqb Z.leb Z.compare Pos.eqb Pos.compare Pos.compare_cont orb app
         run_ops bind].
  - reflexivity.
  - replace (N - (1 - 0)) with (N - 1) by lia. rewrite bind_ret. reflexivity.
  - replace (N - (2 - 1)) with (N - 2 + 1) by lia.
    replace (N - (2 - 0)) with (N - 2) by lia.
    apply bind_ext; intros s. rewrite bind_ret. reflexivity.
  - replace (N - (3 - 2)) with (N - 3 + 2) by lia.
    replace (N - (3 - 1)) with (N - 3 + 1) by lia.
    replace (N - (3 - 0)) with (N - 3) by lia.
    apply bind_ext; intros s2. apply bind_ext; intros s1.
    rewrite bind_ret. reflexivity.
Qed.
End OrderO0.

(** C8.  The steps for the N mod 4 trailing symbols do not come after the
    main loop of the encoder: for N = 5 the first step of rans_compress_O0
    is the one for position 4 on lane 0, and the main loop follows. *)
Lemma C8_tail_is_not_encoded_last :
  enc_order_O0 log_step 5 [] = Ok ((L0, 4) :: main_ops 5) /\
  enc_order_O0 log_step 5 [] <> Ok (main_ops 5 ++ [(L0, 4)]).
Proof.
  split; [vm_compute; reflexivity|]. vm_compute. discriminate.
Qed.

(** C8, as the code has it.  rans_compress_O0 encodes the r = N mod 4
    trailing symbols first, before its main backward loop, position
    N - r + k on lane k, the highest position first; rans_uncompress_O0
    decodes them last, after its main forward loop, position N - r + k on
    lane k, the lowest position first. *)
Theorem C8_tail_is_encoded_first :
  forall (St : Type) (put one : lane -> Z -> St -> result St)
         (blk : Z -> St -> result St) (N : Z) (st : St),
  0 <= N ->
  enc_order_O0 put N st = run_ops put (tail_ops N ++ main_ops N) st /\
  dec_order_O0 blk one N st
  = (st' <- for_each blk (zup 0 4 (Z.to_nat (N / 4))) st ;;
     run_ops one (rev (tail_ops N)) st').
Proof.
  intros St put one blk N st HN.
  pose proof (Z.div_mod N 4 ltac:(lia)) as Hdm.
  pose proof (Z.mod_pos_bound N 4 ltac:(lia)) as Hmb.
  assert (Hq0 : 0 <= N / 4) by (apply Z.div_pos; lia).
  split.
  - unfold enc_order_O0. rewrite run_ops_app, enc_tail_O0_ops by exact HN.
    apply bind_ext; intros s. rewrite land_not3.
    rewrite (for_loop_down _ _ 4 0 _ (Z.to_nat (N / 4))) by lia.
    unfold main_ops. apply enc_main_O0_ops.
  - unfold dec_order_O0. rewrite land_not3, land_3.
    rewrite (for_loop_up_by _ _ 4 0 _ (Z.to_nat (N / 4))) by lia.
    apply bind_ext; intros s. unfold tail_ops. cbv zeta.
    assert (Hcases : N mod 4 = 0 \/ N mod 4 = 1 \/ N mod 4 = 2 \/ N mod 4 = 3) by lia.
    replace (4 * (N / 4)) with (N - N mod 4) by lia.
    destruct Hcases as [E | [E | [E | E]]]; rewrite E;
      cbn [Z.eqb Z.leb Z.compare Pos.eqb Pos.compare Pos.compare_cont app rev
           run_ops bind].
    + reflexivity.
    + rewrite bind_ret. reflexivity.
    + apply bind_ext; intros s0. rewrite bind_ret. reflexivity.
    + apply bind_ext; intros s0. apply bind_ext; intros s1.
      rewrite bind_ret. reflexivity.
Qed.

Lemma C8_tail_is_encoded_first_witness :
  0 <= 7 /\
  enc_order_O0 log_step 7 []
  = run_ops log_step (tail_ops 7 ++ main_ops 7) [] /\
  dec_order_O0 (fun i => run_ops log_step [(L0, i); (L1, i + 1); (L2, i + 2); (L3, i + 3)])
    log_step 7 []
  = (st' <- for_each
              (fun i => run_ops log_step [(L0, i); (L1, i + 1); (L2, i + 2); (L3, i + 3)])
              (zup 0 4 (Z.to_nat (7 / 4))) [] ;;
     run_ops log_step (rev (tail_ops 7)) st').
Proof.
  assert (H : 0 <= 7) by lia.
  split; [exact H|].
  exact (C8_tail_is_encoded_first _ log_step log_step _ 7 [] H).
Defined.

(* ===================================================================== *)
(** * The header of a frame                                                *)
(* ===================================================================== *)

Lemma le32_sum : forall v, 0 <= v < 2 ^ 32 ->
  v mod 256 + 2 ^ 8 * (v / 2 ^ 8 mod 256) + 2 ^ 16 * (v / 2 ^ 16 mod 256)
    + 2 ^ 24 * (v / 2 ^ 24 mod 256) = v.
Proof.
  intros v Hv.
  change (2 ^ 8) with 256. change (2 ^ 16) with (256 * 256).
  change (2 ^ 24) with (256 * 256 * 256).
  change (2 ^ 32) with 4294967296 in Hv.
  rewrite <- !Z.div_div by lia.
  pose proof (Z.div_mod v 256 ltac:(lia)).
  pose proof (Z.div_mod (v / 256) 256 ltac:(lia)).
  pose proof (Z.div_mod (v / 256 / 256) 256 ltac:(lia)).
  pose proof (Z.mod_pos_bound v 256 ltac:(lia)).
  pose proof (Z.mod_pos_bound (v / 256) 256 ltac:(lia)).
  pose proof (Z.mod_pos_bound (v / 256 / 256) 256 ltac:(lia)).
  assert (0 <= v / 256 / 256 / 256 < 256).
  { split; [repeat apply Z.div_pos; lia|].
    repeat (apply Z.div_lt_upper_bound; [lia|]). lia. }
  rewrite (Z.mod_small (v / 256 / 256 / 256)) by lia.
  lia.
Qed.

Lemma uint32_at_le32 : forall v pre l,
  0 <= v < 2 ^ 32 ->
  uint32_at (pre ++ le32 v ++ l) (Z.of_nat (length pre)) = Ok v.
Proof.
  intros v pre l Hv.
  assert (Hrd : forall k b0 b1 b2 b3 : Z, 0 <= k ->
    rd (pre ++ b0 :: b1 :: b2 :: b3 :: l) (Z.of_nat (length pre) + k) =
    rd (b0 :: b1 :: b2 :: b3 :: l) k).
  { intros k b0 b1 b2 b3 Hk. induction pre as [|p pre IH]; cbn [length app].
    - f_equal; lia.
    - rewrite rd_cons by lia. rewrite <- IH. f_equal; lia. }
  unfold uint32_at, le32. cbn [app].
  rewrite <- (Z.add_0_r (Z.of_nat (length pre))) at 1.
  rewrite !Hrd by lia. rewrite rd_0. cbn [bind].
  rewrite rd_cons, rd_0 by lia. cbn [bind].
  rewrite rd_cons, rd_cons, rd_0 by lia. cbn [bind].
  rewrite rd_cons, rd_cons, rd_cons, rd_0 by lia. cbn [bind].
  rewrite !land_255, !Z.shiftr_div_pow2 by lia.
  change (2 ^ 0) with 1. rewrite Z.div_1_r.
  rewrite le32_sum by exact Hv. reflexivity.
Qed.

(* the nine bytes in front of the table *)
Lemma make_frame_header : forall order N tab payload,
  0 <= N < 2 ^ 32 ->
  Z.of_nat (length tab) + Z.of_nat (length payload) + 9 < 2 ^ 32 ->
  let frame := make_frame order N tab payload in
  rd frame 0 = Ok order /\
  uint32_at frame 1 = Ok (Z.of_nat (length frame) - 9) /\
  uint32_at frame 5 = Ok N.
Proof.
  intros order N tab payload HN Hlen frame. unfold frame.
  rewrite make_frame_length. unfold make_frame.
  set (v := u32 (u32 (Z.of_nat (length payload) + (9 + Z.of_nat (length tab))) - 9)).
  assert (Ev : v = Z.of_nat (9 + length tab + length payload) - 9).
  { unfold v. rewrite (u32_small (_ + _)) by lia. rewrite u32_small by lia. lia. }
  assert (Hv : 0 <= v < 2 ^ 32) by apply u32_range.
  split; [apply rd_0|]. split.
  - change 1 with (Z.of_nat (length [order])) at 1.
    change (order :: le32 v ++ le32 N ++ tab ++ payload)
      with ([order] ++ le32 v ++ (le32 N ++ tab ++ payload)).
    rewrite uint32_at_le32 by exact Hv. rewrite Ev. reflexivity.
  - change (order :: le32 v ++ le32 N ++ tab ++ payload)
      with ((order :: le32 v) ++ le32 N ++ (tab ++ payload)).
    change 5 with (Z.of_nat (length (order :: le32 v))).
    apply uint32_at_le32. exact HN.
Qed.

(** C9.  In every frame a compressor returns, byte 0 is the order of the
    coder that wrote it (0 for rans_compress_O0, to which order 1 falls
    back below four bytes, 1 for rans_compress_O1), the little-endian
    uint32 at frame[1..5] is the length of the frame less 9, and the one
    at frame[5..9] is the length of what rans_uncompress returns for the
    frame, which is the length of the input. *)
Theorem C9_frame_header : forall inp order frame,
  is_bytes inp -> Z.of_nat (length inp) < 2 ^ 31 ->
  rans_compress inp order = Ok frame ->
  rd frame 0
    = Ok (if (order =? 0) || (Z.of_nat (length inp) <? 4) then 0 else 1) /\
  uint32_at frame 1 = Ok (Z.of_nat (length frame) - 9) /\
  exists out,
    rans_uncompress frame = Ok out /\
    uint32_at frame 5 = Ok (Z.of_nat (length out)) /\
    length out = length inp.
Proof.
  intros inp order frame Hb HN H.
  pose proof (round_trip inp order frame Hb HN H) as Hrt.
  rewrite rans_compress_cases in H.
  change (2 ^ 31) with 2147483648 in HN.
  destruct ((order =? 0) || (Z.of_nat (length inp) <? 4)) eqn:E.
  - destruct (compress_O0_sound inp frame Hb ltac:(assumption) H)
      as (tr & F & M & payload & row & _ & _ & _ & _ & _ & _ & Hf & Hlen & _).
    pose proof (row_from_length 256 F 0 0) as Htab.
    generalize dependent (row_from 256 F 0 0). intros tab Hf Htab. subst frame.
    destruct (make_frame_header 0 (Z.of_nat (length inp)) tab payload)
      as (H0 & H1 & H5);
      [change (2 ^ 32) with 4294967296; lia
      |change (2 ^ 32) with 4294967296; lia|].
    split; [exact H0|]. split; [exact H1|].
    exists inp. split; [exact Hrt|]. split; [exact H5 | reflexivity].
  - apply orb_false_iff in E. destruct E as [_ E]. apply Z.ltb_ge in E.
    destruct (compress_O1_sound inp frame ltac:(lia) H)
      as (F & T & tw & payload & tp & _ & _ & _ & _ & Htab & Hf & Hlen & _).
    generalize dependent (tab_from 256 T (tw_F tw) 0 0). intros tab Htab Hf.
    subst frame.
    destruct (make_frame_header 1 (Z.of_nat (length inp)) tab payload)
      as (H0 & H1 & H5);
      [change (2 ^ 32) with 4294967296; lia
      |change (2 ^ 32) with 4294967296; lia|].
    split; [exact H0|]. split; [exact H1|].
    exists inp. split; [exact Hrt|]. split; [exact H5 | reflexivity].
Qed.

Lemma C9_frame_header_witness :
  exists frame,
    is_bytes ctx_input /\ Z.of_nat (length ctx_input) < 2 ^ 31 /\
    rans_compress ctx_input 1 = Ok frame /\
    rd frame 0
      = Ok (if (1 =? 0) || (Z.of_nat (length ctx_input) <? 4) then 0 else 1) /\
    uint32_at frame 1 = Ok (Z.of_nat (length frame) - 9) /\
    exists out,
      rans_uncompress frame = Ok out /\
      uint32_at frame 5 = Ok (Z.of_nat (length out)) /\
      length out = length ctx_input.
Proof.
  eexists.
  assert (H1 : is_bytes ctx_input)
    by (unfold is_bytes, ctx_input; repeat (constructor; [lia|]); constructor).
  assert (H2 : Z.of_nat (length ctx_input) < 2 ^ 31) by (vm_compute; reflexivity).
  split; [exact H1|]. split; [exact H2|].
  assert (H3 : rans_compress ctx_input 1 = Ok ?[frame])
    by (vm_compute; reflexivity).
  split; [exact H3|].
  exact (C9_frame_header ctx_input 1 _ H1 H2 H3).
Defined.

(* ===================================================================== *)
(** * Further properties of the coder of rans_byte.h                       *)
(* ===================================================================== *)

(** X1.  RansDecInit reads back the state RansEncFlush wrote: the four
    bytes in front of the output hold any 32-bit state x, least significant
    byte first, and the rest of the output is what follows them. *)
Theorem flush_then_init : forall x out,
  0 <= x < 2 ^ 32 -> RansDecInit (RansEncFlush x out) = Ok (x, out).
Proof. exact dec_init_flush. Qed.

Lemma flush_then_init_witness :
  0 <= 2 ^ 23 < 2 ^ 32 /\
  RansDecInit (RansEncFlush (2 ^ 23) [7]) = Ok (2 ^ 23, [7]).
Proof.
  assert (H : 0 <= 2 ^ 23 < 2 ^ 32) by lia.
  split; [exact H | exact (flush_then_init (2 ^ 23) [7] H)].
Defined.

(** X2.  An encoding step is undone by the decoding step.  For a symbol
    with freq >= 1 and start + freq <= 4096 and a state x of the
    normalisation interval, RansEncPutSymbol returns a state x' of the
    interval after writing at most two bytes; RansDecGet finds in x' a slot
    of the symbol's range, and RansDecAdvanceSymbol gives back x and the
    output as it was before the step. *)
Theorem put_then_advance : forall start freq x out,
  0 <= start -> 1 <= freq -> start + freq <= 4096 -> normalised x ->
  exists sym x' out',
    RansEncSymbolInit start freq TF_SHIFT = Ok sym /\
    RansEncPutSymbol x out sym = Ok (x', out') /\
    normalised x' /\
    start <= RansDecGet x' TF_SHIFT < start + freq /\
    RansDecAdvanceSymbol x' out' (RansDecSymbolInit start freq) TF_SHIFT
      = Ok (x, out) /\
    (length out <= length out' <= length out + 2)%nat.
Proof.
  intros s0 f0 x out Hs Hf Hsum Hx.
  destruct (RansEncSymbolInit_12 s0 f0 Hs Hf Hsum) as (sym & Hinit & _).
  destruct (put_symbol_spec s0 f0 sym x out Hs Hf Hsum Hinit Hx)
    as (x1 & out1 & Hloop & _ & Hput).
  destruct (put_symbol_inverse s0 f0 sym x out _ _ Hs Hf Hsum Hinit Hx Hput)
    as (Hn & Hslot & Hadv & Hlen).
  exists sym, (x1 / f0 * 4096 + x1 mod f0 + s0), out1.
  split; [exact Hinit|]. split; [exact Hput|]. split; [exact Hn|].
  split; [exact Hslot|]. split.
  - unfold RansDecAdvanceSymbol, RansDecSymbolInit. cbn [start freq].
    rewrite !u16_small by (change (2 ^ 16) with 65536; lia). exact Hadv.
  - split; [|exact Hlen].
    assert (G : forall fuel y xm o y1 o1,
              enc_renorm_loop fuel y xm o = Ok (y1, o1) ->
              (length o <= length o1)%nat).
    { induction fuel as [|fuel IH]; intros y xm o y1 o1 H; simpl in H.
      - destruct (y <? xm); [|discriminate]. inversion H; subst. lia.
      - destruct (y <? xm); [inversion H; subst; lia|].
        apply IH in H. cbn [length] in H. lia. }
    apply (G _ _ _ _ _ _ Hloop).
Qed.

Lemma put_then_advance_witness :
  0 <= 5 /\ 1 <= 3 /\ 5 + 3 <= 4096 /\ normalised (2 ^ 30) /\
  exists sym x' out',
    RansEncSymbolInit 5 3 TF_SHIFT = Ok sym /\
    RansEncPutSymbol (2 ^ 30) [] sym = Ok (x', out') /\
    normalised x' /\
    5 <= RansDecGet x' TF_SHIFT < 5 + 3 /\
    RansDecAdvanceSymbol x' out' (RansDecSymbolInit 5 3) TF_SHIFT
      = Ok (2 ^ 30, []) /\
    (length (@nil Z) <= length out' <= length (@nil Z) + 2)%nat.
Proof.
  assert (H1 : 0 <= 5) by lia.
  assert (H2 : 1 <= 3) by lia.
  assert (H3 : 5 + 3 <= 4096) by lia.
  assert (H4 : normalised (2 ^ 30)) by (unfold normalised; lia).
  split; [exact H1|]. split; [exact H2|]. split; [exact H3|].
  split; [exact H4|].
  exact (put_then_advance 5 3 (2 ^ 30) [] H1 H2 H3 H4).
Defined.

(* Alverson's reciprocal with shift = ceil (log2 freq): the multiply-high
   is the quotient for every x below 2^31 *)
Lemma reciprocal_exact : forall s freq x,
  0 <= s -> 0 < freq <= 2 ^ s -> 0 <= x < 2 ^ 31 ->
  (x * ((2 ^ (s + 31) + freq - 1) / freq)) / 2 ^ (s + 31) = x / freq.
Proof.
  intros s freq x Hs Hf Hx.
  set (P := 2 ^ (s + 31)).
  set (rcp := (P + freq - 1) / freq).
  assert (HP : P = 2 ^ 31 * 2 ^ s).
  { unfold P. rewrite Z.add_comm, Z.pow_add_r by lia. reflexivity. }
  assert (Hspos : 0 < 2 ^ s) by (apply Z.pow_pos_nonneg; lia).
  assert (HPpos : 0 < P) by (rewrite HP; lia).
  pose proof (Z.div_mod (P + freq - 1) freq ltac:(lia)) as Hdm.
  pose proof (Z.mod_pos_bound (P + freq - 1) freq ltac:(lia)) as Hmb.
  fold rcp in Hdm.
  set (t := (P + freq - 1) mod freq) in *.
  set (e := freq - 1 - t).
  assert (He : 0 <= e < freq) by (unfold e; lia).
  assert (Hrcp : rcp * freq = P + e) by (unfold e; lia).
  pose proof (Z.div_mod x freq ltac:(lia)) as Hxdm.
  pose proof (Z.mod_pos_bound x freq ltac:(lia)) as Hxmb.
  set (q := x / freq) in *. set (r := x mod freq) in *.
  assert (Hq : 0 <= q) by (unfold q; apply Z.div_pos; lia).
  assert (Hxe : x * e < P).
  { rewrite HP.
    assert (x * e <= x * 2 ^ s) by (apply Z.mul_le_mono_nonneg_l; lia).
    assert (x * 2 ^ s < 2 ^ 31 * 2 ^ s) by (apply Z.mul_lt_mono_pos_r; lia).
    lia. }
  symmetry. apply Z.div_unique with (r := x * rcp - q * P); [|lia].
  left.
  assert (Hkey : (x * rcp) * freq = x * P + x * e) by nia.
  split.
  - assert (q * P * freq <= x * rcp * freq) by nia.
    assert (0 <= (x * rcp - q * P) * freq) by nia.
    nia.
  - assert (x * rcp * freq < (q + 1) * P * freq).
    { rewrite Hkey. assert (x + 1 <= (q + 1) * freq) by lia.
      assert (x * P + P <= (q + 1) * freq * P) by nia. nia. }
    nia.
Qed.

(** X3.  The division RansEncPutSymbol replaces by a multiplication is
    exact.  For every frequency from 2 to 2^31, whatever start and
    scale_bits up to 16, RansEncSymbolInit returns a record for which the
    quotient q of RansEncPutSymbol is x / freq for every x below 2^31; for
    frequency 1 it is x - 1 for every x from 1 up to 2^32 - 1, as the
    comment of RansEncSymbolInit says. *)
Theorem reciprocal_is_exact : forall start freq scale_bits,
  0 <= scale_bits <= 16 -> 1 <= freq <= 2 ^ 31 ->
  exists sym,
    RansEncSymbolInit start freq scale_bits = Ok sym /\
    (freq = 1 -> forall x, 1 <= x < 2 ^ 32 -> enc_quotient sym x = x - 1) /\
    (2 <= freq -> forall x, 0 <= x < 2 ^ 31 -> enc_quotient sym x = x / freq).
Proof.
  intros start freq sb _ Hf. unfold RansEncSymbolInit, enc_quotient.
  change (2 ^ 31) with 2147483648 in *.
  destruct (Z.ltb_spec freq 2) as [Hlt | Hge].
  - eexists. split; [reflexivity|]. cbn [rcp_freq rcp_shift].
    split; [|intros; lia]. intros _ x Hx.
    change (2 ^ 32) with 4294967296 in Hx.
    change (u32 (-1)) with 4294967295. change (u16 (0 + 32)) with 32.
    rewrite u64_small by (change (2 ^ 64) with 18446744073709551616; nia).
    rewrite Z.shiftr_div_pow2 by lia. change (2 ^ 32) with 4294967296.
    replace (x * 4294967295) with ((x - 1) * 4294967296 + (4294967296 - x)) by lia.
    rewrite Z.div_add_l by lia. rewrite (Z.div_small (4294967296 - x)) by lia.
    rewrite Z.add_0_r. apply u32_small. change (2 ^ 32) with 4294967296. lia.
  - destruct (shift_loop_spec 32 freq 0) as (s & E & Hr & Hle & Hlo);
      [lia | change (2 ^ (0 + Z.of_nat 32 - 1)) with 2147483648; lia | now left |].
    rewrite E. cbn [of_option bind].
    assert (Hs1 : 1 <= s).
    { destruct (Z.le_gt_cases 1 s); [assumption|exfalso].
      assert (s = 0) by lia. subst s. simpl in Hle. lia. }
    destruct Hlo as [-> | Hlo]; [lia|].
    assert (Hs31 : s <= 31) by lia.
    assert (Hp0 : 0 < 2 ^ (s + 31)) by (apply Z.pow_pos_nonneg; lia).
    assert (Hp : 2 ^ (s + 31) <= 2 ^ 62) by (apply Z.pow_le_mono_r; lia).
    change (2 ^ 62) with 4611686018427387904 in Hp.
    assert (E2 : 2 ^ (s + 31) = 2 ^ 32 * 2 ^ (s - 1)).
    { rewrite <- Z.pow_add_r by lia. f_equal; lia. }
    assert (Hs0 : 0 < 2 ^ (s - 1)) by (apply Z.pow_pos_nonneg; lia).
    assert (Hrb : 0 <= (2 ^ (s + 31) + freq - 1) / freq < 2 ^ 32).
    { split; [apply Z.div_pos; lia|].
      apply Z.div_lt_upper_bound; [lia|].
      rewrite E2. change (2 ^ 32) with 4294967296 in *. nia. }
    assert (Hrcp : u32 (u64 (Z.shiftl 1 (s + 31) + freq - 1) / freq)
                   = (2 ^ (s + 31) + freq - 1) / freq).
    { rewrite Z.shiftl_mul_pow2, Z.mul_1_l by lia.
      rewrite (u64_small (2 ^ (s + 31) + freq - 1)).
      2:{ change (2 ^ 64) with 18446744073709551616. lia. }
      apply u32_small. exact Hrb. }
    assert (Hsh : u16 (u16 (s - 1) + 32) = s + 31).
    { rewrite (u16_small (s - 1)) by (change (2 ^ 16) with 65536; lia).
      rewrite u16_small by (change (2 ^ 16) with 65536; lia). lia. }
    eexists. split; [reflexivity|]. cbn [rcp_freq rcp_shift].
    split; [intros; lia|]. intros _ x Hx.
    rewrite Hrcp, Hsh.
    change (2 ^ 32) with 4294967296 in Hrb.
    rewrite u64_small by (change (2 ^ 64) with 18446744073709551616; nia).
    rewrite Z.shiftr_div_pow2 by lia.
    rewrite reciprocal_exact by (change (2 ^ 31) with 2147483648; lia).
    apply u32_small. change (2 ^ 32) with 4294967296.
    split; [apply Z.div_pos; lia|].
    apply Z.div_lt_upper_bound; [lia | nia].
Qed.

Lemma reciprocal_is_exact_witness :
  exists sym,
    RansEncSymbolInit 5 3 TF_SHIFT = Ok sym /\
    (3 = 1 -> forall x, 1 <= x < 2 ^ 32 -> enc_quotient sym x = x - 1) /\
    (2 <= 3 -> forall x, 0 <= x < 2 ^ 31 -> enc_quotient sym x = x / 3).
Proof.
  assert (H0 : 0 <= TF_SHIFT <= 16) by (unfold TF_SHIFT; lia).
  assert (H : 1 <= 3 <= 2 ^ 31) by lia.
  exact (reciprocal_is_exact 5 3 TF_SHIFT H0 H).
Defined.

Lemma enc_renorm_loop_zero : forall fuel x out,
  0 <= x -> enc_renorm_loop fuel x 0 out = Undefined.
Proof.
  induction fuel as [|fuel IH]; intros x out Hx; cbn [enc_renorm_loop];
    destruct (Z.ltb_spec x 0); try lia; [reflexivity|].
  apply IH. rewrite shiftr_8. apply Z.div_pos; lia.
Qed.

(** X4.  A symbol of frequency 0 cannot be encoded.  RansEncSymbolInit
    returns a record with x_max = 0 for it, and with that record the
    renormalisation loop of RansEncPutSymbol (do ... while (x >= x_max))
    never ends on any state x, writing below the output buffer; the loop
    of RansEncPut does the same, before the division by freq. *)
Theorem zero_frequency_is_undefined : forall start scale_bits x out,
  0 <= scale_bits <= 16 -> 0 <= x < 2 ^ 32 ->
  (exists sym,
     RansEncSymbolInit start 0 scale_bits = Ok sym /\ x_max sym = 0 /\
     RansEncPutSymbol x out sym = Undefined) /\
  RansEncPut x out start 0 scale_bits = Undefined.
Proof.
  intros start sb x out _ [Hx _].
  assert (E : u32 (Z.shiftl (Z.shiftr RANS_BYTE_L sb) 8 * 0) = 0)
    by (rewrite Z.mul_0_r; reflexivity).
  split.
  - unfold RansEncSymbolInit. cbn [Z.ltb Z.compare]. rewrite E.
    eexists. split; [reflexivity|]. cbn [x_max]. split; [reflexivity|].
    unfold RansEncPutSymbol. cbn [x_max].
    rewrite enc_renorm_loop_zero by exact Hx. reflexivity.
  - unfold RansEncPut, RansEncRenorm. rewrite E.
    rewrite enc_renorm_loop_zero by exact Hx. reflexivity.
Qed.

Lemma zero_frequency_is_undefined_witness :
  (exists sym,
     RansEncSymbolInit 0 0 TF_SHIFT = Ok sym /\ x_max sym = 0 /\
     RansEncPutSymbol (2 ^ 23) [] sym = Undefined) /\
  RansEncPut (2 ^ 23) [] 0 0 TF_SHIFT = Undefined.
Proof.
  assert (H0 : 0 <= TF_SHIFT <= 16) by (unfold TF_SHIFT; lia).
  assert (H : 0 <= 2 ^ 23 < 2 ^ 32) by lia.
  exact (zero_frequency_is_undefined 0 TF_SHIFT (2 ^ 23) [] H0 H).
Defined.

(* ===================================================================== *)
(** * Further properties of the decompressors                               *)
(* ===================================================================== *)

Lemma RansDecRenorm_cases : forall p x,
  (exists x' p', RansDecRenorm x p = Ok (x', p')) \/
  RansDecRenorm x p = Undefined.
Proof.
  induction p as [|b p IH]; intros x; cbn [RansDecRenorm];
    destruct (x <? RANS_BYTE_L); eauto.
Qed.

Lemma u32_add_u32 : forall a m s, u32 (u32 a + (m - s)) = u32 (a + m - s).
Proof.
  intros. unfold u32. rewrite Z.add_mod_idemp_l by lia. f_equal. lia.
Qed.

Ltac use_lookups :=
  repeat match goal with
         | H : _ = Some _ |- _ => rewrite H
         | H : _ = None |- _ => rewrite H
         end.

Ltac simp_round :=
  repeat progress
    (cbn [of_option bind get_lane set_lane ptr rans0 rans1 rans2 rans3];
     use_lookups).

Ltac finish_round :=
  cbv zeta; rewrite ?u32_add_u32; simp_round;
  repeat (match goal with
          | |- context [RansDecRenorm ?x ?p] =>
              let x' := fresh "x" in
              let p' := fresh "p" in
              let E := fresh "E" in
              destruct (RansDecRenorm_cases p x) as [(x' & p' & E) | E];
              rewrite E
          end; simp_round);
  reflexivity.

(** X5.  One round of the unrolled decoding loops (four table lookups, the
    four multiply and add steps, then four calls of RansDecRenorm) is the
    four single steps c = D.R[RansDecGet(&rans)];
    RansDecAdvanceSymbol(&rans, &ptr, &syms[c]) made one after the other on
    lanes 0, 1, 2, 3: the same symbols, states and read position, and an
    undefined round exactly when one of the four steps is undefined. *)
Theorem unrolled_round_is_four_steps : forall D0 D1 D2 D3 s0 s1 s2 s3 st,
  dec_block D0 D1 D2 D3 s0 s1 s2 s3 st =
  ('(c0, st1) <- dec_get D0 s0 L0 st ;;
   '(c1, st2) <- dec_get D1 s1 L1 st1 ;;
   '(c2, st3) <- dec_get D2 s2 L2 st2 ;;
   '(c3, st4) <- dec_get D3 s3 L3 st3 ;;
   Ok (c0, c1, c2, c3, st4)).
Proof.
  intros D0 D1 D2 D3 s0 s1 s2 s3 [r0 r1 r2 r3 p].
  unfold dec_block, dec_get, RansDecGet, RansDecAdvanceSymbol, RansDecAdvance,
    RansDecAdvanceStep.
  cbn [get_lane set_lane ptr rans0 rans1 rans2 rans3].
  destruct (R D0 (Z.land r0 (Z.shiftl 1 TF_SHIFT - 1))) as [c0|] eqn:HR0;
    cbn [of_option bind]; [|reflexivity].
  destruct (R D1 (Z.land r1 (Z.shiftl 1 TF_SHIFT - 1))) as [c1|] eqn:HR1;
    cbn [of_option bind].
  2:{ destruct (s0 c0); finish_round. }
  destruct (R D2 (Z.land r2 (Z.shiftl 1 TF_SHIFT - 1))) as [c2|] eqn:HR2;
    cbn [of_option bind].
  2:{ destruct (s0 c0); [destruct (s1 c1) eqn:Hs1|]; finish_round. }
  destruct (R D3 (Z.land r3 (Z.shiftl 1 TF_SHIFT - 1))) as [c3|] eqn:HR3;
    cbn [of_option bind].
  2:{ destruct (s0 c0); [destruct (s1 c1) eqn:Hs1; [destruct (s2 c2) eqn:Hs2|]|];
        finish_round. }
  destruct (s0 c0) as [y0|]; cbn [of_option bind]; [|reflexivity].
  destruct (s1 c1) as [y1|] eqn:Hs1; cbn [of_option bind]; [|finish_round].
  destruct (s2 c2) as [y2|] eqn:Hs2; cbn [of_option bind]; [|finish_round].
  destruct (s3 c3) as [y3|] eqn:Hs3; cbn [of_option bind]; finish_round.
Qed.

(* what a header that passes the checks says about the frame *)
Lemma read_header_ok : forall order inp out_sz,
  read_header order inp = Ok out_sz ->
  9 <= Z.of_nat (length inp) /\ rd inp 0 = Ok order /\ 0 <= out_sz.
Proof.
  intros order inp out_sz H. unfold read_header in H.
  apply bind_ok in H. destruct H as (b0 & Hb0 & H).
  destruct (Z.eqb_spec b0 order) as [-> | Hne]; cbn [negb] in H; [|discriminate].
  apply bind_ok in H. destruct H as (in_sz & Hin & H).
  apply bind_ok in H. destruct H as (o & Hout & H).
  destruct (negb _); [discriminate|].
  destruct (Z.ltb_spec o 0); [discriminate|]. injection H as <-.
  split; [|split; [exact Hb0 | assumption]].
  unfold read_int in Hout.
  apply bind_ok in Hout. destruct Hout as (b5 & _ & Hout).
  apply bind_ok in Hout. destruct Hout as (b6 & _ & Hout).
  apply bind_ok in Hout. destruct Hout as (b7 & _ & Hout).
  apply bind_ok in Hout. destruct Hout as (b8 & H8 & _).
  unfold rd in H8. change (5 + 3 <? 0) with false in H8. cbv iota in H8.
  destruct (nth_error inp (Z.to_nat (5 + 3))) eqn:E; [|discriminate].
  assert (Hl : (Z.to_nat (5 + 3) < length inp)%nat)
    by (apply nth_error_Some; congruence).
  lia.
Qed.

Lemma rans_uncompress_O0_eq : forall inp out_sz,
  read_header 0 inp = Ok out_sz -> rans_uncompress inp = rans_uncompress_O0 inp.
Proof.
  intros inp out_sz H. destruct (read_header_ok _ _ _ H) as (Hlen & Hb0 & _).
  unfold rans_uncompress. destruct (Z.ltb_spec (Z.of_nat (length inp)) 9); [lia|].
  rewrite Hb0. reflexivity.
Qed.

Lemma rans_uncompress_O1_eq : forall inp out_sz,
  read_header 1 inp = Ok out_sz -> rans_uncompress inp = rans_uncompress_O1 inp.
Proof.
  intros inp out_sz H. destruct (read_header_ok _ _ _ H) as (Hlen & Hb0 & _).
  unfold rans_uncompress. destruct (Z.ltb_spec (Z.of_nat (length inp)) 9); [lia|].
  rewrite Hb0. reflexivity.
Qed.

(* a round that returns has passed the check x + F <= TOTFREQ *)
Lemma parse_entry_x : forall o1 st st',
  parse_entry o1 st = Ok st' -> rp_x st' <= TOTFREQ.
Proof.
  intros o1 st st' H. unfold parse_entry in H.
  destruct ((rp_j st <? 0) || (256 <=? rp_j st)); [discriminate|].
  apply bind_ok in H. destruct H as ([F0 cp] & _ & H).
  set (F := if o1 && (F0 =? 0) then TOTFREQ else F0) in *.
  destruct (Z.gtb_spec (rp_x st + F) TOTFREQ); [discriminate|].
  destruct (rp_rle st =? 0).
  - destruct cp as [|b cp1]; [discriminate|].
    destruct (rp_j st + 1 =? b).
    + destruct cp1 as [|r cp2]; [discriminate|]. injection H as <-. assumption.
    + injection H as <-. assumption.
  - injection H as <-. assumption.
Qed.

Lemma parse_row_loop_x : forall fuel o1 st row,
  parse_row_loop fuel o1 st = Ok row -> rp_x row <= TOTFREQ.
Proof.
  induction fuel as [|fuel IH]; intros o1 st row H; cbn [parse_row_loop] in H;
    [discriminate|].
  apply bind_ok in H. destruct H as (st' & He & H).
  destruct (rp_j st' =? 0).
  - injection H as <-. exact (parse_entry_x _ _ _ He).
  - exact (IH _ _ _ H).
Qed.

Lemma parse_row_x : forall o1 D syms cp row,
  parse_row o1 D syms cp = Ok row -> rp_x row <= TOTFREQ.
Proof.
  intros o1 D syms [|j cp] row H; [discriminate|].
  exact (parse_row_loop_x _ _ _ _ H).
Qed.

(** X6.  The frequencies of an order-0 table that rans_uncompress_O0 has
    parsed sum to at most TOTFREQ, and when they sum to exactly TOTFREQ the
    decompressor stops in assert(x < TOTFREQ): such a frame passes every
    check that returns NULL and then aborts the program. *)
Theorem full_row_fails_the_assertion : forall inp out_sz row,
  read_header 0 inp = Ok out_sz ->
  parse_row false ari_decoder_zero (fun _ => None) (skipn 9 inp) = Ok row ->
  rp_x row <= TOTFREQ /\
  (rp_x row = TOTFREQ -> rans_uncompress inp = Abort).
Proof.
  intros inp out_sz row Hh Hp. split; [exact (parse_row_x _ _ _ _ _ Hp)|].
  intros Hx. rewrite (rans_uncompress_O0_eq _ _ Hh).
  unfold rans_uncompress_O0, uncompress_O0. rewrite Hh. cbn [bind].
  rewrite Hp. cbn [bind]. rewrite Hx, Z.ltb_irrefl. reflexivity.
Qed.

(* an order-0 frame whose table stores F = 4095 for symbol 65 and F = 1
   for symbol 67 *)
Lemma full_row_fails_the_assertion_witness :
  rans_uncompress [0; 6; 0; 0; 0; 1; 0; 0; 0; 65; 143; 255; 67; 1; 0] = Abort.
Proof.
  assert (Hh : read_header 0 [0; 6; 0; 0; 0; 1; 0; 0; 0; 65; 143; 255; 67; 1; 0]
               = Ok 1) by reflexivity.
  destruct (parse_row false ari_decoder_zero (fun _ => None)
              [65; 143; 255; 67; 1; 0]) as [row| | |] eqn:Hp;
    try discriminate Hp.
  apply (full_row_fails_the_assertion _ 1 row Hh Hp).
  cbv in Hp. injection Hp as <-. reflexivity.
Defined.

Lemma RansDecInit_short : forall cp,
  (length cp < 4)%nat -> RansDecInit cp = Undefined.
Proof.
  intros [|b0 [|b1 [|b2 [|b3 cp]]]] H; try reflexivity. cbn [length] in H. lia.
Qed.

Lemma RansDecInit_length : forall cp x cp',
  RansDecInit cp = Ok (x, cp') -> length cp = (4 + length cp')%nat.
Proof.
  intros [|b0 [|b1 [|b2 [|b3 cp]]]] x cp' H; try discriminate.
  injection H as _ <-. reflexivity.
Qed.

Lemma RansDecInit_cases : forall cp,
  (exists x cp', RansDecInit cp = Ok (x, cp')) \/ RansDecInit cp = Undefined.
Proof.
  intros [|b0 [|b1 [|b2 [|b3 cp]]]]; cbn [RansDecInit]; eauto.
Qed.

(* the four initial states take 16 bytes *)
Lemma dec_init_short : forall cp, (length cp < 16)%nat -> dec_init cp = Undefined.
Proof.
  intros cp H. unfold dec_init.
  destruct (RansDecInit_cases cp) as [(x0 & p0 & E0) | ->]; [|reflexivity].
  rewrite E0. cbn [bind]. apply RansDecInit_length in E0.
  destruct (RansDecInit_cases p0) as [(x1 & p1 & E1) | ->]; [|reflexivity].
  rewrite E1. cbn [bind]. apply RansDecInit_length in E1.
  destruct (RansDecInit_cases p1) as [(x2 & p2 & E2) | ->]; [|reflexivity].
  rewrite E2. cbn [bind]. apply RansDecInit_length in E2.
  rewrite RansDecInit_short by lia. reflexivity.
Qed.

(** X7.  The decompressors do not check that the payload is there.  On a
    frame whose header and table pass every check, and in which fewer than
    the 16 bytes of the four initial states follow the table, RansDecInit
    reads past the end of the input: the behaviour of rans_uncompress is
    undefined, at order 0 and at order 1; the frame is not rejected with
    NULL. *)
Theorem short_payload_is_read_past_the_end : forall inp out_sz,
  (exists row,
     read_header 0 inp = Ok out_sz /\
     parse_row false ari_decoder_zero (fun _ => None) (skipn 9 inp) = Ok row /\
     rp_x row < TOTFREQ /\ (length (rp_cp row) < 16)%nat) \/
  (exists tp,
     read_header 1 inp = Ok out_sz /\
     parse_table (skipn 9 inp) = Ok tp /\ (length (tp_cp tp) < 16)%nat) ->
  rans_uncompress inp = Undefined.
Proof.
  intros inp out_sz [(row & Hh & Hp & Hx & Hl) | (tp & Hh & Hp & Hl)].
  - rewrite (rans_uncompress_O0_eq _ _ Hh).
    unfold rans_uncompress_O0, uncompress_O0. rewrite Hh. cbn [bind].
    rewrite Hp. cbn [bind].
    destruct (Z.ltb_spec (rp_x row) TOTFREQ); [|lia]. cbn [negb].
    rewrite dec_init_short by exact Hl. reflexivity.
  - rewrite (rans_uncompress_O1_eq _ _ Hh).
    unfold rans_uncompress_O1, uncompress_O1. rewrite Hh. cbn [bind].
    rewrite Hp. cbn [bind].
    rewrite dec_init_short by exact Hl. reflexivity.
Qed.

(* an order-0 frame that ends after its table *)
Lemma short_payload_is_read_past_the_end_witness :
  rans_uncompress [0; 4; 0; 0; 0; 1; 0; 0; 0; 65; 143; 255; 0] = Undefined.
Proof.
  apply (short_payload_is_read_past_the_end _ 1). left.
  eexists. split; [reflexivity|]. split; [reflexivity|].
  split; [reflexivity|]. cbn. lia.
Defined.

Lemma read_freq_nonneg : forall cp F0 cp',
  is_bytes cp -> read_freq cp = Ok (F0, cp') -> 0 <= F0 /\ is_bytes cp'.
Proof.
  intros cp F0 cp' Hb H. unfold read_freq in H.
  destruct cp as [|b cp1]; [discriminate|].
  inversion Hb as [|? ? Hb0 Hb1]; subst.
  destruct (b >=? 128).
  - destruct cp1 as [|b2 cp2]; [discriminate|].
    inversion Hb1 as [|? ? Hb2 Hb3]; subst.
    pose proof (f_equal (fun r => match r with Ok (a, _) => a | _ => 0 end) H)
      as E1.
    pose proof (f_equal (fun r => match r with Ok (_, c) => c | _ => [] end) H)
      as E2.
    cbv beta iota in E1, E2. subst F0 cp'. split; [|exact Hb3].
    rewrite Z.lor_nonneg, Z.shiftl_nonneg, Z.land_nonneg. lia.
  - injection H as <- <-. split; [lia | exact Hb1].
Qed.

Lemma parse_entry_filled : forall o1 st st',
  is_bytes (rp_cp st) -> lookup_filled st ->
  parse_entry o1 st = Ok st' ->
  is_bytes (rp_cp st') /\ lookup_filled st'.
Proof.
  intros o1 st st' Hb (Hx0 & Hin & Hout) H. unfold parse_entry in H.
  destruct (Z.ltb_spec (rp_j st) 0) as [|Hj0]; cbn [orb] in H; [discriminate|].
  destruct (Z.leb_spec 256 (rp_j st)) as [|Hj1]; [discriminate|].
  apply bind_ok in H. destruct H as ([F0 cp] & Hrf & H).
  destruct (read_freq_nonneg _ _ _ Hb Hrf) as (HF0 & Hcp).
  set (F := if o1 && (F0 =? 0) then TOTFREQ else F0) in *.
  assert (HF : 0 <= F).
  { unfold F. destruct (o1 && (F0 =? 0)); [change TOTFREQ with 4096; lia | lia]. }
  destruct (Z.gtb_spec (rp_x st + F) TOTFREQ); [discriminate|].
  assert (Hfill : forall j' rle' cp',
            lookup_filled
              (mkRowParser
                 (mkAriDecoder (upd (fc_F (rp_D st)) (rp_j st) F)
                    (upd (fc_C (rp_D st)) (rp_j st) (rp_x st))
                    (memset (R (rp_D st)) (rp_x st) (rp_j st) F))
                 (upd (rp_syms st) (rp_j st)
                    (Some (RansDecSymbolInit (rp_x st) F)))
                 j' (rp_x st + F) rle' cp')).
  { intros j' rle' cp'. unfold lookup_filled. cbn [rp_x rp_D rp_syms R].
    split; [lia|]. split.
    - intros s Hs. unfold memset.
      destruct (Z.leb_spec (rp_x st) s); destruct (Z.ltb_spec s (rp_x st + F));
        cbn [andb]; try lia.
      + exists (rp_j st), (RansDecSymbolInit (rp_x st) F).
        rewrite u8_small by (change (2 ^ 8) with 256; lia).
        split; [reflexivity|]. split; [lia|].
        unfold upd. rewrite Z.eqb_refl. reflexivity.
      + destruct (Hin s ltac:(lia)) as (c & sym & E1 & E2 & E3).
        unfold upd. destruct (Z.eqb_spec c (rp_j st)) as [-> | Hne].
        * exists (rp_j st), (RansDecSymbolInit (rp_x st) F).
          rewrite Z.eqb_refl. auto.
        * exists c, sym. destruct (Z.eqb_spec c (rp_j st)); [contradiction|].
          auto.
    - intros s Hs. unfold memset.
      destruct (Z.leb_spec (rp_x st) s); destruct (Z.ltb_spec s (rp_x st + F));
        cbn [andb]; try lia; apply Hout; lia. }
  destruct (rp_rle st =? 0).
  - destruct cp as [|b cp1]; [discriminate|].
    inversion Hcp as [|? ? Hb0 Hb1]; subst.
    destruct (rp_j st + 1 =? b).
    + destruct cp1 as [|r cp2]; [discriminate|].
      inversion Hb1 as [|? ? Hb2 Hb3]; subst.
      injection H as <-. split; [exact Hb3 | apply Hfill].
    + injection H as <-. split; [exact Hb1 | apply Hfill].
  - injection H as <-. split; [exact Hcp | apply Hfill].
Qed.

Lemma parse_row_loop_filled : forall fuel o1 st row,
  is_bytes (rp_cp st) -> lookup_filled st ->
  parse_row_loop fuel o1 st = Ok row -> lookup_filled row.
Proof.
  induction fuel as [|fuel IH]; intros o1 st row Hb Hf H;
    cbn [parse_row_loop] in H; [discriminate|].
  apply bind_ok in H. destruct H as (st' & He & H).
  destruct (parse_entry_filled _ _ _ Hb Hf He) as (Hb' & Hf').
  destruct (rp_j st' =? 0).
  - injection H as <-. exact Hf'.
  - exact (IH _ _ _ Hb' Hf' H).
Qed.

(** X8.  The reverse lookup table D.R that the decompressors build from a
    stored row is initialised exactly below the cumulative frequency x the
    row reaches: every slot below x holds a symbol whose syms entry was
    initialised, and no slot from x on was written.  A decoding step on a
    state whose low 12 bits are x or more therefore reads a byte that
    malloc left uninitialised; the rows the compressors store reach
    x = 4095, so that slot 4095 is never written. *)
Theorem lookup_is_filled_below_x : forall o1 cp row,
  is_bytes cp ->
  parse_row o1 ari_decoder_zero (fun _ => None) cp = Ok row ->
  0 <= rp_x row <= TOTFREQ /\
  (forall s, 0 <= s < rp_x row ->
     exists c sym, R (rp_D row) s = Some c /\ 0 <= c < 256 /\
                   rp_syms row c = Some sym) /\
  (forall s, ~ (0 <= s < rp_x row) -> R (rp_D row) s = None) /\
  (forall k st, rp_x row <= RansDecGet (get_lane k st) TF_SHIFT ->
     dec_get (rp_D row) (rp_syms row) k st = Undefined).
Proof.
  intros o1 cp row Hb H.
  pose proof (parse_row_x _ _ _ _ _ H) as Hx.
  destruct cp as [|j cp1]; [discriminate|]. unfold parse_row in H.
  inversion Hb as [|? ? _ Hb1]; subst.
  assert (Hf0 : lookup_filled
                  (mkRowParser ari_decoder_zero (fun _ => None) j 0 0 cp1)).
  { unfold lookup_filled. cbn [rp_x rp_D rp_syms R ari_decoder_zero].
    split; [lia|]. split; [intros; lia | reflexivity]. }
  destruct (parse_row_loop_filled _ _
              (mkRowParser ari_decoder_zero (fun _ => None) j 0 0 cp1) _
              Hb1 Hf0 H) as (H0 & Hin & Hout).
  split; [lia|]. split; [exact Hin|]. split; [exact Hout|].
  intros k st Hk. unfold dec_get. rewrite Hout by lia. reflexivity.
Qed.

(* the row that stores F = 4095 for symbol 65 *)
Lemma lookup_is_filled_below_x_witness :
  exists row,
    parse_row false ari_decoder_zero (fun _ => None) [65; 143; 255; 0] = Ok row /\
    rp_x row = 4095 /\ R (rp_D row) 4094 = Some 65 /\ R (rp_D row) 4095 = None.
Proof.
  assert (Hb : is_bytes [65; 143; 255; 0]).
  { unfold is_bytes. repeat constructor; lia. }
  destruct (parse_row false ari_decoder_zero (fun _ => None) [65; 143; 255; 0])
    as [row| | |] eqn:Hp; try discriminate Hp.
  exists row. split; [reflexivity|].
  destruct (lookup_is_filled_below_x false _ row Hb Hp) as (_ & _ & Hout & _).
  assert (Hx : rp_x row = 4095) by (cbv in Hp; injection Hp as <-; reflexivity).
  split; [exact Hx|]. split.
  - cbv in Hp. injection Hp as <-. reflexivity.
  - apply Hout. rewrite Hx. lia.
Defined.

(* ===================================================================== *)
(** * Further properties of the compressors: the statistics               *)
(* ===================================================================== *)

Lemma count_fold_occ : forall inp F0 j,
  fold_left (fun F c => upd F c (F c + 1)) inp F0 j
  = F0 j + Z.of_nat (count_occ Z.eq_dec inp j).
Proof.
  induction inp as [|c inp IH]; intros F0 j; cbn [fold_left count_occ]; [lia|].
  rewrite IH. unfold upd.
  destruct (Z.eqb_spec j c) as [-> | Hne].
  - destruct (Z.eq_dec c c); [lia | contradiction].
  - destruct (Z.eq_dec c j); [congruence | lia].
Qed.

Lemma count_fold_sum : forall inp F0,
  is_bytes inp ->
  sumZ (fold_left (fun F c => upd F c (F c + 1)) inp F0) 0 256
  = sumZ F0 0 256 + Z.of_nat (length inp).
Proof.
  induction inp as [|c inp IH]; intros F0 Hb; cbn [fold_left length]; [lia|].
  inversion Hb as [|? ? Hc Hb']; subst.
  rewrite IH by exact Hb'. rewrite sumZ_upd by lia. lia.
Qed.

Lemma count_O0_sum : forall inp,
  is_bytes inp -> sumZ (count_O0 inp) 0 256 = Z.of_nat (length inp).
Proof.
  intros inp Hb. unfold count_O0. rewrite count_fold_sum by exact Hb.
  rewrite sumZ_zero. lia.
Qed.

(** X9.  The first loop of rans_compress_O0 builds the histogram of the
    input: F[j] is the number of times the byte j occurs in it, and the 256
    counts add up to in_size. *)
Theorem count_O0_is_the_histogram : forall inp,
  is_bytes inp ->
  (forall j, count_O0 inp j = Z.of_nat (count_occ Z.eq_dec inp j)) /\
  sumZ (count_O0 inp) 0 256 = Z.of_nat (length inp).
Proof.
  intros inp Hb. unfold count_O0. split.
  - intros j. rewrite count_fold_occ. lia.
  - rewrite count_fold_sum by exact Hb. rewrite sumZ_zero. lia.
Qed.

Lemma count_O0_is_the_histogram_witness :
  is_bytes [7; 3; 7] /\
  (forall j, count_O0 [7; 3; 7] j = Z.of_nat (count_occ Z.eq_dec [7; 3; 7] j)) /\
  sumZ (count_O0 [7; 3; 7]) 0 256 = Z.of_nat (length [7; 3; 7]).
Proof.
  assert (Hb : is_bytes [7; 3; 7]) by (unfold is_bytes; repeat constructor; lia).
  split; [exact Hb | exact (count_O0_is_the_histogram [7; 3; 7] Hb)].
Defined.

(** X10.  The statistics of rans_compress_O1 are consistent: for every
    context i the total T[i], by which the row is scaled, is the sum of
    the 256 counts F[i][j] of that row, the three entries added to
    context 0 for the starts of lanes 1 to 3 included. *)
Theorem count_O1_totals_are_row_sums : forall inp F T,
  is_bytes inp -> count_O1 inp = Ok (F, T) ->
  forall i, T i = sumZ (F i) 0 256.
Proof. exact count_O1_row_sums. Qed.

Lemma count_O1_totals_are_row_sums_witness :
  exists F T,
    count_O1 [1; 2; 1; 2; 1] = Ok (F, T) /\
    forall i, T i = sumZ (F i) 0 256.
Proof.
  assert (Hb : is_bytes [1; 2; 1; 2; 1])
    by (unfold is_bytes; repeat constructor; lia).
  destruct (count_O1 [1; 2; 1; 2; 1]) as [[F T]| | |] eqn:Hc;
    try discriminate Hc.
  exists F, T. split; [reflexivity|].
  exact (count_O1_totals_are_row_sums _ F T Hb Hc).
Defined.

(* ===================================================================== *)
(** * When rans_compress_O0 returns                                         *)
(* ===================================================================== *)

(* the table writer returns on every row of frequencies that sum to at
   most 4096 *)
Lemma write_loop_total : forall F,
  (forall j, 0 <= j < 256 -> 0 <= F j) -> cum F 256 <= 4096 ->
  forall n j st,
    0 <= j -> j + Z.of_nat n <= 256 -> rw_x st = cum F j ->
    exists st', for_each (write_row_step F) (zrange j n) st = Ok st'.
Proof.
  intros F Hpos Hcum. induction n as [|n IH]; intros j st Hj Hn Hx.
  - exists st. reflexivity.
  - rewrite zrange_S. cbn [for_each]. rewrite write_row_step_eq.
    destruct (row_bound F Hpos Hcum j ltac:(lia)) as (Hc0 & Hc1 & HF).
    destruct (Z.eqb_spec (F j) 0) as [E | E]; cbn [bind].
    + apply IH; [lia | lia |]. rewrite cum_succ, E by lia. lia.
    + rewrite Hx.
      rewrite (u32_small (cum F j)) by (change (2 ^ 32) with 4294967296; lia).
      rewrite (u32_small (F j)) by (change (2 ^ 32) with 4294967296; lia).
      assert (H1 : 1 <= F j) by lia.
      destruct (RansEncSymbolInit_12 (cum F j) (F j) Hc0 H1 Hc1)
        as (sym & Hinit & _).
      change TF_SHIFT with 12. rewrite Hinit. cbn [bind].
      apply IH; [lia | lia |]. cbn [rw_x]. rewrite cum_succ by lia. lia.
Qed.

Lemma write_row_total : forall F cp,
  (forall j, 0 <= j < 256 -> 0 <= F j) -> cum F 256 <= 4096 ->
  exists tab syms, write_row F cp = Ok (tab, syms).
Proof.
  intros F cp Hpos Hcum. unfold write_row.
  change (fun j => j <? 256) with (fun j => j <? 0 + Z.of_nat 256).
  rewrite for_loop_up by lia.
  destruct (write_loop_total F Hpos Hcum 256 0 (mkRowWriter cp 0 0 (fun _ => None))
              ltac:(lia) ltac:(lia) ltac:(reflexivity)) as (st' & ->).
  cbn [bind]. eauto.
Qed.

(* an encoding step returns when the symbol is in the row *)
Lemma enc_put_total : forall F esyms k c st,
  (forall j, 0 <= j < 256 -> 0 <= F j) -> cum F 256 <= 4096 ->
  row_written F 256 esyms -> 0 <= c < 256 -> F c <> 0 ->
  lanes_normalised st ->
  exists st', enc_put esyms k c st = Ok st' /\ lanes_normalised st'.
Proof.
  intros F esyms k c st Hpos Hcum [Hw _] Hc HFc Hn.
  destruct (Hw c Hc HFc) as (sym & Hsym & Hinit).
  destruct (row_bound F Hpos Hcum c Hc) as (Hc0 & Hc1 & HF).
  pose proof (lanes_normalised_get k st Hn) as Hx.
  assert (H1 : 1 <= F c) by lia.
  destruct (put_symbol_spec (cum F c) (F c) sym (get_lane k st) (ptr st)
              Hc0 H1 Hc1 Hinit Hx) as (x1 & out1 & _ & _ & Hput).
  destruct (put_symbol_inverse _ _ _ _ _ _ _ Hc0 H1 Hc1 Hinit Hx Hput)
    as (Hx' & _).
  unfold enc_put. rewrite Hsym. cbn [of_option bind]. rewrite Hput. cbn [bind].
  eexists. split; [reflexivity|]. apply lanes_normalised_set; assumption.
Qed.

Lemma run_ops_total : forall F esyms inp,
  (forall j, 0 <= j < 256 -> 0 <= F j) -> cum F 256 <= 4096 ->
  row_written F 256 esyms ->
  (forall i c, rd inp i = Ok c -> 0 <= c < 256 /\ F c <> 0) ->
  forall ops st,
    (forall k i, In (k, i) ops -> 0 <= i < Z.of_nat (length inp)) ->
    lanes_normalised st ->
    exists st', run_ops (put_O0 esyms inp) ops st = Ok st'.
Proof.
  intros F esyms inp Hpos Hcum Hw Hin.
  induction ops as [|[k i] ops IH]; intros st Hops Hn.
  - exists st. reflexivity.
  - cbn [run_ops]. unfold put_O0 at 1.
    destruct (rd_in_range inp i (Hops k i (or_introl eq_refl))) as (c & Hc).
    rewrite Hc. cbn [bind].
    destruct (Hin i c Hc) as (Hcr & HFc).
    destruct (enc_put_total F esyms k c st Hpos Hcum Hw Hcr HFc Hn)
      as (st1 & -> & Hn1).
    cbn [bind]. apply IH; [|exact Hn1].
    intros k' i' H'. apply (Hops k' i'). now right.
Qed.

Lemma enc_order_O0_ops : forall {St : Type} (put : lane -> Z -> St -> result St)
  N st,
  0 <= N -> enc_order_O0 put N st = run_ops put (tail_ops N ++ main_ops N) st.
Proof.
  intros St put N st HN.
  pose proof (Z.div_mod N 4 ltac:(lia)) as Hdm.
  pose proof (Z.mod_pos_bound N 4 ltac:(lia)) as Hmb.
  assert (Hq0 : 0 <= N / 4) by (apply Z.div_pos; lia).
  unfold enc_order_O0. rewrite run_ops_app, enc_tail_O0_ops by exact HN.
  apply bind_ext; intros s. rewrite land_not3.
  rewrite (for_loop_down _ _ 4 0 _ (Z.to_nat (N / 4))) by lia.
  unfold main_ops. apply enc_main_O0_ops.
Qed.

Lemma ops_in_range : forall N k i,
  0 <= N -> In (k, i) (tail_ops N ++ main_ops N) -> 0 <= i < N.
Proof.
  intros N k i HN H.
  pose proof (Z.div_mod N 4 ltac:(lia)) as Hdm.
  pose proof (Z.mod_pos_bound N 4 ltac:(lia)) as Hmb.
  apply in_app_or in H. destruct H as [H | H].
  - unfold tail_ops in H. cbv zeta in H.
    apply in_app_or in H. destruct H as [H | H].
    { destruct (Z.eqb_spec (N mod 4) 3); [|contradiction].
      destruct H as [H | []]. injection H as _ <-. lia. }
    apply in_app_or in H. destruct H as [H | H].
    { destruct (Z.leb_spec 2 (N mod 4)); [|contradiction].
      destruct H as [H | []]. injection H as _ <-. lia. }
    destruct (Z.leb_spec 1 (N mod 4)); [|contradiction].
    destruct H as [H | []]. injection H as _ <-. lia.
  - unfold main_ops in H. apply in_flat_map in H.
    destruct H as (b & Hb & H). apply in_zdown in Hb.
    destruct Hb as (m & Hm & Eb).
    assert (Hb' : 4 <= b <= N) by lia. clear Eb.
    cbn [In] in H.
    destruct H as [H | [H | [H | [H | []]]]]; injection H as _ <-; lia.
Qed.

Lemma scale_factor_total : forall N,
  0 < N -> scale_factor N = Ok (2 ^ 43 / N + 2 ^ 30 / N).
Proof.
  intros N HN. destruct (scale_factor N) as [tr| | |] eqn:E.
  - rewrite (scale_factor_spec N tr E HN). reflexivity.
  - unfold scale_factor in E. destruct (N =? 0); discriminate.
  - unfold scale_factor in E. destruct (N =? 0); discriminate.
  - unfold scale_factor in E. destruct (Z.eqb_spec N 0); [lia | discriminate].
Qed.

Lemma rd_in : forall inp i c, rd inp i = Ok c -> In c inp.
Proof.
  intros inp i c H. unfold rd in H. destruct (i <? 0); [discriminate|].
  destruct (nth_error inp (Z.to_nat i)) as [b|] eqn:E; [|discriminate].
  injection H as <-. eapply nth_error_In. exact E.
Qed.

Lemma count_O0_present : forall inp c, In c inp -> 1 <= count_O0 inp c.
Proof.
  intros inp c H. unfold count_O0. rewrite count_fold_occ.
  apply (count_occ_In Z.eq_dec) in H. lia.
Qed.

(* the normalised row of a nonempty input, given that F[M] > 0 *)
Lemma normalised_row_O0 : forall inp F M,
  is_bytes inp -> 0 < Z.of_nat (length inp) ->
  normalise_O0 (count_O0 inp)
    (2 ^ 43 / Z.of_nat (length inp) + 2 ^ 30 / Z.of_nat (length inp)) = Ok (F, M) ->
  0 < F M ->
  (forall j, 0 <= j < 256 -> 0 <= F j) /\ cum F 256 <= 4096 /\
  (forall c, In c inp -> 0 <= c < 256 /\ F c <> 0).
Proof.
  intros inp F M Hb HN Hnorm HFM.
  set (tr := 2 ^ 43 / Z.of_nat (length inp) + 2 ^ 30 / Z.of_nat (length inp)) in *.
  destruct (normalise_O0_spec (count_O0 inp) tr) as (F' & M' & E & HM & Hoth & _ & Hcum).
  rewrite Hnorm in E. injection E as <- <-.
  assert (Hval : forall j, 0 <= j < 256 -> j <> M ->
            (count_O0 inp j = 0 -> F j = 0) /\
            (1 <= count_O0 inp j -> 1 <= F j <= 4096)).
  { intros j Hj Hne. rewrite Hoth by exact Hne.
    destruct (Z.leb_spec 0 j); destruct (Z.ltb_spec j 256); cbn [andb]; try lia.
    apply (norm_O0_bounds (Z.of_nat (length inp)) (count_O0 inp j) HN
             (count_O0_bounds inp j)). }
  split; [|split].
  - intros j Hj. destruct (Z.eq_dec j M) as [-> | Hne]; [lia|].
    destruct (Hval j Hj Hne) as [Hz Hp].
    pose proof (count_O0_bounds inp j).
    destruct (Z.eq_dec (count_O0 inp j) 0) as [E0 | E0]; [rewrite Hz; lia|].
    specialize (Hp ltac:(lia)). lia.
  - rewrite Hcum. change TOTFREQ with 4096. lia.
  - intros c Hin. unfold is_bytes in Hb. rewrite Forall_forall in Hb.
    split; [apply Hb; exact Hin|].
    destruct (Z.eq_dec c M) as [-> | Hne]; [lia|].
    destruct (Hval c (Hb c Hin) Hne) as [_ Hp].
    specialize (Hp (count_O0_present inp c Hin)). lia.
Qed.

Lemma compress_O0_total : forall inp F M,
  is_bytes inp -> 0 < Z.of_nat (length inp) <= 2045222521 ->
  normalise_O0 (count_O0 inp)
    (2 ^ 43 / Z.of_nat (length inp) + 2 ^ 30 / Z.of_nat (length inp)) = Ok (F, M) ->
  0 < F M ->
  exists frame, rans_compress_O0 inp = Ok frame.
Proof.
  intros inp F M Hb [HN HN2] Hnorm HFM.
  destruct (normalised_row_O0 inp F M Hb HN Hnorm HFM) as (Hpos & Hcum & Hin).
  unfold rans_compress_O0.
  destruct (out_end_offset_defined (Z.of_nat (length inp)) ltac:(lia))
    as (off & ->).
  cbn [bind]. rewrite scale_factor_total by exact HN. cbn [bind].
  rewrite Hnorm. cbn [bind].
  destruct (Z.gtb_spec (F M) 0); [|lia]. cbn [negb].
  destruct (write_row_total F [] Hpos Hcum) as (tab & esyms & Hrow).
  rewrite Hrow. cbn [bind].
  destruct (write_row_spec F Hpos Hcum _ _ _ Hrow) as (_ & Hwritten).
  change (fun (k : lane) (i : Z) (st : lanes) =>
            c <- rd inp i;; enc_put esyms k c st) with (put_O0 esyms inp).
  rewrite enc_order_O0_ops by lia.
  destruct (run_ops_total F esyms inp Hpos Hcum Hwritten
              ltac:(intros i c Hc; apply Hin; exact (rd_in _ _ _ Hc))
              (tail_ops (Z.of_nat (length inp)) ++ main_ops (Z.of_nat (length inp)))
              (mkLanes RansEncInit RansEncInit RansEncInit RansEncInit []))
    as (st' & ->).
  - intros k i Hki. apply (ops_in_range _ k i); [lia | exact Hki].
  - repeat split; apply RansEncInit_normalised.
  - cbn [bind]. eauto.
Qed.

(** X11.  On a nonempty input of at most 2045222521 bytes, the largest
    size for which (int)(1.05*in_size) fits an int, rans_compress_O0 has
    two outcomes only (malloc taken to succeed and the output buffer to be
    large enough, as everywhere in this embedding).  The normalisation
    always returns a table F and the index M of the entry it adjusts; when
    F[M] > 0 the compressor returns a frame, and rans_uncompress returns
    the input from that frame; when F[M] <= 0 it stops in assert(F[M]>0).
    No other step of the compressor can fail. *)
Theorem compress_O0_returns_unless_the_assertion_fails : forall inp,
  is_bytes inp -> 0 < Z.of_nat (length inp) <= 2045222521 ->
  exists tr F M,
    scale_factor (Z.of_nat (length inp)) = Ok tr /\
    normalise_O0 (count_O0 inp) tr = Ok (F, M) /\
    (F M <= 0 -> rans_compress_O0 inp = Abort) /\
    (0 < F M ->
     exists frame,
       rans_compress_O0 inp = Ok frame /\ rans_uncompress frame = Ok inp).
Proof.
  intros inp Hb [HN HN2].
  set (tr := 2 ^ 43 / Z.of_nat (length inp) + 2 ^ 30 / Z.of_nat (length inp)).
  destruct (normalise_O0_spec (count_O0 inp) tr) as (F & M & Hnorm & _).
  exists tr, F, M.
  split; [apply scale_factor_total; exact HN|]. split; [exact Hnorm|]. split.
  - intros HFM. unfold rans_compress_O0.
    destruct (out_end_offset_defined (Z.of_nat (length inp)) ltac:(lia))
      as (off & ->).
    cbn [bind]. rewrite scale_factor_total by exact HN. cbn [bind].
    fold tr. rewrite Hnorm. cbn [bind].
    destruct (Z.gtb_spec (F M) 0); [lia | reflexivity].
  - intros HFM.
    destruct (compress_O0_total inp F M Hb (conj HN HN2) Hnorm HFM)
      as (frame & Hc).
    exists frame. split; [exact Hc|].
    apply (round_trip inp 0 frame Hb);
      [change (2 ^ 31) with 2147483648; lia | exact Hc].
Qed.

Lemma compress_O0_returns_unless_the_assertion_fails_witness :
  exists tr F M,
    scale_factor (Z.of_nat (length [7; 3; 7])) = Ok tr /\
    normalise_O0 (count_O0 [7; 3; 7]) tr = Ok (F, M) /\
    (F M <= 0 -> rans_compress_O0 [7; 3; 7] = Abort) /\
    (0 < F M ->
     exists frame,
       rans_compress_O0 [7; 3; 7] = Ok frame /\
       rans_uncompress frame = Ok [7; 3; 7]).
Proof.
  apply (compress_O0_returns_unless_the_assertion_fails [7; 3; 7]).
  - unfold is_bytes. repeat constructor; lia.
  - cbn [length]. lia.
Defined.

(* ===================================================================== *)
(** * Inputs on which the assertion of rans_compress_O0 holds               *)
(* ===================================================================== *)

Lemma sumZ_le : forall f g lo n,
  (forall k, lo <= k < lo + Z.of_nat n -> f k <= g k) ->
  sumZ f lo n <= sumZ g lo n.
Proof.
  intros f g lo n. induction n as [|n IH]; intros H; [cbn; lia|].
  rewrite !sumZ_S. specialize (IH ltac:(intros; apply H; lia)).
  specialize (H (lo + Z.of_nat n) ltac:(lia)). lia.
Qed.

Lemma sumZ_add : forall f g lo n,
  sumZ (fun k => f k + g k) lo n = sumZ f lo n + sumZ g lo n.
Proof.
  intros f g lo n. induction n as [|n IH]; [reflexivity|].
  rewrite !sumZ_S, IH. lia.
Qed.

Lemma sumZ_scale : forall a f lo n,
  sumZ (fun k => a * f k) lo n = a * sumZ f lo n.
Proof.
  intros a f lo n. induction n as [|n IH]; [cbn; lia|].
  rewrite !sumZ_S, IH. lia.
Qed.

(* the loop of rans_compress_O0 leaves in M the first symbol with the
   largest count *)
Lemma norm_loop_max : forall tr F0 n j st st',
  for_each (norm_step_O0 tr) (zrange j n) st = Ok st' ->
  (forall k, j <= k -> nm_F st k = F0 k) ->
  0 <= nm_m st ->
  (forall k, 0 <= k < j -> F0 k <= nm_m st) ->
  (0 < nm_m st -> F0 (nm_M st) = nm_m st) ->
  0 <= nm_m st' /\
  (forall k, 0 <= k < j + Z.of_nat n -> F0 k <= nm_m st') /\
  (0 < nm_m st' -> F0 (nm_M st') = nm_m st').
Proof.
  intros tr F0. induction n as [|n IH]; intros j st st' H HF Hm Hle HM.
  - cbn in H. injection H as <-. split; [exact Hm|]. split; [|exact HM].
    intros k Hk. apply Hle. lia.
  - rewrite zrange_S in H. cbn [for_each] in H.
    apply bind_ok in H. destruct H as (st1 & Hstep & H).
    replace (j + Z.of_nat (S n)) with (j + 1 + Z.of_nat n) by lia.
    assert (Hst1 :
      (F0 j = 0 /\ st1 = st) \/
      exists f, F0 j <> 0 /\
        st1 = mkNormaliser (upd (nm_F st) j f)
                (if nm_m st <? F0 j then F0 j else nm_m st)
                (if nm_m st <? F0 j then j else nm_M st) (nm_sum st + f)).
    { unfold norm_step_O0 in Hstep. rewrite (HF j) in Hstep by lia.
      destruct (Z.eqb_spec (F0 j) 0) as [E | E];
        [left; split; [exact E | congruence]|].
      right. destruct (nm_m st <? F0 j); cbv zeta in Hstep;
        eexists; (split; [exact E|]); symmetry;
        match type of Hstep with Ok ?a = Ok _ =>
          exact (f_equal (fun r => match r with Ok x => x | _ => a end) Hstep)
        end. }
    clear Hstep.
    destruct Hst1 as [[E ->] | (f & E & ->)].
    + apply (IH (j + 1) st st' H); try assumption.
      * intros k Hk. apply HF. lia.
      * intros k Hk. destruct (Z.eq_dec k j) as [-> | Hne];
          [lia | apply Hle; lia].
    + revert H. destruct (Z.ltb_spec (nm_m st) (F0 j)) as [Hlt | Hge]; intros H;
        apply (IH (j + 1) _ st' H); cbn [nm_F nm_m nm_M]; try lia.
      * intros k Hk. unfold upd. destruct (Z.eqb_spec k j); [lia | apply HF; lia].
      * intros k Hk. destruct (Z.eq_dec k j) as [-> | Hne]; [lia|].
        specialize (Hle k ltac:(lia)). lia.
      * intros k Hk. unfold upd. destruct (Z.eqb_spec k j); [lia | apply HF; lia].
      * intros k Hk. destruct (Z.eq_dec k j) as [-> | Hne]; [lia|].
        apply Hle. lia.
Qed.

Lemma sumZ_positive_entry : forall f lo n,
  0 < sumZ f lo n -> exists k, lo <= k < lo + Z.of_nat n /\ 0 < f k.
Proof.
  intros f lo n. induction n as [|n IH]; intros H; [cbn in H; lia|].
  rewrite sumZ_S in H.
  destruct (Z.lt_ge_cases 0 (f (lo + Z.of_nat n))) as [Hp | Hn].
  - exists (lo + Z.of_nat n). split; [lia | exact Hp].
  - destruct (IH ltac:(lia)) as (k & Hk & Hfk). exists k. split; [lia | exact Hfk].
Qed.

Lemma normalise_O0_max : forall inp tr F M,
  is_bytes inp -> 0 < Z.of_nat (length inp) ->
  normalise_O0 (count_O0 inp) tr = Ok (F, M) ->
  0 < count_O0 inp M /\ forall k, count_O0 inp k <= count_O0 inp M.
Proof.
  intros inp tr F M Hb HN H. unfold normalise_O0 in H.
  change (fun j => j <? 256) with (fun j => j <? 0 + Z.of_nat 256) in H.
  rewrite for_loop_up in H by lia.
  apply bind_ok in H. destruct H as (st & Hloop & H). injection H as _ <-.
  destruct (norm_loop_max tr (count_O0 inp) 256 0 _ st Hloop) as (H0 & Hle & HM);
    cbn [nm_F nm_m nm_M]; try (intros; lia); try reflexivity.
  pose proof (count_O0_sum inp Hb) as Hsum.
  assert (Hsp : 0 < sumZ (count_O0 inp) 0 256) by lia.
  destruct (sumZ_positive_entry (count_O0 inp) 0 256 Hsp) as (k0 & Hk0 & Hpos).
  pose proof (Hle k0 Hk0) as Hk0m.
  specialize (HM ltac:(lia)).
  split; [lia|]. intros k.
  destruct (Z.lt_ge_cases k 0) as [Hlo | Hlo].
  { rewrite (count_O0_outside inp k Hb) by lia. lia. }
  destruct (Z.lt_ge_cases k 256) as [Hhi | Hhi].
  - specialize (Hle k ltac:(lia)). lia.
  - rewrite (count_O0_outside inp k Hb) by lia. lia.
Qed.

Lemma tr_bound : forall N,
  0 < N -> 0 <= 2 ^ 43 / N + 2 ^ 30 / N /\
           (2 ^ 43 / N + 2 ^ 30 / N) * N <= 2 ^ 43 + 2 ^ 30.
Proof.
  intros N HN.
  assert (Ha : 0 <= 2 ^ 43 / N) by (apply Z.div_pos; lia).
  assert (Hb : 0 <= 2 ^ 30 / N) by (apply Z.div_pos; lia).
  pose proof (Z.mul_div_le (2 ^ 43) N ltac:(lia)) as Ha'.
  pose proof (Z.mul_div_le (2 ^ 30) N ltac:(lia)) as Hb'.
  split; [lia | nia].
Qed.

(* a scaled count is at most count * tr / 2^31, or 1 *)
Lemma norm_O0_scaled : forall N c,
  0 < N -> 0 <= c <= N ->
  2 ^ 31 * norm_O0 (2 ^ 43 / N + 2 ^ 30 / N) c
  <= (2 ^ 43 / N + 2 ^ 30 / N) * c + 2 ^ 31 * (if c =? 0 then 0 else 1).
Proof.
  intros N c HN Hc. destruct (tr_bound N HN) as (Ht0 & HtN).
  set (tr := 2 ^ 43 / N + 2 ^ 30 / N) in *.
  unfold norm_O0. destruct (Z.eqb_spec c 0) as [-> | Hne]; [lia|]. cbv zeta.
  assert (Hprod : 0 <= c * tr <= 2 ^ 43 + 2 ^ 30) by nia.
  change (2 ^ 43 + 2 ^ 30) with 8797166764032 in Hprod.
  rewrite u64_small by (change (2 ^ 64) with 18446744073709551616; lia).
  rewrite Z.shiftr_div_pow2 by lia. change (2 ^ 31) with 2147483648.
  assert (Hq : 0 <= c * tr / 2147483648 <= 4096).
  { split; [apply Z.div_pos; lia|].
    assert (c * tr / 2147483648 < 4097); [|lia].
    apply Z.div_lt_upper_bound; lia. }
  rewrite s32_small by (change (2 ^ 31) with 2147483648; lia).
  pose proof (Z.mul_div_le (c * tr) 2147483648 ltac:(lia)) as Hfl.
  destruct (Z.eqb_spec (c * tr / 2147483648) 0); lia.
Qed.

Lemma sumZ_const : forall a lo n, sumZ (fun _ => a) lo n = a * Z.of_nat n.
Proof.
  intros a lo n. induction n as [|n IH]; [cbn; lia|].
  rewrite sumZ_S, IH. lia.
Qed.

Lemma present_bounds : forall inp, 0 <= present inp <= 256.
Proof.
  intros inp. unfold present. split.
  - apply Z.le_trans with (sumZ (fun _ => 0) 0 256);
      [rewrite sumZ_const; lia|].
    apply sumZ_le. intros k _. destruct (count_O0 inp k =? 0); lia.
  - apply Z.le_trans with (sumZ (fun _ => 1) 0 256);
      [|rewrite sumZ_const; lia].
    apply sumZ_le. intros k _. destruct (count_O0 inp k =? 0); lia.
Qed.

(* the adjusted entry F[M] is positive when the other symbols leave room *)
Lemma adjusted_entry_positive : forall inp F M,
  is_bytes inp -> 0 < Z.of_nat (length inp) ->
  normalise_O0 (count_O0 inp)
    (2 ^ 43 / Z.of_nat (length inp) + 2 ^ 30 / Z.of_nat (length inp)) = Ok (F, M) ->
  8193 * (Z.of_nat (length inp) - count_O0 inp M)
    + 2 * (present inp - 1) * Z.of_nat (length inp)
    < 8190 * Z.of_nat (length inp) ->
  0 < F M.
Proof.
  intros inp F M Hb HN Hnorm Hcrit.
  destruct (normalise_O0_max inp _ F M Hb HN Hnorm) as (HcM & Hmax).
  set (N := Z.of_nat (length inp)) in *.
  destruct (tr_bound N HN) as (Ht0 & HtN).
  set (tr := 2 ^ 43 / N + 2 ^ 30 / N) in *.
  destruct (normalise_O0_spec (count_O0 inp) tr)
    as (F' & M' & E & HM & _ & HFM & _).
  rewrite Hnorm in E. injection E as <- <-.
  set (c := count_O0 inp) in *.
  set (g := fun k => norm_O0 tr (c k)) in *.
  set (ind := fun k : Z => if c k =? 0 then 0 else 1).
  assert (Hsum : sumZ (fun k => 2 ^ 31 * upd g M 0 k) 0 256
                 <= sumZ (upd (fun k => tr * c k + 2 ^ 31 * ind k) M 0) 0 256).
  { apply sumZ_le. intros k Hk. unfold upd.
    destruct (Z.eqb_spec k M); [lia|].
    apply (norm_O0_scaled N (c k) HN). apply count_O0_bounds. }
  rewrite sumZ_scale, !sumZ_upd, sumZ_add, !sumZ_scale in Hsum by lia.
  change (sumZ ind 0 256) with (present inp) in Hsum.
  unfold c at 1 in Hsum.
  rewrite (count_O0_sum inp Hb) in Hsum. fold N in Hsum.
  assert (EM : ind M = 1).
  { unfold ind. destruct (Z.eqb_spec (c M) 0); [lia | reflexivity]. }
  rewrite EM in Hsum.
  set (S := sumZ g 0 256) in *.
  change TOTFREQ with 4096 in HFM. rewrite HFM.
  change (2 ^ 43 + 2 ^ 30) with (8193 * 2 ^ 30) in HtN.
  change (2 ^ 31) with (2 * 2 ^ 30) in Hsum.
  assert (HcN : c M <= N) by (apply count_O0_bounds).
  assert (H1 : tr * N * (N - c M) <= 8193 * 2 ^ 30 * (N - c M)).
  { apply Z.mul_le_mono_nonneg_r; lia. }
  assert (H2 : N * (2 * 2 ^ 30 * (S + 0 - g M))
               <= N * (tr * N + 2 * 2 ^ 30 * present inp + 0
                       - (tr * c M + 2 * 2 ^ 30 * 1))).
  { apply Z.mul_le_mono_nonneg_l; lia. }
  assert (H3 : N * (2 * 2 ^ 30 * (S - g M)) < N * (2 * 2 ^ 30 * 4095)).
  { change (2 ^ 30) with 1073741824 in *. nia. }
  apply Z.mul_lt_mono_pos_l in H3; [|lia].
  change (norm_O0 tr (c M)) with (g M).
  change (2 ^ 30) with 1073741824 in H3. lia.
Qed.

Lemma sumZ_single : forall a lo n,
  sumZ (fun k => if k =? a then 1 else 0) lo n <= 1.
Proof.
  intros a lo n.
  destruct (Z.lt_ge_cases a lo) as [H | H];
    [|destruct (Z.lt_ge_cases a (lo + Z.of_nat n)) as [H' | H']].
  - rewrite (sumZ_ext _ (fun _ => 0)); [rewrite sumZ_zero; lia|].
    intros k Hk. destruct (Z.eqb_spec k a); [lia | reflexivity].
  - change (fun k => if k =? a then 1 else 0) with (upd (fun _ : Z => 0) a 1).
    rewrite sumZ_upd by lia. rewrite sumZ_zero. lia.
  - rewrite (sumZ_ext _ (fun _ => 0)); [rewrite sumZ_zero; lia|].
    intros k Hk. destruct (Z.eqb_spec k a); [lia | reflexivity].
Qed.

Lemma sumZ_members : forall (l : list Z) lo n,
  sumZ (fun k => if in_dec Z.eq_dec k l then 1 else 0) lo n
  <= Z.of_nat (length l).
Proof.
  induction l as [|a l IH]; intros lo n.
  - cbn [in_dec length]. rewrite sumZ_zero. lia.
  - cbn [length].
    assert (H : sumZ (fun k => if in_dec Z.eq_dec k (a :: l) then 1 else 0) lo n
                <= sumZ (fun k => (if k =? a then 1 else 0)
                                  + (if in_dec Z.eq_dec k l then 1 else 0)) lo n).
    { apply sumZ_le. intros k _.
      destruct (in_dec Z.eq_dec k (a :: l)) as [Hin | Hin];
        destruct (Z.eqb_spec k a); destruct (in_dec Z.eq_dec k l); try lia.
      exfalso. destruct Hin; [congruence | contradiction]. }
    rewrite sumZ_add in H. pose proof (sumZ_single a lo n). specialize (IH lo n).
    lia.
Qed.

Lemma count_O0_absent : forall inp c, ~ In c inp -> count_O0 inp c = 0.
Proof. intros inp c H. unfold count_O0. apply count_fold_absent. exact H. Qed.

(** X12.  Two kinds of input on which rans_compress is sure to return at
    order 0, up to 2045222521 bytes (beyond that (int)(1.05*in_size) does
    not fit an int): an input that uses at most 63 different byte values,
    and an input in which one byte value makes up at least a fifteenth of
    the bytes.  On both, the normalisation leaves F[M] > 0, the assertion
    holds, and the frame decompresses to the input.  Allocation is taken
    to succeed and the output buffer to be large enough. *)
Theorem compress_O0_returns_on : forall inp,
  is_bytes inp -> 0 < Z.of_nat (length inp) <= 2045222521 ->
  (exists syms, (length syms <= 63)%nat /\ forall b, In b inp -> In b syms) \/
  (exists j, Z.of_nat (length inp) <= 15 * count_O0 inp j) ->
  exists frame,
    rans_compress inp 0 = Ok frame /\ rans_uncompress frame = Ok inp.
Proof.
  intros inp Hb [HN HN2] Hkind.
  set (N := Z.of_nat (length inp)) in *.
  destruct (normalise_O0_spec (count_O0 inp) (2 ^ 43 / N + 2 ^ 30 / N))
    as (F & M & Hnorm & _).
  destruct (normalise_O0_max inp _ F M Hb HN Hnorm) as (HcM & Hmax).
  pose proof (present_bounds inp) as Hp.
  assert (HFM : 0 < F M).
  { apply (adjusted_entry_positive inp F M Hb HN Hnorm). fold N.
    destruct Hkind as [(syms & Hlen & Hincl) | (j & Hj)].
    - assert (Hps : present inp <= Z.of_nat (length syms)).
      { unfold present.
        eapply Z.le_trans; [|apply (sumZ_members syms 0 256)].
        apply sumZ_le. intros k _.
        destruct (Z.eqb_spec (count_O0 inp k) 0) as [E | E];
          destruct (in_dec Z.eq_dec k syms) as [Hin | Hin]; try lia.
        exfalso. apply E. apply count_O0_absent. intros H. apply Hin.
        apply Hincl. exact H. }
      assert (Hpig : N <= count_O0 inp M * present inp).
      { unfold N. rewrite <- (count_O0_sum inp Hb). unfold present.
        rewrite <- sumZ_scale. apply sumZ_le. intros k _.
        specialize (Hmax k). pose proof (count_O0_bounds inp k).
        destruct (Z.eqb_spec (count_O0 inp k) 0); lia. }
      set (p := present inp) in *. set (c := count_O0 inp M) in *.
      assert (Hp63 : p <= 63) by lia.
      assert (Hp1 : 1 <= p) by nia.
      assert (H1 : (1 + 2 * p) * p <= 8001) by nia.
      assert (H2 : N * ((1 + 2 * p) * p) <= N * 8001)
        by (apply Z.mul_le_mono_nonneg_l; lia).
      assert (H3 : p * (N * (1 + 2 * p)) < p * (8193 * c)) by nia.
      apply Z.mul_lt_mono_pos_l in H3; lia.
    - specialize (Hmax j).
      assert (H1 : (present inp - 1) * N <= 255 * N)
        by (apply Z.mul_le_mono_nonneg_r; lia).
      lia. }
  destruct (compress_O0_total inp F M Hb (conj HN HN2) Hnorm HFM)
    as (frame & Hc).
  exists frame.
  assert (Hc' : rans_compress inp 0 = Ok frame) by exact Hc.
  split; [exact Hc'|].
  apply (round_trip inp 0 frame Hb);
    [unfold N in HN2; change (2 ^ 31) with 2147483648; lia | exact Hc'].
Qed.

(* three byte values *)
Lemma compress_O0_returns_on_witness :
  exists frame,
    rans_compress [7; 3; 7; 9] 0 = Ok frame /\
    rans_uncompress frame = Ok [7; 3; 7; 9].
Proof.
  apply (compress_O0_returns_on [7; 3; 7; 9]).
  - unfold is_bytes. repeat constructor; lia.
  - cbn [length]. lia.
  - left. exists [3; 7; 9]. split; [cbn; lia|].
    intros b Hb. cbn in *. intuition.
Defined.

(* ===================================================================== *)
(** * The frames the compressors return                                     *)
(* ===================================================================== *)

(** X13.  Decompression inverts compression.  Whenever rans_compress
    returns a frame, at order 0 or at order 1, for an input of fewer than
    2^31 bytes, rans_uncompress returns from that frame a buffer that
    holds exactly the input. *)
Theorem uncompress_inverts_compress : forall inp order frame,
  is_bytes inp -> Z.of_nat (length inp) < 2 ^ 31 ->
  rans_compress inp order = Ok frame ->
  rans_uncompress frame = Ok inp.
Proof. exact round_trip. Qed.

Lemma uncompress_inverts_compress_witness :
  exists frame,
    rans_compress [1; 2; 1; 2; 1; 2; 1; 3] 1 = Ok frame /\
    rans_uncompress frame = Ok [1; 2; 1; 2; 1; 2; 1; 3].
Proof.
  assert (Hb : is_bytes [1; 2; 1; 2; 1; 2; 1; 3])
    by (unfold is_bytes; repeat constructor; lia).
  assert (HN : Z.of_nat (length [1; 2; 1; 2; 1; 2; 1; 3]) < 2 ^ 31)
    by (cbn [length]; lia).
  destruct (rans_compress [1; 2; 1; 2; 1; 2; 1; 3] 1) as [frame| | |] eqn:Hc;
    try (vm_compute in Hc; discriminate Hc).
  exists frame. split; [reflexivity|].
  exact (uncompress_inverts_compress _ 1 frame Hb HN Hc).
Defined.

(** X14.  The size of a frame.  A frame that rans_compress returns for N
    input bytes has 9 header bytes, a table and a payload of at most
    (8 N + 80) / 5 bytes, the 16 bytes of the four final states included.
    At order 0 the table has at most 1025 bytes, so that the frame has at
    most 1.6 N + 1050 bytes; at order 1 header and table stay below
    257 * 257 * 3 bytes. *)
Theorem frame_size_bound : forall inp order frame,
  is_bytes inp -> Z.of_nat (length inp) < 2 ^ 31 ->
  rans_compress inp order = Ok frame ->
  let N := Z.of_nat (length inp) in
  let len := Z.of_nat (length frame) in
  5 * len <= 8 * N + 5 * (257 * 257 * 3) + 80 /\
  (order = 0 \/ N < 4 -> 5 * len <= 8 * N + 5250).
Proof.
  intros inp order frame Hb HN H N len. rewrite rans_compress_cases in H.
  destruct ((order =? 0) || (Z.of_nat (length inp) <? 4)) eqn:E.
  - destruct (compress_O0_sound inp frame Hb HN H)
      as (tr & F & M & payload & row & _ & _ & _ & _ & _ & _ & Hf & Hlen & _).
    pose proof (row_from_length 256 F 0 0) as Htab.
    unfold len. rewrite Hf, make_frame_length. fold N in Hlen. lia.
  - apply orb_false_iff in E. destruct E as [E0 E]. apply Z.ltb_ge in E.
    assert (HN4 : 4 <= Z.of_nat (length inp) < 2 ^ 31) by lia.
    destruct (compress_O1_sound inp frame HN4 H)
      as (F & T & tw & payload & tp & _ & _ & _ & _ & Hsz & Hf & Hlen & _).
    unfold len. rewrite Hf, make_frame_length. cbv zeta in Hsz, Hlen.
    fold N in Hlen. apply Z.eqb_neq in E0.
    split; [lia|]. intros [H0 | H4]; [contradiction | unfold N in H4; lia].
Qed.

Lemma frame_size_bound_witness :
  exists frame,
    rans_compress [7; 3; 7; 9] 0 = Ok frame /\
    5 * Z.of_nat (length frame) <= 8 * 4 + 5250.
Proof.
  assert (Hb : is_bytes [7; 3; 7; 9])
    by (unfold is_bytes; repeat constructor; lia).
  assert (HN : Z.of_nat (length [7; 3; 7; 9]) < 2 ^ 31) by (cbn [length]; lia).
  destruct (rans_compress [7; 3; 7; 9] 0) as [frame| | |] eqn:Hc;
    try (vm_compute in Hc; discriminate Hc).
  exists frame. split; [reflexivity|].
  destruct (frame_size_bound _ 0 frame Hb HN Hc) as (_ & H0).
  apply H0. left. reflexivity.
Defined.

(* ===================================================================== *)
(** * rans_compress_O1 has no assertion                                     *)
(* ===================================================================== *)

Lemma rou_ok : forall {A : Type} (a : A), returns_or_undefined (Ok a).
Proof. intros. left. eauto. Qed.

Lemma rou_bind : forall {A B : Type} (r : result A) (k : A -> result B),
  returns_or_undefined r -> (forall a, returns_or_undefined (k a)) ->
  returns_or_undefined (bind r k).
Proof.
  intros A B r k [(a & ->) | ->] Hk; cbn [bind]; [apply Hk | now right].
Qed.

Lemma rou_of_option : forall {A : Type} (o : option A),
  returns_or_undefined (of_option o).
Proof. intros A [a|]; cbn; [apply rou_ok | now right]. Qed.

Lemma rou_for_loop : forall {St : Type} fuel cond next
  (body : Z -> St -> result St) i st,
  (forall i st, returns_or_undefined (body i st)) ->
  returns_or_undefined (for_loop fuel cond next body i st).
Proof.
  intros St fuel cond next body i st Hb. revert i st.
  induction fuel as [|fuel IH]; intros i st; cbn [for_loop]; [now right|].
  destruct (cond i); [|apply rou_ok].
  apply rou_bind; [apply Hb | intros; apply IH].
Qed.

Lemma rou_RansEncSymbolInit : forall s0 f0 scale_bits,
  returns_or_undefined (RansEncSymbolInit s0 f0 scale_bits).
Proof.
  intros s0 f0 sb. unfold RansEncSymbolInit. destruct (f0 <? 2); [apply rou_ok|].
  apply rou_bind; [apply rou_of_option | intros; apply rou_ok].
Qed.

Lemma rou_write_row : forall F cp, returns_or_undefined (write_row F cp).
Proof.
  intros F cp. unfold write_row. apply rou_bind; [|intros; apply rou_ok].
  apply rou_for_loop. intros j st. rewrite write_row_step_eq.
  destruct (F j =? 0); [apply rou_ok|].
  apply rou_bind; [apply rou_RansEncSymbolInit | intros; apply rou_ok].
Qed.

Lemma rou_int_add : forall a b, returns_or_undefined (int_add a b).
Proof.
  intros. unfold int_add. destruct (_ && _); [apply rou_ok | now right].
Qed.

Lemma rou_normalise_O1 : forall Fi t, returns_or_undefined (normalise_O1 Fi t).
Proof.
  intros Fi t. unfold normalise_O1. apply rou_bind.
  - apply rou_for_loop. intros j st. unfold norm_step_O1.
    destruct (nm_F st j =? 0); [apply rou_ok|].
    destruct (nm_m st <? nm_F st j);
      (apply rou_bind; [apply rou_of_option|]); intros f;
      (apply rou_bind; [apply rou_int_add | intros; apply rou_ok]).
  - intros st. apply rou_bind; [apply rou_int_add | intros; apply rou_ok].
Qed.

Lemma rou_write_table : forall F T, returns_or_undefined (write_table F T).
Proof.
  intros F T. unfold write_table. apply rou_bind; [|intros; apply rou_ok].
  apply rou_for_loop. intros i st. rewrite write_table_step_eq.
  destruct (T i =? 0); [apply rou_ok|].
  apply rou_bind; [apply rou_normalise_O1 | intros Fi].
  apply rou_bind; [apply rou_write_row | intros [cp syms]; apply rou_ok].
Qed.

(** X15.  rans_compress_O1 has no counterpart of the assertion
    assert(F[M]>0) of rans_compress_O0.  When the normalisation of a
    context i leaves a negative frequency in its row (the adjusted entry
    F[i][M], when the other symbols of the row take more than 4095), the
    compressor goes on: RansEncSymbolInit is called with that frequency
    converted to uint32_t, and its loop while (freq > (1u << shift)) runs
    into the shift by 32.  The behaviour of rans_compress at order 1 is
    undefined on such an input. *)
Theorem order1_negative_frequency_is_undefined : forall inp F T i Fi j,
  4 <= Z.of_nat (length inp) ->
  count_O1 inp = Ok (F, T) ->
  0 <= i < 256 -> T i <> 0 -> normalise_O1 (F i) (T i) = Ok Fi ->
  0 <= j < 256 -> Fi j < 0 ->
  rans_compress inp 1 = Undefined.
Proof.
  intros inp F T i Fi j HN Hc Hi HTi Hn Hj Hneg.
  change (rans_compress inp 1) with (rans_compress_O1 inp).
  unfold rans_compress_O1.
  destruct (Z.ltb_spec (Z.of_nat (length inp)) 4); [lia|].
  destruct (out_end_offset (Z.of_nat (length inp))) as [off| | |] eqn:Hoff;
    try (unfold out_end_offset in Hoff;
         destruct (int_of_double _); discriminate Hoff);
    [|reflexivity].
  cbn [bind]. rewrite Hc. cbn [bind].
  destruct (rou_write_table F T) as [([tw tab] & Hw) | ->]; [|reflexivity].
  exfalso.
  destruct (count_O1_nonneg _ _ _ Hc) as (HF & HT & _).
  destruct (write_table_spec _ _ _ _ HF HT Hw) as (_ & Hrows & _).
  destruct (Hrows i Hi HTi) as ((Hpos & _) & _).
  pose proof (write_table_normalised _ _ _ _ Hw i Hi HTi) as Hn'.
  rewrite Hn in Hn'. injection Hn' as E.
  specialize (Hpos j Hj). rewrite <- E in Hpos. lia.
Qed.

(* on [crowded_input] the row of context 0 has 56 symbols scaled to 71
   and 200 scaled to 1: F[0][15] is left at 71 + 4095 - 4176 = -10 *)
Lemma order1_negative_frequency_is_undefined_witness :
  rans_compress crowded_input 1 = Undefined.
Proof.
  assert (E0 : match count_O1 crowded_input with
               | Ok (F, T) =>
                   match normalise_O1 (F 0) (T 0) with
                   | Ok Fi => (negb (T 0 =? 0)) && (Fi 15 <? 0)
                   | _ => false
                   end
               | _ => false
               end = true) by (vm_compute; reflexivity).
  destruct (count_O1 crowded_input) as [[F T]| | |] eqn:Hc;
    try discriminate E0.
  destruct (normalise_O1 (F 0) (T 0)) as [Fi| | |] eqn:Hn; try discriminate E0.
  apply andb_prop in E0. destruct E0 as [E1 E2].
  apply negb_true_iff in E1. apply Z.eqb_neq in E1. apply Z.ltb_lt in E2.
  apply (order1_negative_frequency_is_undefined crowded_input F T 0 Fi 15);
    try assumption; try lia.
  vm_compute. discriminate.
Defined.

(* ===================================================================== *)
(** * The stored frequency table                                            *)
(* ===================================================================== *)

(** X16.  The table format round-trips.  For every row F of 256
    frequencies that are not negative, not all zero and sum to at most
    TOTFREQ, the writer of rans_compress_O0 stores the row in at most 1025
    bytes, and the parser of the decompressors, at order 0 and at order 1,
    reads from these bytes the same frequencies F[j] with their cumulative
    frequencies C[j], reaches x = the sum of the row, and stops exactly
    behind the terminating 0, whatever bytes follow. *)
Theorem stored_row_is_read_back : forall F o1 rest,
  valid_row F ->
  exists tab syms row,
    write_row F [] = Ok (tab, syms) /\
    (length tab <= 1025)%nat /\
    parse_row o1 ari_decoder_zero (fun _ => None) (tab ++ rest) = Ok row /\
    rp_cp row = rest /\ rp_x row = cum F 256 /\
    forall j, 0 <= j < 256 ->
      fc_F (rp_D row) j = F j /\ (F j <> 0 -> fc_C (rp_D row) j = cum F j).
Proof.
  intros F o1 rest (Hpos & Hex & Hcum). change TOTFREQ with 4096 in Hcum.
  destruct (write_row_total F [] Hpos Hcum) as (tab & syms & Hw).
  destruct (write_row_spec F Hpos Hcum _ _ _ Hw) as (Etab & _).
  rewrite app_nil_l in Etab.
  destruct (parse_row_written F Hpos Hcum o1 ari_decoder_zero (fun _ => None)
              rest Hex) as (row & Hp & Hcp & Hx & Hparsed & Hkeep).
  exists tab, syms, row. split; [exact Hw|]. split.
  { rewrite Etab. pose proof (row_from_length 256 F 0 0). lia. }
  split; [rewrite Etab; exact Hp|]. split; [exact Hcp|]. split; [exact Hx|].
  intros j Hj. destruct (Z.eq_dec (F j) 0) as [E | E].
  - split; [|contradiction]. rewrite (Hkeep j E), E. reflexivity.
  - destruct (Hparsed j Hj E) as (H1 & H2 & _). split; [exact H1 | intros _; exact H2].
Qed.

(* the row with F[65] = 4095 *)
Lemma stored_row_is_read_back_witness :
  exists tab syms row,
    write_row (upd (fun _ => 0) 65 4095) [] = Ok (tab, syms) /\
    (length tab <= 1025)%nat /\
    parse_row false ari_decoder_zero (fun _ => None) (tab ++ [1; 2; 3]) = Ok row /\
    rp_cp row = [1; 2; 3] /\ rp_x row = cum (upd (fun _ => 0) 65 4095) 256 /\
    forall j, 0 <= j < 256 ->
      fc_F (rp_D row) j = upd (fun _ => 0) 65 4095 j /\
      (upd (fun _ => 0) 65 4095 j <> 0 ->
       fc_C (rp_D row) j = cum (upd (fun _ => 0) 65 4095) j).
Proof.
  apply (stored_row_is_read_back (upd (fun _ => 0) 65 4095) false [1; 2; 3]).
  unfold valid_row. split; [|split].
  - intros j _. unfold upd. destruct (j =? 65); lia.
  - exists 65. split; [lia | vm_compute; discriminate].
  - vm_compute. discriminate.
Defined.

(* ===================================================================== *)
(** * The order byte                                                        *)
(* ===================================================================== *)

(** X17.  The first byte of a frame names the coder that wrote it, not the
    order that was asked for: it is 0 when rans_compress was called with
    order 0 or with fewer than 4 input bytes, and 1 in every other case,
    so that any order other than 0 means order 1.  rans_uncompress picks
    the decompressor by this byte. *)
Theorem frame_order_byte : forall inp order frame,
  is_bytes inp -> Z.of_nat (length inp) < 2 ^ 31 ->
  rans_compress inp order = Ok frame ->
  rd frame 0
  = Ok (if (order =? 0) || (Z.of_nat (length inp) <? 4) then 0 else 1).
Proof.
  intros inp order frame Hb HN H. rewrite rans_compress_cases in H.
  destruct ((order =? 0) || (Z.of_nat (length inp) <? 4)) eqn:E.
  - destruct (compress_O0_sound inp frame Hb HN H)
      as (tr & F & M & payload & row & _ & _ & _ & _ & _ & _ & -> & _).
    reflexivity.
  - apply orb_false_iff in E. destruct E as [_ E]. apply Z.ltb_ge in E.
    assert (HN4 : 4 <= Z.of_nat (length inp) < 2 ^ 31) by lia.
    destruct (compress_O1_sound inp frame HN4 H)
      as (F & T & tw & payload & tp & _ & _ & _ & _ & _ & -> & _).
    reflexivity.
Qed.

Lemma frame_order_byte_witness :
  exists frame,
    rans_compress [7; 3; 7] 5 = Ok frame /\ rd frame 0 = Ok 0.
Proof.
  assert (Hb : is_bytes [7; 3; 7]) by (unfold is_bytes; repeat constructor; lia).
  assert (HN : Z.of_nat (length [7; 3; 7]) < 2 ^ 31) by (cbn [length]; lia).
  destruct (rans_compress [7; 3; 7] 5) as [frame| | |] eqn:Hc;
    try (vm_compute in Hc; discriminate Hc).
  exists frame. split; [reflexivity|].
  exact (frame_order_byte _ 5 frame Hb HN Hc).
Defined.

(* ===================================================================== *)
(** * ITF8                                                                  *)
(* ===================================================================== *)

(* !(v & ~(2^k - 1)) holds exactly for 0 <= v < 2^k *)
Lemma land_lnot_ones : forall v k,
  0 <= k ->
  (Z.land v (Z.lnot (Z.ones k)) =? 0) = (0 <=? v) && (v <? 2 ^ k).
Proof.
  intros v k Hk. rewrite <- Z.ldiff_land, Z.ldiff_ones_r by exact Hk.
  rewrite Z.shiftl_mul_pow2, Z.shiftr_div_pow2 by exact Hk.
  assert (Hp : 0 < 2 ^ k) by (apply Z.pow_pos_nonneg; lia).
  pose proof (Z.div_mod v (2 ^ k) ltac:(lia)) as Hdm.
  pose proof (Z.mod_pos_bound v (2 ^ k) Hp) as Hmb.
  destruct (Z.eqb_spec (v / 2 ^ k * 2 ^ k) 0) as [E | E];
    destruct (Z.leb_spec 0 v); destruct (Z.ltb_spec v (2 ^ k)); cbn [andb];
    try reflexivity; exfalso.
  - assert (v / 2 ^ k = 0) by nia. nia.
  - assert (v / 2 ^ k = 0) by nia. nia.
  - assert (v / 2 ^ k = 0) by nia. nia.
  - apply E. rewrite Z.div_small by lia. reflexivity.
Qed.

(* x | a for a below 2^k and x a multiple of 2^k *)
Lemma lor_low : forall x a k,
  0 <= k -> 0 <= a < 2 ^ k -> x mod 2 ^ k = 0 -> Z.lor x a = x + a.
Proof.
  intros x a k Hk Ha Hx.
  assert (Hp : 0 < 2 ^ k) by (apply Z.pow_pos_nonneg; lia).
  pose proof (Z.div_mod x (2 ^ k) ltac:(lia)) as Hdm. rewrite Hx in Hdm.
  assert (E : x = Z.shiftl (x / 2 ^ k) k)
    by (rewrite Z.shiftl_mul_pow2 by exact Hk; lia).
  rewrite E at 1. rewrite Z.lor_comm, lor_shiftl_add by assumption. lia.
Qed.

Lemma rd_app_0 : forall b l, rd (b :: l) 0 = Ok b.
Proof. reflexivity. Qed.

Ltac pow_consts :=
  change (2 ^ 4) with 16 in *; change (2 ^ 5) with 32 in *;
  change (2 ^ 6) with 64 in *; change (2 ^ 7) with 128 in *;
  change (2 ^ 8) with 256 in *; change (2 ^ 12) with 4096 in *;
  change (2 ^ 14) with 16384 in *; change (2 ^ 16) with 65536 in *;
  change (2 ^ 20) with 1048576 in *; change (2 ^ 21) with 2097152 in *;
  change (2 ^ 24) with 16777216 in *; change (2 ^ 28) with 268435456 in *;
  change (2 ^ 31) with 2147483648 in *; change (2 ^ 32) with 4294967296 in *.

Ltac dm := pow_consts; Z.div_mod_to_equations; lia.

(* the tests of itf8_put *)
Lemma itf8_put_tests : forall v,
  (Z.land v (Z.lnot 0x7f) =? 0) = (0 <=? v) && (v <? 2 ^ 7) /\
  (Z.land v (Z.lnot 0x3fff) =? 0) = (0 <=? v) && (v <? 2 ^ 14) /\
  (Z.land v (Z.lnot 0x1fffff) =? 0) = (0 <=? v) && (v <? 2 ^ 21) /\
  (Z.land v (Z.lnot 0xfffffff) =? 0) = (0 <=? v) && (v <? 2 ^ 28).
Proof.
  intros v.
  change 0x7f with (Z.ones 7). change 0x3fff with (Z.ones 14).
  change 0x1fffff with (Z.ones 21). change 0xfffffff with (Z.ones 28).
  rewrite !land_lnot_ones by lia. auto.
Qed.

Lemma land_ff : forall x, Z.land x 0xff = x mod 256.
Proof. intros. change 0xff with (Z.ones 8). apply Z.land_ones. lia. Qed.

Lemma land_f : forall x, Z.land x 0xf = x mod 16.
Proof. intros. change 0xf with (Z.ones 4). apply Z.land_ones. lia. Qed.

Lemma u8_mod : forall x, u8 x = x mod 256.
Proof. reflexivity. Qed.

Lemma s32_id : forall z, - 2147483648 <= z < 2147483648 -> s32 z = z.
Proof. intros. apply s32_small. pow_consts. lia. Qed.

Lemma rd_at1 : forall a b l, rd (a :: b :: l) 1 = Ok b.
Proof. reflexivity. Qed.
Lemma rd_at2 : forall a b c l, rd (a :: b :: c :: l) 2 = Ok c.
Proof. reflexivity. Qed.
Lemma rd_at3 : forall a b c d l, rd (a :: b :: c :: d :: l) 3 = Ok d.
Proof. reflexivity. Qed.
Lemma rd_at4 : forall a b c d e l, rd (a :: b :: c :: d :: e :: l) 4 = Ok e.
Proof. reflexivity. Qed.

Lemma itf8_get_2 : forall v rest,
  2 ^ 7 <= v < 2 ^ 14 ->
  itf8_get ([u8 (Z.lor (Z.shiftr v 8) 0x80); u8 (Z.land v 0xff)] ++ rest)
  = Ok (v, 2).
Proof.
  intros v rest Hv. pow_consts.
  rewrite land_ff, !u8_mod, Z.shiftr_div_pow2 by lia. pow_consts.
  rewrite Z.lor_comm, (lor_low 0x80 (v / 256) 7) by (try reflexivity; dm).
  assert (E0 : (0x80 + v / 256) mod 256 = 128 + v / 256) by dm.
  assert (E1 : v mod 256 mod 256 = v mod 256) by dm.
  rewrite E0, E1. cbn [app]. unfold itf8_get.
  rewrite rd_app_0. cbn [bind].
  destruct (Z.ltb_spec (128 + v / 256) 0x80); [dm|].
  destruct (Z.ltb_spec (128 + v / 256) 0xc0); [|dm].
  rewrite rd_at1. cbn [bind].
  rewrite Z.shiftl_mul_pow2 by lia. pow_consts.
  rewrite (lor_low ((128 + v / 256) * 256) (v mod 256) 8) by (try lia; dm).
  rewrite (s32_id ((128 + v / 256) * 256 + v mod 256)) by dm.
  change 0x3fff with (Z.ones 14). rewrite Z.land_ones by lia. pow_consts.
  rewrite s32_id by dm. do 2 f_equal. dm.
Qed.

Lemma itf8_get_3 : forall v rest,
  2 ^ 14 <= v < 2 ^ 21 ->
  itf8_get ([u8 (Z.lor (Z.shiftr v 16) 0xc0); u8 (Z.land (Z.shiftr v 8) 0xff);
             u8 (Z.land v 0xff)] ++ rest)
  = Ok (v, 3).
Proof.
  intros v rest Hv. pow_consts.
  rewrite !land_ff, !u8_mod, !Z.shiftr_div_pow2 by lia. pow_consts.
  rewrite Z.lor_comm, (lor_low 0xc0 (v / 65536) 6) by (try reflexivity; dm).
  assert (E0 : (0xc0 + v / 65536) mod 256 = 192 + v / 65536) by dm.
  assert (E1 : v / 256 mod 256 mod 256 = v / 256 mod 256) by dm.
  assert (E2 : v mod 256 mod 256 = v mod 256) by dm.
  rewrite E0, E1, E2. cbn [app]. unfold itf8_get.
  rewrite rd_app_0. cbn [bind].
  destruct (Z.ltb_spec (192 + v / 65536) 0x80); [dm|].
  destruct (Z.ltb_spec (192 + v / 65536) 0xc0); [dm|].
  destruct (Z.ltb_spec (192 + v / 65536) 0xe0); [|dm].
  rewrite rd_at1. cbn [bind]. rewrite rd_at2. cbn [bind].
  rewrite !Z.shiftl_mul_pow2 by lia. pow_consts.
  rewrite (lor_low ((192 + v / 65536) * 65536) (v / 256 mod 256 * 256) 16)
    by (try lia; dm).
  rewrite (lor_low _ (v mod 256) 8) by (try lia; dm).
  rewrite (s32_id (_ + v mod 256)) by dm.
  change 0x1fffff with (Z.ones 21). rewrite Z.land_ones by lia. pow_consts.
  rewrite s32_id by dm. do 2 f_equal. dm.
Qed.

Lemma itf8_get_4 : forall v rest,
  2 ^ 21 <= v < 2 ^ 28 ->
  itf8_get ([u8 (Z.lor (Z.shiftr v 24) 0xe0); u8 (Z.land (Z.shiftr v 16) 0xff);
             u8 (Z.land (Z.shiftr v 8) 0xff); u8 (Z.land v 0xff)] ++ rest)
  = Ok (v, 4).
Proof.
  intros v rest Hv. pow_consts.
  rewrite !land_ff, !u8_mod, !Z.shiftr_div_pow2 by lia. pow_consts.
  rewrite Z.lor_comm, (lor_low 0xe0 (v / 16777216) 5) by (try reflexivity; dm).
  assert (E0 : (0xe0 + v / 16777216) mod 256 = 224 + v / 16777216) by dm.
  assert (E1 : v / 65536 mod 256 mod 256 = v / 65536 mod 256) by dm.
  assert (E2 : v / 256 mod 256 mod 256 = v / 256 mod 256) by dm.
  assert (E3 : v mod 256 mod 256 = v mod 256) by dm.
  rewrite E0, E1, E2, E3. cbn [app]. unfold itf8_get.
  rewrite rd_app_0. cbn [bind].
  destruct (Z.ltb_spec (224 + v / 16777216) 0x80); [dm|].
  destruct (Z.ltb_spec (224 + v / 16777216) 0xc0); [dm|].
  destruct (Z.ltb_spec (224 + v / 16777216) 0xe0); [dm|].
  destruct (Z.ltb_spec (224 + v / 16777216) 0xf0); [|dm].
  rewrite rd_at1. cbn [bind]. rewrite rd_at2. cbn [bind].
  rewrite rd_at3. cbn [bind].
  rewrite !Z.shiftl_mul_pow2 by lia. pow_consts.
  rewrite (lor_low ((224 + v / 16777216) * 16777216)
             (v / 65536 mod 256 * 65536) 24) by (try lia; dm).
  rewrite (lor_low _ (v / 256 mod 256 * 256) 16) by (try lia; dm).
  rewrite (lor_low _ (v mod 256) 8) by (try lia; dm).
  assert (Es : s32 ((224 + v / 16777216) * 16777216
                    + v / 65536 mod 256 * 65536 + v / 256 mod 256 * 256
                    + v mod 256) = v - 536870912).
  { unfold s32. dm. }
  rewrite Es.
  change 0x0fffffff with (Z.ones 28). rewrite Z.land_ones by lia. pow_consts.
  rewrite s32_id by dm. do 2 f_equal. dm.
Qed.

Lemma itf8_get_5 : forall v rest,
  - 2 ^ 31 <= v < 2 ^ 31 -> v < 0 \/ 2 ^ 28 <= v ->
  itf8_get ([u8 (Z.lor 0xf0 (Z.land (Z.shiftr v 28) 0xff));
             u8 (Z.land (Z.shiftr v 20) 0xff); u8 (Z.land (Z.shiftr v 12) 0xff);
             u8 (Z.land (Z.shiftr v 4) 0xff); u8 (Z.land v 0xf)] ++ rest)
  = Ok (v, 5).
Proof.
  intros v rest Hv Hc. pow_consts.
  rewrite !land_ff, land_f, !u8_mod, !Z.shiftr_div_pow2 by lia. pow_consts.
  assert (E0 : Z.lor 0xf0 (v / 268435456 mod 256) mod 256
               = 240 + v / 268435456 mod 16).
  { destruct Hc as [Hneg | Hpos].
    - assert (Et : v / 268435456 mod 256 = 0xf0 + v / 268435456 mod 16) by dm.
      rewrite Et.
      rewrite <- (lor_low 0xf0 (v / 268435456 mod 16) 4) by (try reflexivity; dm).
      rewrite Z.lor_assoc, Z.lor_diag.
      rewrite (lor_low 0xf0 (v / 268435456 mod 16) 4) by (try reflexivity; dm).
      dm.
    - assert (Et : v / 268435456 mod 256 = v / 268435456 mod 16) by dm.
      rewrite Et.
      rewrite (lor_low 0xf0 (v / 268435456 mod 16) 4) by (try reflexivity; dm).
      dm. }
  assert (E1 : v / 1048576 mod 256 mod 256 = v / 1048576 mod 256) by dm.
  assert (E2 : v / 4096 mod 256 mod 256 = v / 4096 mod 256) by dm.
  assert (E3 : v / 16 mod 256 mod 256 = v / 16 mod 256) by dm.
  assert (E4 : v mod 16 mod 256 = v mod 16) by dm.
  rewrite E0, E1, E2, E3, E4. cbn [app]. unfold itf8_get.
  rewrite rd_app_0. cbn [bind].
  destruct (Z.ltb_spec (240 + v / 268435456 mod 16) 0x80); [dm|].
  destruct (Z.ltb_spec (240 + v / 268435456 mod 16) 0xc0); [dm|].
  destruct (Z.ltb_spec (240 + v / 268435456 mod 16) 0xe0); [dm|].
  destruct (Z.ltb_spec (240 + v / 268435456 mod 16) 0xf0); [dm|].
  rewrite rd_at1. cbn [bind]. rewrite rd_at2. cbn [bind].
  rewrite rd_at3. cbn [bind]. rewrite rd_at4. cbn [bind].
  rewrite !land_f.
  assert (E5 : (240 + v / 268435456 mod 16) mod 16 = v / 268435456 mod 16) by dm.
  assert (E6 : v mod 16 mod 16 = v mod 16) by dm.
  rewrite E5, E6.
  rewrite !Z.shiftl_mul_pow2 by lia. pow_consts.
  rewrite (lor_low (v / 268435456 mod 16 * 268435456)
             (v / 1048576 mod 256 * 1048576) 28) by (try lia; dm).
  rewrite (lor_low _ (v / 4096 mod 256 * 4096) 20) by (try lia; dm).
  rewrite (lor_low _ (v / 16 mod 256 * 16) 12) by (try lia; dm).
  rewrite (lor_low _ (v mod 16) 4) by (try lia; dm).
  do 2 f_equal. unfold s32. dm.
Qed.

(** X18.  The ITF8 macros of cram_io.h round-trip.  For every int32_t
    value v, itf8_get reads back from the bytes that itf8_put stored the
    same value v and the same number of bytes, whatever follows them.  The
    number of bytes is 1 below 2^7, 2 below 2^14, 3 below 2^21, 4 below
    2^28, and 5 for the larger and for the negative values. *)
Theorem itf8_get_inverts_itf8_put : forall v rest,
  - 2 ^ 31 <= v < 2 ^ 31 ->
  itf8_get (fst (itf8_put v) ++ rest) = Ok (v, snd (itf8_put v)) /\
  snd (itf8_put v) = Z.of_nat (length (fst (itf8_put v))) /\
  snd (itf8_put v)
  = (if v <? 0 then 5 else if v <? 2 ^ 7 then 1 else if v <? 2 ^ 14 then 2
     else if v <? 2 ^ 21 then 3 else if v <? 2 ^ 28 then 4 else 5).
Proof.
  intros v rest Hv. unfold itf8_put.
  destruct (itf8_put_tests v) as (T1 & T2 & T3 & T4).
  rewrite T1, T2, T3, T4.
  destruct (Z.ltb_spec v 0) as [Hneg | Hpos].
  - destruct (Z.leb_spec 0 v); [lia|]. cbn [andb fst snd length].
    split; [|split; reflexivity].
    apply itf8_get_5; [exact Hv | left; exact Hneg].
  - destruct (Z.leb_spec 0 v); [|lia]. cbn [andb].
    destruct (Z.ltb_spec v (2 ^ 7)); cbn [fst snd length].
    { split; [|split; reflexivity].
      cbn [app]. unfold itf8_get. rewrite rd_app_0. cbn [bind].
      rewrite u8_small by (pow_consts; lia).
      destruct (Z.ltb_spec v 0x80); [|pow_consts; lia].
      rewrite s32_id by (pow_consts; lia). reflexivity. }
    destruct (Z.ltb_spec v (2 ^ 14)); cbn [fst snd length].
    { split; [|split; reflexivity]. apply itf8_get_2. lia. }
    destruct (Z.ltb_spec v (2 ^ 21)); cbn [fst snd length].
    { split; [|split; reflexivity]. apply itf8_get_3. lia. }
    destruct (Z.ltb_spec v (2 ^ 28)); cbn [fst snd length].
    { split; [|split; reflexivity]. apply itf8_get_4. lia. }
    split; [|split; reflexivity].
    apply itf8_get_5; [exact Hv | right; lia].
Qed.

Lemma itf8_get_inverts_itf8_put_witness :
  itf8_get (fst (itf8_put (-2)) ++ [9]) = Ok (-2, 5) /\
  itf8_get (fst (itf8_put 300) ++ [9]) = Ok (300, 2).
Proof.
  assert (H1 : - 2 ^ 31 <= -2 < 2 ^ 31) by lia.
  assert (H2 : - 2 ^ 31 <= 300 < 2 ^ 31) by lia.
  split.
  - exact (proj1 (itf8_get_inverts_itf8_put (-2) [9] H1)).
  - exact (proj1 (itf8_get_inverts_itf8_put 300 [9] H2)).
Defined.

(* ===================================================================== *)
(** * The size of the order-1 table                                         *)
(* ===================================================================== *)

Lemma freq_bytes_len : forall F k,
  Z.of_nat (length (freq_bytes (F k))) = 1 + two_bytes F k.
Proof.
  intros F k. unfold freq_bytes, two_bytes.
  destruct (F k <? 128); reflexivity.
Qed.

Lemma opens_run_le : forall F j rle, 0 <= opens_run F j rle <= 1.
Proof. intros. unfold opens_run. destruct (_ && _); lia. Qed.

Lemma opens_run_absent : forall F j rle, F j = 0 -> opens_run F (j + 1) rle = 0.
Proof.
  intros F j rle E. unfold opens_run.
  replace (j + 1 - 1) with j by lia. rewrite E. cbn [Z.eqb negb].
  rewrite !andb_false_r. reflexivity.
Qed.

(* a run of present symbols costs three index bytes, a single one one *)
Lemma row_from_tight : forall n F j rle,
  0 <= j -> j + Z.of_nat n <= 256 ->
  2 * Z.of_nat (length (row_from n F j rle))
  <= 2 + 5 * sumZ (occurs F) j n + 2 * sumZ (two_bytes F) j n
     + opens_run F j rle.
Proof.
  induction n as [|n IH]; intros F j rle Hj Hn.
  - cbn [row_from length]. pose proof (opens_run_le F j rle).
    change (sumZ (occurs F) j 0) with 0. change (sumZ (two_bytes F) j 0) with 0.
    lia.
  - cbn [row_from]. rewrite !sumZ_first.
    specialize (IH F (j + 1)).
    pose proof (opens_run_le F j rle) as Hc.
    destruct (Z.eqb_spec (F j) 0) as [E | E].
    + specialize (IH rle ltac:(lia) ltac:(lia)).
      rewrite (opens_run_absent F j rle E) in IH.
      unfold occurs at 1, two_bytes at 1. rewrite E. cbn [Z.eqb Z.ltb Z.compare].
      lia.
    + rewrite !length_app, !Nat2Z.inj_add, freq_bytes_len.
      assert (Eo : occurs F j = 1).
      { unfold occurs. destruct (Z.eqb_spec (F j) 0); [contradiction | reflexivity]. }
      rewrite Eo.
      destruct (Z.eq_dec rle 0) as [-> | Hrle].
      * destruct (Z.eq_dec j 0) as [Ej | Ej];
          [|destruct (Z.eq_dec (F (j - 1)) 0) as [Ep | Ep]].
        -- rewrite entry_head_first by (left; exact Ej). cbn [fst snd length].
           specialize (IH 0 ltac:(lia) ltac:(lia)).
           pose proof (opens_run_le F (j + 1) 0). lia.
        -- rewrite entry_head_first by (right; exact Ep). cbn [fst snd length].
           specialize (IH 0 ltac:(lia) ltac:(lia)).
           pose proof (opens_run_le F (j + 1) 0). lia.
        -- rewrite entry_head_next by assumption. cbn [fst snd length].
           set (r := run_end 256 F (j + 1) - (j + 1)).
           specialize (IH r ltac:(lia) ltac:(lia)).
           assert (Ec : opens_run F j 0 = 1).
           { unfold opens_run.
             destruct (Z.eqb_spec j 0); [contradiction|].
             destruct (Z.eqb_spec (F (j - 1)) 0); [contradiction|].
             destruct (Z.eqb_spec (F j) 0); [contradiction|].
             destruct (Z.ltb_spec j 256); [reflexivity | lia]. }
           assert (Ec' : opens_run F (j + 1) r = 0).
           { unfold opens_run.
             destruct (Z.eqb_spec r 0) as [Er | Er]; [|reflexivity].
             destruct (run_end_spec 256 F (j + 1) ltac:(lia) ltac:(lia))
               as (_ & _ & [H256 | H0]).
             - destruct (Z.ltb_spec (j + 1) 256); [unfold r in Er; lia|].
               rewrite !andb_false_r. reflexivity.
             - assert (Ee : run_end 256 F (j + 1) = j + 1) by (unfold r in Er; lia).
               rewrite Ee in H0. rewrite H0. cbn [Z.eqb negb].
               rewrite !andb_false_r. reflexivity. }
           rewrite Ec, Ec' in *. lia.
      * rewrite entry_head_in_run by exact Hrle. cbn [fst snd length].
        specialize (IH (rle - 1) ltac:(lia) ltac:(lia)).
        pose proof (opens_run_le F (j + 1) (rle - 1)). lia.
Qed.

(* a stored row has at most 673 bytes *)
Lemma row_from_673 : forall F,
  valid_row F -> (length (row_from 256 F 0 0) <= 673)%nat.
Proof.
  intros F (Hpos & _ & Hcum).
  pose proof (row_from_tight 256 F 0 0 ltac:(lia) ltac:(lia)) as H.
  assert (Ho : sumZ (occurs F) 0 256 <= 256).
  { apply Z.le_trans with (sumZ (fun _ => 1) 0 256); [|rewrite sumZ_const; lia].
    apply sumZ_le. intros k _. unfold occurs. destruct (F k =? 0); lia. }
  assert (Ht : 128 * sumZ (two_bytes F) 0 256 <= 4096).
  { rewrite <- sumZ_scale. rewrite cum_256 in Hcum. change TOTFREQ with 4096 in Hcum.
    eapply Z.le_trans; [|exact Hcum].
    apply sumZ_le. intros k Hk. unfold two_bytes. specialize (Hpos k ltac:(lia)).
    destruct (Z.ltb_spec (F k) 128); lia. }
  assert (Ec : opens_run F 0 0 = 0) by reflexivity.
  rewrite Ec in H. lia.
Qed.

Lemma tab_from_tight : forall n T Fn i rle,
  (forall k, i <= k < i + Z.of_nat n -> T k <> 0 -> valid_row (Fn k)) ->
  (length (tab_from n T Fn i rle) <= 1 + 675 * n)%nat.
Proof.
  induction n as [|n IH]; intros T Fn i rle Hv; cbn [tab_from].
  - cbn [length]. lia.
  - destruct (Z.eqb_spec (T i) 0) as [E | E].
    + specialize (IH T Fn (i + 1) rle ltac:(intros; apply Hv; lia)). lia.
    + rewrite !length_app.
      pose proof (entry_head_length T i rle).
      pose proof (row_from_673 (Fn i) (Hv i ltac:(lia) E)).
      specialize (IH T Fn (i + 1) (snd (entry_head T i rle))
                    ltac:(intros; apply Hv; lia)).
      lia.
Qed.

Lemma rou_undefined : forall {A : Type}, returns_or_undefined (@Undefined A).
Proof. intros. now right. Qed.

Lemma rou_bind_eq : forall {A B : Type} (r : result A) (k : A -> result B),
  returns_or_undefined r -> (forall a, r = Ok a -> returns_or_undefined (k a)) ->
  returns_or_undefined (bind r k).
Proof.
  intros A B r k [(a & ->) | ->] Hk; cbn [bind];
    [apply Hk; reflexivity | now right].
Qed.

Lemma rou_rd : forall buf i, returns_or_undefined (rd buf i).
Proof.
  intros. unfold rd. destruct (i <? 0); [now right | apply rou_of_option].
Qed.

Lemma rou_enc_renorm_loop : forall fuel x xm out,
  returns_or_undefined (enc_renorm_loop fuel x xm out).
Proof.
  induction fuel as [|fuel IH]; intros x xm out; cbn [enc_renorm_loop];
    destruct (x <? xm); try apply rou_ok; [now right | apply IH].
Qed.

Lemma rou_enc_put : forall syms k c st, returns_or_undefined (enc_put syms k c st).
Proof.
  intros. unfold enc_put. apply rou_bind; [apply rou_of_option | intros sym].
  apply rou_bind; [|intros [x p]; apply rou_ok].
  unfold RansEncPutSymbol.
  apply rou_bind; [apply rou_enc_renorm_loop | intros [x p]; apply rou_ok].
Qed.

Lemma rou_count_O1 : forall inp, returns_or_undefined (count_O1 inp).
Proof.
  intros. unfold count_O1.
  apply rou_bind; [apply rou_rd | intros c1].
  apply rou_bind; [apply rou_rd | intros c2].
  apply rou_bind; [apply rou_rd | intros c3]. apply rou_ok.
Qed.

Lemma order1_table_size : forall inp F T tw tab,
  count_O1 inp = Ok (F, T) -> write_table F T = Ok (tw, tab) ->
  9 + Z.of_nat (length tab) <= 172810.
Proof.
  intros inp F T tw tab Hc Hw.
  destruct (count_O1_nonneg _ _ _ Hc) as (HF & HT & _).
  destruct (write_table_spec _ _ _ _ HF HT Hw) as (-> & Hrows & _).
  pose proof (tab_from_tight 256 T (tw_F tw) 0 0) as H.
  assert (Hv : forall k, 0 <= k < 0 + Z.of_nat 256 -> T k <> 0 ->
                 valid_row (tw_F tw k)).
  { intros k Hk HTk. apply (Hrows k); [lia | exact HTk]. }
  specialize (H Hv). lia.
Qed.

Lemma rou_out_end_offset : forall n, returns_or_undefined (out_end_offset n).
Proof. intros n. unfold out_end_offset. apply rou_of_option. Qed.

Lemma rou_rans_compress_O1 : forall inp,
  4 <= Z.of_nat (length inp) ->
  returns_or_undefined (rans_compress inp 1).
Proof.
  intros inp HN.
  change (rans_compress inp 1) with (rans_compress_O1 inp).
  unfold rans_compress_O1.
  destruct (Z.ltb_spec (Z.of_nat (length inp)) 4); [lia|].
  apply rou_bind; [apply rou_out_end_offset | intros off].
  apply rou_bind_eq; [apply rou_count_O1 | intros [F T] Hc].
  apply rou_bind_eq; [apply rou_write_table | intros [tw tab] Hw].
  pose proof (order1_table_size _ _ _ _ _ Hc Hw) as Hsz.
  destruct (Z.ltb_spec (9 + Z.of_nat (length tab)) (257 * 257 * 3)); [|lia].
  cbn [negb].
  apply rou_bind; [apply rou_rd | intros a0].
  apply rou_bind; [apply rou_rd | intros a1].
  apply rou_bind; [apply rou_rd | intros a2].
  apply rou_bind; [apply rou_rd | intros a3'].
  apply rou_bind; [apply rou_rd | intros a3].
  apply rou_bind.
  { apply rou_for_loop. intros i st. unfold enc_rem_O1.
    apply rou_bind; [apply rou_rd | intros c3].
    apply rou_bind; [apply rou_enc_put | intros; apply rou_ok]. }
  intros st1. apply rou_bind.
  { apply rou_for_loop. intros i st. unfold enc_block_O1.
    apply rou_bind; [apply rou_rd | intros c3].
    apply rou_bind; [apply rou_rd | intros c2].
    apply rou_bind; [apply rou_rd | intros c1].
    apply rou_bind; [apply rou_rd | intros c0].
    apply rou_bind; [apply rou_enc_put | intros s3].
    apply rou_bind; [apply rou_enc_put | intros s2].
    apply rou_bind; [apply rou_enc_put | intros s1].
    apply rou_bind; [apply rou_enc_put | intros; apply rou_ok]. }
  intros st2.
  apply rou_bind; [apply rou_enc_put | intros s3].
  apply rou_bind; [apply rou_enc_put | intros s2].
  apply rou_bind; [apply rou_enc_put | intros s1].
  apply rou_bind; [apply rou_enc_put | intros; apply rou_ok].
Qed.

(** X19.  The assertion assert(tab_size < 257*257*3) of rans_compress_O1
    cannot fail.  A stored row takes at most 673 bytes (a run of present
    symbols costs three index bytes, and at most 32 frequencies need two
    bytes), so that header and table take at most 172810 bytes, less than
    257 * 257 * 3 = 198147; and rans_compress at order 1 has no other
    assertion. *)
Theorem order1_assertion_holds : forall inp,
  4 <= Z.of_nat (length inp) ->
  rans_compress inp 1 <> Abort /\
  forall F T tw tab,
    count_O1 inp = Ok (F, T) -> write_table F T = Ok (tw, tab) ->
    9 + Z.of_nat (length tab) <= 172810.
Proof.
  intros inp HN. split; [|intros F T tw tab; apply order1_table_size].
  destruct (rou_rans_compress_O1 inp HN) as [(a & ->) | ->]; discriminate.
Qed.

Lemma order1_assertion_holds_witness :
  rans_compress [1; 2; 1; 2; 1; 2; 1; 3] 1 <> Abort.
Proof.
  assert (HN : 4 <= Z.of_nat (length [1; 2; 1; 2; 1; 2; 1; 3]))
    by (cbn [length]; lia).
  exact (proj1 (order1_assertion_holds _ HN)).
Defined.

(* ===================================================================== *)
(** * When rans_compress_O1 returns                                         *)
(* ===================================================================== *)

Lemma upd2_eq : forall (F : Z -> Z -> Z) i j v a b,
  upd2 F i j v a b = if (a =? i) && (b =? j) then v else F a b.
Proof.
  intros. unfold upd2, upd.
  destruct (Z.eqb_spec a i) as [-> | Ha]; cbn [andb]; [|reflexivity].
  destruct (b =? j); reflexivity.
Qed.

Lemma count_step_O1_mono : forall st c a b,
  co_F st a b <= co_F (count_step_O1 st c) a b.
Proof.
  intros. unfold count_step_O1. cbn [co_F]. rewrite upd2_eq.
  destruct (Z.eqb_spec a (co_last st)) as [-> | Ha]; cbn [andb]; [|lia].
  destruct (Z.eqb_spec b c) as [-> | Hb]; lia.
Qed.

Lemma count_fold_O1_mono : forall l st a b,
  co_F st a b <= co_F (fold_left count_step_O1 l st) a b.
Proof.
  induction l as [|c l IH]; intros st a b; cbn [fold_left]; [lia|].
  pose proof (count_step_O1_mono st c a b). specialize (IH (count_step_O1 st c) a b).
  lia.
Qed.

(* the loop counts the first symbol in the context it starts with, and
   every later symbol in the context of the symbol before it *)
Lemma count_fold_O1_pairs : forall l st,
  (forall c, nth_error l 0 = Some c ->
     co_F st (co_last st) c + 1
     <= co_F (fold_left count_step_O1 l st) (co_last st) c) /\
  (forall p a b, nth_error l p = Some a -> nth_error l (S p) = Some b ->
     co_F st a b + 1 <= co_F (fold_left count_step_O1 l st) a b).
Proof.
  induction l as [|c l IH]; intros st.
  - split; [intros c H; discriminate | intros p a b H; destruct p; discriminate].
  - cbn [fold_left]. destruct (IH (count_step_O1 st c)) as (IH1 & IH2).
    split.
    + intros c' Hc. cbn [nth_error] in Hc. injection Hc as <-.
      pose proof (count_fold_O1_mono l (count_step_O1 st c) (co_last st) c) as Hm.
      assert (E : co_F (count_step_O1 st c) (co_last st) c
                  = co_F st (co_last st) c + 1).
      { unfold count_step_O1. cbn [co_F]. rewrite upd2_eq, !Z.eqb_refl.
        reflexivity. }
      lia.
    + intros p a b Ha Hb. pose proof (count_step_O1_mono st c a b) as Hs.
      destruct p as [|p].
      * cbn [nth_error] in Ha, Hb. injection Ha as <-.
        specialize (IH1 b Hb).
        assert (El : co_last (count_step_O1 st c) = c) by reflexivity.
        rewrite El in IH1. lia.
      * cbn [nth_error] in Ha, Hb. specialize (IH2 p a b Ha Hb). lia.
Qed.

Lemma rd_nth : forall buf i c,
  rd buf i = Ok c <-> 0 <= i /\ nth_error buf (Z.to_nat i) = Some c.
Proof.
  intros buf i c. unfold rd. destruct (Z.ltb_spec i 0).
  - split; [discriminate | intros [H0 _]; lia].
  - destruct (nth_error buf (Z.to_nat i)) as [b|]; cbn [of_option].
    + split; [intros E; injection E as <-; auto | intros [_ E]; congruence].
    + split; [discriminate | intros [_ E]; discriminate].
Qed.

(* every pair (context, symbol) that rans_compress_O1 encodes has been
   counted *)
Lemma counted_pairs : forall inp F T,
  count_O1 inp = Ok (F, T) ->
  (forall p a b, 0 < p -> rd inp (p - 1) = Ok a -> rd inp p = Ok b ->
     1 <= F a b) /\
  (forall k b, 0 <= k < 4 ->
     rd inp (k * Z.shiftr (Z.of_nat (length inp)) 2) = Ok b -> 1 <= F 0 b).
Proof.
  intros inp F T H. unfold count_O1 in H.
  apply bind_ok in H. destruct H as (c1 & H1 & H).
  apply bind_ok in H. destruct H as (c2 & H2 & H).
  apply bind_ok in H. destruct H as (c3 & H3 & H).
  injection H as <- _.
  set (st0 := mkCounterO1 (fun _ _ => 0) (fun _ => 0) 0).
  fold st0 in H1, H2, H3 |- *.
  destruct (count_fold_O1_pairs inp st0) as (P1 & P2).
  destruct (count_fold_O1_nonneg inp st0) as (HF & _);
    [intros; cbn; lia | intros; cbn; lia |].
  set (st := fold_left count_step_O1 inp st0) in *.
  set (isz := Z.shiftr (Z.of_nat (length inp)) 2) in *.
  assert (Hm : forall a b,
            co_F st a b
            <= upd2 (upd2 (upd2 (co_F st) 0 c1 (co_F st 0 c1 + 1)) 0 c2
                       (upd2 (co_F st) 0 c1 (co_F st 0 c1 + 1) 0 c2 + 1)) 0 c3
                 (upd2 (upd2 (co_F st) 0 c1 (co_F st 0 c1 + 1)) 0 c2
                    (upd2 (co_F st) 0 c1 (co_F st 0 c1 + 1) 0 c2 + 1) 0 c3 + 1)
                 a b).
  { intros a b. rewrite !upd2_eq.
    destruct ((a =? 0) && (b =? c3)) eqn:E3;
      destruct ((a =? 0) && (b =? c2)) eqn:E2;
      destruct ((a =? 0) && (b =? c1)) eqn:E1;
      destruct ((0 =? 0) && (c3 =? c2)) eqn:E4;
      destruct ((0 =? 0) && (c3 =? c1)) eqn:E5;
      destruct ((0 =? 0) && (c2 =? c1)) eqn:E6;
      repeat match goal with
             | H : _ && _ = true |- _ =>
                 apply andb_prop in H; destruct H as [? H]
             | H : (_ =? _) = true |- _ => apply Z.eqb_eq in H; subst
             end;
      try lia. }
  assert (Hs : forall b, b = c1 \/ b = c2 \/ b = c3 ->
            1 <= upd2 (upd2 (upd2 (co_F st) 0 c1 (co_F st 0 c1 + 1)) 0 c2
                       (upd2 (co_F st) 0 c1 (co_F st 0 c1 + 1) 0 c2 + 1)) 0 c3
                 (upd2 (upd2 (co_F st) 0 c1 (co_F st 0 c1 + 1)) 0 c2
                    (upd2 (co_F st) 0 c1 (co_F st 0 c1 + 1) 0 c2 + 1) 0 c3 + 1)
                 0 b).
  { intros b Hb. rewrite !upd2_eq. change (0 =? 0) with true. cbn [andb].
    pose proof (HF 0 c1). pose proof (HF 0 c2). pose proof (HF 0 c3).
    destruct (Z.eqb_spec b c3); destruct (Z.eqb_spec b c2);
      destruct (Z.eqb_spec b c1); destruct (Z.eqb_spec c3 c2);
      destruct (Z.eqb_spec c3 c1); destruct (Z.eqb_spec c2 c1); lia. }
  split.
  - intros p a b Hp Ha Hb. apply rd_nth in Ha, Hb.
    destruct Ha as [_ Ha]. destruct Hb as [_ Hb].
    replace (Z.to_nat p) with (S (Z.to_nat (p - 1))) in Hb by lia.
    specialize (P2 _ _ _ Ha Hb). specialize (Hm a b).
    specialize (HF a b). cbn [co_F st0] in P2. lia.
  - intros k b Hk Hb.
    assert (Hcases : k = 0 \/ k = 1 \/ k = 2 \/ k = 3) by lia.
    destruct Hcases as [-> | [-> | [-> | ->]]].
    + change (0 * isz) with 0 in Hb. apply rd_nth in Hb. destruct Hb as [_ Hb].
      change (Z.to_nat 0) with 0%nat in Hb.
      specialize (P1 b Hb). cbn [co_F co_last st0] in P1.
      specialize (Hm 0 b). lia.
    + assert (E : b = c1) by congruence. apply Hs. auto.
    + assert (E : b = c2) by congruence. apply Hs. auto.
    + assert (E : b = c3) by congruence. apply Hs. auto.
Qed.

(* the table is written when every normalised row is a row of
   non-negative frequencies *)
Lemma write_table_loop_total : forall (F : Z -> Z -> Z) T,
  (forall i, 0 <= i < 256 -> T i <> 0 ->
     exists Fi, normalise_O1 (F i) (T i) = Ok Fi /\
                (forall j, 0 <= j < 256 -> 0 <= Fi j) /\
                cum Fi 256 <= 4096) ->
  forall n i st, 0 <= i -> i + Z.of_nat n <= 256 ->
    (forall k, i <= k -> tw_F st k = F k) ->
    exists st', for_each (write_table_step T) (zrange i n) st = Ok st'.
Proof.
  intros F T Hrows. induction n as [|n IH]; intros i st Hi Hn Hinv.
  - cbn. eauto.
  - rewrite zrange_S. cbn [for_each]. rewrite write_table_step_eq.
    destruct (Z.eqb_spec (T i) 0) as [E | E].
    + cbn [bind]. apply IH; [lia | lia |]. intros k Hk. apply Hinv. lia.
    + destruct (Hrows i ltac:(lia) E) as (Fi & HFi & Hpos & Hcum).
      rewrite (Hinv i ltac:(lia)), HFi. cbn [bind].
      destruct (write_row_total Fi
                  (tw_cp st ++ fst (entry_head T i (tw_rle st))) Hpos Hcum)
        as (tab & syms & ->).
      cbn [bind]. apply IH; [lia | lia |]. intros k Hk. cbn [tw_F].
      unfold upd. destruct (Z.eqb_spec k i); [lia|]. apply Hinv. lia.
Qed.

Lemma write_table_total : forall (F : Z -> Z -> Z) T,
  (forall i, 0 <= i < 256 -> T i <> 0 ->
     exists Fi, normalise_O1 (F i) (T i) = Ok Fi /\
                (forall j, 0 <= j < 256 -> 0 <= Fi j) /\
                cum Fi 256 <= 4096) ->
  exists tw tab, write_table F T = Ok (tw, tab).
Proof.
  intros F T Hrows. unfold write_table.
  change (fun i => i <? 256) with (fun i => i <? 0 + Z.of_nat 256).
  rewrite for_loop_up by lia.
  destruct (write_table_loop_total F T Hrows 256 0
              (mkTableWriter F [] 0 (fun _ _ => None)))
    as (st' & ->); [lia | lia | reflexivity |].
  cbn [bind]. eauto.
Qed.

(* the loop over the last in_size mod 4 symbols returns *)
Lemma rem_loop_total : forall syms inp,
  (forall p a b, 0 < p -> rd inp (p - 1) = Ok a -> rd inp p = Ok b ->
     forall k st, lanes_normalised st ->
       exists st', enc_put (syms a) k b st = Ok st' /\ lanes_normalised st') ->
  forall n hi st,
    Z.of_nat n <= hi + 1 -> hi + 1 < Z.of_nat (length inp) ->
    lanes_normalised (ls st) -> rd inp (hi + 1) = Ok (l3 st) ->
    exists st', for_each (enc_rem_O1 syms inp) (zdown hi 1 n) st = Ok st' /\
      lanes_normalised (ls st') /\
      rd inp (hi + 1 - Z.of_nat n) = Ok (l3 st') /\
      l0 st' = l0 st /\ l1 st' = l1 st /\ l2 st' = l2 st.
Proof.
  intros syms inp Hput. induction n as [|n IH]; intros hi st Hn Hhi Hnorm Hl3.
  - cbn [zdown seq map for_each]. exists st. rewrite Z.sub_0_r.
    split; [reflexivity|]. split; [exact Hnorm|]. split; [exact Hl3|].
    split; [reflexivity|]. split; reflexivity.
  - rewrite zdown_S. cbn [for_each]. unfold enc_rem_O1 at 1.
    destruct (rd_in_range inp hi ltac:(lia)) as (c3 & Hc3). rewrite Hc3.
    cbn [bind].
    destruct (Hput (hi + 1) c3 (l3 st) ltac:(lia)
                ltac:(replace (hi + 1 - 1) with hi by lia; exact Hc3) Hl3
                L3 (ls st) Hnorm) as (s1 & -> & Hn1).
    cbn [bind].
    destruct (IH (hi - 1) (mkLanesO1 s1 (l0 st) (l1 st) (l2 st) c3))
      as (st' & Hloop & Hn' & Hl3' & E0 & E1 & E2).
    + lia.
    + lia.
    + exact Hn1.
    + cbn [l3]. replace (hi - 1 + 1) with hi by lia. exact Hc3.
    + exists st'. rewrite Hloop. cbn [l0 l1 l2] in E0, E1, E2.
      replace (hi + 1 - Z.of_nat (S n)) with (hi - 1 + 1 - Z.of_nat n) by lia.
      split; [reflexivity|]. split; [exact Hn'|]. split; [exact Hl3'|].
      split; [exact E0|]. split; [exact E1 | exact E2].
Qed.

(* the loop over the four quarters returns *)
Lemma block_loop_total : forall syms inp isz4,
  (forall p a b, 0 < p -> rd inp (p - 1) = Ok a -> rd inp p = Ok b ->
     forall k st, lanes_normalised st ->
       exists st', enc_put (syms a) k b st = Ok st' /\ lanes_normalised st') ->
  0 <= isz4 -> 4 * isz4 <= Z.of_nat (length inp) ->
  forall n hi st,
    Z.of_nat n <= hi + 1 -> hi + 1 < isz4 ->
    lanes_normalised (ls st) -> pending inp isz4 (hi + 1) st ->
    exists st',
      for_each (enc_block_O1 syms inp isz4) (zdown hi 1 n) st = Ok st' /\
      lanes_normalised (ls st') /\
      pending inp isz4 (hi + 1 - Z.of_nat n) st'.
Proof.
  intros syms inp isz4 Hput Hisz Hlen.
  induction n as [|n IH]; intros hi st Hn Hhi Hnorm Hpend.
  - cbn [zdown seq map for_each]. exists st. rewrite Z.sub_0_r.
    split; [reflexivity|]. split; [exact Hnorm | exact Hpend].
  - rewrite zdown_S. cbn [for_each]. unfold enc_block_O1 at 1.
    destruct Hpend as (Q0 & Q1 & Q2 & Q3).
    destruct (rd_in_range inp (hi + 3 * isz4) ltac:(lia)) as (c3 & Hc3).
    destruct (rd_in_range inp (hi + 2 * isz4) ltac:(lia)) as (c2 & Hc2).
    destruct (rd_in_range inp (hi + 1 * isz4) ltac:(lia)) as (c1 & Hc1).
    destruct (rd_in_range inp hi ltac:(lia)) as (c0 & Hc0).
    rewrite Hc3, Hc2, Hc1, Hc0. cbn [bind].
    destruct (Hput (3 * isz4 + (hi + 1)) c3 (l3 st) ltac:(lia)
                ltac:(replace (3 * isz4 + (hi + 1) - 1) with (hi + 3 * isz4)
                        by lia; exact Hc3) Q3 L3 (ls st) Hnorm)
      as (s3 & -> & Hn3).
    cbn [bind].
    destruct (Hput (2 * isz4 + (hi + 1)) c2 (l2 st) ltac:(lia)
                ltac:(replace (2 * isz4 + (hi + 1) - 1) with (hi + 2 * isz4)
                        by lia; exact Hc2) Q2 L2 s3 Hn3)
      as (s2 & -> & Hn2).
    cbn [bind].
    destruct (Hput (1 * isz4 + (hi + 1)) c1 (l1 st) ltac:(lia)
                ltac:(replace (1 * isz4 + (hi + 1) - 1) with (hi + 1 * isz4)
                        by lia; exact Hc1) Q1 L1 s2 Hn2)
      as (s1 & -> & Hn1).
    cbn [bind].
    destruct (Hput (0 * isz4 + (hi + 1)) c0 (l0 st) ltac:(lia)
                ltac:(replace (0 * isz4 + (hi + 1) - 1) with hi
                        by lia; exact Hc0) Q0 L0 s1 Hn1)
      as (s0 & -> & Hn0).
    cbn [bind].
    destruct (IH (hi - 1) (mkLanesO1 s0 c0 c1 c2 c3))
      as (st' & Hloop & Hn' & Hp').
    + lia.
    + lia.
    + exact Hn0.
    + unfold pending. cbn [l0 l1 l2 l3].
      replace (0 * isz4 + (hi - 1 + 1)) with hi by lia.
      replace (1 * isz4 + (hi - 1 + 1)) with (hi + 1 * isz4) by lia.
      replace (2 * isz4 + (hi - 1 + 1)) with (hi + 2 * isz4) by lia.
      replace (3 * isz4 + (hi - 1 + 1)) with (hi + 3 * isz4) by lia.
      auto.
    + exists st'. rewrite Hloop.
      replace (hi + 1 - Z.of_nat (S n)) with (hi - 1 + 1 - Z.of_nat n) by lia.
      split; [reflexivity|]. split; [exact Hn' | exact Hp'].
Qed.

Lemma sumZ_ge_entry : forall f lo n k,
  (forall j, lo <= j < lo + Z.of_nat n -> 0 <= f j) ->
  lo <= k < lo + Z.of_nat n -> f k <= sumZ f lo n.
Proof.
  intros f lo n. induction n as [|n IH]; intros k Hpos Hk; [lia|].
  rewrite sumZ_S.
  assert (H0 : 0 <= sumZ f lo n).
  { rewrite <- (sumZ_zero n lo). apply sumZ_le. intros j Hj. apply Hpos. lia. }
  destruct (Z.eq_dec k (lo + Z.of_nat n)) as [-> | Hne]; [lia|].
  specialize (IH k ltac:(intros; apply Hpos; lia) ltac:(lia)).
  specialize (Hpos (lo + Z.of_nat n) ltac:(lia)). lia.
Qed.

Lemma rows_stay_positive_spec : forall F T,
  rows_stay_positive F T = true ->
  forall i, 0 <= i < 256 -> T i <> 0 ->
    exists Fi, normalise_O1 (F i) (T i) = Ok Fi /\
      forall j, 0 <= j < 256 -> 0 <= Fi j /\ (F i j <> 0 -> 0 < Fi j).
Proof.
  intros F T H i Hi HT. unfold rows_stay_positive in H.
  rewrite forallb_forall in H. specialize (H i ltac:(apply in_zrange; lia)).
  destruct (Z.eqb_spec (T i) 0); [contradiction|]. cbn [orb] in H.
  destruct (normalise_O1 (F i) (T i)) as [Fi| | |]; try discriminate H.
  exists Fi. split; [reflexivity|]. intros j Hj.
  rewrite forallb_forall in H. specialize (H j ltac:(apply in_zrange; lia)).
  apply andb_prop in H. destruct H as [H1 H2]. apply Z.leb_le in H1.
  split; [exact H1|]. intros Hne.
  destruct (Z.eqb_spec (F i j) 0); [contradiction|]. cbn [orb] in H2.
  apply Z.ltb_lt in H2. exact H2.
Qed.

(** X20.  rans_compress at order 1 returns whenever the normalisation
    leaves every row usable, on an input of at most 2045222521 bytes (the
    largest size for which (int)(1.05*in_size) fits an int): if, for every
    context i that occurs, the row F[i] is normalised without overflow to
    frequencies none of which is negative and none of which is 0 for a
    symbol counted in that context, then the call returns a frame and
    rans_uncompress gives the input back from it.  Allocation is taken to
    succeed and the output buffer to be large enough. *)
Theorem compress_O1_returns_when_rows_stay_positive : forall inp F T,
  is_bytes inp -> 4 <= Z.of_nat (length inp) <= 2045222521 ->
  count_O1 inp = Ok (F, T) ->
  (forall i, 0 <= i < 256 -> T i <> 0 ->
     exists Fi, normalise_O1 (F i) (T i) = Ok Fi /\
       forall j, 0 <= j < 256 -> 0 <= Fi j /\ (F i j <> 0 -> 0 < Fi j)) ->
  exists frame, rans_compress inp 1 = Ok frame /\
                rans_uncompress frame = Ok inp.
Proof.
  intros inp F T Hb HN Hc Hrows.
  destruct (count_O1_nonneg _ _ _ Hc) as (HF & HT & HT0).
  pose proof (count_O1_row_sums _ _ _ Hb Hc) as Hsum.
  destruct (counted_pairs _ _ _ Hc) as (Hpair & Hstart).
  destruct (write_table_total F T) as (tw & tab & Hw).
  { intros i Hi HTi. destruct (Hrows i Hi HTi) as (Fi & HFi & Hpos).
    exists Fi. split; [exact HFi|]. split; [intros j Hj; apply Hpos; exact Hj|].
    destruct (normalise_O1_spec _ _ _ (HF i) (HT i) HFi)
      as (M & _ & _ & _ & _ & Hcum).
    rewrite Hcum. change TOTFREQ with 4096. lia. }
  destruct (write_table_spec _ _ _ _ HF HT Hw) as (_ & Hspec & _).
  pose proof (write_table_normalised _ _ _ _ Hw) as Hnorm.
  pose proof (order1_table_size _ _ _ _ _ Hc Hw) as Hsz.
  (* a counted pair is encoded *)
  assert (Hput : forall a b, 0 <= a < 256 -> 0 <= b < 256 -> 1 <= F a b ->
            forall k st, lanes_normalised st ->
              exists st', enc_put (tw_syms tw a) k b st = Ok st' /\
                          lanes_normalised st').
  { intros a b Ha Hbb Hab k st Hst.
    assert (HTa : T a <> 0).
    { rewrite Hsum.
      pose proof (sumZ_ge_entry (F a) 0 256 b
                    ltac:(intros; apply HF) ltac:(lia)). lia. }
    destruct (Hspec a Ha HTa) as ((Hpos & _ & Hcum) & _ & Hwr).
    destruct (Hrows a Ha HTa) as (Fi & HFi & Hp).
    rewrite (Hnorm a Ha HTa) in HFi.
    assert (E : tw_F tw a = Fi) by congruence.
    apply (enc_put_total (tw_F tw a)); try assumption.
    rewrite E. destruct (Hp b Hbb) as [_ Hp']. specialize (Hp' ltac:(lia)). lia. }
  assert (Hput' : forall p a b, 0 < p -> rd inp (p - 1) = Ok a ->
            rd inp p = Ok b ->
            forall k st, lanes_normalised st ->
              exists st', enc_put (tw_syms tw a) k b st = Ok st' /\
                          lanes_normalised st').
  { intros p a b Hp Ha Hbb. apply Hput.
    - exact (rd_byte _ _ _ Hb Ha).
    - exact (rd_byte _ _ _ Hb Hbb).
    - exact (Hpair p a b Hp Ha Hbb). }
  set (N := Z.of_nat (length inp)) in *.
  assert (Hq : 1 <= Z.shiftr N 2 /\ 4 * Z.shiftr N 2 <= N < 4 * Z.shiftr N 2 + 4).
  { rewrite Z.shiftr_div_pow2 by lia. change (2 ^ 2) with 4.
    Z.div_mod_to_equations. lia. }
  assert (Hframe : exists frame, rans_compress inp 1 = Ok frame).
  { change (rans_compress inp 1) with (rans_compress_O1 inp).
    unfold rans_compress_O1. fold N.
    destruct (Z.ltb_spec N 4); [lia|].
    destruct (out_end_offset_defined N ltac:(lia)) as (off & ->).
    cbn [bind]. rewrite Hc. cbn [bind]. rewrite Hw. cbn [bind].
    destruct (Z.ltb_spec (9 + Z.of_nat (length tab)) (257 * 257 * 3)); [|lia].
    cbn [negb].
    set (isz4 := Z.shiftr N 2) in *.
    destruct (rd_in_range inp (1 * isz4 - 2 + 1) ltac:(fold N; lia)) as (a0 & Ha0).
    destruct (rd_in_range inp (2 * isz4 - 2 + 1) ltac:(fold N; lia)) as (a1 & Ha1).
    destruct (rd_in_range inp (3 * isz4 - 2 + 1) ltac:(fold N; lia)) as (a2 & Ha2).
    destruct (rd_in_range inp (4 * isz4 - 2 + 1) ltac:(fold N; lia)) as (a3' & Ha3').
    destruct (rd_in_range inp (N - 1) ltac:(fold N; lia)) as (a3 & Ha3).
    rewrite Ha0, Ha1, Ha2, Ha3', Ha3. cbn [bind].
    rewrite (for_loop_pred_gt _ _ (4 * isz4 - 2) (N - 2)
               (Z.to_nat (N - 4 * isz4))) by lia.
    destruct (rem_loop_total (tw_syms tw) inp Hput'
                (Z.to_nat (N - 4 * isz4)) (N - 2)
                (mkLanesO1
                   (mkLanes RansEncInit RansEncInit RansEncInit RansEncInit [])
                   a0 a1 a2 a3))
      as (st1 & -> & Hn1 & Hl3 & E0 & E1 & E2).
    { lia. }
    { fold N. lia. }
    { cbn [ls]. unfold lanes_normalised. cbn [rans0 rans1 rans2 rans3].
      pose proof RansEncInit_normalised. auto. }
    { cbn [l3]. replace (N - 2 + 1) with (N - 1) by lia. exact Ha3. }
    cbn [bind]. cbn [l0 l1 l2] in E0, E1, E2.
    rewrite (for_loop_pred_ge _ _ (1 * isz4 - 2) (Z.to_nat (isz4 - 1))) by lia.
    destruct (block_loop_total (tw_syms tw) inp isz4 Hput'
                ltac:(lia) ltac:(fold N; lia)
                (Z.to_nat (isz4 - 1)) (1 * isz4 - 2) st1)
      as (st2 & -> & Hn2 & (Q0 & Q1 & Q2 & Q3)).
    { lia. }
    { lia. }
    { exact Hn1. }
    { unfold pending. rewrite E0, E1, E2.
      replace (0 * isz4 + (1 * isz4 - 2 + 1)) with (1 * isz4 - 2 + 1) by lia.
      replace (1 * isz4 + (1 * isz4 - 2 + 1)) with (2 * isz4 - 2 + 1) by lia.
      replace (2 * isz4 + (1 * isz4 - 2 + 1)) with (3 * isz4 - 2 + 1) by lia.
      replace (3 * isz4 + (1 * isz4 - 2 + 1))
        with (N - 2 + 1 - Z.of_nat (Z.to_nat (N - 4 * isz4))) by lia.
      auto. }
    cbn [bind].
    replace (1 * isz4 - 2 + 1 - Z.of_nat (Z.to_nat (isz4 - 1))) with 0
      in Q0, Q1, Q2, Q3 by lia.
    rewrite Z.add_0_r in Q0, Q1, Q2, Q3.
    assert (Hz : 0 <= 0 < 256) by lia.
    assert (K0 : 0 <= 0 < 4) by lia. assert (K1 : 0 <= 1 < 4) by lia.
    assert (K2 : 0 <= 2 < 4) by lia. assert (K3 : 0 <= 3 < 4) by lia.
    destruct (Hput 0 (l3 st2) Hz (rd_byte _ _ _ Hb Q3)
                (Hstart 3 _ K3 Q3) L3 (ls st2) Hn2) as (s3 & -> & Hs3).
    cbn [bind].
    destruct (Hput 0 (l2 st2) Hz (rd_byte _ _ _ Hb Q2)
                (Hstart 2 _ K2 Q2) L2 s3 Hs3) as (s2 & -> & Hs2).
    cbn [bind].
    destruct (Hput 0 (l1 st2) Hz (rd_byte _ _ _ Hb Q1)
                (Hstart 1 _ K1 Q1) L1 s2 Hs2) as (s1 & -> & Hs1).
    cbn [bind].
    destruct (Hput 0 (l0 st2) Hz (rd_byte _ _ _ Hb Q0)
                (Hstart 0 _ K0 Q0) L0 s1 Hs1) as (s0 & -> & Hs0).
    cbn [bind]. eauto. }
  destruct Hframe as (frame & Hframe). exists frame.
  split; [exact Hframe|].
  apply (round_trip inp 1 frame Hb);
    [fold N; change (2 ^ 31) with 2147483648; lia | exact Hframe].
Qed.

Lemma compress_O1_returns_when_rows_stay_positive_witness :
  exists frame,
    rans_compress [1; 2; 1; 2; 1; 2; 1; 3; 3; 1; 2; 2; 3] 1 = Ok frame /\
    rans_uncompress frame = Ok [1; 2; 1; 2; 1; 2; 1; 3; 3; 1; 2; 2; 3].
Proof.
  assert (E0 : match count_O1 [1; 2; 1; 2; 1; 2; 1; 3; 3; 1; 2; 2; 3] with
               | Ok (F, T) => rows_stay_positive F T
               | _ => false
               end = true) by (vm_compute; reflexivity).
  destruct (count_O1 [1; 2; 1; 2; 1; 2; 1; 3; 3; 1; 2; 2; 3])
    as [[F T]| | |] eqn:Hc; try discriminate E0.
  apply (compress_O1_returns_when_rows_stay_positive
           [1; 2; 1; 2; 1; 2; 1; 3; 3; 1; 2; 2; 3] F T).
  - unfold is_bytes. repeat constructor; lia.
  - cbn [length]. lia.
  - exact Hc.
  - apply rows_stay_positive_spec. exact E0.
Defined.

(* ===================================================================== *)
(** * A symbol left without a frequency                                     *)
(* ===================================================================== *)

Lemma enc_put_some : forall esyms k c st st',
  enc_put esyms k c st = Ok st' -> esyms c <> None.
Proof.
  intros esyms k c st st' H. unfold enc_put in H.
  destruct (esyms c); [discriminate | discriminate H].
Qed.

(* the symbols the loop over the last in_size mod 4 positions looks up *)
Lemma rem_loop_used : forall syms inp n hi st st',
  for_each (enc_rem_O1 syms inp) (zdown hi 1 n) st = Ok st' ->
  rd inp (hi + 1) = Ok (l3 st) ->
  rd inp (hi + 1 - Z.of_nat n) = Ok (l3 st') /\
  l0 st' = l0 st /\ l1 st' = l1 st /\ l2 st' = l2 st /\
  forall p a b, hi + 1 - Z.of_nat n < p <= hi + 1 ->
    rd inp (p - 1) = Ok a -> rd inp p = Ok b -> syms a b <> None.
Proof.
  intros syms inp. induction n as [|n IH]; intros hi st st' H Hl3.
  - cbn [zdown seq map for_each] in H.
    assert (E : st' = st) by congruence. subst st'.
    rewrite Z.sub_0_r. split; [exact Hl3|]. split; [reflexivity|].
    split; [reflexivity|]. split; [reflexivity|]. intros p a b Hp. lia.
  - rewrite zdown_S in H. cbn [for_each] in H.
    apply bind_ok in H. destruct H as (st1 & Hstep & H).
    unfold enc_rem_O1 in Hstep.
    apply bind_ok in Hstep. destruct Hstep as (c3 & Hc3 & Hstep).
    apply bind_ok in Hstep. destruct Hstep as (s & Hput & Hstep).
    assert (E1 : st1 = mkLanesO1 s (l0 st) (l1 st) (l2 st) c3) by congruence.
    subst st1.
    destruct (IH (hi - 1) _ st' H) as (Q3 & E0 & E1 & E2 & Hused).
    { cbn [l3]. replace (hi - 1 + 1) with hi by lia. exact Hc3. }
    cbn [l0 l1 l2] in E0, E1, E2.
    replace (hi - 1 + 1 - Z.of_nat n) with (hi + 1 - Z.of_nat (S n)) in * by lia.
    split; [exact Q3|]. split; [exact E0|]. split; [exact E1|].
    split; [exact E2|]. intros p a b Hp Ha Hbb.
    destruct (Z.eq_dec p (hi + 1)) as [-> | Hne].
    + replace (hi + 1 - 1) with hi in Ha by lia.
      assert (Ea : a = c3) by congruence. assert (Eb : b = l3 st) by congruence.
      subst a b. exact (enc_put_some _ _ _ _ _ Hput).
    + apply (Hused p a b); [lia | exact Ha | exact Hbb].
Qed.

(* the symbols the loop over the four quarters looks up *)
Lemma block_loop_used : forall syms inp isz4 n hi st st',
  for_each (enc_block_O1 syms inp isz4) (zdown hi 1 n) st = Ok st' ->
  pending inp isz4 (hi + 1) st ->
  pending inp isz4 (hi + 1 - Z.of_nat n) st' /\
  forall k i a b, 0 <= k < 4 -> hi + 1 - Z.of_nat n < i <= hi + 1 ->
    rd inp (k * isz4 + i - 1) = Ok a -> rd inp (k * isz4 + i) = Ok b ->
    syms a b <> None.
Proof.
  intros syms inp isz4. induction n as [|n IH]; intros hi st st' H Hpend.
  - cbn [zdown seq map for_each] in H.
    assert (E : st' = st) by congruence. subst st'.
    rewrite Z.sub_0_r. split; [exact Hpend|]. intros k i a b Hk Hi. lia.
  - rewrite zdown_S in H. cbn [for_each] in H.
    apply bind_ok in H. destruct H as (st1 & Hstep & H).
    destruct (enc_block_O1_eq _ _ _ _ _ _ Hstep) as (s' & Hp1 & _ & _).
    unfold enc_block_O1 in Hstep.
    apply bind_ok in Hstep. destruct Hstep as (c3 & Hc3 & Hstep).
    apply bind_ok in Hstep. destruct Hstep as (c2 & Hc2 & Hstep).
    apply bind_ok in Hstep. destruct Hstep as (c1 & Hc1 & Hstep).
    apply bind_ok in Hstep. destruct Hstep as (c0 & Hc0 & Hstep).
    apply bind_ok in Hstep. destruct Hstep as (sa & H3 & Hstep).
    apply bind_ok in Hstep. destruct Hstep as (sb & H2 & Hstep).
    apply bind_ok in Hstep. destruct Hstep as (sc & H1 & Hstep).
    apply bind_ok in Hstep. destruct Hstep as (sd & H0 & Hstep).
    destruct (IH (hi - 1) st1 st' H) as (Hp' & Hused).
    { replace (hi - 1 + 1) with hi by lia. exact Hp1. }
    replace (hi - 1 + 1 - Z.of_nat n) with (hi + 1 - Z.of_nat (S n)) in * by lia.
    split; [exact Hp'|]. intros k i a b Hk Hi Ha Hbb.
    destruct (Z.eq_dec i (hi + 1)) as [-> | Hne];
      [|apply (Hused k i a b); [exact Hk | lia | exact Ha | exact Hbb]].
    destruct Hpend as (Q0 & Q1 & Q2 & Q3).
    assert (Hcases : k = 0 \/ k = 1 \/ k = 2 \/ k = 3) by lia.
    destruct Hcases as [-> | [-> | [-> | ->]]].
    + replace (0 * isz4 + (hi + 1) - 1) with hi in Ha by lia.
      assert (Ea : a = c0) by congruence. assert (Eb : b = l0 st) by congruence.
      subst a b. exact (enc_put_some _ _ _ _ _ H0).
    + replace (1 * isz4 + (hi + 1) - 1) with (hi + 1 * isz4) in Ha by lia.
      assert (Ea : a = c1) by congruence. assert (Eb : b = l1 st) by congruence.
      subst a b. exact (enc_put_some _ _ _ _ _ H1).
    + replace (2 * isz4 + (hi + 1) - 1) with (hi + 2 * isz4) in Ha by lia.
      assert (Ea : a = c2) by congruence. assert (Eb : b = l2 st) by congruence.
      subst a b. exact (enc_put_some _ _ _ _ _ H2).
    + replace (3 * isz4 + (hi + 1) - 1) with (hi + 3 * isz4) in Ha by lia.
      assert (Ea : a = c3) by congruence. assert (Eb : b = l3 st) by congruence.
      subst a b. exact (enc_put_some _ _ _ _ _ H3).
Qed.

(** X21.  rans_compress at order 1 has undefined behaviour when the
    normalisation leaves a symbol that it encodes with frequency 0: the
    stored row skips the symbol, its RansEncSymbol is never initialised,
    and the encoder reads it.  The symbols encoded in context a are those
    that follow a in the input, except at the three positions where lanes
    1 to 3 start, and in context 0 the first symbol of each lane. *)
Theorem order1_zero_frequency_is_undefined : forall inp F T a b Fi,
  is_bytes inp -> 4 <= Z.of_nat (length inp) ->
  count_O1 inp = Ok (F, T) ->
  (a = 0 /\ exists k, 0 <= k < 4 /\
     rd inp (k * Z.shiftr (Z.of_nat (length inp)) 2) = Ok b) \/
  (exists p, 0 < p /\
     (p mod Z.shiftr (Z.of_nat (length inp)) 2 <> 0 \/
      4 * Z.shiftr (Z.of_nat (length inp)) 2 <= p) /\
     rd inp (p - 1) = Ok a /\ rd inp p = Ok b) ->
  normalise_O1 (F a) (T a) = Ok Fi -> Fi b = 0 ->
  rans_compress inp 1 = Undefined.
Proof.
  intros inp F T a b Fi Hb HN Hc Hpair HFi Hzero.
  destruct (rou_rans_compress_O1 inp HN) as [(frame & H) | H]; [|exact H].
  exfalso.
  destruct (count_O1_nonneg _ _ _ Hc) as (HF & HT & HT0).
  pose proof (count_O1_row_sums _ _ _ Hb Hc) as Hsum.
  destruct (counted_pairs _ _ _ Hc) as (Hcp & Hcs).
  set (N := Z.of_nat (length inp)) in *.
  assert (Hq : 1 <= Z.shiftr N 2 /\ 4 * Z.shiftr N 2 <= N < 4 * Z.shiftr N 2 + 4).
  { rewrite Z.shiftr_div_pow2 by lia. change (2 ^ 2) with 4.
    Z.div_mod_to_equations. lia. }
  set (isz4 := Z.shiftr N 2) in *.
  (* the pair has been counted, and its symbol is not in the stored row *)
  assert (Hab : 0 <= a < 256 /\ 0 <= b < 256 /\ 1 <= F a b).
  { destruct Hpair as [(-> & k & Hk & Hr) | (p & Hp & _ & Ha & Hr)].
    - split; [lia|]. split; [exact (rd_byte _ _ _ Hb Hr)|].
      exact (Hcs k b Hk Hr).
    - split; [exact (rd_byte _ _ _ Hb Ha)|].
      split; [exact (rd_byte _ _ _ Hb Hr)|]. exact (Hcp p a b Hp Ha Hr). }
  destruct Hab as (Ha & Hbb & Hab).
  assert (HTa : T a <> 0).
  { rewrite Hsum.
    pose proof (sumZ_ge_entry (F a) 0 256 b
                  ltac:(intros; apply HF) ltac:(lia)). lia. }
  change (rans_compress inp 1) with (rans_compress_O1 inp) in H.
  unfold rans_compress_O1 in H. fold N in H.
  destruct (Z.ltb_spec N 4) as [Hlt4 | Hge4]; [lia|].
  apply bind_ok in H. destruct H as (off & _ & H).
  rewrite Hc in H. cbn [bind] in H.
  apply bind_ok in H. destruct H as ([tw tab] & Hw & H).
  destruct (negb (9 + Z.of_nat (length tab) <? 257 * 257 * 3));
    [discriminate H|].
  fold isz4 in H.
  destruct (write_table_spec _ _ _ _ HF HT Hw) as (_ & Hspec & _).
  destruct (Hspec a Ha HTa) as (_ & _ & (_ & Hnone)).
  pose proof (write_table_normalised _ _ _ _ Hw a Ha HTa) as Hn.
  assert (E : tw_F tw a = Fi) by congruence.
  assert (Hsym : tw_syms tw a b = None).
  { apply Hnone. right. right. rewrite E. exact Hzero. }
  apply bind_ok in H. destruct H as (a0 & Ha0 & H).
  apply bind_ok in H. destruct H as (a1 & Ha1 & H).
  apply bind_ok in H. destruct H as (a2 & Ha2 & H).
  apply bind_ok in H. destruct H as (a3' & Ha3' & H).
  apply bind_ok in H. destruct H as (a3 & Ha3 & H).
  apply bind_ok in H. destruct H as (st1 & Hrem & H).
  apply bind_ok in H. destruct H as (st2 & Hblk & H).
  apply bind_ok in H. destruct H as (s3 & H3 & H).
  apply bind_ok in H. destruct H as (s2 & H2 & H).
  apply bind_ok in H. destruct H as (s1 & H1 & H).
  apply bind_ok in H. destruct H as (s0 & H0 & _).
  rewrite (for_loop_pred_gt _ _ (4 * isz4 - 2) (N - 2)
             (Z.to_nat (N - 4 * isz4))) in Hrem by lia.
  destruct (rem_loop_used _ _ _ _ _ _ Hrem) as (Q3 & E0 & E1 & E2 & Urem).
  { cbn [l3]. replace (N - 2 + 1) with (N - 1) by lia. exact Ha3. }
  cbn [l0 l1 l2] in E0, E1, E2.
  rewrite (for_loop_pred_ge _ _ (1 * isz4 - 2) (Z.to_nat (isz4 - 1)))
    in Hblk by lia.
  destruct (block_loop_used _ _ _ _ _ _ _ Hblk) as ((P0 & P1 & P2 & P3) & Ublk).
  { unfold pending. rewrite E0, E1, E2.
    replace (0 * isz4 + (1 * isz4 - 2 + 1)) with (1 * isz4 - 2 + 1) by lia.
    replace (1 * isz4 + (1 * isz4 - 2 + 1)) with (2 * isz4 - 2 + 1) by lia.
    replace (2 * isz4 + (1 * isz4 - 2 + 1)) with (3 * isz4 - 2 + 1) by lia.
    replace (3 * isz4 + (1 * isz4 - 2 + 1))
      with (N - 2 + 1 - Z.of_nat (Z.to_nat (N - 4 * isz4))) by lia.
    auto. }
  replace (1 * isz4 - 2 + 1 - Z.of_nat (Z.to_nat (isz4 - 1))) with 0
    in P0, P1, P2, P3, Ublk by lia.
  rewrite Z.add_0_r in P0, P1, P2, P3.
  destruct Hpair as [(-> & k & Hk & Hr) | (p & Hp & Hpos & Hra & Hrb)].
  - assert (Hcases : k = 0 \/ k = 1 \/ k = 2 \/ k = 3) by lia.
    destruct Hcases as [-> | [-> | [-> | ->]]].
    + assert (Eb : b = l0 st2) by congruence. subst b.
      exact (enc_put_some _ _ _ _ _ H0 Hsym).
    + assert (Eb : b = l1 st2) by congruence. subst b.
      exact (enc_put_some _ _ _ _ _ H1 Hsym).
    + assert (Eb : b = l2 st2) by congruence. subst b.
      exact (enc_put_some _ _ _ _ _ H2 Hsym).
    + assert (Eb : b = l3 st2) by congruence. subst b.
      exact (enc_put_some _ _ _ _ _ H3 Hsym).
  - assert (HpN : p < N).
    { apply rd_nth in Hrb. destruct Hrb as [_ Hrb].
      assert (Hlt : (Z.to_nat p < length inp)%nat)
        by (apply nth_error_Some; congruence).
      unfold N. lia. }
    destruct (Z.le_gt_cases (4 * isz4) p) as [Hge | Hlt].
    + apply (Urem p a b); [lia | exact Hra | exact Hrb | exact Hsym].
    + destruct Hpos as [Hmod | Hge]; [|lia].
      apply (Ublk (p / isz4) (p mod isz4) a b).
      * split; [apply Z.div_pos; lia | apply Z.div_lt_upper_bound; lia].
      * pose proof (Z.mod_pos_bound p isz4 ltac:(lia)). lia.
      * replace (p / isz4 * isz4 + p mod isz4) with p
          by (rewrite (Z.div_mod p isz4) at 1 by lia; lia).
        exact Hra.
      * replace (p / isz4 * isz4 + p mod isz4) with p
          by (rewrite (Z.div_mod p isz4) at 1 by lia; lia).
        exact Hrb.
      * exact Hsym.
Qed.

Lemma is_bytes_check : forall inp,
  forallb (fun b => (0 <=? b) && (b <? 256)) inp = true -> is_bytes inp.
Proof.
  intros inp H. unfold is_bytes. apply Forall_forall. intros b Hin.
  rewrite forallb_forall in H. specialize (H b Hin).
  apply andb_prop in H. destruct H as [H1 H2].
  apply Z.leb_le in H1. apply Z.ltb_lt in H2. lia.
Qed.

(* on [tight_input] the row of context 0 has 56 symbols scaled to 71,
   symbol 0 scaled to 2 and 188 symbols scaled to 1: F[0][1] is left at
   71 + 4095 - 4166 = 0, and 1 follows 0 at the start of the input *)
Lemma order1_zero_frequency_is_undefined_witness :
  rans_compress tight_input 1 = Undefined.
Proof.
  assert (E0 : match count_O1 tight_input with
               | Ok (F, T) =>
                   match normalise_O1 (F 0) (T 0) with
                   | Ok Fi => Fi 1 =? 0
                   | _ => false
                   end
               | _ => false
               end = true) by (vm_compute; reflexivity).
  destruct (count_O1 tight_input) as [[F T]| | |] eqn:Hc;
    try discriminate E0.
  destruct (normalise_O1 (F 0) (T 0)) as [Fi| | |] eqn:Hn; try discriminate E0.
  apply Z.eqb_eq in E0.
  apply (order1_zero_frequency_is_undefined tight_input F T 0 1 Fi).
  - apply is_bytes_check. vm_compute. reflexivity.
  - vm_compute. discriminate.
  - exact Hc.
  - right. exists 1. split; [lia|]. split; [left; vm_compute; discriminate|].
    split; vm_compute; reflexivity.
  - exact Hn.
  - exact E0.
Defined.

(* ===================================================================== *)
(** * The size of input that out_end can be placed for                      *)
(* ===================================================================== *)

Lemma out_end_offset_range : forall n k,
  0 <= n -> out_end_offset n = Ok k -> 0 <= k < 2 ^ 31.
Proof.
  intros n k Hn H. unfold out_end_offset in H. apply of_option_ok in H.
  assert (Hs : sign_clear (double_mul double_1_05 (double_of_int n))).
  { apply double_mul_sign; [cbn; reflexivity|].
    apply double_of_int_sign. exact Hn. }
  exact (int_of_double_nonneg _ _ Hs H).
Qed.

(** X22.  The conversion (int)(1.05*in_size), with which rans_compress_O0
    and rans_compress_O1 place out_end, fits an int for in_size up to
    2045222521 and for no larger unsigned int: from 2045222522 bytes on
    the product, rounded to double and truncated, is 2^31 or more, the
    conversion is undefined behaviour, and so is rans_compress at either
    order. *)
Theorem out_end_is_placed_up_to_2045222521 : forall n,
  0 <= n < 2 ^ 32 ->
  (n <= 2045222521 -> exists k, out_end_offset n = Ok k /\ 0 <= k < 2 ^ 31) /\
  (2045222522 <= n ->
   out_end_offset n = Undefined /\
   forall inp order,
     Z.of_nat (length inp) = n -> rans_compress inp order = Undefined).
Proof.
  intros n Hn. split.
  - intros Hle. destruct (out_end_offset_defined n ltac:(lia)) as (k & Hk).
    exists k. split; [exact Hk|]. apply (out_end_offset_range n k); [lia | exact Hk].
  - intros Hge.
    assert (Hu : out_end_offset n = Undefined)
      by (apply out_end_offset_undefined; lia).
    split; [exact Hu|]. intros inp order Hlen.
    rewrite rans_compress_cases.
    destruct ((order =? 0) || (Z.of_nat (length inp) <? 4)).
    + unfold rans_compress_O0. rewrite Hlen, Hu. reflexivity.
    + unfold rans_compress_O1. rewrite Hlen.
      destruct (Z.ltb_spec n 4); [lia|]. rewrite Hu. reflexivity.
Qed.

(* the first size for which the conversion is undefined *)
Lemma out_end_is_placed_up_to_2045222521_witness :
  0 <= 2045222522 < 2 ^ 32 /\ out_end_offset 2045222522 = Undefined.
Proof.
  assert (H1 : 0 <= 2045222522 < 2 ^ 32)
    by (change (2 ^ 32) with 4294967296; lia).
  assert (H2 : 2045222522 <= 2045222522) by lia.
  split; [exact H1|].
  exact (proj1 (proj2 (out_end_is_placed_up_to_2045222521 2045222522 H1) H2)).
Defined.
